(* ===== verification/_CoqProject ===== *)
-Q . S2P
Prelude.v
GoStd.v
Base64.v
Json.v
Unmarshal.v
JsonText.v
Canon.v
SdkTypes.v
Types.v
Sdk.v
Ref.v
SignBytes.v
Gas.v
Store.v
Code.v
Keeper.v
Demo.v
Runs.v
Dispatch.v
Nesting.v
Invariants.v
Safety.v
Registry.v
Genesis.v
Querier.v
Module.v
Restart.v
Funds.v
QuerySafety.v
Answers.v
Client.v
EndToEnd.v
Rest.v
Routes.v
Daemon.v
App.v
NewApp.v
Cobra.v
Commands.v
NetIP.v
Testnet.v
Export.v
Replay.v
Wasmd.v
Main.v
Lcd.v
LcdStart.v
