(* ===== verification/Prelude.v ===== *)
(** * wasmd: a verification library for the wasm module of the chain

    wasmd is an application on the Cosmos SDK whose module [x/wasm] lets accounts
    upload WebAssembly code, make contracts of it, and call them. This library
    models the module as it is written under [src/x/wasm] and proves what makes it
    correct. It is read in the order of [_CoqProject].

    ** The program and its model

    The module's state is a key-value store (counters, code records, contract
    records, and one prefix of keys per contract) next to the accounts of the other
    modules, the gas meter and the event manager of the current context, and the
    code the virtual machine keeps on disk. That state is the record [world] of
    [Sdk.v]. A Go call is a function [M world A]: it returns a value in a new state,
    panics, or (the model's own outcome) runs out of the nesting it was allowed. A
    Go pair of a value and an error is a [result]; loops are structural recursions
    over what they range over.

    Code that is not in the repository is a parameter: the SDK's store, gas meter,
    accounts, bank, router, errors, amino codec and bech32 addresses, the virtual
    machine (go-cosmwasm), gzip (a stream, which ends or breaks) and the network.
    Each is a type class of operations with a class of laws that state its
    documented behaviour ([SdkTypes.v] the pure ones, [Sdk.v] the stateful ones),
    bundled as [Env] and [EnvLaws]; every theorem is proved for all instances.
    [Ref.v] is one instance, so that the laws are seen to hold together and the
    witnesses of the theorems compute. A contract that runs is a finite program of
    calls ([host_prog]) of the interface it is handed: reads and writes under its
    prefix, and two functions on addresses.

    Gas is what the store and the meter say it is: the only facts used are that a
    read or a write costs something, that consumption adds up, and that a
    transaction's meter panics beyond its limit.

    ** Files

    - [Prelude.v]: bytes and 64 bit integers, the monad of calls with its notations,
      the rules and tactics for reasoning about it ([wp], [sound], [total],
      [approx], [solve_sound], [minv], [by_run]).
    - [GoStd.v], [Base64.v], [Json.v], [Unmarshal.v]: what the program uses of Go's
      standard library: encoding/binary (big endian, uvarint), strconv,
      encoding/base64, encoding/json's encoder and its decoder.
    - [JsonText.v], [Canon.v]: what texts a reader takes for one JSON value, that the
      encoder's output is read back as what was encoded, and the canonical form of a
      value (sorted keys, the last of equal ones).
    - [SdkTypes.v], [Sdk.v], [Ref.v]: the interfaces described above.
    - [Types.v]: x/wasm/internal/types (keys.go, errors.go, types.go, msg.go,
      genesis.go); [SignBytes.v]: codec.go and the signing bytes of the messages.
    - [Gas.v]: [gasForContract] and [consumeGas] of keeper.go.
    - [Store.v]: the records: counters, contract addresses, code and contract
      records, contract state (keeper.go).
    - [Code.v]: [uncompress] (ioutil.go) and [Create].
    - [Keeper.v]: running contracts: [Instantiate], [Execute], [QuerySmart], the
      dispatch of a contract's messages, api.go, opaque.go, and the message handler
      (handler.go). A dispatched message can re-enter the module, through the call
      of a contract or through the router, so these functions are mutually
      recursive: they are written over an [Entry] (what can be re-entered), and
      [entry n] allows [n] levels of nesting.
    - [Demo.v]: a small deployment for examples and witnesses.
    - [Runs.v]: big-step rules for [Instantiate] and [Execute], one per way a call
      can return, and that the functions return along them; what single calls do.
    - [Dispatch.v]: validation, authorisation, conversions, results and events of
      messages.
    - [Nesting.v]: the principles for nested calls. [entry_sound]: a relation on
      states that the single steps respect ([Frame], [CallFrame]) is respected by
      any message however deeply it nests; [entry_approx]: more nesting never
      changes an outcome; [entry_ends]: on a transaction's meter a nesting of one
      more than the gas left is enough, because every nested call pays for a read
      or a write.
    - [Invariants.v]: instances of the first principle: contract records, record
      formats, code records.
    - [Safety.v]: which panics a message can cause.
    - [Registry.v]: the module's promise without its store, gas or re-entrancy: a
      registry of code, contracts and cells with a log of events ([registry],
      [reg_event], [reg_log]); [registry_of] reads it off a state. Chains of messages
      and of steps of other modules ([chain_step]).
    - [Genesis.v]: genesis.go, export and import.
    - [Querier.v]: querier.go with its JSON answers; [Module.v]: module.go, with the
      genesis as JSON; [Restart.v]: chains that are exported to a genesis file and
      started again from it ([life_step]).
    - [Funds.v]: whose coins a message can take: balances, what a bank promises, and
      the induction over nested calls that carries the promise to messages; what
      runs of messages to this module and others take ([tx_run]).
    - [QuerySafety.v]: which panics a query can cause; [Answers.v]: the querier's
      promise, a specification of its answers as JSON values over the registry, and
      that it is met.
    - [Client.v], [Rest.v], [Routes.v]: x/wasm/client (utils, cli, rest), with the
      routes of the REST client; [EndToEnd.v]: from the upload command to the
      download command.
    - [Cobra.v]: command lines: a tree of commands with flags and arguments, and how
      a line of words ends: a command runs, an error of usage, the help text, or the
      check for words below a group ([outcome_of_line]); [Commands.v]: the module's
      commands, and cmd/wasmcli; [Wasmd.v]: the commands of cmd/wasmd, and how a
      node is started; [Main.v]: how the processes of both programs end.
    - [Daemon.v], [NetIP.v], [Testnet.v], [Replay.v]: cmd/wasmd: adding genesis
      accounts; net.ParseIP and its printing; the testnet command; the replay
      command.
    - [App.v], [NewApp.v], [Export.v]: app/: the keepers, stores and order of the
      modules and what each is handed; the codec, the default genesis and
      [NewWasmApp]; the export of the state, and its command.
    - [Lcd.v], [LcdStart.v]: lcd_test/helpers.go: the genesis the REST tests run on
      and the accounts of the tests; the start of their node and REST server.

    ** What the theorems show

    - State: keys of different records never coincide; records keep the form their
      readers expect, and then gas is the only reason a record access panics;
      contract records and code records, once written, never change; code ids are
      exactly those from 1 to the counter.
    - Calls: what a successful instantiation or execution did, stage by stage; that
      a contract cannot be called before its instantiation has ended, at any nesting
      ([no_call_while_instantiating]); that a running contract reaches its own store
      only; that its messages are carried out in its own name only.
    - Money: a message, with everything it sets off, takes coins from its sender, at
      most the funds it names, and otherwise only from accounts of modules and from
      contracts, and from no contract that serves only owners who did not sign
      ([message_takes_named_funds]); over a run of messages an account pays
      altogether at most the funds it names, if it signs nothing to other modules
      and is no contract that sends for others ([savings_last]).
    - Gas: what a contract is granted and charged; recursion among contracts always
      ends.
    - Genesis: export and import restore codes, contracts and state, but not the
      counter of instances, so that after an import instantiations of a code fail
      whenever the counter comes by a number under which the code had an instance
      ([import_reuses_instance_numbers]). As JSON this holds of states whose texts
      are valid UTF-8; a file with an address of a wrong length is refused
      ([module_genesis_roundtrip]).
    - Promise: every message, with all that contracts do in its course, is a log of
      allowed events of the registry ([NewHandler_refines]), and panics over gas, a
      contract's empty or null message or inside another module only
      ([message_panics]). Chains keep what they started with through blocks and
      restarts, and can be exported; and imported again, if no uploaded code is
      itself an archive and the addresses of creators are such as the JSON can hold
      ([chain_life_sound]).
    - Queries and clients: queries read; what they return is a text that parses to the
      specified value of the registry ([querier_answers]); they panic over gas
      or for a path without its argument ([query_panics]); which handler or
      command a url or a line of words reaches; a file that was uploaded is, at any
      later time, the file that is downloaded ([upload_served_forever]).
    - Signing: what an account signs determines its message, the raw JSON of a
      contract up to its form and texts up to bytes that are not valid UTF-8
      ([sign_bytes_bind]), and does not depend on those ([sign_bytes_canonical],
      [sign_bytes_collide]); the application's codec knows the messages under the
      names they are signed with ([MakeCodec_names]).
    - Node: how the application is put together ([app_set_up], [NewWasmApp_spec])
      and what its default genesis holds; what the testnet command creates, node by
      node, and which addresses it hands out; when a genesis account is added, and
      as what; what an export for height zero does to validators and heights; that a
      replay ends, and executes every stored block in order.

    ** Bounds

    [entry n] and the turn counts of [queryCodeList] and of [replay_blocks] are the
    only fuel. It is proved that enough of it always gives the outcome
    ([gas_bounds_nesting], [code_list_complete], [code_list_ends],
    [querier_answers], [replay_ends]) and, for the nesting, that more never changes
    it.

    ** Not modelled

    What the SDK, cobra and viper do with what they are handed: the ante handler
    with its fees, the base application, the modules of the SDK and what they do
    between blocks, the parsing of a line into words and flags (with the flag for
    help), and the environment and configuration file behind viper's flags. How the
    codec writes the genesis as JSON: its laws are that it is read back up to bytes
    that are not valid UTF-8, and not at all with an address of a wrong length. Help
    texts, progress messages and logs; the files of the virtual machine; the weights
    of the SDK's simulation in app/params.go; the aliases of alias.go, which give
    the definitions of [Types.v] and [Keeper.v] second names. Of the code for tests,
    the processes of cli_test, the set-up of the keeper's tests (test_common.go) and
    the hooks of cmd/contract_tests, which print messages only. *)

From Stdlib Require Export ZArith Lia String List Strings.Byte Sorting.Sorted.
From stdpp Require Export base list gmap sets strings option numbers.
From stdpp Require Import countable.

#[global] Open Scope Z_scope.

(** ** Bytes and machine integers *)

(** A Go [[]byte], with [nil] and the empty slice identified; where the source
    tells them apart the model uses [option bytes]. *)
Abbreviation bytes := (list byte).

#[export] Instance byte_eq_dec : EqDecision byte := Byte.byte_eq_dec.

#[export] Instance byte_countable : Countable byte :=
  inj_countable Byte.to_N Byte.of_N Byte.of_to_N.

(** The value of a byte, and the conversion [byte(z)], which truncates. *)
Definition byte_val (b : byte) : Z := Z.of_N (Byte.to_N b).

Definition byte_of_Z (z : Z) : byte :=
  match Byte.of_N (Z.to_N (z mod 256)) with
  | Some b => b
  | None => x00
  end.

(** uint64 arithmetic wraps around. *)
Definition two64 : Z := 18446744073709551616.
Definition u64 (z : Z) : Z := z mod two64.
Definition is_u64 (z : Z) : Prop := 0 <= z < two64.

(** ** Outcomes of a call

    A Go call returns normally, in the state it reached, or panics. A panic
    carries no state ([PanicErr] is [panic(err)] of an error value, [PanicNilMsg] a
    method called on a message that is [nil]): nothing in the program recovers one, and the application
    discards the state of a transaction that panicked. [NoFuel] is the model's
    own outcome: the bound on the depth of re-entrant calls was too small. *)
Inductive panic : Type :=
  | PanicOutOfGas
  | PanicGasOverflow
  | PanicNilDeref
  | PanicNilMsg
  | PanicIndex
  | PanicCodec
  | PanicMsg (msg : string)
  | PanicErr.

Inductive outcome (W A : Type) : Type :=
  | Ret (a : A) (w : W)
  | Panic (p : panic)
  | NoFuel.
Arguments Ret {W A} a w.
Arguments Panic {W A} p.
Arguments NoFuel {W A}.

Definition M (W A : Type) : Type := W -> outcome W A.

Definition gret {W A} (a : A) : M W A := fun w => Ret a w.
Definition gpanic {W A} (p : panic) : M W A := fun _ => Panic p.
Definition gbind {W A B} (m : M W A) (f : A -> M W B) : M W B := fun w =>
  match m w with
  | Ret a w' => f a w'
  | Panic p => Panic p
  | NoFuel => NoFuel
  end.

(** Reading a part of the state, and replacing the state. *)
Definition gget {W A} (f : W -> A) : M W A := fun w => Ret (f w) w.
Definition gmodify {W} (f : W -> W) : M W unit := fun w => Ret tt (f w).

Declare Scope go_scope.
Delimit Scope go_scope with go.
#[global] Open Scope go_scope.

Notation "'let!' x := m 'in' k" := (gbind m (fun x => k))
  (at level 10, x name, m at level 100, k at level 200) : go_scope.
Notation "'do!' m 'in' k" := (gbind m (fun _ => k))
  (at level 10, m at level 100, k at level 200) : go_scope.

(** A Go pair [(A, error)] of which exactly one part is meaningful. *)
Inductive result (E A : Type) : Type :=
  | Ok (a : A)
  | Err (e : E).
Arguments Ok {E A} a.
Arguments Err {E A} e.

#[export] Instance result_eq_dec {E A} `{EqDecision E, EqDecision A} :
  EqDecision (result E A).
Proof. solve_decision. Defined.

Definition result_map_err {E E' A} (f : E -> E') (r : result E A) : result E' A :=
  match r with Ok a => Ok a | Err e => Err (f e) end.

(** [res, err := m; if err != nil { return err }; k res] *)
Notation "'try!' x := m 'in' k" :=
  (gbind m (fun r => match r with Ok x => k | Err e => gret (Err e) end))
  (at level 10, x name, m at level 100, k at level 200) : go_scope.

(** A Go [error] that may be [nil]. *)
Notation "'check!' m 'in' k" :=
  (gbind m (fun r => match r with None => k | Some e => gret (Err e) end))
  (at level 10, m at level 100, k at level 200) : go_scope.

(** [for _, x := range l { if err := f(x); err != nil { return err } }] *)
Fixpoint for_range {W A E} (l : list A) (f : A -> M W (option E)) : M W (option E) :=
  match l with
  | [] => gret None
  | x :: l =>
      let! r := f x in
      match r with
      | Some e => gret (Some e)
      | None => for_range l f
      end
  end.

(** A loop that carries local variables and stops at the first error. *)
Fixpoint for_fold {W A E S} (l : list A) (f : A -> S -> M W (result E S)) (st : S) : M W (result E S) :=
  match l with
  | [] => gret (Ok st)
  | x :: l =>
      try! st := f x st in
      for_fold l f st
  end.

(** A loop whose body returns nothing. *)
Fixpoint for_each {W A} (l : list A) (f : A -> M W unit) : M W unit :=
  match l with
  | [] => gret tt
  | x :: l => do! f x in for_each l f
  end.

(** ** Reasoning about outcomes

    [wp m Q w]: if [m] returns from [w], then its result and final state satisfy
    [Q]. [sound R m]: the state [m] returns in is related to the one it started
    in. [total m]: [m] never runs out of fuel. *)
Definition wp {W A} (m : M W A) (Q : A -> W -> Prop) (w : W) : Prop :=
  match m w with
  | Ret a w' => Q a w'
  | _ => True
  end.

Definition sound {W A} (R : W -> W -> Prop) (m : M W A) : Prop :=
  forall w, wp m (fun _ w' => R w w') w.

Definition total {W A} (m : M W A) : Prop := forall w, m w <> NoFuel.

(** The value returned, if the call returns. *)
Definition returned {W A} (o : outcome W A) : option A :=
  match o with Ret a _ => Some a | _ => None end.

Definition panicked {W A} (o : outcome W A) : option panic :=
  match o with Panic p => Some p | _ => None end.

(** The state a call ends in, or the one it started in. *)
Definition final {W A} (m : M W A) (w : W) : W :=
  match m w with Ret _ w' => w' | _ => w end.

(** [approx o o']: [o'] is the outcome [o], unless [o] ran out of fuel. *)
Definition approx {W A} (o o' : outcome W A) : Prop := o = NoFuel \/ o = o'.

(** ** Generic lemmas *)

Section Monad.
Context {W : Type}.

Lemma gbind_Ret_inv {A B} (m : M W A) (f : A -> M W B) w b w'' :
  gbind m f w = Ret b w'' -> exists a w', m w = Ret a w' /\ f a w' = Ret b w''.
Proof. unfold gbind. destruct (m w); naive_solver. Qed.

Lemma gbind_Ret {A B} (m : M W A) (f : A -> M W B) w a w' :
  m w = Ret a w' -> gbind m f w = f a w'.
Proof. unfold gbind. by intros ->. Qed.

(** An invariant of a loop over indices, by the number of turns. *)
Lemma for_fold_seqZ {E S} (P : Z -> S -> W -> Prop) n (f : Z -> S -> M W (result E S)) st w st' w' :
  0 <= n -> P 0 st w ->
  (forall k st w st' w', 0 <= k < n -> P k st w -> f k st w = Ret (Ok st') w' -> P (k + 1) st' w') ->
  for_fold (seqZ 0 n) f st w = Ret (Ok st') w' -> P n st' w'.
Proof.
  intros Hn H0 Hf. assert (Hall : forall m k st w, 0 <= k -> k + Z.of_nat m = n -> P k st w ->
    for_fold (seqZ k (Z.of_nat m)) f st w = Ret (Ok st') w' -> P n st' w').
  { induction m as [|m IH]; intros k st0 w0 Hk Hm Hp Hr.
    - injection Hr as -> ->. by replace n with k by lia.
    - rewrite seqZ_cons in Hr by lia. apply gbind_Ret_inv in Hr as ([st1|e] & w1 & E1 & Hr); [|done].
      replace (Z.pred (Z.of_nat (Datatypes.S m))) with (Z.of_nat m) in Hr by lia.
      eapply IH; [| |eapply Hf; [|exact Hp|exact E1]|exact Hr]; lia. }
  intros Hr. apply (Hall (Z.to_nat n) 0 st w); [lia|lia|done|]. by rewrite Z2Nat.id.
Qed.

Lemma Ret_final {A} (m : M W A) w a : returned (m w) = Some a -> m w = Ret a (final m w).
Proof. unfold final. destruct (m w); simpl; congruence. Qed.

Lemma wp_Ret {A} (m : M W A) Q w a w' : m w = Ret a w' -> wp m Q w -> Q a w'.
Proof. unfold wp. by intros ->. Qed.

Lemma wp_mono {A} (m : M W A) (Q Q' : A -> W -> Prop) w :
  (forall r w', Q r w' -> Q' r w') -> wp m Q w -> wp m Q' w.
Proof. unfold wp. destruct (m w); eauto. Qed.

Lemma wp_bind {A B} (m : M W A) (f : A -> M W B) Q w :
  wp m (fun a w' => wp (f a) Q w') w -> wp (gbind m f) Q w.
Proof. unfold wp, gbind. by destruct (m w). Qed.

Lemma wp_conj {A} (m : M W A) (P Q : A -> W -> Prop) w :
  wp m P w -> wp m Q w -> wp m (fun r w' => P r w' /\ Q r w') w.
Proof. unfold wp. destruct (m w); eauto. Qed.

Lemma wp_true {A} (m : M W A) (Q : A -> W -> Prop) w : (forall a w', Q a w') -> wp m Q w.
Proof. unfold wp. destruct (m w); eauto. Qed.

Lemma sound_Ret {A} (R : W -> W -> Prop) (m : M W A) w a w' :
  sound R m -> m w = Ret a w' -> R w w'.
Proof. intros Hm E. exact (wp_Ret _ _ _ _ _ E (Hm w)). Qed.

Lemma sound_intro {A} (R : W -> W -> Prop) (m : M W A) :
  (forall w a w', m w = Ret a w' -> R w w') -> sound R m.
Proof. intros H w. unfold wp. destruct (m w) eqn:E; eauto. Qed.

Lemma sound_mono {A} (R R' : W -> W -> Prop) (m : M W A) :
  (forall w w', R w w' -> R' w w') -> sound R m -> sound R' m.
Proof. intros HR Hm w. eapply wp_mono; [|exact (Hm w)]. eauto. Qed.

Lemma sound_gret {A} (R : W -> W -> Prop) `{!Reflexive R} (a : A) : sound R (gret a).
Proof. intros w. unfold wp, gret. reflexivity. Qed.

Lemma sound_gget {A} (R : W -> W -> Prop) `{!Reflexive R} (f : W -> A) : sound R (gget f).
Proof. intros w. unfold wp, gget. reflexivity. Qed.

Lemma sound_gpanic {A} (R : W -> W -> Prop) p : sound R (gpanic (A:=A) p).
Proof. by intros w. Qed.

Lemma sound_gbind {A B} (R : W -> W -> Prop) `{!Transitive R}
    (m : M W A) (f : A -> M W B) :
  sound R m -> (forall a, sound R (f a)) -> sound R (gbind m f).
Proof.
  intros Hm Hf. apply sound_intro. intros w b w'' (a & w' & E1 & E2)%gbind_Ret_inv.
  transitivity w'; [exact (sound_Ret _ _ _ _ _ Hm E1)|exact (sound_Ret _ _ _ _ _ (Hf a) E2)].
Qed.

Lemma sound_for_range {A E} (R : W -> W -> Prop) `{!PreOrder R} (l : list A)
    (f : A -> M W (option E)) :
  (forall x, sound R (f x)) -> sound R (for_range l f).
Proof.
  intros Hf. induction l as [|x l IH]; [apply sound_gret; apply _|].
  simpl. apply sound_gbind; [apply _|done|]. intros [e|]; [|done].
  apply sound_gret. apply _.
Qed.

Lemma sound_for_each {A} (R : W -> W -> Prop) `{!PreOrder R} (l : list A) (f : A -> M W unit) :
  (forall x, sound R (f x)) -> sound R (for_each l f).
Proof.
  intros Hf. induction l as [|x l IH]; [apply sound_gret; apply _|].
  simpl. apply sound_gbind; [apply _|done|done].
Qed.

Lemma total_gret {A} (a : A) : total (W:=W) (gret a).
Proof. by intros w. Qed.

Lemma total_gget {A} (f : W -> A) : total (W:=W) (gget f).
Proof. by intros w. Qed.

Lemma total_gpanic {A} p : total (W:=W) (gpanic (A:=A) p).
Proof. by intros w. Qed.

Lemma total_gmodify (f : W -> W) : total (gmodify f).
Proof. by intros w. Qed.

Lemma total_gbind {A B} (m : M W A) (f : A -> M W B) :
  total m -> (forall a, total (f a)) -> total (gbind m f).
Proof.
  intros Hm Hf w. specialize (Hm w). unfold gbind. destruct (m w); [apply Hf|done|done].
Qed.

Lemma approx_refl {A} (o : outcome W A) : approx o o.
Proof. by right. Qed.

Lemma approx_Ret {A} (o o' : outcome W A) a w : approx o o' -> o = Ret a w -> o' = Ret a w.
Proof. intros [->| ->]; done. Qed.

Lemma approx_gbind {A B} (m m' : M W A) (f f' : A -> M W B) w :
  approx (m w) (m' w) -> (forall a w', approx (f a w') (f' a w')) ->
  approx (gbind m f w) (gbind m' f' w).
Proof.
  intros [E|E] Hf; unfold gbind; rewrite E; [by left|].
  destruct (m' w); [apply Hf|by right|by right].
Qed.

Lemma approx_for_range {A E} (l : list A) (f f' : A -> M W (option E)) w :
  (forall x w, approx (f x w) (f' x w)) -> approx (for_range l f w) (for_range l f' w).
Proof.
  intros Hf. revert w. induction l as [|x l IH]; intros w; [apply approx_refl|].
  simpl. apply approx_gbind; [apply Hf|]. intros [e|] w'; [apply approx_refl|apply IH].
Qed.

End Monad.

(** The automation: the structural rules, and every operation's own lemma,
    registered in the component that declares it. *)
Create HintDb sound discriminated.
#[export] Hint Resolve sound_gret sound_gget sound_gpanic : sound.
#[export] Hint Resolve total_gret total_gget total_gpanic total_gmodify : sound.

Ltac sound_step :=
  match goal with
  | |- forall _, _ => intro
  | |- sound _ (gret _) => apply sound_gret; typeclasses eauto
  | |- sound _ (gget _) => apply sound_gget; typeclasses eauto
  | |- sound _ (gbind _ _) => apply sound_gbind; [typeclasses eauto| |]
  | |- total (gbind _ _) => apply total_gbind
  | |- sound _ (for_range _ _) => apply sound_for_range; [typeclasses eauto|]
  | |- sound _ (for_each _ _) => apply sound_for_each; [typeclasses eauto|]
  | |- sound _ (match ?x with _ => _ end) => destruct x
  | |- total (match ?x with _ => _ end) => destruct x
  end.

Ltac solve_sound :=
  repeat first [solve [eauto 4 with sound typeclass_instances] | sound_step].

(** [minv H]: run the next call of a computation known to return. *)
Ltac minv H :=
  let a := fresh "r" in let w := fresh "w" in let E := fresh "E" in
  apply gbind_Ret_inv in H as (a & w & E & H).

(** [by_run]: a call on a concrete state returns, by running it. *)
Ltac by_run :=
  match goal with
  | |- ?m ?w = Ret _ _ =>
      let v := eval vm_compute in (returned (m w)) in
      match v with
      | Some ?a => refine (Ret_final m w a _); vm_cast_no_check (eq_refl (Some a))
      end
  end.

(** ** Bytes *)

Lemma byte_val_range b : 0 <= byte_val b < 256.
Proof.
  unfold byte_val. pose proof (Byte.to_N_bounded b) as Hb. lia.
Qed.

Lemma byte_of_Z_val b : byte_of_Z (byte_val b) = b.
Proof.
  unfold byte_of_Z. rewrite Z.mod_small by apply byte_val_range.
  unfold byte_val. by rewrite N2Z.id, Byte.of_to_N.
Qed.

Lemma byte_val_of_Z z : byte_val (byte_of_Z z) = z mod 256.
Proof.
  unfold byte_of_Z, byte_val.
  assert (Hz : 0 <= z mod 256 < 256) by (apply Z.mod_pos_bound; lia).
  destruct (Byte.of_N (Z.to_N (z mod 256))) as [b|] eqn:E.
  - apply Byte.to_of_N in E. rewrite E. lia.
  - apply Byte.of_N_None_iff in E. lia.
Qed.

Lemma byte_val_inj a b : byte_val a = byte_val b -> a = b.
Proof. intros H. by rewrite <- (byte_of_Z_val a), H, byte_of_Z_val. Qed.

Lemma u64_small z : is_u64 z -> u64 z = z.
Proof. unfold is_u64, u64. apply Z.mod_small. Qed.

Lemma u64_range z : is_u64 (u64 z).
Proof. apply Z.mod_pos_bound. by vm_compute. Qed.

#[export] Hint Resolve u64_range byte_val_range : core.
Create Rewrite HintDb u64.
#[export] Hint Rewrite u64_small using (unfold is_u64, two64 in *; lia) : u64.

(** ** Lists *)

Lemma app_inj_length {A} (a b c d : list A) :
  length a = length c -> a ++ b = c ++ d -> a = c /\ b = d.
Proof. intros Hl H. apply app_inj_1 in H; done. Qed.
