(* ===== verification/GoStd.v ===== *)
(** * The parts of Go's standard library the module computes with

    [encoding/binary] (big-endian words and uvarints), [strconv] (decimal
    [uint64]) and [bytes.Equal], with the round trips the keeper relies on. *)

From S2P Require Import Prelude.

(** ** encoding/binary *)

Module BigEndian.

(** The value of a byte sequence, most significant byte first. *)
Fixpoint combine (acc : Z) (bs : bytes) : Z :=
  match bs with
  | [] => acc
  | b :: bs => combine (acc * 256 + byte_val b) bs
  end.

(** [binary.BigEndian.Uint64(b)] reads the first eight bytes; a shorter slice is
    an index panic ([None]). *)
Definition Uint64 (bz : bytes) : option Z :=
  if decide (8 <= length bz)%nat then Some (combine 0 (take 8 bz)) else None.

(** [binary.BigEndian.PutUint64] into a fresh eight byte slice. *)
Fixpoint split (n : nat) (z : Z) : bytes :=
  match n with
  | O => []
  | S n => split n (z / 256) ++ [byte_of_Z z]
  end.

Definition PutUint64 (z : Z) : bytes := split 8 z.

End BigEndian.

Module Uvarint.

(** The bytes [binary.PutUvarint] writes for [x]; [n] bounds their number. *)
Fixpoint encode (n : nat) (x : Z) : bytes :=
  match n with
  | O => []
  | S n =>
      if x <? 128 then [byte_of_Z x]
      else byte_of_Z (Z.lor (x mod 256) 128) :: encode n (Z.shiftr x 7)
  end.

(** [binary.MaxVarintLen64] *)
Definition MaxVarintLen64 : nat := 10.

(** [binary.PutUvarint(buf, x)]: the buffer afterwards, or [None] where an index
    past its end panics. *)
Definition PutUvarint (buf : bytes) (x : Z) : option bytes :=
  let e := encode MaxVarintLen64 x in
  if decide (length e <= length buf)%nat then Some (e ++ drop (length e) buf) else None.

End Uvarint.

(** ** strconv *)

Module Strconv.

Inductive num_error := ErrSyntax | ErrRange.

Definition digit (c : Ascii.ascii) : option Z :=
  let n := Z.of_N (Ascii.N_of_ascii c) in
  if (48 <=? n) && (n <=? 57) then Some (n - 48) else None.

(** [math.MaxUint64/10 + 1]: the first [n] for which [n*10] overflows. *)
Definition cutoff : Z := 1844674407370955162.

Fixpoint parse_loop (n : Z) (s : string) : result num_error Z :=
  match s with
  | EmptyString => Ok n
  | String c s =>
      match digit c with
      | None => Err ErrSyntax
      | Some d =>
          if cutoff <=? n then Err ErrRange
          else
            let n10 := u64 (n * 10) in
            let n1 := u64 (n10 + d) in
            if n1 <? n10 then Err ErrRange else parse_loop n1 s
      end
  end.

(** [strconv.ParseUint(s, 10, 64)] *)
Definition ParseUint (s : string) : result num_error Z :=
  match s with
  | EmptyString => Err ErrSyntax
  | _ => parse_loop 0 s
  end.

Definition digit_char (d : Z) : Ascii.ascii := Ascii.ascii_of_N (Z.to_N (48 + d)).

Fixpoint format (fuel : nat) (n : Z) : string :=
  match fuel with
  | O => EmptyString
  | S fuel =>
      if n <? 10 then String (digit_char n) EmptyString
      else String.append (format fuel (n / 10)) (String (digit_char (n mod 10)) EmptyString)
  end.

(** [fmt.Sprintf("%d", n)] of a [uint64]: at most twenty digits. *)
Definition FormatUint (n : Z) : string := format 20 n.

End Strconv.

(** [bytes.Equal] *)
Definition bytes_Equal (a b : bytes) : bool := bool_decide (a = b).

(** ** Byte order: the order of keys in an iterator *)

Fixpoint bytes_ltb (a b : bytes) : bool :=
  match a, b with
  | _, [] => false
  | [], _ :: _ => true
  | x :: a, y :: b =>
      if byte_val x <? byte_val y then true
      else if byte_val y <? byte_val x then false else bytes_ltb a b
  end.

Definition bytes_lt (a b : bytes) : Prop := bytes_ltb a b = true.

(** ** Classes of bytes, and the value of a hexadecimal digit *)

Definition in_range (lo hi : Z) (b : byte) : bool := (lo <=? byte_val b) && (byte_val b <=? hi).

Definition hex_val (c : byte) : option Z :=
  if in_range 48 57 c then Some (byte_val c - 48)
  else if in_range 97 102 c then Some (byte_val c - 87)
  else if in_range 65 70 c then Some (byte_val c - 55)
  else None.

(** The byte slice of a Go string, and back. *)
Definition bytes_of_string (s : string) : bytes := String.list_byte_of_string s.
Definition string_of_bytes (b : bytes) : string := String.string_of_list_byte b.

(** [strings.Split(s, "/")]; [acc] is the element being read. *)
Definition slash : Ascii.ascii := Ascii.ascii_of_nat 47.

Fixpoint split_path (acc s : string) : list string :=
  match s with
  | EmptyString => [acc]
  | String c s =>
      if Ascii.eqb c slash then acc :: split_path EmptyString s
      else split_path (String.append acc (String c EmptyString)) s
  end.

(** ** Lemmas *)

Lemma string_of_bytes_of_string s : string_of_bytes (bytes_of_string s) = s.
Proof. apply String.string_of_list_byte_of_string. Qed.

Lemma bytes_of_string_of_bytes b : bytes_of_string (string_of_bytes b) = b.
Proof. apply String.list_byte_of_string_of_list_byte. Qed.

Lemma string_of_bytes_inj a b : string_of_bytes a = string_of_bytes b -> a = b.
Proof. intros H. by rewrite <- (bytes_of_string_of_bytes a), H, bytes_of_string_of_bytes. Qed.

Create Rewrite HintDb gostd.
Lemma bytes_of_string_append a b :
  bytes_of_string (String.append a b) = bytes_of_string a ++ bytes_of_string b.
Proof.
  unfold bytes_of_string, String.list_byte_of_string. rewrite <- map_app. f_equal.
  induction a as [|c a IH]; [done|]. change (String.append (String c a) b) with (String c (String.append a b)).
  simpl. by rewrite IH.
Qed.

#[export] Hint Rewrite string_of_bytes_of_string bytes_of_string_of_bytes : gostd.

Lemma bytes_Equal_true a b : bytes_Equal a b = true <-> a = b.
Proof. apply bool_decide_eq_true. Qed.

Lemma length_split n z : length (BigEndian.split n z) = n.
Proof.
  revert z. induction n as [|n IH]; intros z; simpl; [done|].
  rewrite length_app, IH. simpl. lia.
Qed.

Lemma combine_app acc a b :
  BigEndian.combine acc (a ++ b) = BigEndian.combine (BigEndian.combine acc a) b.
Proof. revert acc. induction a; simpl; eauto. Qed.

Lemma combine_split n z :
  BigEndian.combine 0 (BigEndian.split n z) = z mod 256 ^ Z.of_nat n.
Proof.
  revert z. induction n as [|n IH]; intros z.
  - simpl. by rewrite Z.mod_1_r.
  - simpl BigEndian.split. rewrite combine_app, IH. simpl.
    rewrite byte_val_of_Z, Nat2Z.inj_succ, Z.pow_succ_r by lia.
    rewrite Z.rem_mul_r by lia. lia.
Qed.

Lemma PutUint64_length z : length (BigEndian.PutUint64 z) = 8%nat.
Proof. apply length_split. Qed.

Lemma Uint64_PutUint64 z : BigEndian.Uint64 (BigEndian.PutUint64 z) = Some (u64 z).
Proof.
  unfold BigEndian.Uint64. rewrite decide_True by (rewrite PutUint64_length; lia).
  rewrite take_ge by (rewrite PutUint64_length; done).
  unfold BigEndian.PutUint64. by rewrite combine_split.
Qed.

Lemma combine_inj a b x y :
  length a = length b -> BigEndian.combine x a = BigEndian.combine y b -> a = b /\ x = y.
Proof.
  revert b x y. induction a as [|c a IH]; intros [|d b] x y Hl H; simplify_eq/=; [done|].
  destruct (IH b _ _ Hl H) as [-> Hxy].
  pose proof (byte_val_range c). pose proof (byte_val_range d).
  assert (x = y) as -> by lia. split; [|done]. f_equal. apply byte_val_inj. lia.
Qed.

Lemma combine_bound acc bs :
  0 <= acc -> acc * 256 ^ Z.of_nat (length bs) <= BigEndian.combine acc bs
              < (acc + 1) * 256 ^ Z.of_nat (length bs).
Proof.
  revert acc. induction bs as [|b bs IH]; intros acc Ha; [simpl; lia|].
  pose proof (byte_val_range b) as Hb. cbn [BigEndian.combine length].
  rewrite Nat2Z.inj_succ, Z.pow_succ_r by lia.
  specialize (IH (acc * 256 + byte_val b) ltac:(lia)).
  assert (0 < 256 ^ Z.of_nat (length bs)) by (apply Z.pow_pos_nonneg; lia). nia.
Qed.

Lemma Uint64_is_u64 bz n : BigEndian.Uint64 bz = Some n -> is_u64 n.
Proof.
  unfold BigEndian.Uint64. case_decide as Hl; [|done]. intros [= <-].
  pose proof (combine_bound 0 (take 8 bz) ltac:(lia)) as Hb.
  rewrite length_take_le in Hb by lia.
  unfold is_u64, two64. change (256 ^ Z.of_nat 8) with 18446744073709551616 in Hb. lia.
Qed.

(** An eight byte slice is determined by the word it encodes. *)
Lemma Uint64_inj a b n :
  length a = 8%nat -> length b = 8%nat ->
  BigEndian.Uint64 a = Some n -> BigEndian.Uint64 b = Some n -> a = b.
Proof.
  unfold BigEndian.Uint64. intros La Lb. rewrite !decide_True by lia.
  rewrite !take_ge by lia. intros [= <-] [= H]. symmetry in H.
  by destruct (combine_inj a b 0 0 ltac:(congruence) H).
Qed.

(** *** uvarint *)

Lemma lor_128 a : 0 <= a < 256 -> Z.lor a 128 = 128 + a mod 128.
Proof.
  intros Ha.
  assert (H : forallb (fun n => Z.lor (Z.of_nat n) 128 =? 128 + Z.of_nat n mod 128)
                      (seq 0 256) = true) by (vm_compute; reflexivity).
  rewrite forallb_forall in H. specialize (H (Z.to_nat a)).
  rewrite Z2Nat.id in H by lia. apply Z.eqb_eq, H, in_seq. lia.
Qed.

Lemma encode_cont x : 0 <= x ->
  byte_val (byte_of_Z (Z.lor (x mod 256) 128)) = 128 + x mod 128.
Proof.
  intros Hx. assert (0 <= x mod 256 < 256) by (apply Z.mod_pos_bound; lia).
  rewrite byte_val_of_Z, lor_128 by done.
  assert (0 <= (x mod 256) mod 128 < 128) by (apply Z.mod_pos_bound; lia).
  rewrite (Z.mod_small (128 + _)) by lia.
  f_equal. apply Z.mod_mod_divide. by exists 2.
Qed.

Lemma length_encode n x : (length (Uvarint.encode n x) <= n)%nat.
Proof.
  revert x. induction n as [|n IH]; intros x; simpl; [done|].
  case_match; simpl; [lia|]. specialize (IH (Z.shiftr x 7)). lia.
Qed.

(** The encoding is injective, whatever follows it in the buffer. *)
Lemma encode_inj n x y l l' :
  0 <= x < 128 ^ Z.of_nat n -> 0 <= y < 128 ^ Z.of_nat n ->
  Uvarint.encode n x ++ l = Uvarint.encode n y ++ l' -> x = y.
Proof.
  revert x y. induction n as [|n IH]; intros x y Hx Hy H; [simpl in *; lia|].
  rewrite Nat2Z.inj_succ, Z.pow_succ_r in Hx, Hy by lia.
  simpl in H. rewrite !Z.shiftr_div_pow2 in H by lia. change (2 ^ 7) with 128 in H.
  assert (0 <= x mod 128 < 128) by (apply Z.mod_pos_bound; lia).
  assert (0 <= y mod 128 < 128) by (apply Z.mod_pos_bound; lia).
  destruct (Z.ltb_spec x 128) as [Lx|Lx], (Z.ltb_spec y 128) as [Ly|Ly];
    injection H as Hh Ht; apply (f_equal byte_val) in Hh;
    rewrite ?encode_cont, ?byte_val_of_Z in Hh by lia.
  - rewrite !Z.mod_small in Hh by lia. done.
  - rewrite Z.mod_small in Hh by lia. lia.
  - rewrite (Z.mod_small y) in Hh by lia. lia.
  - assert (x / 128 = y / 128).
    { apply (IH _ _); [| |exact Ht]; split;
        first [apply Z.div_pos; lia | apply Z.div_lt_upper_bound; lia]. }
    rewrite (Z.div_mod x 128), (Z.div_mod y 128) by lia. lia.
Qed.

Lemma u64_lt_128_10 x : is_u64 x -> 0 <= x < 128 ^ Z.of_nat Uvarint.MaxVarintLen64.
Proof.
  unfold is_u64, two64, Uvarint.MaxVarintLen64.
  change (128 ^ Z.of_nat 10) with 1180591620717411303424. lia.
Qed.

Lemma PutUvarint_Some buf x :
  (Uvarint.MaxVarintLen64 <= length buf)%nat ->
  exists b, Uvarint.PutUvarint buf x = Some b /\ length b = length buf.
Proof.
  intros Hl. unfold Uvarint.PutUvarint.
  pose proof (length_encode Uvarint.MaxVarintLen64 x) as He.
  rewrite decide_True by lia. eexists. split; [done|].
  rewrite length_app, length_drop. lia.
Qed.

Lemma PutUvarint_inv buf x b :
  Uvarint.PutUvarint buf x = Some b ->
  exists l, b = Uvarint.encode Uvarint.MaxVarintLen64 x ++ l.
Proof.
  unfold Uvarint.PutUvarint. generalize (Uvarint.encode Uvarint.MaxVarintLen64 x).
  intros e H. case_decide; [|discriminate]. eexists. by injection H as <-.
Qed.

Lemma PutUvarint_inj buf buf' x y b :
  is_u64 x -> is_u64 y ->
  Uvarint.PutUvarint buf x = Some b -> Uvarint.PutUvarint buf' y = Some b -> x = y.
Proof.
  intros Hx%u64_lt_128_10 Hy%u64_lt_128_10 [l ->]%PutUvarint_inv [l' E]%PutUvarint_inv.
  exact (encode_inj _ _ _ _ _ Hx Hy E).
Qed.

(** *** Decimal numbers *)

Lemma digit_digit_char d : 0 <= d < 10 -> Strconv.digit (Strconv.digit_char d) = Some d.
Proof.
  intros Hd. unfold Strconv.digit, Strconv.digit_char.
  rewrite Ascii.N_ascii_embedding by lia. rewrite Z2N.id by lia.
  destruct (Z.leb_spec 48 (48 + d)), (Z.leb_spec (48 + d) 57); simpl; try lia.
  f_equal. lia.
Qed.

Lemma parse_loop_digit n d s :
  0 <= n -> 0 <= d < 10 -> n * 10 + d < two64 ->
  Strconv.parse_loop n (String (Strconv.digit_char d) s) = Strconv.parse_loop (n * 10 + d) s.
Proof.
  intros Hn Hd Hb. cbn [Strconv.parse_loop]. rewrite digit_digit_char by done.
  unfold Strconv.cutoff, two64 in *.
  destruct (Z.leb_spec 1844674407370955162 n); [lia|].
  rewrite (u64_small (n * 10)) by (unfold is_u64, two64; lia).
  rewrite (u64_small (n * 10 + d)) by (unfold is_u64, two64; lia).
  destruct (Z.ltb_spec (n * 10 + d) (n * 10)); [lia|done].
Qed.

Lemma append_assoc (a b c : string) :
  String.append (String.append a b) c = String.append a (String.append b c).
Proof. induction a as [|x a IH]; [done|]. exact (f_equal (String x) IH). Qed.

Ltac append_step :=
  repeat match goal with
  | |- context [String.append (String ?c ?a) ?s] =>
      change (String.append (String c a) s) with (String c (String.append a s))
  | |- context [String.append EmptyString ?s] =>
      change (String.append EmptyString s) with s
  end.

Lemma parse_loop_format fuel n s :
  0 <= n < 10 ^ Z.of_nat fuel -> n < two64 ->
  Strconv.parse_loop 0 (String.append (Strconv.format fuel n) s) = Strconv.parse_loop n s.
Proof.
  revert n s. induction fuel as [|fuel IH]; intros n s Hn Hb.
  { simpl in Hn. assert (n = 0) as -> by lia. done. }
  rewrite Nat2Z.inj_succ, Z.pow_succ_r in Hn by lia. cbn [Strconv.format].
  destruct (Z.ltb_spec n 10) as [Hl|Hl].
  - append_step. rewrite parse_loop_digit by (unfold two64; lia). done.
  - assert (Hm : 0 <= n mod 10 < 10) by (apply Z.mod_pos_bound; lia).
    pose proof (Z.div_mod n 10 ltac:(lia)) as Hdm.
    assert (0 <= n / 10) by (apply Z.div_pos; lia).
    rewrite append_assoc, IH; [|split; [done|apply Z.div_lt_upper_bound; lia]|lia].
    append_step. rewrite parse_loop_digit by lia. f_equal; lia.
Qed.

Lemma format_nonempty fuel n : fuel <> O -> Strconv.format fuel n <> EmptyString.
Proof.
  destruct fuel as [|fuel]; [done|]. intros _. simpl. case_match; [done|].
  by destruct (Strconv.format fuel (n / 10)).
Qed.

Lemma ParseUint_loop s : s <> EmptyString -> Strconv.ParseUint s = Strconv.parse_loop 0 s.
Proof. by destruct s. Qed.

Lemma append_nil_r (s : string) : String.append s EmptyString = s.
Proof. induction s as [|x s IH]; [done|]. exact (f_equal (String x) IH). Qed.

Lemma ParseUint_FormatUint n :
  is_u64 n -> Strconv.ParseUint (Strconv.FormatUint n) = Ok n.
Proof.
  intros [H0 H1]. rewrite ParseUint_loop by by apply format_nonempty.
  unfold Strconv.FormatUint. rewrite <- (append_nil_r (Strconv.format 20 n)).
  rewrite parse_loop_format; [done| |done].
  unfold two64 in H1. change (10 ^ Z.of_nat 20) with 100000000000000000000. lia.
Qed.

Lemma parse_loop_range n s r :
  is_u64 n -> Strconv.parse_loop n s = Ok r -> is_u64 r.
Proof.
  revert n. induction s as [|c s IH]; intros n Hn H; simpl in H; [by simplify_eq|].
  repeat case_match; try done. eapply IH; [|exact H]. apply u64_range.
Qed.

Lemma ParseUint_range s r : Strconv.ParseUint s = Ok r -> is_u64 r.
Proof.
  destruct s; [done|]. apply parse_loop_range. unfold is_u64, two64. lia.
Qed.

(** ** The order of strings *)

Lemma bytes_ltb_irrefl a : bytes_ltb a a = false.
Proof. induction a as [|x a IH]; simpl; [done|]. by rewrite Z.ltb_irrefl. Qed.

Lemma bytes_lt_irrefl a : ~ bytes_lt a a.
Proof. unfold bytes_lt. by rewrite bytes_ltb_irrefl. Qed.

Lemma bytes_ltb_trans a b c :
  bytes_ltb a b = true -> bytes_ltb b c = true -> bytes_ltb a c = true.
Proof.
  revert b c. induction a as [|x a IH]; intros [|y b] [|z c]; simpl; try done.
  destruct (Z.ltb_spec (byte_val x) (byte_val y)), (Z.ltb_spec (byte_val y) (byte_val x)),
    (Z.ltb_spec (byte_val y) (byte_val z)), (Z.ltb_spec (byte_val z) (byte_val y)),
    (Z.ltb_spec (byte_val x) (byte_val z)), (Z.ltb_spec (byte_val z) (byte_val x));
    try done; try lia. apply IH.
Qed.

Lemma bytes_ltb_total a b : bytes_ltb a b = false -> bytes_ltb b a = false -> a = b.
Proof.
  revert b. induction a as [|x a IH]; intros [|y b]; simpl; try done.
  destruct (Z.ltb_spec (byte_val x) (byte_val y)), (Z.ltb_spec (byte_val y) (byte_val x));
    try done; try lia.
  intros H1 H2. rewrite (IH b H1 H2). f_equal. apply byte_val_inj. lia.
Qed.

Lemma bytes_ltb_asym a b : bytes_ltb a b = true -> bytes_ltb b a = false.
Proof.
  intros H. destruct (bytes_ltb b a) eqn:E; [|done].
  by rewrite <- (bytes_ltb_irrefl a), (bytes_ltb_trans a b a).
Qed.
