(* ===== verification/Base64.v ===== *)
(** * encoding/base64, [StdEncoding]

    The encoder and decoder the opaque messages of a contract pass through, and
    their round trip. The decoder follows Go's: it skips line breaks, insists on
    padding, and reports the offset at which the input is corrupt. *)

From S2P Require Import Prelude GoStd.

Module Base64.

(** The alphabet [A-Za-z0-9+/], by value. *)
Definition encodeStd (v : Z) : byte :=
  if v <? 26 then byte_of_Z (65 + v)
  else if v <? 52 then byte_of_Z (97 + (v - 26))
  else if v <? 62 then byte_of_Z (48 + (v - 52))
  else if v =? 62 then x2b else x2f.

(** [enc.decodeMap]: [None] for 0xff. *)
Definition decodeMap (c : byte) : option Z :=
  let n := byte_val c in
  if (65 <=? n) && (n <=? 90) then Some (n - 65)
  else if (97 <=? n) && (n <=? 122) then Some (n - 97 + 26)
  else if (48 <=? n) && (n <=? 57) then Some (n - 48 + 52)
  else if n =? 43 then Some 62
  else if n =? 47 then Some 63
  else None.

Definition padChar : byte := x3d.
Definition is_newline (c : byte) : bool :=
  bool_decide (c = x0a) || bool_decide (c = x0d).

Definition sextet (val n : Z) : byte := encodeStd (Z.land (Z.shiftr val n) 63).

(** [EncodeToString], as bytes: three bytes to four characters, the rest padded. *)
Fixpoint Encode (src : bytes) : bytes :=
  match src with
  | a :: b :: c :: src =>
      let val := Z.lor (Z.lor (Z.shiftl (byte_val a) 16) (Z.shiftl (byte_val b) 8)) (byte_val c) in
      sextet val 18 :: sextet val 12 :: sextet val 6 :: sextet val 0 :: Encode src
  | [a; b] =>
      let val := Z.lor (Z.shiftl (byte_val a) 16) (Z.shiftl (byte_val b) 8) in
      [sextet val 18; sextet val 12; sextet val 6; padChar]
  | [a] =>
      let val := Z.shiftl (byte_val a) 16 in
      [sextet val 18; sextet val 12; padChar; padChar]
  | [] => []
  end.

(** The bytes of a quantum of which [dlen] sextets were read. *)
Definition quantum_bytes (dbuf : list Z) (dlen : nat) : bytes :=
  let d i := nth i dbuf 0 in
  let val := Z.lor (Z.lor (Z.lor (Z.shiftl (d 0%nat) 18) (Z.shiftl (d 1%nat) 12))
                          (Z.shiftl (d 2%nat) 6)) (d 3%nat) in
  take (dlen - 1) [byte_of_Z (Z.shiftr val 16); byte_of_Z (Z.shiftr val 8); byte_of_Z val].

Fixpoint skip_newlines (src : bytes) (si : Z) : bytes * Z :=
  match src with
  | c :: src' => if is_newline c then skip_newlines src' (si + 1) else (src, si)
  | [] => ([], si)
  end.

(** The outcome of [decodeQuantum]: the input was at its end, it was corrupt at
    an offset, or bytes were decoded, with what is left of the input. *)
Inductive quantum_result :=
  | QEnd
  | QErr (off : Z)
  | QBytes (out rest : bytes) (si : Z).

(** The end of a padded quantum: only line breaks may follow. *)
Definition finish (dbuf : list Z) (dlen : nat) (src : bytes) (si : Z) : quantum_result :=
  match skip_newlines src si with
  | ([], si) => QBytes (quantum_bytes dbuf dlen) [] si
  | (_ :: _, si) => QErr si
  end.

Fixpoint decodeQuantum (j : nat) (dbuf : list Z) (src : bytes) (si : Z) : quantum_result :=
  if decide (j = 4%nat) then QBytes (quantum_bytes dbuf 4) src si
  else
    match src with
    | [] => if decide (j = 0%nat) then QEnd else QErr (si - Z.of_nat j)
    | c :: src' =>
        match decodeMap c with
        | Some v => decodeQuantum (S j) (dbuf ++ [v]) src' (si + 1)
        | None =>
            if is_newline c then decodeQuantum j dbuf src' (si + 1)
            else if negb (bool_decide (c = padChar)) then QErr si
            else
              match j with
              | 0%nat | 1%nat => QErr si
              | 2%nat =>
                  match skip_newlines src' (si + 1) with
                  | ([], si) => QErr si
                  | (c2 :: src2, si) =>
                      if negb (bool_decide (c2 = padChar)) then QErr (si - 1)
                      else finish dbuf 2 src2 (si + 1)
                  end
              | _ => finish dbuf j src' (si + 1)
              end
        end
    end.

(** [Decode]: quanta until the input is used up; [fuel] bounds their number. *)
Fixpoint decode_loop (fuel : nat) (src : bytes) (si : Z) (acc : bytes) : result Z bytes :=
  match src, fuel with
  | [], _ | _, O => Ok acc
  | _, S fuel =>
      match decodeQuantum 0 [] src si with
      | QEnd => Ok acc
      | QErr off => Err off
      | QBytes out rest si => decode_loop fuel rest si (acc ++ out)
      end
  end.

Definition Decode (src : bytes) : result Z bytes := decode_loop (length src) src 0 [].

(** [base64.StdEncoding.DecodeString], with the text of [CorruptInputError]. *)
Definition DecodeString (s : string) : result string bytes :=
  match Decode (bytes_of_string s) with
  | Ok b => Ok b
  | Err off => Err (String.append "illegal base64 data at input byte " (Strconv.FormatUint off))
  end.

Definition EncodeToString (b : bytes) : string := string_of_bytes (Encode b).

End Base64.
Import Base64.

(** ** Lemmas *)

Lemma lor_add a b n : 0 <= n -> 0 <= b < 2 ^ n -> Z.lor (a * 2 ^ n) b = a * 2 ^ n + b.
Proof.
  intros Hn Hb.
  assert (Hl : Z.land (a * 2 ^ n) b = 0).
  { apply Z.bits_inj'. intros i Hi. rewrite Z.land_spec, Z.bits_0.
    destruct (Z.lt_ge_cases i n) as [H|H]; [by rewrite Z.mul_pow2_bits_low|].
    rewrite andb_comm, <- (Z.mod_small b (2 ^ n)) by done. by rewrite Z.mod_pow2_bits_high. }
  rewrite Z.add_nocarry_lxor, Z.lxor_lor by done. done.
Qed.

Lemma lor_shiftl_add a b n : 0 <= n -> 0 <= b < 2 ^ n -> Z.lor (Z.shiftl a n) b = a * 2 ^ n + b.
Proof. intros Hn Hb. rewrite Z.shiftl_mul_pow2 by done. by apply lor_add. Qed.

Lemma decodeMap_encodeStd v : 0 <= v < 64 -> decodeMap (encodeStd v) = Some v.
Proof.
  intros Hv.
  assert (H : forallb (fun n => bool_decide (decodeMap (encodeStd (Z.of_nat n)) = Some (Z.of_nat n)))
                      (seq 0 64) = true) by (vm_compute; reflexivity).
  rewrite forallb_forall in H. specialize (H (Z.to_nat v)). rewrite Z2Nat.id in H by lia.
  apply bool_decide_eq_true in H; [done|]. apply in_seq. lia.
Qed.

Lemma land_63 z : Z.land z 63 = z mod 64.
Proof. exact (Z.land_ones z 6 ltac:(lia)). Qed.

Lemma sextet_decode val n : 0 <= n -> decodeMap (sextet val n) = Some ((val / 2 ^ n) mod 64).
Proof.
  intros Hn. unfold sextet. rewrite land_63, Z.shiftr_div_pow2 by done.
  apply decodeMap_encodeStd, Z.mod_pos_bound. lia.
Qed.

(** The word of three bytes. *)
Lemma lor3 a b c : 0 <= b < 256 -> 0 <= c < 256 ->
  Z.lor (Z.lor (Z.shiftl a 16) (Z.shiftl b 8)) c = a * 65536 + b * 256 + c.
Proof.
  intros Hb Hc. rewrite <- Z.lor_assoc, (lor_shiftl_add b c 8) by lia.
  rewrite lor_shiftl_add by lia. lia.
Qed.

(** The word of four sextets. *)
Lemma lor4 a b c d : 0 <= b < 64 -> 0 <= c < 64 -> 0 <= d < 64 ->
  Z.lor (Z.lor (Z.lor (Z.shiftl a 18) (Z.shiftl b 12)) (Z.shiftl c 6)) d
  = a * 262144 + b * 4096 + c * 64 + d.
Proof.
  intros Hb Hc Hd. rewrite <- !Z.lor_assoc, (lor_shiftl_add c d 6) by lia.
  rewrite (lor_shiftl_add b _ 12), lor_shiftl_add by lia. lia.
Qed.

(** Splitting a 24 bit word in sextets and putting it together again. *)
Lemma sextets_join x : 0 <= x < 16777216 ->
  (x / 2 ^ 18) mod 64 * 262144 + (x / 2 ^ 12) mod 64 * 4096 + (x / 2 ^ 6) mod 64 * 64
  + (x / 2 ^ 0) mod 64 = x.
Proof.
  intros Hx. change (2 ^ 18) with (64 * (64 * 64)). change (2 ^ 12) with (64 * 64).
  change (2 ^ 6) with 64. change (2 ^ 0) with 1. rewrite Z.div_1_r.
  rewrite <- !Z.div_div by lia.
  pose proof (Z.div_mod x 64). pose proof (Z.div_mod (x / 64) 64).
  pose proof (Z.div_mod (x / 64 / 64) 64).
  rewrite (Z.mod_small (x / 64 / 64 / 64) 64); [lia|]. split.
  - repeat apply Z.div_pos; lia.
  - repeat (apply Z.div_lt_upper_bound; [lia|]). lia.
Qed.

Lemma quantum_bytes_word x n a b c :
  0 <= x < 16777216 -> byte_of_Z (x / 65536) = a -> byte_of_Z (x / 256) = b -> byte_of_Z x = c ->
  quantum_bytes [(x / 2 ^ 18) mod 64; (x / 2 ^ 12) mod 64; (x / 2 ^ 6) mod 64; (x / 2 ^ 0) mod 64] n
  = take (n - 1) [a; b; c].
Proof.
  intros Hx <- <- <-. unfold quantum_bytes. cbn [nth].
  rewrite lor4 by (apply Z.mod_pos_bound; lia). rewrite sextets_join by done.
  rewrite !Z.shiftr_div_pow2 by lia. done.
Qed.

Lemma byte_of_Z_mod z : byte_of_Z (z mod 256) = byte_of_Z z.
Proof. unfold byte_of_Z. by rewrite Z.mod_mod. Qed.

Lemma byte_of_word a n : byte_of_Z (n * 256 + byte_val a) = a.
Proof.
  rewrite <- byte_of_Z_mod. rewrite Z.add_comm, Z.mod_add by lia.
  by rewrite byte_of_Z_mod, byte_of_Z_val.
Qed.

(** Reading a character of the alphabet. *)
Lemma decodeQuantum_sextet j dbuf val n src si :
  (j < 4)%nat -> 0 <= n ->
  decodeQuantum j dbuf (sextet val n :: src) si =
  decodeQuantum (S j) (dbuf ++ [(val / 2 ^ n) mod 64]) src (si + 1).
Proof.
  intros Hj Hn. cbn [decodeQuantum]. rewrite decide_False by lia. by rewrite sextet_decode.
Qed.

Lemma decodeQuantum_4 dbuf src si :
  decodeQuantum 4 dbuf src si = QBytes (quantum_bytes dbuf 4) src si.
Proof. by destruct src. Qed.

Lemma quantum_full a b c src si :
  exists si', decodeQuantum 0 [] (Encode (a :: b :: c :: src)) si = QBytes [a; b; c] (Encode src) si'.
Proof.
  pose proof (byte_val_range a). pose proof (byte_val_range b). pose proof (byte_val_range c).
  cbn [Encode]. rewrite lor3 by lia.
  rewrite !decodeQuantum_sextet by lia. rewrite decodeQuantum_4. eexists. f_equal.
  apply (quantum_bytes_word _ 4); [lia| | |].
  - etransitivity; [|exact (byte_of_word a 0)]. f_equal. symmetry.
    apply (Z.div_unique _ _ _ (byte_val b * 256 + byte_val c)); lia.
  - etransitivity; [|exact (byte_of_word b (byte_val a))]. f_equal. symmetry.
    apply (Z.div_unique _ _ _ (byte_val c)); lia.
  - etransitivity; [|exact (byte_of_word c (byte_val a * 256 + byte_val b))]. f_equal. lia.
Qed.

Lemma pad_not_alphabet : decodeMap padChar = None /\ is_newline padChar = false.
Proof. by vm_compute. Qed.

Lemma quantum_two a b si :
  exists si', decodeQuantum 0 [] (Encode [a; b]) si = QBytes [a; b] [] si'.
Proof.
  pose proof (byte_val_range a). pose proof (byte_val_range b). cbn [Encode].
  replace (Z.lor _ _) with (byte_val a * 65536 + byte_val b * 256 + byte_val x00) by
    (rewrite <- lor3 by (first [lia|vm_compute; intuition discriminate]);
     change (byte_val x00) with 0; by rewrite Z.lor_0_r).
  change (byte_val x00) with 0.
  remember (byte_val a * 65536 + byte_val b * 256 + 0) as x eqn:Hx.
  rewrite !decodeQuantum_sextet by lia. cbn [app decodeQuantum]. rewrite decide_False by done.
  destruct pad_not_alphabet as [-> ->]. rewrite bool_decide_true by done. cbn [negb].
  unfold finish. cbn [skip_newlines]. eexists. f_equal.
  assert (Hz : (x / 2 ^ 0) mod 64 = 0).
  { change (2 ^ 0) with 1. rewrite Z.div_1_r.
    replace x with ((byte_val a * 1024 + byte_val b * 4) * 64) by lia. by apply Z.mod_mul. }
  change (quantum_bytes [?u; ?v; ?w] 3) with (quantum_bytes [u; v; w; 0] 3). rewrite <- Hz.
  rewrite (quantum_bytes_word x 3 a b x00); [done|lia| | |].
  - etransitivity; [|exact (byte_of_word a 0)]. f_equal. symmetry.
    apply (Z.div_unique _ _ _ (byte_val b * 256)); lia.
  - etransitivity; [|exact (byte_of_word b (byte_val a))]. f_equal. symmetry.
    apply (Z.div_unique _ _ _ 0); lia.
  - rewrite <- byte_of_Z_mod. replace x with ((byte_val a * 256 + byte_val b) * 256) by lia. by rewrite Z.mod_mul.
Qed.

Lemma quantum_one a si :
  exists si', decodeQuantum 0 [] (Encode [a]) si = QBytes [a] [] si'.
Proof.
  pose proof (byte_val_range a). cbn [Encode]. rewrite Z.shiftl_mul_pow2 by lia.
  change (2 ^ 16) with 65536. remember (byte_val a * 65536) as x eqn:Hx.
  rewrite !decodeQuantum_sextet by lia. cbn [app decodeQuantum]. rewrite decide_False by done.
  destruct pad_not_alphabet as [Hp Hn]. rewrite Hp, Hn. rewrite bool_decide_true by done.
  cbn [negb skip_newlines]. rewrite Hn, bool_decide_true by done. cbn [negb finish skip_newlines].
  unfold finish. cbn [skip_newlines]. eexists. f_equal.
  assert (Hz : (x / 2 ^ 0) mod 64 = 0).
  { change (2 ^ 0) with 1. rewrite Z.div_1_r.
    replace x with ((byte_val a * 1024) * 64) by lia. by apply Z.mod_mul. }
  assert (Hz6 : (x / 2 ^ 6) mod 64 = 0).
  { change (2 ^ 6) with 64.
    replace x with ((byte_val a * 16) * 64 * 64) by lia.
    rewrite Z.div_mul by lia. by apply Z.mod_mul. }
  change (quantum_bytes [?u; ?v] 2) with (quantum_bytes [u; v; 0; 0] 2).
  rewrite <- Hz6 at 1. rewrite <- Hz.
  rewrite (quantum_bytes_word x 2 a x00 x00); [done|lia| | |].
  - etransitivity; [|exact (byte_of_word a 0)]. f_equal. rewrite Hx, Z.div_mul by lia. lia.
  - rewrite <- byte_of_Z_mod. 
    replace x with ((byte_val a * 256) * 256) by lia.
    rewrite Z.div_mul by lia. by rewrite Z.mod_mul.
  - rewrite <- byte_of_Z_mod. 
    replace x with ((byte_val a * 256) * 256) by lia. by rewrite Z.mod_mul.
Qed.

Lemma decode_loop_nil fuel si acc : decode_loop fuel [] si acc = Ok acc.
Proof. by destruct fuel. Qed.

Lemma Encode_nonempty a src : Encode (a :: src) <> [].
Proof. by destruct src as [|b [|c src]]. Qed.

Lemma decode_loop_step fuel src si acc out rest si' :
  src <> [] -> decodeQuantum 0 [] src si = QBytes out rest si' ->
  decode_loop (S fuel) src si acc = decode_loop fuel rest si' (acc ++ out).
Proof. intros Hs Hq. destruct src; [done|]. cbn [decode_loop]. by rewrite Hq. Qed.

Lemma decode_loop_Encode fuel b si acc :
  (length b <= fuel)%nat -> decode_loop fuel (Encode b) si acc = Ok (acc ++ b).
Proof.
  revert b si acc. induction fuel as [fuel IH] using lt_wf_ind. intros b si acc Hl.
  destruct b as [|a b]; [by rewrite decode_loop_nil, app_nil_r|].
  destruct fuel as [|fuel]; [simpl in Hl; lia|].
  destruct b as [|b [|c src]].
  - destruct (quantum_one a si) as [si' Hq].
    rewrite (decode_loop_step _ _ _ _ _ _ _ (Encode_nonempty _ _) Hq). apply decode_loop_nil.
  - destruct (quantum_two a b si) as [si' Hq].
    rewrite (decode_loop_step _ _ _ _ _ _ _ (Encode_nonempty _ _) Hq). apply decode_loop_nil.
  - destruct (quantum_full a b c src si) as [si' Hq].
    rewrite (decode_loop_step _ _ _ _ _ _ _ (Encode_nonempty _ _) Hq).
    simpl in Hl. rewrite IH by lia. by rewrite <- app_assoc.
Qed.

Lemma Encode_length_le n b : (length b <= n)%nat -> (length b <= length (Encode b))%nat.
Proof.
  revert b. induction n as [n IH] using lt_wf_ind. intros b Hl.
  destruct b as [|a [|b' [|c src]]]; simpl in *; try lia.
  specialize (IH (n - 3)%nat ltac:(lia) src). lia.
Qed.

Lemma Decode_Encode b : Decode (Encode b) = Ok b.
Proof. unfold Decode. rewrite decode_loop_Encode; [done|]. by eapply Encode_length_le. Qed.

Lemma DecodeString_EncodeToString b : DecodeString (EncodeToString b) = Ok b.
Proof.
  unfold DecodeString, EncodeToString. by rewrite bytes_of_string_of_bytes, Decode_Encode.
Qed.

(** Known answers (RFC 4648), and inputs the decoder refuses. *)
Example base64_foobar : EncodeToString (bytes_of_string "foobar") = "Zm9vYmFy"%string.
Proof. reflexivity. Qed.
Example base64_fooba : EncodeToString (bytes_of_string "fooba") = "Zm9vYmE="%string.
Proof. reflexivity. Qed.
Example base64_newline : Decode (bytes_of_string "Zm9v" ++ [x0a] ++ bytes_of_string "Yg==") = Ok (bytes_of_string "foob").
Proof. reflexivity. Qed.
Example base64_no_padding : Decode (bytes_of_string "Zg") = Err 0.
Proof. reflexivity. Qed.
Example base64_garbage : Decode (bytes_of_string "Zg==x") = Err 4.
Proof. reflexivity. Qed.
