(* ===== verification/Json.v ===== *)
(** * encoding/json, as the queriers use it

    [json.MarshalIndent(v, "", "  ")] for the values the module marshals: strings,
    unsigned numbers, slices and structs. The string escapes are those of the
    standard encoder, which replaces every byte that is not part of valid UTF-8 by
    the replacement character. *)

From S2P Require Import Prelude GoStd.

#[local] Set Warnings "-register-all".

Module Json.

Inductive json :=
  | JNull
  | JNum (n : Z)
  | JStr (s : string)
  | JArr (l : list json)
  | JObj (fields : list (string * json)).

Definition hex_digit (n : Z) : byte := byte_of_Z (if n <? 10 then 48 + n else 87 + n).

(** A byte below 128. *)
Definition escape_ascii (b : byte) : bytes :=
  let v := byte_val b in
  if (v =? 34) || (v =? 92) then [x5c; b]
  else if v =? 10 then [x5c; x6e]
  else if v =? 13 then [x5c; x72]
  else if v =? 9 then [x5c; x74]
  else if (v <? 32) || (v =? 60) || (v =? 62) || (v =? 38)
  then bytes_of_string "\u00" ++ [hex_digit (v / 16); hex_digit (v mod 16)]
  else [b].

(** The accepted sequences of two, three and four bytes ([utf8.DecodeRune]). *)
Definition rune2 (a b : byte) : bool := in_range 0xc2 0xdf a && in_range 0x80 0xbf b.

Definition rune3 (a b c : byte) : bool :=
  (in_range 0xe0 0xe0 a && in_range 0xa0 0xbf b
   || in_range 0xe1 0xec a && in_range 0x80 0xbf b
   || in_range 0xed 0xed a && in_range 0x80 0x9f b
   || in_range 0xee 0xef a && in_range 0x80 0xbf b) && in_range 0x80 0xbf c.

Definition rune4 (a b c d : byte) : bool :=
  (in_range 0xf0 0xf0 a && in_range 0x90 0xbf b
   || in_range 0xf1 0xf3 a && in_range 0x80 0xbf b
   || in_range 0xf4 0xf4 a && in_range 0x80 0x8f b)
  && in_range 0x80 0xbf c && in_range 0x80 0xbf d.

(** U+2028 and U+2029 are escaped too. *)
Definition escape3 (a b c : byte) : bytes :=
  if bool_decide ([a; b; c] = [xe2; x80; xa8]) then bytes_of_string "\u2028"
  else if bool_decide ([a; b; c] = [xe2; x80; xa9]) then bytes_of_string "\u2029"
  else [a; b; c].

Definition replacement : bytes := bytes_of_string "\ufffd".

Fixpoint escape (s : bytes) : bytes :=
  match s with
  | [] => []
  | a :: s1 =>
      if byte_val a <? 128 then escape_ascii a ++ escape s1
      else
        match s1 with
        | [] => replacement
        | b :: s2 =>
            if rune2 a b then [a; b] ++ escape s2
            else
              match s2 with
              | [] => replacement ++ escape s1
              | c :: s3 =>
                  if rune3 a b c then escape3 a b c ++ escape s3
                  else
                    match s3 with
                    | [] => replacement ++ escape s1
                    | d :: s4 =>
                        if rune4 a b c d then [a; b; c; d] ++ escape s4
                        else replacement ++ escape s1
                    end
              end
        end
  end.

Definition quote (s : string) : bytes := [x22] ++ escape (bytes_of_string s) ++ [x22].

(** A new line at depth [n]. *)
Definition newline (n : nat) : bytes := x0a :: replicate (2 * n) x20.

Definition comma_separated (n : nat) (items : list bytes) : bytes :=
  match items with
  | [] => []
  | x :: l => newline n ++ x ++ concat (map (fun y => [x2c] ++ newline n ++ y) l)
  end.

Definition bracket (op cl : byte) (n : nat) (items : list bytes) : bytes :=
  match items with
  | [] => [op; cl]
  | _ => [op] ++ comma_separated (S n) items ++ newline n ++ [cl]
  end.

Fixpoint print (n : nat) (j : json) : bytes :=
  match j with
  | JNull => bytes_of_string "null"
  | JNum z => bytes_of_string (Strconv.FormatUint z)
  | JStr s => quote s
  | JArr l => bracket x5b x5d n (map (print (S n)) l)
  | JObj fields =>
      bracket x7b x7d n (map (fun f => quote f.1 ++ [x3a; x20] ++ print (S n) f.2) fields)
  end.

Definition MarshalIndent (j : json) : bytes := print 0 j.

End Json.

(** ** Examples *)

Example print_array :
  Json.MarshalIndent (Json.JArr [Json.JNum 7; Json.JNull; Json.JArr []])
  = bytes_of_string "[" ++ [x0a] ++ bytes_of_string "  7," ++ [x0a] ++ bytes_of_string "  null,"
    ++ [x0a] ++ bytes_of_string "  []" ++ [x0a] ++ bytes_of_string "]".
Proof. vm_compute. reflexivity. Qed.

Example print_object :
  Json.MarshalIndent (Json.JObj [("id"%string, Json.JStr "a<b")])
  = bytes_of_string "{" ++ [x0a] ++ bytes_of_string "  " ++ [x22] ++ bytes_of_string "id" ++ [x22]
    ++ bytes_of_string ": " ++ [x22] ++ bytes_of_string "a\u003cb" ++ [x22; x0a] ++ bytes_of_string "}".
Proof. vm_compute. reflexivity. Qed.

(** U+00E9 is kept, a stray byte is replaced. *)
Example escape_utf8 : Json.escape [xc3; xa9; xff; x41] = [xc3; xa9] ++ bytes_of_string "\ufffdA".
Proof. vm_compute. reflexivity. Qed.
