(* ===== verification/Unmarshal.v ===== *)
(** * encoding/json, as the clients use it

    [json.Unmarshal] into a struct with one field of type [[]byte]: the scanner of
    the standard library as a step function per byte and per token, the unquoting
    of strings, and the assignment of values to the field; and that it reads back
    what [Json.MarshalIndent] writes. *)

From S2P Require Import Prelude GoStd Base64 Json.

#[local] Set Warnings "-register-all".

Module Unmarshal.
Import Json.

(** ** Tokens *)

Inductive token :=
  | TPunct (c : byte)
  | TWord (text : bytes)
  | TNum (text : bytes)
  | TStr (raw : bytes).

Inductive lex_state :=
  | Between
  | InWord (acc : bytes)
  | InNum (acc : bytes)
  | InStr (acc : bytes)
  | InEsc (acc : bytes).

Definition one_of (l : bytes) (c : byte) : bool := bool_decide (c ∈ l).

Definition is_space : byte -> bool := one_of [x20; x09; x0a; x0d].
Definition is_punct : byte -> bool := one_of [x7b; x7d; x5b; x5d; x3a; x2c].
Definition is_lower (c : byte) : bool := in_range 97 122 c.
Definition is_digit (c : byte) : bool := in_range 48 57 c.
Definition num_start (c : byte) : bool := is_digit c || one_of [x2d] c.
Definition num_char (c : byte) : bool := is_digit c || one_of [x2d; x2b; x2e; x65; x45] c.

(** A byte that does not belong to a word, a number or a string. *)
Definition lex_start (c : byte) : option (list token * lex_state) :=
  if is_space c then Some ([], Between)
  else if is_punct c then Some ([TPunct c], Between)
  else if bool_decide (c = x22) then Some ([], InStr [])
  else if num_start c then Some ([], InNum [c])
  else if is_lower c then Some ([], InWord [c])
  else None.

Definition prepend (t : token) (o : option (list token * lex_state)) : option (list token * lex_state) :=
  (fun p => (t :: p.1, p.2)) <$> o.

Definition lex_step (st : lex_state) (c : byte) : option (list token * lex_state) :=
  match st with
  | Between => lex_start c
  | InWord acc =>
      if is_lower c then Some ([], InWord (acc ++ [c])) else prepend (TWord acc) (lex_start c)
  | InNum acc =>
      if num_char c then Some ([], InNum (acc ++ [c])) else prepend (TNum acc) (lex_start c)
  | InStr acc =>
      if bool_decide (c = x22) then Some ([TStr acc], Between)
      else if bool_decide (c = x5c) then Some ([], InEsc (acc ++ [c]))
      else Some ([], InStr (acc ++ [c]))
  | InEsc acc => Some ([], InStr (acc ++ [c]))
  end.

Definition lex_end (st : lex_state) : option (list token) :=
  match st with
  | Between => Some []
  | InWord acc => Some [TWord acc]
  | InNum acc => Some [TNum acc]
  | InStr _ | InEsc _ => None
  end.

Fixpoint lex (st : lex_state) (s : bytes) : option (list token) :=
  match s with
  | [] => lex_end st
  | c :: s =>
      match lex_step st c with
      | None => None
      | Some (ts, st) => (fun l => ts ++ l) <$> lex st s
      end
  end.

(** ** Numbers: the states of the scanner *)

Inductive num_state := NBegin | NNeg | NZero | NInt | NDot | NFrac | NE | NESign | NExp | NBad.

Definition num_step (st : num_state) (c : byte) : num_state :=
  let exp := one_of [x65; x45] c in
  match st with
  | NBegin =>
      if one_of [x2d] c then NNeg else if one_of [x30] c then NZero
      else if is_digit c then NInt else NBad
  | NNeg => if one_of [x30] c then NZero else if is_digit c then NInt else NBad
  | NZero => if one_of [x2e] c then NDot else if exp then NE else NBad
  | NInt => if is_digit c then NInt else if one_of [x2e] c then NDot else if exp then NE else NBad
  | NDot => if is_digit c then NFrac else NBad
  | NFrac => if is_digit c then NFrac else if exp then NE else NBad
  | NE => if one_of [x2b; x2d] c then NESign else if is_digit c then NExp else NBad
  | NESign | NExp => if is_digit c then NExp else NBad
  | NBad => NBad
  end.

Definition valid_number (text : bytes) : bool :=
  match fold_left num_step text NBegin with NZero | NInt | NFrac | NExp => true | _ => false end.

(** ** Strings *)

Definition getu4 (a b c d : byte) : option Z :=
  match hex_val a, hex_val b, hex_val c, hex_val d with
  | Some a, Some b, Some c, Some d => Some (((a * 16 + b) * 16 + c) * 16 + d)
  | _, _, _, _ => None
  end.

(** [utf8.EncodeRune] *)
Definition EncodeRune (r : Z) : bytes :=
  let cont n := byte_of_Z (128 + Z.land (Z.shiftr r n) 63) in
  if r <? 128 then [byte_of_Z r]
  else if r <? 2048 then [byte_of_Z (192 + Z.shiftr r 6); cont 0]
  else if r <? 65536 then [byte_of_Z (224 + Z.shiftr r 12); cont 6; cont 0]
  else [byte_of_Z (240 + Z.shiftr r 18); cont 12; cont 6; cont 0].

Definition RuneError : Z := 0xfffd.

Definition is_surrogate (r : Z) : bool := (0xd800 <=? r) && (r <? 0xe000).

(** [utf16.DecodeRune] *)
Definition decode_pair (r1 r2 : Z) : option Z :=
  if (0xd800 <=? r1) && (r1 <? 0xdc00) && (0xdc00 <=? r2) && (r2 <? 0xe000)
  then Some ((r1 - 0xd800) * 1024 + (r2 - 0xdc00) + 0x10000) else None.

(** The escapes of one character. *)
Definition escaped (c : byte) : option byte :=
  match c with
  | x22 | x5c | x2f => Some c
  | x62 => Some x08
  | x66 => Some x0c
  | x6e => Some x0a
  | x72 => Some x0d
  | x74 => Some x09
  | _ => None
  end.

(** The content of a string, [None] if the scanner does not accept it. *)
Fixpoint unquote (s : bytes) : option bytes :=
  match s with
  | [] => Some []
  | a :: s1 =>
      if bool_decide (a = x5c) then
        match s1 with
        | [] => None
        | c :: s2 =>
            if bool_decide (c = x75) then
              match s2 with
              | a :: b :: c :: d :: s3 =>
                  match getu4 a b c d with
                  | None => None
                  | Some r =>
                      if is_surrogate r then
                        match s3 with
                        | p :: q :: e :: f :: g :: h :: s4 =>
                            match (if bool_decide ([p; q] = [x5c; x75])
                                   then r2 ← getu4 e f g h; decode_pair r r2 else None) with
                            | Some r => app (EncodeRune r) <$> unquote s4
                            | None => app (EncodeRune RuneError) <$> unquote s3
                            end
                        | _ => app (EncodeRune RuneError) <$> unquote s3
                        end
                      else app (EncodeRune r) <$> unquote s3
                  end
              | _ => None
              end
            else
              match escaped c with
              | Some c => cons c <$> unquote s2
              | None => None
              end
        end
      else if byte_val a <? 32 then None
      else if byte_val a <? 128 then cons a <$> unquote s1
      else
        match s1 with
        | b :: s2 =>
            if rune2 a b then app [a; b] <$> unquote s2
            else
              match s2 with
              | c :: s3 =>
                  if rune3 a b c then app [a; b; c] <$> unquote s3
                  else
                    match s3 with
                    | d :: s4 =>
                        if rune4 a b c d then app [a; b; c; d] <$> unquote s4
                        else app (EncodeRune RuneError) <$> unquote s1
                    | [] => app (EncodeRune RuneError) <$> unquote s1
                    end
              | [] => app (EncodeRune RuneError) <$> unquote s1
              end
        | [] => app (EncodeRune RuneError) <$> unquote s1
        end
  end.

(** ** Values *)

Inductive value :=
  | VNull
  | VBool (b : bool)
  | VNum (text : bytes)
  | VStr (s : bytes)
  | VArr (l : list value)
  | VObj (fields : list (bytes * value)).

Definition scalar (t : token) : option value :=
  match t with
  | TPunct _ => None
  | TWord w =>
      if bool_decide (w = bytes_of_string "null") then Some VNull
      else if bool_decide (w = bytes_of_string "true") then Some (VBool true)
      else if bool_decide (w = bytes_of_string "false") then Some (VBool false)
      else None
  | TNum text => if valid_number text then Some (VNum text) else None
  | TStr raw => VStr <$> unquote raw
  end.

(** The arrays and objects that are open, and what may come next. *)
Inductive frame :=
  | FArr (done : list value)
  | FObj (done : list (bytes * value)) (key : bytes).

Inductive expect :=
  | EValue
  | EValueOrEnd
  | EAfter (v : value)
  | EKey (done : list (bytes * value))
  | EKeyOrEnd
  | EColon (done : list (bytes * value)) (key : bytes).

Definition parse_value (fs : list frame) (t : token) : option (list frame * expect) :=
  match t with
  | TPunct x5b => Some (FArr [] :: fs, EValueOrEnd)
  | TPunct x7b => Some (fs, EKeyOrEnd)
  | _ => (fun v => (fs, EAfter v)) <$> scalar t
  end.

Definition parse_key (fs : list frame) (done : list (bytes * value)) (t : token)
    : option (list frame * expect) :=
  match t with
  | TStr raw => (fun key => (fs, EColon done key)) <$> unquote raw
  | _ => None
  end.

Definition parse_step (st : list frame * expect) (t : token) : option (list frame * expect) :=
  let (fs, ex) := st in
  match ex with
  | EValue => parse_value fs t
  | EValueOrEnd =>
      match t, fs with
      | TPunct x5d, FArr [] :: fs => Some (fs, EAfter (VArr []))
      | _, _ => parse_value fs t
      end
  | EAfter v =>
      match t, fs with
      | TPunct x2c, FArr done :: fs => Some (FArr (done ++ [v]) :: fs, EValue)
      | TPunct x2c, FObj done key :: fs => Some (fs, EKey (done ++ [(key, v)]))
      | TPunct x5d, FArr done :: fs => Some (fs, EAfter (VArr (done ++ [v])))
      | TPunct x7d, FObj done key :: fs => Some (fs, EAfter (VObj (done ++ [(key, v)])))
      | _, _ => None
      end
  | EKey done => parse_key fs done t
  | EKeyOrEnd =>
      match t with
      | TPunct x7d => Some (fs, EAfter (VObj []))
      | _ => parse_key fs [] t
      end
  | EColon done key =>
      match t with
      | TPunct x3a => Some (FObj done key :: fs, EValue)
      | _ => None
      end
  end.

Fixpoint parse_tokens (st : list frame * expect) (ts : list token) : option value :=
  match ts with
  | [] => match st with ([], EAfter v) => Some v | _ => None end
  | t :: ts => match parse_step st t with None => None | Some st => parse_tokens st ts end
  end.

Definition parse (data : bytes) : option value :=
  match lex Between data with
  | None => None
  | Some ts => parse_tokens ([], EValue) ts
  end.

(** ** Assignment to a field of type [[]byte] *)

Inductive json_error :=
  | SyntaxError
  | UnmarshalTypeError
  | CorruptInputError (off : Z).

(** One element of an array of numbers: [uint8]; [null] leaves the zero. *)
Definition decode_uint8 (v : value) : byte * option json_error :=
  match v with
  | VNull => (x00, None)
  | VNum text =>
      match Strconv.ParseUint (string_of_bytes text) with
      | Ok n => if n <? 256 then (byte_of_Z n, None) else (x00, Some UnmarshalTypeError)
      | Err _ => (x00, Some UnmarshalTypeError)
      end
  | _ => (x00, Some UnmarshalTypeError)
  end.

(** The first error is kept; decoding goes on. *)
Definition first_error (e e' : option json_error) : option json_error :=
  match e with Some _ => e | None => e' end.

Definition decode_bytes (cur : option bytes) (v : value) : option bytes * option json_error :=
  match v with
  | VNull => (None, None)
  | VStr s =>
      match Base64.Decode s with
      | Ok b => (Some b, None)
      | Err off => (cur, Some (CorruptInputError off))
      end
  | VArr l =>
      let items := map decode_uint8 l in
      (Some (map fst items), foldl first_error None (map snd items))
  | VBool _ | VNum _ | VObj _ => (cur, Some UnmarshalTypeError)
  end.

(** Field names match whatever the case of their letters. *)
Definition fold_case (s : bytes) : list Z :=
  map (fun c => if in_range 65 90 c then byte_val c + 32 else byte_val c) s.

Definition names (field : string) (key : bytes) : bool :=
  bool_decide (fold_case (bytes_of_string field) = fold_case key).

Definition decode_struct (field : string) (v : value) : option bytes * option json_error :=
  match v with
  | VNull => (None, None)
  | VObj fields =>
      foldl (fun st kv =>
        if names field kv.1 then
          let (cur, e) := decode_bytes st.1 kv.2 in (cur, first_error st.2 e)
        else st) (None, None) fields
  | _ => (None, Some UnmarshalTypeError)
  end.

(** [json.Unmarshal(data, &v)] for a fresh [v] with the field. *)
Definition Unmarshal_field (field : string) (data : bytes) : result json_error (option bytes) :=
  match parse data with
  | None => Err SyntaxError
  | Some v =>
      match decode_struct field v with
      | (cur, None) => Ok cur
      | (_, Some e) => Err e
      end
  end.

End Unmarshal.

(** ** Lemmas *)

(** A byte that stands for itself in a string, both ways. *)
Definition plain (c : byte) : bool :=
  negb (bool_decide (c ∈ [x22; x5c; x3c; x3e; x26])) && (32 <=? byte_val c) && (byte_val c <? 128).

Lemma plain_byte c : plain c = true ->
  c <> x22 /\ c <> x5c /\ 32 <= byte_val c < 128 /\ Json.escape_ascii c = [c] /\
  Unmarshal.lex_step (Unmarshal.InStr []) c = Some ([], Unmarshal.InStr [c]).
Proof. destruct c; vm_compute; intros H; try discriminate H; repeat split; congruence. Qed.

Lemma escape_plain s : forallb plain s = true -> Json.escape s = s.
Proof.
  induction s as [|c s IH]; [done|]. simpl. intros [Hc Hs]%andb_prop.
  destruct (plain_byte c Hc) as (_ & _ & Hr & He & _).
  rewrite (proj2 (Z.ltb_lt _ _)) by lia. rewrite He, IH by done. done.
Qed.

Lemma unquote_plain s : forallb plain s = true -> Unmarshal.unquote s = Some s.
Proof.
  induction s as [|c s IH]; [done|]. intros [Hc Hs]%andb_prop.
  destruct (plain_byte c Hc) as (_ & Hne & Hr & _). cbn [Unmarshal.unquote].
  rewrite bool_decide_eq_false_2 by done.
  rewrite (proj2 (Z.ltb_ge (byte_val c) 32)), (proj2 (Z.ltb_lt (byte_val c) 128)) by lia.
  by rewrite IH.
Qed.

Lemma lex_plain s acc rest :
  forallb plain s = true ->
  Unmarshal.lex (Unmarshal.InStr acc) (s ++ x22 :: rest)
  = cons (Unmarshal.TStr (acc ++ s)) <$> Unmarshal.lex Unmarshal.Between rest.
Proof.
  revert acc. induction s as [|c s IH]; intros acc; simpl.
  - intros _. rewrite app_nil_r. by destruct (Unmarshal.lex _ rest).
  - intros [Hc Hs]%andb_prop. destruct (plain_byte c Hc) as (H1 & H2 & _).
    rewrite !bool_decide_eq_false_2 by done. rewrite IH by done. simpl.
    rewrite <- app_assoc. by destruct (Unmarshal.lex _ rest).
Qed.

Lemma encodeStd_plain v : 0 <= v < 64 -> plain (Base64.encodeStd v) = true.
Proof.
  intros Hv. assert (Hall : forallb (fun v => plain (Base64.encodeStd v)) (seqZ 0 64) = true)
    by (vm_compute; reflexivity).
  rewrite forallb_forall in Hall. apply Hall, list_elem_of_In, elem_of_seqZ. lia.
Qed.

Lemma sextet_plain val n : plain (Base64.sextet val n) = true.
Proof.
  apply encodeStd_plain. change 63 with (Z.ones 6). rewrite Z.land_ones by lia.
  change 64 with (2 ^ 6). apply Z.mod_pos_bound. lia.
Qed.

Lemma Encode_plain b : forallb plain (Base64.Encode b) = true.
Proof.
  assert (H : forall n b, (length b <= n)%nat -> forallb plain (Base64.Encode b) = true).
  { clear b. induction n as [|n IH]; intros [|a [|b [|c l]]] Hl; cbn [Base64.Encode forallb];
      rewrite ?sextet_plain; try reflexivity; cbn [length] in Hl; [lia|]. apply IH. lia. }
  by eapply H.
Qed.

Lemma lex_open s :
  Unmarshal.lex Unmarshal.Between (x7b :: x0a :: x20 :: x20 :: x22 :: s)
  = cons (Unmarshal.TPunct x7b) <$> Unmarshal.lex (Unmarshal.InStr []) s.
Proof. change s with ([] ++ s) at 1. simpl. by destruct (Unmarshal.lex _ s). Qed.

Lemma lex_colon s :
  Unmarshal.lex Unmarshal.Between (x3a :: x20 :: x22 :: s)
  = cons (Unmarshal.TPunct x3a) <$> Unmarshal.lex (Unmarshal.InStr []) s.
Proof. simpl. by destruct (Unmarshal.lex _ s). Qed.

Lemma names_refl field : Unmarshal.names field (bytes_of_string field) = true.
Proof. by apply bool_decide_eq_true_2. Qed.

(** What the encoder writes for a struct with one field of bytes is read back. *)
Theorem Unmarshal_MarshalIndent field code :
  forallb plain (bytes_of_string field) = true ->
  Unmarshal.Unmarshal_field field
    (Json.MarshalIndent (Json.JObj [(field, match code with
                                            | None => Json.JNull
                                            | Some c => Json.JStr (Base64.EncodeToString c)
                                            end)])) = Ok code.
Proof.
  intros Hf. unfold Json.MarshalIndent. simpl Json.print. unfold Json.quote.
  rewrite escape_plain by done. rewrite <- !app_assoc. simpl.
  unfold Unmarshal.Unmarshal_field, Unmarshal.parse.
  rewrite lex_open, lex_plain by done. destruct code as [c|].
  - simpl Json.print. unfold Json.quote, Base64.EncodeToString. rewrite bytes_of_string_of_bytes.
    rewrite escape_plain by apply Encode_plain. rewrite <- !app_assoc. simpl app.
    rewrite lex_colon, lex_plain by apply Encode_plain. simpl.
    rewrite (unquote_plain (bytes_of_string field)) by done. simpl.
    rewrite (unquote_plain (Base64.Encode c)) by apply Encode_plain. simpl.
    by rewrite names_refl, Base64.Decode_Encode.
  - simpl. rewrite (unquote_plain (bytes_of_string field)) by done. simpl. by rewrite names_refl.
Qed.

(** ** Examples *)

Definition unmarshal (data : string) : result Unmarshal.json_error (option bytes) :=
  Unmarshal.Unmarshal_field "code" (bytes_of_string data).

(** A text in which back-quotes stand for quotes. *)
Definition quotes (s : string) : string :=
  string_of_bytes (map (fun c => if bool_decide (c = x60) then x22 else c) (bytes_of_string s)).

Example unmarshal_case : unmarshal (quotes "{`CODE`: `Zm9v`}") = Ok (Some (bytes_of_string "foo")).
Proof. vm_compute. reflexivity. Qed.
Example unmarshal_escape : unmarshal (quotes "{`x`: [1, {}], `c\u006fde`: `Zm9\u0076`}") = Ok (Some (bytes_of_string "foo")).
Proof. vm_compute. reflexivity. Qed.
Example unmarshal_array : unmarshal (quotes "{`code`: [102, 111, null]}") = Ok (Some [x66; x6f; x00]).
Proof. vm_compute. reflexivity. Qed.
Example unmarshal_type : unmarshal (quotes "{`code`: 1.5e3}") = Err Unmarshal.UnmarshalTypeError.
Proof. vm_compute. reflexivity. Qed.
Example unmarshal_corrupt : unmarshal (quotes "{`code`: `Z*==`}") = Err (Unmarshal.CorruptInputError 1).
Proof. vm_compute. reflexivity. Qed.
Example unmarshal_syntax : unmarshal (quotes "{`code`: 01}") = Err Unmarshal.SyntaxError.
Proof. vm_compute. reflexivity. Qed.
Example unmarshal_trailing : unmarshal (quotes "{`code`: null,}") = Err Unmarshal.SyntaxError.
Proof. vm_compute. reflexivity. Qed.

Example unquote_pair : Unmarshal.unquote (bytes_of_string "\ud83d\ude00\ud83d!")
  = Some [xf0; x9f; x98; x80; xef; xbf; xbd; x21].
Proof. vm_compute. reflexivity. Qed.
