(* ===== verification/JsonText.v ===== *)
(** * JSON texts: what is written is read back

    The encoder of [Json.v] and the decoder of [Unmarshal.v] together: a string
    that is escaped and unquoted keeps its valid runes ([unquote_escape]); a text
    that spells a value, with or without indentation, is parsed to that value
    ([parse_MarshalIndent], [parse_compact]); and what is parsed holds well-formed
    numbers and strings only ([parse_proper]). *)

From S2P Require Import Prelude GoStd Base64 Json Unmarshal.
Import Json Unmarshal.

#[local] Set Warnings "-register-all".

(** ** Runes *)

(** The bytes of the rune that [utf8.DecodeRune] finds at the start, [None] at a
    byte that starts no valid one. *)
Definition rune_at (s : bytes) : option bytes :=
  match s with
  | a :: s1 =>
      if byte_val a <? 128 then Some [a]
      else
        match s1 with
        | b :: s2 =>
            if rune2 a b then Some [a; b]
            else
              match s2 with
              | c :: s3 =>
                  if rune3 a b c then Some [a; b; c]
                  else
                    match s3 with
                    | d :: _ => if rune4 a b c d then Some [a; b; c; d] else None
                    | [] => None
                    end
              | [] => None
              end
        | [] => None
        end
  | [] => None
  end.

Inductive is_rune : bytes -> Prop :=
  | rune_ascii a : byte_val a < 128 -> is_rune [a]
  | rune_2 a b : rune2 a b = true -> is_rune [a; b]
  | rune_3 a b c : rune3 a b c = true -> is_rune [a; b; c]
  | rune_4 a b c d : rune4 a b c d = true -> is_rune [a; b; c; d].

(** The first bytes of runes of different lengths differ. *)
Lemma rune2_first a b : rune2 a b = true -> 0xc2 <= byte_val a <= 0xdf.
Proof. unfold rune2, in_range. lia. Qed.
Lemma rune3_first a b c : rune3 a b c = true -> 0xe0 <= byte_val a <= 0xef.
Proof. unfold rune3, in_range. lia. Qed.
Lemma rune4_first a b c d : rune4 a b c d = true -> 0xf0 <= byte_val a <= 0xf4.
Proof. unfold rune4, in_range. lia. Qed.

Lemma rune2_false a b : 0xdf < byte_val a -> rune2 a b = false.
Proof. unfold rune2, in_range. lia. Qed.
Lemma rune3_false a b c : 0xef < byte_val a -> rune3 a b c = false.
Proof. unfold rune3, in_range. lia. Qed.

(** What a function that reads a string rune by rune does at a rune [r]. *)
Ltac at_rune :=
  intros; simpl;
  repeat match goal with
  | H : byte_val ?a < 128 |- _ => rewrite (proj2 (Z.ltb_lt (byte_val a) 128)) by exact H
  | H : rune2 ?a ?b = true |- _ =>
      pose proof (rune2_first _ _ H); rewrite (proj2 (Z.ltb_ge (byte_val a) 128)) by lia;
      rewrite H; clear H
  | H : rune3 ?a ?b ?c = true |- _ =>
      pose proof (rune3_first _ _ _ H); rewrite (proj2 (Z.ltb_ge (byte_val a) 128)) by lia;
      rewrite (rune2_false a b) by lia; rewrite H; clear H
  | H : rune4 ?a ?b ?c ?d = true |- _ =>
      pose proof (rune4_first _ _ _ _ H); rewrite (proj2 (Z.ltb_ge (byte_val a) 128)) by lia;
      rewrite (rune2_false a b), (rune3_false a b c) by lia; rewrite H; clear H
  end.

Lemma rune_at_rune r s : is_rune r -> rune_at (r ++ s) = Some r.
Proof. destruct 1; at_rune; reflexivity. Qed.

Lemma rune_at_inv s r : rune_at s = Some r -> is_rune r /\ exists s', s = r ++ s'.
Proof.
  unfold rune_at. intros H. repeat case_match; simplify_eq; split;
    try (by eexists); try by constructor.
  constructor. by apply Z.ltb_lt.
Qed.

(** A string is read rune by rune. *)
Lemma rune_ind (P : bytes -> Prop) :
  P [] ->
  (forall r s, is_rune r -> P s -> P (r ++ s)) ->
  (forall a s, rune_at (a :: s) = None -> P s -> P (a :: s)) ->
  forall s, P s.
Proof.
  intros Hnil Hrune Hbad s. remember (length s) as n eqn:E. revert s E.
  induction (lt_wf n) as [n _ IH]. intros [|a s] ->; [done|].
  destruct (rune_at (a :: s)) as [r|] eqn:Er.
  - destruct (rune_at_inv _ _ Er) as (Hr & s' & Hs). rewrite Hs. apply Hrune; [done|].
    eapply IH; [|reflexivity]. rewrite Hs, length_app. destruct Hr; simpl; lia.
  - apply Hbad; [done|]. eapply IH; [|reflexivity]. simpl. lia.
Qed.

(** [strings.ToValidUTF8] with the replacement character for every bad byte. *)
Fixpoint sanitize_loop (fuel : nat) (s : bytes) : bytes :=
  match fuel with
  | O => []
  | S fuel =>
      match rune_at s with
      | Some r => r ++ sanitize_loop fuel (drop (length r) s)
      | None =>
          match s with
          | [] => []
          | _ :: s => EncodeRune RuneError ++ sanitize_loop fuel s
          end
      end
  end.

Definition sanitize (s : bytes) : bytes := sanitize_loop (length s) s.

(** [utf8.Valid] *)
Definition Valid (s : bytes) : bool := bool_decide (sanitize s = s).

Lemma sanitize_loop_enough n s : (length s <= n)%nat -> sanitize_loop n s = sanitize s.
Proof.
  unfold sanitize. revert s. induction (lt_wf n) as [n _ IH]. intros [|a s] Hl.
  { by destruct n. }
  destruct n as [|n]; [simpl in Hl; lia|]. change (length (a :: s)) with (S (length s)).
  cbn [sanitize_loop]. destruct (rune_at (a :: s)) as [r|] eqn:Er.
  - destruct (rune_at_inv _ _ Er) as (Hr & s' & Hs). rewrite Hs, drop_app_length. f_equal.
    assert (length s' <= length s)%nat.
    { apply (f_equal length) in Hs. rewrite length_app in Hs. destruct Hr; simpl in *; lia. }
    rewrite (IH n) by (simpl in Hl; lia). symmetry. apply IH; simpl in Hl; lia.
  - f_equal. apply IH; simpl in Hl; lia.
Qed.

Lemma sanitize_nil : sanitize [] = [].
Proof. done. Qed.

Lemma sanitize_rune r s : is_rune r -> sanitize (r ++ s) = r ++ sanitize s.
Proof.
  intros Hr. pose proof (rune_at_rune r s Hr) as E. unfold sanitize at 1. rewrite length_app.
  destruct (length r) as [|n] eqn:El; [by destruct Hr|]. cbn [Nat.add sanitize_loop].
  rewrite E, drop_app_length. f_equal. apply sanitize_loop_enough. lia.
Qed.

Lemma sanitize_bad a s :
  rune_at (a :: s) = None -> sanitize (a :: s) = EncodeRune RuneError ++ sanitize s.
Proof. intros E. unfold sanitize at 1. cbn [length sanitize_loop]. by rewrite E. Qed.

(** ** Strings: escaping and unquoting *)

Definition escape_rune (r : bytes) : bytes :=
  match r with
  | [a] => escape_ascii a
  | [a; b; c] => escape3 a b c
  | r => r
  end.

Lemma escape_app_rune r s : is_rune r -> escape (r ++ s) = escape_rune r ++ escape s.
Proof. destruct 1; at_rune; reflexivity. Qed.

Lemma escape_bad a s : rune_at (a :: s) = None -> escape (a :: s) = replacement ++ escape s.
Proof.
  simpl. intros H. repeat (case_match; try discriminate H); reflexivity.
Qed.

(** [unquote] at a byte that is neither a backslash nor an ASCII byte. *)
Lemma unquote_beyond a s :
  128 <= byte_val a ->
  unquote (a :: s) = match rune_at (a :: s) with
                     | Some r => app r <$> unquote (drop (length r) (a :: s))
                     | None => app (EncodeRune RuneError) <$> unquote s
                     end.
Proof.
  intros Ha. unfold rune_at. cbn [unquote].
  rewrite (bool_decide_eq_false_2 (a = x5c)) by (intros ->; by apply Ha).
  rewrite (proj2 (Z.ltb_ge (byte_val a) 32)), (proj2 (Z.ltb_ge (byte_val a) 128)) by lia.
  by repeat case_match; simplify_eq.
Qed.

Lemma unquote_escape_ascii a s :
  byte_val a < 128 -> unquote (escape_ascii a ++ s) = cons a <$> unquote s.
Proof. intros Ha%Z.ltb_lt. destruct a; try discriminate Ha; reflexivity. Qed.

Lemma beyond_rune r : is_rune r ->
  (exists a, r = [a] /\ byte_val a < 128) \/ (exists a l, r = a :: l /\ 128 <= byte_val a).
Proof.
  destruct 1 as [a Ha|a b H|a b c H|a b c d H]; [left; eauto|right..]; repeat eexists.
  - apply rune2_first in H. lia.
  - apply rune3_first in H. lia.
  - apply rune4_first in H. lia.
Qed.

Lemma unquote_rune r s : is_rune r -> length r <> 1%nat -> unquote (r ++ s) = app r <$> unquote s.
Proof.
  intros Hr Hl. pose proof (rune_at_rune r s Hr) as E.
  destruct (beyond_rune r Hr) as [(a & -> & _)|(a & l & -> & Ha)]; [done|].
  simpl app in *. rewrite unquote_beyond, E by done. f_equal. f_equal.
  change (a :: l ++ s) with ((a :: l) ++ s). apply drop_app_length.
Qed.

Lemma unquote_escape_rune r s :
  is_rune r -> unquote (escape_rune r ++ s) = app r <$> unquote s.
Proof.
  intros Hr. pose proof Hr as Hr'. destruct Hr as [a Ha|a b H|a b c H|a b c d H]; unfold escape_rune.
  - by apply unquote_escape_ascii.
  - by apply unquote_rune.
  - unfold escape3. do 2 (case_bool_decide; [simplify_eq; reflexivity|]). by apply unquote_rune.
  - by apply unquote_rune.
Qed.

(** Unquoting what was escaped gives the string with its bad bytes replaced. *)
Lemma unquote_escape s : unquote (escape s) = Some (sanitize s).
Proof.
  induction s as [|r s Hr IH|a s Hb IH] using rune_ind; [done| |].
  - by rewrite escape_app_rune, unquote_escape_rune, IH, sanitize_rune.
  - rewrite escape_bad, sanitize_bad by done.
    change (app (EncodeRune RuneError) <$> unquote (escape s) = Some (EncodeRune RuneError ++ sanitize s)).
    by rewrite IH.
Qed.

(** A code point that is no surrogate. *)
Definition scalar_value (r : Z) : Prop := 0 <= r < 0xd800 \/ 0xe000 <= r < 0x110000.

Lemma EncodeRune_rune r : scalar_value r -> is_rune (EncodeRune r).
Proof.
  intros Hr. unfold EncodeRune.
  assert (Hlow : forall n, 0 <= n -> Z.land (Z.shiftr r n) 63 = (r / 2 ^ n) mod 64).
  { intros n Hn. change 63 with (Z.ones 6). by rewrite Z.land_ones, Z.shiftr_div_pow2. }
  rewrite !Hlow, !Z.shiftr_div_pow2 by lia. unfold scalar_value in Hr.
  change (2 ^ 0) with 1. change (2 ^ 6) with 64. change (2 ^ 12) with 4096. change (2 ^ 18) with 262144.
  destruct (Z.ltb_spec r 128); [|destruct (Z.ltb_spec r 2048); [|destruct (Z.ltb_spec r 65536)]].
  - constructor. rewrite byte_val_of_Z. Z.to_euclidean_division_equations; lia.
  - constructor. unfold rune2, in_range. rewrite !byte_val_of_Z. Z.to_euclidean_division_equations; lia.
  - constructor. unfold rune3, in_range. rewrite !byte_val_of_Z. Z.to_euclidean_division_equations; lia.
  - constructor. unfold rune4, in_range. rewrite !byte_val_of_Z. Z.to_euclidean_division_equations; lia.
Qed.

Lemma hex_val_range c v : hex_val c = Some v -> 0 <= v < 16.
Proof. destruct c; vm_compute; intros [= <-]; split; congruence. Qed.

Lemma getu4_range a b c d r : getu4 a b c d = Some r -> 0 <= r < 65536.
Proof.
  unfold getu4. intros H. repeat case_match; simplify_eq.
  repeat match goal with H : hex_val _ = Some _ |- _ => apply hex_val_range in H end. lia.
Qed.

Lemma getu4_scalar a b c d r : getu4 a b c d = Some r -> is_surrogate r = false -> scalar_value r.
Proof. intros H%getu4_range Hs. unfold is_surrogate in Hs. unfold scalar_value. lia. Qed.

Lemma decode_pair_scalar r1 r2 r : decode_pair r1 r2 = Some r -> scalar_value r.
Proof. unfold decode_pair, scalar_value. intros H. case_match; simplify_eq. lia. Qed.

Lemma escaped_ascii c c' : escaped c = Some c' -> byte_val c' < 128.
Proof. destruct c; intros [= <-]; vm_compute; done. Qed.

Lemma RuneError_rune : is_rune (EncodeRune RuneError).
Proof. apply EncodeRune_rune. right. unfold RuneError. lia. Qed.

(** What [unquote] yields is a sequence of runes. *)
Inductive unquoted : bytes -> bytes -> Prop :=
  | unquoted_nil : unquoted [] []
  | unquoted_rune s r s' t : is_rune r -> (length s' < length s)%nat -> unquote s' = Some t -> unquoted s (r ++ t).

Lemma unquoted_app s r s' t :
  is_rune r -> (length s' < length s)%nat -> app r <$> unquote s' = Some t -> unquoted s t.
Proof.
  intros Hr Hl H. destruct (unquote s') as [t'|] eqn:E; [|done]. injection H as <-.
  by eapply unquoted_rune.
Qed.

Lemma unquote_inv s t : unquote s = Some t -> unquoted s t.
Proof.
  destruct s as [|a s1]; [intros [= <-]; constructor|]. cbn [unquote]. intros H.
  repeat (case_match; try discriminate H);
    try match type of H with cons ?c <$> ?o = _ => change (app [c] <$> o = Some t) in H end;
    eapply unquoted_app in H;
    try exact H; try (simpl; lia); simplify_eq;
    eauto using RuneError_rune, EncodeRune_rune, getu4_scalar, escaped_ascii, is_rune.
  - match goal with H : context [decode_pair] |- _ => apply bind_Some in H as (r2 & _ & Hd) end.
    eauto using EncodeRune_rune, decode_pair_scalar.
  - constructor. lia.
Qed.

Lemma unquote_sanitized s t : unquote s = Some t -> sanitize t = t.
Proof.
  remember (length s) as n eqn:En. revert s t En. induction (lt_wf n) as [n _ IH].
  intros s t -> Hs. destruct (unquote_inv s t Hs) as [|s r s' t Hr Hl Ht]; [done|].
  rewrite sanitize_rune by done. f_equal. by eapply IH.
Qed.

Lemma sanitize_sanitize s : sanitize (sanitize s) = sanitize s.
Proof. eapply unquote_sanitized, unquote_escape. Qed.

(** *** In the scanner *)

Lemma lex_quiet st c st' s : lex_step st c = Some ([], st') -> lex st (c :: s) = lex st' s.
Proof. intros H. simpl. rewrite H. by destruct (lex st' s). Qed.

Lemma lex_emit st c ts st' s : lex_step st c = Some (ts, st') -> lex st (c :: s) = app ts <$> lex st' s.
Proof. intros H. simpl. by rewrite H. Qed.

(** Bytes of a string the scanner takes one by one. *)
Lemma lex_beyond acc r s :
  Forall (fun c => c <> x22 /\ c <> x5c) r -> lex (InStr acc) (r ++ s) = lex (InStr (acc ++ r)) s.
Proof.
  intros Hr. revert acc. induction Hr as [|c r [H1 H2] _ IH]; intros acc; [by rewrite app_nil_r|].
  cbn [app]. rewrite (lex_quiet _ _ (InStr (acc ++ [c]))), IH.
  - by rewrite <- app_assoc.
  - simpl. by rewrite !bool_decide_eq_false_2.
Qed.

Lemma beyond_plain a : 128 <= byte_val a -> a <> x22 /\ a <> x5c.
Proof. intros Ha. split; intros ->; by apply Ha. Qed.

Lemma lex_esc acc c s : lex (InStr acc) (x5c :: c :: s) = lex (InStr (acc ++ [x5c; c])) s.
Proof.
  rewrite (lex_quiet _ _ (InEsc (acc ++ [x5c]))) by done.
  rewrite (lex_quiet _ _ (InStr ((acc ++ [x5c]) ++ [c]))) by done. by rewrite <- app_assoc.
Qed.

(** No byte of [r] ends a string or starts an escape. *)
Definition in_string (r : bytes) : bool := forallb (fun c => negb (one_of [x22; x5c] c)) r.

Lemma lex_in_string acc r s : in_string r = true -> lex (InStr acc) (r ++ s) = lex (InStr (acc ++ r)) s.
Proof.
  intros Hr. apply lex_beyond. unfold in_string in Hr. rewrite forallb_forall in Hr.
  apply Forall_forall. intros c Hc%Hr%negb_true_iff.
  apply bool_decide_eq_false in Hc. split; intros ->; apply Hc; set_solver.
Qed.

Lemma escape_ascii_shape a : byte_val a < 128 ->
  in_string (escape_ascii a) = true \/
  (exists c l, escape_ascii a = x5c :: c :: l /\ in_string l = true).
Proof.
  intros Ha%Z.ltb_lt.
  destruct a; try discriminate Ha; first [by left|right; do 2 eexists; split; reflexivity].
Qed.

Lemma lex_escape_rune acc r s :
  is_rune r -> lex (InStr acc) (escape_rune r ++ s) = lex (InStr (acc ++ escape_rune r)) s.
Proof.
  intros Hr. destruct (beyond_rune r Hr) as [(a & -> & Ha)|(a & l & Hal & Ha)].
  - simpl escape_rune. destruct (escape_ascii_shape a Ha) as [Hi|(c & l & -> & Hl)].
    + by apply lex_in_string.
    + cbn [app]. rewrite lex_esc, lex_in_string by done. by rewrite <- app_assoc.
  - assert (Hbeyond : Forall (fun c => 128 <= byte_val c) r).
    { destruct Hr as [b Hb|b c H|b c d H|b c d e H]; [simplify_eq; lia|..];
        unfold rune2, rune3, rune4, in_range in H; repeat constructor; lia. }
    assert (Hlex : lex (InStr acc) (r ++ s) = lex (InStr (acc ++ r)) s).
    { apply lex_beyond. eapply Forall_impl; [|exact Hbeyond]. intros c. apply beyond_plain. }
    destruct Hr as [b|b c|b c d|b c d e]; try done; [simplify_eq; lia|].
    unfold escape_rune, escape3.
    case_bool_decide.
    { change (lex (InStr acc) (x5c :: x75 :: [x32; x30; x32; x38] ++ s) = lex (InStr (acc ++ [x5c; x75] ++ [x32; x30; x32; x38])) s).
      by rewrite lex_esc, lex_in_string, <- app_assoc. }
    case_bool_decide; [|done].
    change (lex (InStr acc) (x5c :: x75 :: [x32; x30; x32; x39] ++ s) = lex (InStr (acc ++ [x5c; x75] ++ [x32; x30; x32; x39])) s).
    by rewrite lex_esc, lex_in_string, <- app_assoc.
Qed.

Lemma lex_escape acc s rest :
  lex (InStr acc) (escape s ++ x22 :: rest) = cons (TStr (acc ++ escape s)) <$> lex Between rest.
Proof.
  revert acc. induction s as [|r s Hr IH|a s Hb IH] using rune_ind; intros acc.
  - rewrite app_nil_r. cbn [escape app]. by rewrite (lex_emit _ _ [TStr acc] Between).
  - rewrite escape_app_rune by done. rewrite <- app_assoc, lex_escape_rune, IH by done.
    by rewrite <- app_assoc.
  - rewrite escape_bad by done.
    change (replacement ++ escape s) with (x5c :: x75 :: [x66; x66; x66; x64] ++ escape s).
    change ((x5c :: x75 :: [x66; x66; x66; x64] ++ escape s) ++ x22 :: rest)
      with (x5c :: x75 :: [x66; x66; x66; x64] ++ escape s ++ x22 :: rest).
    rewrite lex_esc, (lex_in_string _ [x66; x66; x66; x64]), IH by done. by rewrite <- !app_assoc.
Qed.

(** A quoted string, in a text. *)
Lemma lex_quote s rest :
  lex Between (quote s ++ rest) = cons (TStr (escape (bytes_of_string s))) <$> lex Between rest.
Proof.
  unfold quote. rewrite <- app_assoc. cbn [app]. rewrite (lex_quiet _ _ (InStr [])) by done.
  rewrite <- app_assoc. apply (lex_escape []).
Qed.

(** ** Numbers and words *)

(** What may follow a number or a word. *)
Definition delim (rest : bytes) : bool :=
  match rest with [] => true | c :: _ => negb (num_char c) && negb (is_lower c) end.

Lemma lex_num_end acc rest :
  delim rest = true -> lex (InNum acc) rest = cons (TNum acc) <$> lex Between rest.
Proof.
  destruct rest as [|c rest]; [done|]. simpl. intros [Hn%negb_true_iff _]%andb_prop. rewrite Hn.
  destruct (lex_start c) as [[ts st]|]; [|done]. simpl. by destruct (lex st rest).
Qed.

Lemma lex_word_end acc rest :
  delim rest = true -> lex (InWord acc) rest = cons (TWord acc) <$> lex Between rest.
Proof.
  destruct rest as [|c rest]; [done|]. simpl. intros [_ Hn%negb_true_iff]%andb_prop. rewrite Hn.
  destruct (lex_start c) as [[ts st]|]; [|done]. simpl. by destruct (lex st rest).
Qed.

Lemma lex_num_chars acc text rest :
  forallb num_char text = true -> lex (InNum acc) (text ++ rest) = lex (InNum (acc ++ text)) rest.
Proof.
  revert acc. induction text as [|c text IH]; intros acc; [by rewrite app_nil_r|].
  intros [Hc Ht]%andb_prop. cbn [app]. rewrite (lex_quiet _ _ (InNum (acc ++ [c]))), IH by (simpl; by rewrite ?Hc).
  by rewrite <- app_assoc.
Qed.

Lemma num_step_bad c st : num_char c = false -> num_step st c = NBad.
Proof. destruct c; intros H; try discriminate H; by destruct st. Qed.

Lemma fold_bad text : fold_left num_step text NBad = NBad.
Proof. by induction text. Qed.

Lemma valid_number_chars text st :
  fold_left num_step text st <> NBad -> forallb num_char text = true.
Proof.
  revert st. induction text as [|c text IH]; intros st H; [done|]. simpl in *.
  destruct (num_char c) eqn:E; [by eapply IH|]. by rewrite (num_step_bad c st E), fold_bad in H.
Qed.

Lemma num_start_step c :
  num_step NBegin c <> NBad -> lex_start c = Some ([], InNum [c]).
Proof. destruct c; vm_compute; congruence. Qed.

Lemma lex_number text rest :
  valid_number text = true -> delim rest = true ->
  lex Between (text ++ rest) = cons (TNum text) <$> lex Between rest.
Proof.
  unfold valid_number. intros Hv Hd.
  assert (Hne : fold_left num_step text NBegin <> NBad) by by intros E; rewrite E in Hv.
  destruct text as [|c text]; [discriminate Hv|]. cbn [app].
  rewrite (lex_quiet _ _ (InNum [c])).
  - rewrite lex_num_chars, lex_num_end; [done..|]. by eapply valid_number_chars.
  - apply num_start_step. intros E. apply Hne. cbn [fold_left]. by rewrite E, fold_bad.
Qed.

Lemma digit_text d : 0 <= d < 10 ->
  exists c, bytes_of_string (String (Strconv.digit_char d) EmptyString) = [c] /\
    is_digit c = true /\ num_step NBegin c = (if d =? 0 then NZero else NInt).
Proof.
  intros Hd. assert (Hc : d ∈ seqZ 0 10) by (apply elem_of_seqZ; lia).
  vm_compute in Hc. repeat (apply elem_of_cons in Hc as [->|Hc]; [by eexists|]). by apply not_elem_of_nil in Hc.
Qed.

Lemma format_valid fuel n :
  fuel <> O -> 0 <= n < 10 ^ Z.of_nat fuel ->
  fold_left num_step (bytes_of_string (Strconv.format fuel n)) NBegin = (if n =? 0 then NZero else NInt).
Proof.
  revert n. induction fuel as [|fuel IH]; intros n Hf Hn; [done|]. cbn [Strconv.format].
  rewrite Nat2Z.inj_succ, Z.pow_succ_r in Hn by lia. destruct (Z.ltb_spec n 10).
  - destruct (digit_text n) as (c & -> & _ & Hs); [lia|]. done.
  - assert (Hdm := Z.div_mod n 10). assert (Hm := Z.mod_pos_bound n 10).
    destruct (digit_text (n mod 10)) as (c & Ec & Hc & _); [lia|].
    rewrite bytes_of_string_append, Ec, fold_left_app, IH.
    + rewrite (proj2 (Z.eqb_neq (n / 10) 0)), (proj2 (Z.eqb_neq n 0)) by lia. simpl. by rewrite Hc.
    + intros ->. simpl in Hn. lia.
    + split; [lia|]. apply Z.div_lt_upper_bound; lia.
Qed.

Lemma FormatUint_valid n : is_u64 n -> valid_number (bytes_of_string (Strconv.FormatUint n)) = true.
Proof.
  intros [H0 H1]. unfold valid_number, Strconv.FormatUint. rewrite format_valid; [by destruct (n =? 0)|done|].
  unfold two64 in H1. change (10 ^ Z.of_nat 20) with 100000000000000000000. lia.
Qed.

(** ** Texts that spell a value *)

Lemma value_ind' (P : value -> Prop) :
  P VNull -> (forall b, P (VBool b)) -> (forall t, P (VNum t)) -> (forall s, P (VStr s)) ->
  (forall l, Forall P l -> P (VArr l)) -> (forall fs, Forall (fun kv => P kv.2) fs -> P (VObj fs)) ->
  forall v, P v.
Proof.
  intros Hnull Hbool Hnum Hstr Harr Hobj. fix go 1. intros [|b|t|s|l|fs]; [done|auto..| |].
  - apply Harr. induction l as [|v l IH]; constructor; [apply go|done].
  - apply Hobj. induction fs as [|[k v] fs IH]; constructor; [apply go|done].
Qed.

Definition commas (tss : list (list token)) : list token :=
  match tss with [] => [] | ts :: tss => ts ++ concat (map (cons (TPunct x2c)) tss) end.

(** The tokens of a value. *)
Fixpoint tokens (v : value) : list token :=
  match v with
  | VNull => [TWord (bytes_of_string "null")]
  | VBool true => [TWord (bytes_of_string "true")]
  | VBool false => [TWord (bytes_of_string "false")]
  | VNum text => [TNum text]
  | VStr s => [TStr (escape s)]
  | VArr l => TPunct x5b :: commas (map tokens l) ++ [TPunct x5d]
  | VObj fs =>
      TPunct x7b :: commas (map (fun kv => TStr (escape kv.1) :: TPunct x3a :: tokens kv.2) fs)
        ++ [TPunct x7d]
  end.

Fixpoint numbers_valid (v : value) : bool :=
  match v with
  | VNum text => valid_number text
  | VArr l => forallb numbers_valid l
  | VObj fs => forallb (fun kv => numbers_valid kv.2) fs
  | _ => true
  end.

(** The value as it is read back: bad bytes in strings replaced. *)
Fixpoint clean (v : value) : value :=
  match v with
  | VStr s => VStr (sanitize s)
  | VArr l => VArr (map clean l)
  | VObj fs => VObj (map (fun kv => (sanitize kv.1, clean kv.2)) fs)
  | v => v
  end.

(** [text] spells the tokens [ts] wherever something that delimits it follows. *)
Definition spells (text : bytes) (ts : list token) : Prop :=
  forall rest, delim rest = true -> lex Between (text ++ rest) = app ts <$> lex Between rest.

Lemma fmap_app_nil (o : option (list token)) : app [] <$> o = o.
Proof. by destruct o. Qed.

Lemma fmap_app_app (ts ts' : list token) (o : option (list token)) :
  app ts <$> (app ts' <$> o) = app (ts ++ ts') <$> o.
Proof. destruct o; [|done]. simpl. by rewrite app_assoc. Qed.

Lemma spells_number text : valid_number text = true -> spells text [TNum text].
Proof. intros Hv rest Hd. by rewrite lex_number. Qed.

Lemma spells_quote s : spells (quote s) [TStr (escape (bytes_of_string s))].
Proof. intros rest _. apply lex_quote. Qed.

Lemma lex_word_chars acc text rest :
  forallb is_lower text = true -> lex (InWord acc) (text ++ rest) = lex (InWord (acc ++ text)) rest.
Proof.
  revert acc. induction text as [|c text IH]; intros acc; [by rewrite app_nil_r|].
  intros [Hc Ht]%andb_prop. cbn [app]. rewrite (lex_quiet _ _ (InWord (acc ++ [c]))), IH by (simpl; by rewrite ?Hc).
  by rewrite <- app_assoc.
Qed.

Lemma spells_word c w :
  lex_start c = Some ([], InWord [c]) -> forallb is_lower w = true -> spells (c :: w) [TWord (c :: w)].
Proof.
  intros Hc Hw rest Hd. cbn [app]. rewrite (lex_quiet _ _ (InWord [c])) by done.
  by rewrite lex_word_chars, lex_word_end.
Qed.

Lemma lex_space ws rest : forallb is_space ws = true -> lex Between (ws ++ rest) = lex Between rest.
Proof.
  induction ws as [|c ws IH]; [done|]. intros [Hc Hws]%andb_prop. cbn [app].
  rewrite (lex_quiet _ _ Between), IH; [done..|]. simpl. unfold lex_start. by rewrite Hc.
Qed.

Lemma lex_punct c rest : is_punct c = true -> lex Between (c :: rest) = cons (TPunct c) <$> lex Between rest.
Proof.
  intros Hc. apply (lex_emit _ _ [TPunct c]). simpl. unfold lex_start. rewrite Hc.
  by destruct c; try discriminate Hc.
Qed.

Lemma space_delim ws c rest :
  forallb is_space ws = true -> is_punct c = true -> delim (ws ++ c :: rest) = true.
Proof.
  intros Hws Hc. destruct ws as [|w ws]; simpl.
  - destruct c; try discriminate Hc; reflexivity.
  - apply andb_prop in Hws as [Hw _]. destruct w; try discriminate Hw; reflexivity.
Qed.

(** Brackets around items, with the given spaces before each item and before the
    closing bracket. *)
Definition enclose (op cl : byte) (ws ws' : bytes) (items : list bytes) : bytes :=
  match items with
  | [] => [op; cl]
  | x :: l => op :: ws ++ x ++ concat (map (fun y => x2c :: ws ++ y) l) ++ ws' ++ [cl]
  end.

Lemma spells_enclose op cl ws ws' items tss :
  is_punct op = true -> is_punct cl = true ->
  forallb is_space ws = true -> forallb is_space ws' = true -> Forall2 spells items tss ->
  spells (enclose op cl ws ws' items) (TPunct op :: commas tss ++ [TPunct cl]).
Proof.
  intros Hop Hcl Hws Hws' Hitems rest _. destruct Hitems as [|x ts l tss Hx Hl].
  - cbn [enclose app commas]. rewrite !lex_punct by done. by rewrite <- option_fmap_compose.
  - assert (Htail : forall l tss, Forall2 spells l tss ->
      delim (concat (map (fun y => x2c :: ws ++ y) l) ++ ws' ++ cl :: rest) = true /\
      lex Between (concat (map (fun y => x2c :: ws ++ y) l) ++ ws' ++ cl :: rest)
      = app (concat (map (cons (TPunct x2c)) tss) ++ [TPunct cl]) <$> lex Between rest).
    { clear -Hcl Hws Hws'. induction 1 as [|y ts l tss Hy _ [IHd IH]].
      - split; [by apply space_delim|]. cbn [map concat app]. by rewrite lex_space, lex_punct.
      - split; [done|]. cbn [map concat app]. rewrite <- !app_assoc, lex_punct, lex_space, Hy, IH by done.
        destruct (lex Between rest); [|done]. simpl. by rewrite <- !app_assoc. }
    destruct (Htail l tss Hl) as [Hd Ht]. cbn [enclose commas app]. rewrite <- !app_assoc. cbn [app].
    rewrite lex_punct, lex_space, Hx, Ht by done.
    destruct (lex Between rest); [|done]. simpl. by rewrite <- !app_assoc.
Qed.

Lemma spells_field k ws text ts :
  forallb is_space ws = true -> spells text ts ->
  spells (quote k ++ x3a :: ws ++ text) (TStr (escape (bytes_of_string k)) :: TPunct x3a :: ts).
Proof.
  intros Hws Ht rest Hd. rewrite <- app_assoc, lex_quote. cbn [app].
  rewrite lex_punct, <- app_assoc, lex_space, Ht by done. by destruct (lex Between rest).
Qed.

(** ** Parsing the tokens of a value *)

Fixpoint run (st : list frame * expect) (ts : list token) : option (list frame * expect) :=
  match ts with
  | [] => Some st
  | t :: ts => match parse_step st t with None => None | Some st => run st ts end
  end.

Lemma run_app st ts ts' :
  run st (ts ++ ts') = match run st ts with None => None | Some st => run st ts' end.
Proof. revert st. induction ts as [|t ts IH]; intros st; simpl; [done|]. by case_match. Qed.

Lemma run_parse st ts v : run st ts = Some ([], EAfter v) -> parse_tokens st ts = Some v.
Proof.
  revert st. induction ts as [|t ts IH]; intros st; simpl; [by intros [= ->]|]. case_match; [|done]. apply IH.
Qed.

Definition wants_value (ex : expect) : Prop := ex = EValue \/ ex = EValueOrEnd.

(** The tokens [ts] are those of a value that is read as [v]. *)
Definition reads (ts : list token) (v : value) : Prop :=
  forall fs ex, wants_value ex -> run (fs, ex) ts = Some (fs, EAfter v).

Lemma run_items fs acc v l vs :
  Forall2 reads l vs ->
  run (FArr acc :: fs, EAfter v) (concat (map (cons (TPunct x2c)) l) ++ [TPunct x5d])
  = Some (fs, EAfter (VArr (acc ++ v :: vs))).
Proof.
  intros Hl. revert acc v. induction Hl as [|ts w l vs Hts _ IH]; intros acc v; [done|].
  cbn [map concat app]. cbn [run parse_step]. rewrite <- app_assoc, run_app, (Hts _ EValue) by by left.
  rewrite IH. by rewrite <- app_assoc.
Qed.

Lemma reads_array l vs :
  Forall2 reads l vs -> reads (TPunct x5b :: commas l ++ [TPunct x5d]) (VArr vs).
Proof.
  intros Hl fs ex Hex.
  assert (E : parse_step (fs, ex) (TPunct x5b) = Some (FArr [] :: fs, EValueOrEnd)) by by destruct Hex as [-> | ->].
  cbn [run]. rewrite E. destruct Hl as [|ts v l vs Hts Hl]; [done|].
  cbn [commas]. rewrite <- app_assoc, run_app, Hts by by right. by apply (run_items fs []).
Qed.

Definition field_tokens (kt : bytes * list token) : list token :=
  TStr (escape kt.1) :: TPunct x3a :: kt.2.

(** The fields [l] are read as [fields]. *)
Definition reads_field (kt : bytes * list token) (kv : bytes * value) : Prop :=
  kv.1 = sanitize kt.1 /\ reads kt.2 kv.2.

Lemma run_fields fs acc k v l kvs :
  Forall2 reads_field l kvs ->
  run (FObj acc k :: fs, EAfter v) (concat (map (cons (TPunct x2c)) (map field_tokens l)) ++ [TPunct x7d])
  = Some (fs, EAfter (VObj (acc ++ (k, v) :: kvs))).
Proof.
  intros Hl. revert acc k v. induction Hl as [|[k' ts] [k2 w] l kvs [Hk Hts] _ IH]; intros acc k v; [done|].
  simpl in Hk. subst k2. cbn [map concat app field_tokens fst snd run parse_step parse_key].
  rewrite unquote_escape. cbn [fmap option_fmap option_map parse_step].
  rewrite <- app_assoc, run_app, (Hts _ EValue) by by left.
  rewrite IH. by rewrite <- app_assoc.
Qed.

Lemma reads_object l kvs :
  Forall2 reads_field l kvs ->
  reads (TPunct x7b :: commas (map field_tokens l) ++ [TPunct x7d]) (VObj kvs).
Proof.
  intros Hl fs ex Hex.
  assert (E : parse_step (fs, ex) (TPunct x7b) = Some (fs, EKeyOrEnd)) by by destruct Hex as [-> | ->].
  cbn [run]. rewrite E. destruct Hl as [|[k ts] [k' v] l kvs [Hk Hts] Hl]; [done|].
  simpl in Hk. subst k'. cbn [map commas field_tokens app fst snd run parse_step parse_key].
  rewrite unquote_escape. cbn [fmap option_fmap option_map parse_step].
  rewrite <- app_assoc, run_app, (Hts _ EValue) by by left. by apply (run_fields fs []).
Qed.

Lemma reads_scalar t v : (forall c, t <> TPunct c) -> scalar t = Some v -> reads [t] v.
Proof.
  intros Ht Hs fs ex Hex. cbn [run].
  assert (E : parse_value fs t = Some (fs, EAfter v)).
  { destruct t as [c|w|text|raw]; [by destruct (Ht c)|..]; cbn [parse_value]; by rewrite Hs. }
  assert (Hstep : parse_step (fs, ex) t = parse_value fs t).
  { destruct Hex as [-> | ->]; [done|]. by destruct t as [c|w|text|raw]; [destruct (Ht c)|..]. }
  by rewrite Hstep, E.
Qed.

Lemma reads_tokens v : numbers_valid v = true -> reads (tokens v) (clean v).
Proof.
  induction v as [|b|text|s|l IH|fs IH] using value_ind'; intros Hv.
  - by apply reads_scalar.
  - destruct b; by apply reads_scalar.
  - apply reads_scalar; [done|]. simpl in *. by rewrite Hv.
  - apply reads_scalar; [done|]. simpl. by rewrite unquote_escape.
  - apply reads_array. simpl in Hv. rewrite forallb_forall in Hv.
    apply Forall2_fmap, Forall_Forall2_diag. rewrite list.Forall_forall in IH |- *.
    intros v Hin. apply IH, Hv, list_elem_of_In; done.
  - cbn [tokens clean].
    rewrite <- (map_map (fun kv => (kv.1, tokens kv.2)) field_tokens). apply reads_object.
    simpl in Hv. rewrite forallb_forall in Hv.
    apply Forall2_fmap, Forall_Forall2_diag. rewrite list.Forall_forall in IH |- *.
    intros kv Hin. split; [done|]. apply IH, Hv, list_elem_of_In; done.
Qed.

(** A text that spells the tokens of a value parses to it. *)
Lemma parse_spelled text v :
  numbers_valid v = true -> spells text (tokens v) -> parse text = Some (clean v).
Proof.
  intros Hv Ht. unfold parse. rewrite <- (app_nil_r text), Ht by done. cbn [lex lex_end fmap option_fmap option_map].
  rewrite app_nil_r. apply run_parse. by apply (reads_tokens v Hv []); left.
Qed.

(** ** The two printers *)

(** [json.Marshal]: no spaces. *)
Fixpoint compact (v : value) : bytes :=
  match v with
  | VNull => bytes_of_string "null"
  | VBool true => bytes_of_string "true"
  | VBool false => bytes_of_string "false"
  | VNum text => text
  | VStr s => quote (string_of_bytes s)
  | VArr l => enclose x5b x5d [] [] (map compact l)
  | VObj fs => enclose x7b x7d [] [] (map (fun kv => quote (string_of_bytes kv.1) ++ x3a :: [] ++ compact kv.2) fs)
  end.

Lemma spells_null : spells (bytes_of_string "null") [TWord (bytes_of_string "null")].
Proof. by apply spells_word. Qed.
Lemma spells_true : spells (bytes_of_string "true") [TWord (bytes_of_string "true")].
Proof. by apply spells_word. Qed.
Lemma spells_false : spells (bytes_of_string "false") [TWord (bytes_of_string "false")].
Proof. by apply spells_word. Qed.

Lemma spells_string s : spells (quote (string_of_bytes s)) [TStr (escape s)].
Proof. rewrite <- (bytes_of_string_of_bytes s) at 2. apply spells_quote. Qed.

Create HintDb spells discriminated.
#[local] Hint Resolve spells_null spells_true spells_false spells_string spells_number spells_quote : spells.

Lemma spells_compact v : numbers_valid v = true -> spells (compact v) (tokens v).
Proof.
  induction v as [|b|text|s|l IH|fs IH] using value_ind'; intros Hv; simpl in Hv.
  - apply spells_null.
  - destruct b; [apply spells_true|apply spells_false].
  - by apply spells_number.
  - apply spells_string.
  - apply spells_enclose; [done..|]. rewrite forallb_forall in Hv.
    apply Forall2_fmap, Forall_Forall2_diag. rewrite list.Forall_forall in IH |- *.
    intros v Hin. apply IH, Hv, list_elem_of_In; done.
  - apply spells_enclose; [done..|]. rewrite forallb_forall in Hv.
    apply Forall2_fmap, Forall_Forall2_diag. rewrite list.Forall_forall in IH |- *.
    intros [k v] Hin. cbn [fst snd]. rewrite <- (bytes_of_string_of_bytes k) at 2.
    apply spells_field; [done|]. apply (IH (k, v)), (Hv (k, v)), list_elem_of_In; done.
Qed.

Theorem parse_compact v : numbers_valid v = true -> parse (compact v) = Some (clean v).
Proof. intros Hv. by apply parse_spelled, spells_compact. Qed.

Lemma json_ind' (P : json -> Prop) :
  P JNull -> (forall n, P (JNum n)) -> (forall s, P (JStr s)) ->
  (forall l, Forall P l -> P (JArr l)) -> (forall fs, Forall (fun kv => P kv.2) fs -> P (JObj fs)) ->
  forall j, P j.
Proof.
  intros Hnull Hnum Hstr Harr Hobj. fix go 1. intros [|n|s|l|fs]; [done|auto..| |].
  - apply Harr. induction l as [|v l IH]; constructor; [apply go|done].
  - apply Hobj. induction fs as [|[k v] fs IH]; constructor; [apply go|done].
Qed.

(** What the program marshals, as the value a reader sees. *)
Fixpoint to_value (j : json) : value :=
  match j with
  | JNull => VNull
  | JNum n => VNum (bytes_of_string (Strconv.FormatUint n))
  | JStr s => VStr (bytes_of_string s)
  | JArr l => VArr (map to_value l)
  | JObj fs => VObj (map (fun kv => (bytes_of_string kv.1, to_value kv.2)) fs)
  end.

(** Its numbers are 64 bit ones. *)
Fixpoint u64_numbers (j : json) : Prop :=
  match j with
  | JNum n => is_u64 n
  | JArr l => foldr and True (map u64_numbers l)
  | JObj fs => foldr and True (map (fun kv => u64_numbers kv.2) fs)
  | _ => True
  end.

Lemma foldr_and_Forall {A} (P : A -> Prop) l : foldr and True (map P l) <-> Forall P l.
Proof. induction l as [|x l IH]; simpl; [done|]. rewrite list.Forall_cons. tauto. Qed.

Lemma to_value_valid j : u64_numbers j -> numbers_valid (to_value j) = true.
Proof.
  induction j as [|n|s|l IH|fs IH] using json_ind'; simpl; [done|apply FormatUint_valid|done|..];
    intros Hu%foldr_and_Forall; rewrite list.Forall_forall in IH, Hu; apply forallb_forall.
  - intros v (j & <- & Hin)%in_map_iff. apply list_elem_of_In in Hin. auto.
  - intros kv (j & <- & Hin)%in_map_iff. apply list_elem_of_In in Hin. cbn [snd]. auto.
Qed.

Lemma bracket_enclose op cl n items :
  bracket op cl n items = enclose op cl (newline (S n)) (newline n) items.
Proof. destruct items as [|x l]; [done|]. unfold bracket, comma_separated, enclose. by rewrite <- !app_assoc. Qed.

Lemma newline_space n : forallb is_space (newline n) = true.
Proof. unfold newline. simpl. induction (n + (n + 0))%nat; [done|]. simpl. done. Qed.

Lemma spells_print j n : u64_numbers j -> spells (print n j) (tokens (to_value j)).
Proof.
  revert n. induction j as [|z|s|l IH|fs IH] using json_ind'; intros n Hu; simpl in Hu.
  - apply spells_null.
  - by apply spells_number, FormatUint_valid.
  - apply spells_quote.
  - cbn [print to_value tokens]. rewrite bracket_enclose, map_map.
    apply spells_enclose; [done..|apply newline_space|apply newline_space|].
    apply foldr_and_Forall in Hu. rewrite list.Forall_forall in IH, Hu.
    apply Forall2_fmap, Forall_Forall2_diag, list.Forall_forall. intros j Hin. auto.
  - cbn [print to_value tokens]. rewrite bracket_enclose, map_map.
    apply spells_enclose; [done..|apply newline_space|apply newline_space|].
    apply foldr_and_Forall in Hu. rewrite list.Forall_forall in IH, Hu.
    apply Forall2_fmap, Forall_Forall2_diag, list.Forall_forall. intros [k j] Hin. cbn [fst snd].
    apply (spells_field k [x20]); [done|]. apply (IH (k, j)); [done|]. by apply (Hu (k, j)).
Qed.

(** Whatever the program marshals, the decoder reads back. *)
Theorem parse_MarshalIndent j :
  u64_numbers j -> parse (MarshalIndent j) = Some (clean (to_value j)).
Proof. intros Hu. by apply parse_spelled; [apply to_value_valid|apply spells_print]. Qed.

(** ** What the parser accepts *)

(** Numbers are well formed and strings hold runes only. *)
Definition proper (v : value) : Prop := numbers_valid v = true /\ clean v = v.

Lemma proper_arr l : proper (VArr l) <-> Forall proper l.
Proof.
  unfold proper. simpl. induction l as [|v l IH]; simpl; [done|].
  rewrite andb_true_iff, list.Forall_cons, <- IH. split.
  - intros [[Hv Hl] [= Hc Hcl]]. by rewrite Hc, Hcl.
  - intros [[Hv Hc] [Hl [= Hcl]]]. by rewrite Hc, Hcl.
Qed.

Lemma proper_obj fs : proper (VObj fs) <-> Forall (fun kv => sanitize kv.1 = kv.1 /\ proper kv.2) fs.
Proof.
  unfold proper. simpl. induction fs as [|[k v] fs IH]; simpl; [done|].
  rewrite andb_true_iff, list.Forall_cons, <- IH. simpl. split.
  - intros [[Hv Hl] [= Hk Hc Hcl]]. by rewrite Hk, Hc, Hcl.
  - intros [[Hk [Hv Hc]] [Hl [= Hcl]]]. by rewrite Hk, Hc, Hcl.
Qed.

Definition frame_proper (f : frame) : Prop :=
  match f with
  | FArr acc => proper (VArr acc)
  | FObj acc key => proper (VObj acc) /\ sanitize key = key
  end.

Definition expect_proper (ex : expect) : Prop :=
  match ex with
  | EAfter v => proper v
  | EKey acc => proper (VObj acc)
  | EColon acc key => proper (VObj acc) /\ sanitize key = key
  | EValue | EValueOrEnd | EKeyOrEnd => True
  end.

Definition state_proper (st : list frame * expect) : Prop :=
  Forall frame_proper st.1 /\ expect_proper st.2.

Lemma proper_snoc_arr acc v : proper (VArr acc) -> proper v -> proper (VArr (acc ++ [v])).
Proof. rewrite !proper_arr, list.Forall_app, list.Forall_singleton. done. Qed.

Lemma proper_snoc_obj acc k v :
  proper (VObj acc) -> sanitize k = k -> proper v -> proper (VObj (acc ++ [(k, v)])).
Proof. rewrite !proper_obj, list.Forall_app, list.Forall_singleton. done. Qed.

Lemma scalar_proper t v : scalar t = Some v -> proper v.
Proof.
  unfold scalar. intros H. repeat case_match; simplify_eq; try done.
  apply fmap_Some in H as (s & Hs & ->). split; [done|]. simpl. f_equal. by eapply unquote_sanitized.
Qed.

Lemma parse_value_proper fs t st :
  Forall frame_proper fs -> parse_value fs t = Some st -> state_proper st.
Proof.
  unfold parse_value. intros Hfs H.
  assert (Hscalar : (fun v => (fs, EAfter v)) <$> scalar t = Some st -> state_proper st).
  { intros (v & Hv & ->)%fmap_Some. split; [done|]. by eapply scalar_proper. }
  destruct t as [c|w|text|raw]; try by apply Hscalar.
  destruct c; try by apply Hscalar.
  all: injection H as <-; split; [|done]; try done. constructor; [done|exact Hfs].
Qed.

Lemma parse_key_proper fs acc t st :
  Forall frame_proper fs -> proper (VObj acc) -> parse_key fs acc t = Some st -> state_proper st.
Proof.
  unfold parse_key. intros Hfs Hacc H. destruct t; try done.
  apply fmap_Some in H as (k & Hk & ->). split; [done|]. split; [done|]. by eapply unquote_sanitized.
Qed.

(** After a value: a comma, or the bracket that closes the innermost frame. *)
Lemma parse_after_proper fs v t st :
  Forall frame_proper fs -> proper v -> parse_step (fs, EAfter v) t = Some st -> state_proper st.
Proof.
  intros Hfs Hv H. destruct t as [c|w|text|raw]; try discriminate H.
  destruct fs as [|[acc|acc key] fs]; [by destruct c|..];
    apply list.Forall_cons in Hfs as [Hf Hfs]; simpl in Hf;
    destruct c; try discriminate H; injection H as <-; split; try done.
  - constructor; [|done]. by apply proper_snoc_arr.
  - by apply proper_snoc_arr.
  - destruct Hf. by apply proper_snoc_obj.
  - destruct Hf. by apply proper_snoc_obj.
Qed.

Lemma proper_empty : proper (VArr []) /\ proper (VObj []).
Proof. done. Qed.

Lemma parse_step_proper st t st' : state_proper st -> parse_step st t = Some st' -> state_proper st'.
Proof.
  destruct st as [fs ex]. intros [Hfs Hex] H. simpl in Hfs. destruct ex as [| |v|acc| |acc key].
  - exact (parse_value_proper fs t st' Hfs H).
  - simpl in H. assert (Hv := parse_value_proper fs t st' Hfs). destruct t as [c|w|text|raw]; try by apply Hv.
    destruct c; try by apply Hv. destruct fs as [|[[|]|] fs]; try by apply Hv.
    injection H as <-. by apply list.Forall_cons in Hfs as [_ Hfs].
  - exact (parse_after_proper fs v t st' Hfs Hex H).
  - exact (parse_key_proper fs acc t st' Hfs Hex H).
  - simpl in H. assert (Hk := parse_key_proper fs [] t st' Hfs (proj2 proper_empty)).
    destruct t as [c|w|text|raw]; try by apply Hk. destruct c; try by apply Hk. by injection H as <-.
  - destruct t as [c|w|text|raw]; try discriminate H. destruct c; try discriminate H.
    injection H as <-. split; [|done]. constructor; [exact Hex|exact Hfs].
Qed.

Lemma parse_proper text v : parse text = Some v -> proper v.
Proof.
  unfold parse. intros H. destruct (lex Between text) as [ts|]; [|done].
  assert (Hst : state_proper ([], EValue)) by by split.
  revert Hst H. generalize (@nil frame, EValue). induction ts as [|t ts IH]; intros st Hst H; simpl in H.
  - destruct Hst as [_ He]. repeat case_match; try done. by injection H as ->.
  - destruct (parse_step st t) as [st'|] eqn:E; [|done]. eapply IH; [|exact H]. by eapply parse_step_proper.
Qed.

(** A Go string as the reader of its JSON text sees it. *)
Definition text (s : string) : value := VStr (sanitize (bytes_of_string s)).
