(* ===== verification/Canon.v ===== *)
(** * Canonical JSON values

    An object read into a map keeps the last of several fields with one key; a map
    is written in the order of its keys ([canon]). Texts that differ in the order of
    fields, in repeated fields or in spaces have one canonical form
    ([canon_obj_permutation], [canon_readback]), and the canonical form determines
    every field ([get_canon]), numbers aside ([erase], [get_same]). *)

From stdpp Require Import sorting.
From S2P Require Import Prelude GoStd Base64 Json Unmarshal JsonText.
Import Json Unmarshal.

#[local] Set Warnings "-register-all".

Section Fields.
Context {A B : Type}.

Fixpoint insert_field (k : bytes) (v : A) (l : list (bytes * A)) : list (bytes * A) :=
  match l with
  | [] => [(k, v)]
  | (k', v') :: l' =>
      if bool_decide (k = k') then (k, v) :: l'
      else if bytes_ltb k k' then (k, v) :: l
      else (k', v') :: insert_field k v l'
  end.

Definition sort_fields (fs : list (bytes * A)) : list (bytes * A) :=
  foldl (fun l kv => insert_field kv.1 kv.2 l) [] fs.

(** The value of a key: the first of a sorted list, the last of an object. *)
Fixpoint assoc (k : bytes) (l : list (bytes * A)) : option A :=
  match l with
  | [] => None
  | (k', v) :: l => if bool_decide (k = k') then Some v else assoc k l
  end.

Definition field (k : bytes) (fs : list (bytes * A)) : option A := assoc k (reverse fs).

Lemma assoc_insert_field k k' v l :
  assoc k (insert_field k' v l) = if bool_decide (k = k') then Some v else assoc k l.
Proof.
  induction l as [|[k2 v2] l IH]; simpl; [done|].
  destruct (bool_decide_reflect (k' = k2)) as [->|Hne].
  { simpl. by destruct (bool_decide (k = k2)). }
  destruct (bytes_ltb k' k2); simpl; [done|]. rewrite IH. repeat case_bool_decide; congruence.
Qed.

Lemma field_snoc k fs k' v : field k (fs ++ [(k', v)]) = if bool_decide (k = k') then Some v else field k fs.
Proof. unfold field. by rewrite reverse_snoc. Qed.

Lemma assoc_sort_fields k fs : assoc k (sort_fields fs) = field k fs.
Proof.
  induction fs as [|[k' v] fs IH] using rev_ind; [done|].
  unfold sort_fields in *. rewrite foldl_snoc, field_snoc, assoc_insert_field. cbn [fst snd]. by rewrite IH.
Qed.

Definition sorted (l : list (bytes * A)) : Prop := StronglySorted bytes_lt (map fst l).

Lemma insert_field_keys k v l (P : bytes -> Prop) :
  P k -> Forall P (map fst l) -> Forall P (map fst (insert_field k v l)).
Proof.
  intros Hk. induction l as [|[k' v'] l IH]; simpl; intros Hl; [by constructor|].
  apply list.Forall_cons in Hl as [Hk' Hl]. repeat case_match; simpl; repeat constructor; auto.
Qed.

Lemma insert_field_sorted k v l : sorted l -> sorted (insert_field k v l).
Proof.
  unfold sorted. induction l as [|[k' v'] l IH]; simpl; intros Hs; [by repeat constructor|].
  apply StronglySorted_inv in Hs as [Hs Hlt]. case_bool_decide as Hk; [subst; by constructor|].
  destruct (bytes_ltb k k') eqn:E; simpl.
  - repeat constructor; [done..|]. eapply Forall_impl; [|exact Hlt].
    intros k2 Hk2. by eapply bytes_ltb_trans.
  - constructor; [auto|]. apply insert_field_keys; [|done].
    unfold bytes_lt. destruct (bytes_ltb k' k) eqn:E'; [done|]. by destruct Hk; apply bytes_ltb_total.
Qed.

Lemma sort_fields_sorted fs : sorted (sort_fields fs).
Proof.
  induction fs as [|kv fs IH] using rev_ind; [constructor|].
  unfold sort_fields. rewrite foldl_snoc. by apply insert_field_sorted.
Qed.

Lemma sorted_tail k v l k' : sorted ((k, v) :: l) -> bytes_lt k' k -> assoc k' ((k, v) :: l) = None.
Proof.
  unfold sorted. cbn [map fst]. intros Hs Hlt. simpl.
  assert (Hne : forall k2, bytes_lt k' k2 -> k' <> k2).
  { by intros k2 H ->; apply bytes_lt_irrefl in H. }
  apply StronglySorted_inv in Hs as [_ Hall]. rewrite bool_decide_eq_false_2 by auto.
  induction l as [|[k2 v2] l IH]; [done|]. simpl in *. apply list.Forall_cons in Hall as [Hk2 Hall].
  rewrite bool_decide_eq_false_2; [auto|]. apply Hne. by eapply bytes_ltb_trans.
Qed.

(** Sorted fields are determined by their values. *)
Lemma sorted_ext l l' : sorted l -> sorted l' -> (forall k, assoc k l = assoc k l') -> l = l'.
Proof.
  revert l'. induction l as [|[k v] l IH]; intros [|[k' v'] l'] Hs Hs' Heq; [done| | |].
  - specialize (Heq k'). simpl in Heq. by rewrite bool_decide_eq_true_2 in Heq.
  - specialize (Heq k). simpl in Heq. by rewrite bool_decide_eq_true_2 in Heq.
  - assert (Ek : k = k').
    { destruct (bytes_ltb k k') eqn:E; [|destruct (bytes_ltb k' k) eqn:E']; [..|by apply bytes_ltb_total].
      - specialize (Heq k). rewrite (sorted_tail k' v' l' k) in Heq by done. simpl in Heq.
        by rewrite bool_decide_eq_true_2 in Heq.
      - specialize (Heq k'). rewrite (sorted_tail k v l k') in Heq by done. simpl in Heq.
        by rewrite bool_decide_eq_true_2 in Heq. }
    subst k'. pose proof (Heq k) as Hv. simpl in Hv. rewrite bool_decide_eq_true_2 in Hv by done.
    injection Hv as ->. f_equal. unfold sorted in Hs, Hs'. simpl in Hs, Hs'.
    apply StronglySorted_inv in Hs as [Hs Hlt], Hs' as [Hs' Hlt']. apply IH; [done..|].
    assert (Hnone : forall l, Forall (bytes_lt k) (map fst l) -> assoc k l = None).
    { clear. induction l as [|[k2 v2] l IH]; [done|]. simpl. intros [Hk Hl]%list.Forall_cons.
      rewrite bool_decide_eq_false_2; [auto|]. intros ->. unfold bytes_lt in Hk.
      by rewrite bytes_ltb_irrefl in Hk. }
    intros k2. destruct (decide (k2 = k)) as [->|Hne]; [by rewrite !Hnone|].
    specialize (Heq k2). simpl in Heq. by rewrite !bool_decide_eq_false_2 in Heq.
Qed.

Lemma assoc_nodup k (v : A) l : NoDup (map fst l) -> assoc k l = Some v <-> (k, v) ∈ l.
Proof.
  induction l as [|[k' v'] l IH]; simpl; [intros _; split; [done|by intros ?%not_elem_of_nil]|].
  intros [Hk Hn]%list.NoDup_cons. rewrite elem_of_cons. case_bool_decide; [subst|rewrite IH by done].
  - split; [intros [= ->]; by left|]. intros [[= ->]|Hin]; [done|].
    destruct Hk. apply list_elem_of_fmap. by exists (k', v).
  - split; [by right|]. intros [[= -> ->]|Hin]; [congruence|done].
Qed.

(** Without repeated keys the order of the fields does not matter. *)
Lemma sort_fields_permutation fs fs' :
  NoDup (map fst fs) -> fs ≡ₚ fs' -> sort_fields fs = sort_fields fs'.
Proof.
  intros Hn Hp. apply sorted_ext; [apply sort_fields_sorted..|]. intros k.
  rewrite !assoc_sort_fields. unfold field.
  assert (Hn' : NoDup (map fst fs')) by by rewrite <- Hp.
  apply option_eq. intros v. rewrite !assoc_nodup by by rewrite reverse_Permutation.
  by rewrite !elem_of_reverse, Hp.
Qed.

End Fields.

Lemma insert_field_map {A B} (f : A -> B) k v l :
  insert_field k (f v) (map (fun kv => (kv.1, f kv.2)) l) = map (fun kv => (kv.1, f kv.2)) (insert_field k v l).
Proof. induction l as [|[k' v'] l IH]; simpl; [done|]. repeat case_match; simpl; congruence. Qed.

Lemma sort_fields_map {A B} (f : A -> B) fs :
  sort_fields (map (fun kv => (kv.1, f kv.2)) fs) = map (fun kv => (kv.1, f kv.2)) (sort_fields fs).
Proof.
  induction fs as [|[k v] fs IH] using rev_ind; [done|].
  rewrite map_app. unfold sort_fields in *. cbn [map fst snd].
  rewrite !foldl_snoc, IH. exact (insert_field_map f k v _).
Qed.

Lemma assoc_map {A B} (f : A -> B) k l : assoc k (map (fun kv => (kv.1, f kv.2)) l) = f <$> assoc k l.
Proof. induction l as [|[k' v] l IH]; simpl; [done|]. by case_bool_decide. Qed.

Fixpoint canon (v : value) : value :=
  match v with
  | VArr l => VArr (map canon l)
  | VObj fs => VObj (sort_fields (map (fun kv => (kv.1, canon kv.2)) fs))
  | v => v
  end.

(** The same value, whatever its numbers are. *)
Fixpoint erase (v : value) : value :=
  match v with
  | VNum _ => VNum []
  | VArr l => VArr (map erase l)
  | VObj fs => VObj (map (fun kv => (kv.1, erase kv.2)) fs)
  | v => v
  end.

Definition get (k : string) (v : value) : option value :=
  match v with VObj fs => field (bytes_of_string k) fs | _ => None end.

Lemma sort_fields_sorted_id {A} (l : list (bytes * A)) : sorted l -> sort_fields l = l.
Proof.
  intros Hs. apply sorted_ext; [apply sort_fields_sorted|done|]. intros k. rewrite assoc_sort_fields.
  unfold field. assert (Hn : NoDup (map fst l)).
  { unfold sorted in Hs. induction Hs as [|k' l' _ IH Hlt]; constructor; [|done].
    intros Hin. rewrite list.Forall_forall in Hlt. apply Hlt in Hin. unfold bytes_lt in Hin.
    by rewrite bytes_ltb_irrefl in Hin. }
  apply option_eq. intros v. rewrite !assoc_nodup; [|done|by rewrite reverse_Permutation].
  apply elem_of_reverse.
Qed.

Lemma canon_canon v : canon (canon v) = canon v.
Proof.
  induction v as [|b|text|s|l IH|fs IH] using value_ind'; simpl; try done; f_equal.
  - rewrite map_map. apply map_ext_Forall. exact IH.
  - rewrite <- (sort_fields_map canon), sort_fields_sorted_id by apply sort_fields_sorted.
    rewrite map_map. f_equal. apply map_ext_Forall. eapply Forall_impl; [|exact IH]. simpl. by intros kv ->.
Qed.

Lemma clean_proper v : proper v -> clean v = v.
Proof. by intros [_ H]. Qed.

Lemma Forall_insert_field {A} (P : bytes * A -> Prop) k v l :
  P (k, v) -> Forall P l -> Forall P (insert_field k v l).
Proof.
  intros Hk. induction l as [|[k' v'] l IH]; simpl; intros Hl; [by constructor|].
  pose proof Hl as [Hk' Hl']%list.Forall_cons. repeat case_match; repeat constructor; auto.
Qed.

Lemma Forall_sort_fields {A} (P : bytes * A -> Prop) fs : Forall P fs -> Forall P (sort_fields fs).
Proof.
  induction fs as [|[k v] fs IH] using rev_ind; [done|]. intros [Hfs Hkv]%list.Forall_app.
  unfold sort_fields. rewrite foldl_snoc. apply Forall_insert_field; [|auto].
  by apply list.Forall_cons in Hkv as [Hkv _].
Qed.

Lemma canon_proper v : proper v -> proper (canon v).
Proof.
  induction v as [|b|text|s|l IH|fs IH] using value_ind'; try done.
  - cbn [canon]. rewrite !proper_arr, !list.Forall_forall in *.
    intros Hl v (w & -> & Hin)%list_elem_of_fmap. auto.
  - cbn [canon]. rewrite !proper_obj. intros Hfs. apply Forall_sort_fields.
    rewrite !list.Forall_forall in *. intros kv ([k w] & -> & Hin)%list_elem_of_fmap. cbn [fst snd].
    destruct (Hfs _ Hin). split; [done|]. by apply (IH (k, w)).
Qed.

(** Values with the same text in canonical form: one text, read back. *)
Theorem canon_readback text v :
  parse text = Some v -> parse (compact (canon v)) = Some (canon v).
Proof.
  intros Hp%parse_proper%canon_proper. rewrite parse_compact; [|apply Hp]. by rewrite clean_proper.
Qed.

Lemma get_canon k v : get k (canon v) = canon <$> get k v.
Proof.
  destruct v as [| | | | |fs]; try done. cbn [canon get].
  rewrite sort_fields_map, <- assoc_sort_fields, sort_fields_sorted_id, assoc_map, assoc_sort_fields; [done|].
  unfold sorted. rewrite map_map. apply sort_fields_sorted.
Qed.

Lemma field_map {A B} (f : A -> B) k fs : field k (map (fun kv => (kv.1, f kv.2)) fs) = f <$> field k fs.
Proof. rewrite <- !assoc_sort_fields, sort_fields_map. apply assoc_map. Qed.

Lemma get_erase k v : get k (erase v) = erase <$> get k v.
Proof. destruct v; try done. apply field_map. Qed.

(** Equal canonical forms, up to numbers, agree on every field. *)
Lemma get_same k v w :
  erase (canon v) = erase (canon w) ->
  erase ∘ canon <$> get k v = erase ∘ canon <$> get k w.
Proof.
  intros H. rewrite !option_fmap_compose, <- !get_canon, <- !get_erase. by rewrite H.
Qed.

Lemma canon_obj_permutation fs fs' :
  NoDup (map fst fs) -> fs ≡ₚ fs' -> canon (VObj fs) = canon (VObj fs').
Proof.
  intros Hn Hp. cbn [canon]. f_equal. apply sort_fields_permutation; [|by rewrite Hp].
  rewrite map_map. exact Hn.
Qed.
