(* ===== verification/SdkTypes.v ===== *)
(** * Data and pure interfaces of the packages the module is built on

    The records of [cosmos-sdk/types] and [go-cosmwasm/types] whose fields the
    module reads or fills, the shapes of the errors it builds, and, as type
    classes, the pure functions of those packages it calls, each with the
    documented facts the module relies on. Nothing here is a definition of code
    of those packages: a class has no instance in this file. *)

From S2P Require Import Prelude GoStd.

(** ** cosmos-sdk/types *)

Record Coin := { coin_Denom : string; coin_Amount : Z }.
Abbreviation Coins := (list Coin).

#[export] Instance Coin_eq_dec : EqDecision Coin.
Proof. solve_decision. Defined.

(** [auth/exported.Account], as far as the module looks into it. *)
Record Account := { acc_Address : bytes; acc_Coins : Coins }.

Record Attribute := { attr_Key : string; attr_Value : string }.
Record Event := { ev_Type : string; ev_Attributes : list Attribute }.

(** [sdk.EventTypeMessage] and the attribute keys of [sdk] that handlers use. *)
Definition EventTypeMessage : string := "message".
Definition AttributeKeyModule : string := "module".
Definition AttributeKeyAction : string := "action".
Definition AttributeKeySender : string := "sender".

(** [sdk.Result] *)
Record Result := {
  res_Code : Z; res_Codespace : string; res_Data : bytes; res_Log : string;
  res_GasUsed : Z; res_Events : list Event }.

(** A struct literal that sets some fields leaves the others at their zero value. *)
Definition Result_zero : Result :=
  {| res_Code := 0; res_Codespace := ""; res_Data := []; res_Log := "";
     res_GasUsed := 0; res_Events := [] |}.

(** The parts of [sdk.Context] that describe the block. *)
Record Ctx := { ctx_BlockHeight : Z; ctx_BlockTimeUnix : Z; ctx_ChainID : string }.

(** [sdk.AddrLen] *)
Definition AddrLen : nat := 20.

(** ** Errors

    [sdkErrors.Register] makes a root error, [sdkErrors.Wrap] adds text to an
    error; [sdk.ErrX] are the errors of the older interface. [ErrForeign] is an
    error value another package returned, known by its text. *)
Record root_error := { err_Codespace : string; err_Code : Z; err_Desc : string }.

Inductive sdk_code := CodeInternal | CodeInvalidAddress | CodeInvalidCoins | CodeUnknownRequest.

Inductive sdk_root := ErrUnauthorized | ErrUnknownRequest | ErrInvalidAddress
                    | ErrJSONMarshal | ErrJSONUnmarshal | ErrTxDecode.

Inductive error :=
  | ErrRoot (r : root_error)
  | ErrSdkRoot (r : sdk_root)
  | ErrSdk (c : sdk_code) (msg : string)
  | ErrABCI (codespace : string) (code : Z) (log : string)
  | ErrForeign (text : string)
  | Wrap (e : error) (desc : string).

#[export] Instance root_error_eq_dec : EqDecision root_error.
Proof. solve_decision. Defined.
#[export] Instance sdk_code_eq_dec : EqDecision sdk_code.
Proof. solve_decision. Defined.
#[export] Instance sdk_root_eq_dec : EqDecision sdk_root.
Proof. solve_decision. Defined.
#[export] Instance error_eq_dec : EqDecision error.
Proof. solve_decision. Defined.

(** [root.Is(err)]: the root under the wrapping. *)
Fixpoint root_of (e : error) : error :=
  match e with Wrap e _ => root_of e | e => e end.

(** ** go-cosmwasm/types *)

Module wasmTypes.

Record Coin := { Denom : string; Amount : string }.
Record BlockInfo := { Height : Z; Time : Z; ChainID : string }.
Record MessageInfo := { Signer : bytes; SentFunds : list Coin }.
Record ContractInfo := { Address : bytes; Balance : list Coin }.
Record Params := { Block : BlockInfo; Message : MessageInfo; Contract : ContractInfo }.

Record SendMsg := { FromAddress : string; ToAddress : string; SendAmount : list Coin }.
Record ContractMsg := { ContractAddr : string; Msg : string; Send : list Coin }.
Record OpaqueMsg := { OpaqueData : string }.

(** [CosmosMsg] has one pointer per variant; none, one or several may be set. *)
Record CosmosMsg := {
  MsgSend : option SendMsg;
  MsgContract : option ContractMsg;
  MsgOpaque : option OpaqueMsg }.

Record Result := {
  GasUsed : Z; Messages : list CosmosMsg; Data : string; Log : string }.

End wasmTypes.

(** ** Pure functions of the SDK *)

(** Addresses and their bech32 text; [crypto.AddressHash]; [sdk.Uint64ToBigEndian]. *)
Class Addresses := {
  AccAddress_String : bytes -> string;
  AccAddressFromBech32 : string -> result string bytes;
  AccAddress_Equals : bytes -> bytes -> bool;
  AddressHash : bytes -> bytes;
  Uint64ToBigEndian : Z -> bytes }.

Class AddressesLaws `{Addresses} : Prop := {
  FromBech32_String a : length a = AddrLen -> AccAddressFromBech32 (AccAddress_String a) = Ok a;
  Equals_spec a b : AccAddress_Equals a b = true <-> a = b;
  AddressHash_length b : length (AddressHash b) = AddrLen;
  Uint64ToBigEndian_length n : length (Uint64ToBigEndian n) = 8%nat;
  Uint64ToBigEndian_u64 n : BigEndian.Uint64 (Uint64ToBigEndian n) = Some (u64 n) }.

Lemma Uint64ToBigEndian_spec `{AddressesLaws} n :
  is_u64 n -> BigEndian.Uint64 (Uint64ToBigEndian n) = Some n.
Proof. intros Hn. by rewrite Uint64ToBigEndian_u64, u64_small. Qed.

Lemma Uint64ToBigEndian_mod `{AddressesLaws} n : Uint64ToBigEndian (u64 n) = Uint64ToBigEndian n.
Proof.
  apply (Uint64_inj _ _ (u64 n)); [apply Uint64ToBigEndian_length..| |apply Uint64ToBigEndian_u64].
  rewrite Uint64ToBigEndian_u64. f_equal. apply u64_small, u64_range.
Qed.

(** Amounts: [sdk.Int.String], [sdk.NewIntFromString], [Coins.IsAnyNegative]. An
    [sdk.Int] has at most 255 bits. *)
Definition int_ok (z : Z) : Prop := - 2 ^ 255 < z < 2 ^ 255.

Class Amounts := {
  Int_String : Z -> string;
  NewIntFromString : string -> option Z;
  IsAnyNegative : Coins -> bool }.

Class AmountsLaws `{Amounts} : Prop := {
  NewIntFromString_String z : int_ok z -> NewIntFromString (Int_String z) = Some z;
  IsAnyNegative_spec cs : IsAnyNegative cs = true <-> Exists (fun c => coin_Amount c < 0) cs }.

(** Results: [sdk.ResultFromError], [Result.IsOK], the text functions of errors,
    [strconv.Quote], and the text [cmn.HexBytes] marshals as. *)
Class Results := {
  ResultFromError : error -> Result;
  IsOK : Result -> bool;
  ABCIInfo : error -> bool -> string * Z * string;
  Quote : string -> string;
  HexBytes_String : bytes -> string }.

Class ResultsLaws `{Results} : Prop := {
  IsOK_spec r : IsOK r = true <-> res_Code r = 0;
  ResultFromError_not_ok e : IsOK (ResultFromError e) = false }.

(** What [MsgStoreCode.ValidateBasic] asks of the network and of [net/url]:
    parsing gives the scheme, fetching gives the status code. *)
Class Net := {
  url_Parse : string -> result string string;
  http_Get : string -> result string Z }.

(** How a stream ends: with [io.EOF], or broken by another error, which an
    [io.Reader] may return together with the last bytes it could read
    ([with_last]) or only from the call after them. *)
Inductive stream_end :=
  | EOF
  | Broken (err : string) (with_last : bool).

(** [compress/gzip]: opening a stream gives an error, or the content that can be
    read from it (of its first member) and how it ends; a writer that is closed
    gives a stream with the given content. *)
Class Gzip := {
  gzip_open : bytes -> result string (bytes * stream_end);
  gzip_write : bytes -> result string bytes }.

Class GzipLaws `{Gzip} : Prop := {
  gzip_write_header b z : gzip_write b = Ok z -> take 3 z = [x1f; x8b; x08];
  gzip_open_write b z : gzip_write b = Ok z -> gzip_open z = Ok (b, EOF) }.
