(* ===== verification/Types.v ===== *)
(** * x/wasm/internal/types

    The module's own data: store keys, code and contract records, messages with
    their stateless validation, genesis data, registered errors, and the
    conversions to the types of the virtual machine. *)

From S2P Require Import Prelude GoStd SdkTypes.

(** ** keys.go *)

Definition ModuleName : string := "wasm".
Definition StoreKey : string := ModuleName.
Definition TStoreKey : string := String.append "transient_" ModuleName.
Definition QuerierRoute : string := ModuleName.
Definition RouterKey : string := ModuleName.

Definition KeyLastCodeID : bytes := bytes_of_string "lastCodeId".
Definition KeyLastInstanceID : bytes := bytes_of_string "lastContractId".
Definition CodeKeyPrefix : bytes := [x01].
Definition ContractKeyPrefix : bytes := [x02].
Definition ContractStorePrefix : bytes := [x03].

Definition GetCodeKey `{Addresses} (contractID : Z) : bytes :=
  let contractIDBz := Uint64ToBigEndian contractID in
  CodeKeyPrefix ++ contractIDBz.

Definition GetContractAddressKey (addr : bytes) : bytes := ContractKeyPrefix ++ addr.

Definition GetContractStorePrefixKey (addr : bytes) : bytes := ContractStorePrefix ++ addr.

(** ** errors.go *)

Definition DefaultCodespace : string := ModuleName.

Definition ErrCreateFailed : error :=
  ErrRoot {| err_Codespace := DefaultCodespace; err_Code := 1;
             err_Desc := "create wasm contract failed" |}.
Definition ErrAccountExists : error :=
  ErrRoot {| err_Codespace := DefaultCodespace; err_Code := 2;
             err_Desc := "contract account already exists" |}.
Definition ErrInstantiateFailed : error :=
  ErrRoot {| err_Codespace := DefaultCodespace; err_Code := 3;
             err_Desc := "instantiate wasm contract failed" |}.
Definition ErrExecuteFailed : error :=
  ErrRoot {| err_Codespace := DefaultCodespace; err_Code := 4;
             err_Desc := "execute wasm contract failed" |}.
Definition ErrGasLimit : error :=
  ErrRoot {| err_Codespace := DefaultCodespace; err_Code := 5;
             err_Desc := "insufficient gas" |}.
Definition ErrInvalidGenesis : error :=
  ErrRoot {| err_Codespace := DefaultCodespace; err_Code := 6;
             err_Desc := "invalid genesis" |}.
Definition ErrNotFound : error :=
  ErrRoot {| err_Codespace := DefaultCodespace; err_Code := 7;
             err_Desc := "not found" |}.
Definition ErrQueryFailed : error :=
  ErrRoot {| err_Codespace := DefaultCodespace; err_Code := 8;
             err_Desc := "query wasm contract failed" |}.

(** ** types.go *)

Definition defaultLRUCacheSize : Z := 0.
Definition defaultQueryGasLimit : Z := 3000000.

Record Model := { Key : string; Value : string }.

Record CodeInfo := {
  CodeHash : bytes; code_Creator : bytes; Source : string; Builder : string }.

Definition NewCodeInfo (codeHash creator : bytes) (source builder : string) : CodeInfo :=
  {| CodeHash := codeHash; code_Creator := creator; Source := source; Builder := builder |}.

Record ContractInfo := { CodeID : Z; Creator : bytes; InitMsg : string }.

Definition NewContractInfo (codeID : Z) (creator : bytes) (initMsg : string) : ContractInfo :=
  {| CodeID := codeID; Creator := creator; InitMsg := initMsg |}.

#[export] Instance Model_eq_dec : EqDecision Model.
Proof. solve_decision. Defined.
#[export] Instance CodeInfo_eq_dec : EqDecision CodeInfo.
Proof. solve_decision. Defined.
#[export] Instance ContractInfo_eq_dec : EqDecision ContractInfo.
Proof. solve_decision. Defined.

Definition NewWasmCoins `{Amounts} (cosmosCoins : Coins) : list wasmTypes.Coin :=
  map (fun coin => {| wasmTypes.Denom := coin_Denom coin;
                      wasmTypes.Amount := Int_String (coin_Amount coin) |}) cosmosCoins.

(** [contractAcct] is an interface value: calling a method of a [nil] one panics. *)
Definition NewParams `{Amounts} {W} (ctx : Ctx) (creator : bytes) (deposit : Coins)
    (contractAcct : option Account) : M W wasmTypes.Params :=
  match contractAcct with
  | None => gpanic PanicNilDeref
  | Some acct =>
      gret {| wasmTypes.Block :=
                {| wasmTypes.Height := ctx_BlockHeight ctx;
                   wasmTypes.Time := ctx_BlockTimeUnix ctx;
                   wasmTypes.ChainID := ctx_ChainID ctx |};
              wasmTypes.Message :=
                {| wasmTypes.Signer := creator;
                   wasmTypes.SentFunds := NewWasmCoins deposit |};
              wasmTypes.Contract :=
                {| wasmTypes.Address := acc_Address acct;
                   wasmTypes.Balance := NewWasmCoins (acc_Coins acct) |} |}
  end.

Definition CosmosResult (wasmResult : wasmTypes.Result) : Result :=
  {| res_Code := 0; res_Codespace := "";
     res_Data := bytes_of_string (wasmTypes.Data wasmResult);
     res_Log := wasmTypes.Log wasmResult;
     res_GasUsed := wasmTypes.GasUsed wasmResult;
     res_Events := [] |}.

Record WasmConfig := { SmartQueryGasLimit : Z; CacheSize : Z }.

Definition DefaultWasmConfig : WasmConfig :=
  {| SmartQueryGasLimit := defaultQueryGasLimit; CacheSize := defaultLRUCacheSize |}.

(** ** msg.go *)

Definition MaxWasmSize : Z := 500 * 1024.
Definition BuildTagRegex : string := "^cosmwasm-opt:".

(** [regexp.MatchString] of an expression that is [^] followed by literal text:
    the subject starts with that text. *)
Definition MatchAnchored (re s : string) : bool :=
  match re with
  | String _ literal => String.prefix literal s
  | EmptyString => true
  end.

Record MsgStoreCode := {
  sc_Sender : bytes; sc_WASMByteCode : bytes; sc_Source : string; sc_Builder : string }.

Record MsgInstantiateContract := {
  ic_Sender : bytes; ic_Code : Z; ic_InitMsg : bytes; ic_InitFunds : Coins }.

Record MsgExecuteContract := {
  ec_Sender : bytes; ec_Contract : bytes; ec_Msg : bytes; ec_SentFunds : Coins }.

Definition MsgStoreCode_Route (_ : MsgStoreCode) : string := RouterKey.
Definition MsgStoreCode_Type (_ : MsgStoreCode) : string := "store-code".
Definition MsgStoreCode_GetSigners (msg : MsgStoreCode) : list bytes := [sc_Sender msg].

Definition MsgInstantiateContract_Route (_ : MsgInstantiateContract) : string := RouterKey.
Definition MsgInstantiateContract_Type (_ : MsgInstantiateContract) : string := "instantiate".
Definition MsgInstantiateContract_GetSigners (msg : MsgInstantiateContract) : list bytes :=
  [ic_Sender msg].

Definition MsgExecuteContract_Route (_ : MsgExecuteContract) : string := RouterKey.
Definition MsgExecuteContract_Type (_ : MsgExecuteContract) : string := "execute".
Definition MsgExecuteContract_GetSigners (msg : MsgExecuteContract) : list bytes :=
  [ec_Sender msg].

(** The [Source] part of the check: a valid, absolute url that answers 200. *)
Definition validate_source `{Net} (source : string) : option error :=
  if bool_decide (source = EmptyString) then None
  else
    match url_Parse source with
    | Err _ => Some (ErrSdk CodeInternal "source should be a valid url")
    | Ok scheme =>
        if bool_decide (scheme = EmptyString)
        then Some (ErrSdk CodeInternal "source should be an absolute url")
        else
          match http_Get source with
          | Err _ => Some (ErrSdk CodeInternal "source url is not reachable")
          | Ok status =>
              if bool_decide (status = 200) then None
              else Some (ErrSdk CodeInternal "source url is not reachable")
          end
    end.

Definition MsgStoreCode_ValidateBasic `{Net} (msg : MsgStoreCode) : option error :=
  let size := Z.of_nat (length (sc_WASMByteCode msg)) in
  if size =? 0 then Some (ErrSdk CodeInternal "empty wasm code")
  else if MaxWasmSize <? size then Some (ErrSdk CodeInternal "wasm code too large")
  else
    match validate_source (sc_Source msg) with
    | Some e => Some e
    | None =>
        if bool_decide (sc_Builder msg = EmptyString) then None
        else if MatchAnchored BuildTagRegex (sc_Builder msg) then None
        else Some (ErrSdk CodeInternal "invalid tag supplied for builder")
    end.

Definition MsgInstantiateContract_ValidateBasic `{Amounts} (msg : MsgInstantiateContract)
    : option error :=
  if IsAnyNegative (ic_InitFunds msg)
  then Some (ErrSdk CodeInvalidCoins "negative InitFunds") else None.

Definition MsgExecuteContract_ValidateBasic `{Amounts} (msg : MsgExecuteContract)
    : option error :=
  if IsAnyNegative (ec_SentFunds msg)
  then Some (ErrSdk CodeInvalidCoins "negative SentFunds") else None.

(** ** genesis.go *)

Record Code := { code_CodeInfo : CodeInfo; CodesBytes : bytes }.

Record Contract := {
  ContractAddress : bytes; contract_Info : ContractInfo; ContractState : list Model }.

Record GenesisState := { Codes : list Code; Contracts : list Contract }.

Definition ValidateGenesis (data : GenesisState) : option error := None.

(** ** Lemmas on keys

    The five kinds of key of the module's store start with different bytes, so
    that no write of one kind is seen by a read of another. *)

Inductive key_class := KCode | KContract | KState | KCounter | KOther.

#[export] Instance key_class_eq_dec : EqDecision key_class.
Proof. solve_decision. Defined.

Definition classify (k : bytes) : key_class :=
  match k with
  | x01 :: _ => KCode
  | x02 :: _ => KContract
  | x03 :: _ => KState
  | x6c :: _ => KCounter
  | _ => KOther
  end.

Lemma classify_code `{Addresses} id : classify (GetCodeKey id) = KCode.
Proof. reflexivity. Qed.
Lemma classify_contract a : classify (GetContractAddressKey a) = KContract.
Proof. reflexivity. Qed.
Lemma classify_state a k : classify (GetContractStorePrefixKey a ++ k) = KState.
Proof. reflexivity. Qed.
Lemma classify_code_counter : classify KeyLastCodeID = KCounter.
Proof. reflexivity. Qed.
Lemma classify_instance_counter : classify KeyLastInstanceID = KCounter.
Proof. reflexivity. Qed.

Lemma counters_differ : KeyLastCodeID <> KeyLastInstanceID.
Proof. by vm_compute. Qed.

Create Rewrite HintDb classify.
#[export] Hint Rewrite @classify_code classify_contract classify_state
  classify_code_counter classify_instance_counter : classify.

(** Keys of different classes differ. *)
Lemma classify_ne k k' : classify k <> classify k' -> k <> k'.
Proof. congruence. Qed.

Ltac keys_differ :=
  first [ exact counters_differ | exact (not_eq_sym counters_differ)
        | apply classify_ne; autorewrite with classify; congruence
        | apply classify_ne; autorewrite with classify; simpl; congruence ].

Lemma GetCodeKey_inj `{AddressesLaws} a b :
  is_u64 a -> is_u64 b -> GetCodeKey a = GetCodeKey b -> a = b.
Proof.
  unfold GetCodeKey, CodeKeyPrefix. intros Ha Hb [= E].
  pose proof (Uint64ToBigEndian_spec a Ha) as Sa. rewrite E, Uint64ToBigEndian_spec in Sa by done.
  by injection Sa.
Qed.

Lemma GetContractAddressKey_inj a b :
  GetContractAddressKey a = GetContractAddressKey b -> a = b.
Proof. unfold GetContractAddressKey, ContractKeyPrefix. by intros [= E]. Qed.

(** The stores of two contracts with addresses of one length share no key. *)
Lemma state_key_inj a b k k' :
  length a = length b ->
  GetContractStorePrefixKey a ++ k = GetContractStorePrefixKey b ++ k' -> a = b /\ k = k'.
Proof.
  unfold GetContractStorePrefixKey, ContractStorePrefix. simpl.
  intros Hl [= E]. by apply app_inj_length.
Qed.
