(* ===== verification/Sdk.v ===== *)
(** * Stateful interfaces: the chain the module runs in

    The state a call of the module works on ([world]), and the packages that
    read and change it, as type classes of operations with laws: the key-value
    store, the gas meter and the gas the store charges, accounts and bank
    transfers, the message router, the amino codec, and the virtual machine.
    [Env] bundles the operations and [EnvLaws] their laws; the theorems of the
    other files are proved against these two. [Ref.v] has an instance. *)

From S2P Require Import Prelude GoStd SdkTypes Types.

(** ** The key-value store

    [kv_iter p s] is what an iterator of the store with prefix [p] visits: the
    entries whose key starts with [p], the prefix stripped, in ascending order. *)
Class KVStore := {
  kv : Type;
  kv_get : bytes -> kv -> option bytes;
  kv_set : bytes -> bytes -> kv -> kv;
  kv_iter : bytes -> kv -> list (bytes * bytes) }.

Class KVStoreLaws `{KVStore} : Prop := {
  kv_get_set_eq k v s : kv_get k (kv_set k v s) = Some v;
  kv_get_set_ne k k' v s : k <> k' -> kv_get k' (kv_set k v s) = kv_get k' s;
  kv_iter_spec p s k v : In (k, v) (kv_iter p s) <-> kv_get (p ++ k) s = Some v;
  kv_iter_sorted p s : StronglySorted bytes_lt (map fst (kv_iter p s)) }.

(** ** The gas meter, and the gas the metered store charges

    An operation that exceeds the limit panics: [Err]. [gm_finite] holds of the
    meters made by [sdk.NewGasMeter] (a transaction's), and not of the infinite
    meter of genesis and simulation. *)
Class GasMeter := {
  meter : Type;
  gm_Limit : meter -> Z;
  gm_GasConsumed : meter -> Z;
  gm_finite : meter -> Prop;
  gm_ConsumeGas : Z -> string -> meter -> result panic meter;
  gm_NewGasMeter : Z -> meter;
  charge_get : bytes -> option bytes -> meter -> result panic meter;
  charge_set : bytes -> bytes -> meter -> result panic meter;
  charge_iter : list (bytes * bytes) -> meter -> result panic meter }.

(** What holds between a meter and the same meter later in a call. *)
Definition gas_adv `{GasMeter} (g g' : meter) : Prop :=
  gm_Limit g' = gm_Limit g /\ gm_GasConsumed g <= gm_GasConsumed g' /\
  (gm_finite g -> gm_finite g' /\ gm_GasConsumed g' <= gm_Limit g').

Class GasMeterLaws `{GasMeter} : Prop := {
  gm_Limit_u64 g : is_u64 (gm_Limit g);
  gm_Consumed_u64 g : is_u64 (gm_GasConsumed g);
  gm_finite_le g : gm_finite g -> gm_GasConsumed g <= gm_Limit g;
  gm_Consume_Ok n d g g' : gm_ConsumeGas n d g = Ok g' ->
    gas_adv g g' /\ gm_GasConsumed g' = gm_GasConsumed g + n;
  gm_Consume_within n d g : gm_finite g -> 0 <= n ->
    gm_GasConsumed g + n <= gm_Limit g -> exists g', gm_ConsumeGas n d g = Ok g';
  gm_New_limit n : is_u64 n -> gm_Limit (gm_NewGasMeter n) = n /\
    gm_GasConsumed (gm_NewGasMeter n) = 0 /\ gm_finite (gm_NewGasMeter n);
  charge_get_Ok k v g g' : charge_get k v g = Ok g' ->
    gas_adv g g' /\ gm_GasConsumed g < gm_GasConsumed g';
  charge_set_Ok k v g g' : charge_set k v g = Ok g' ->
    gas_adv g g' /\ gm_GasConsumed g < gm_GasConsumed g';
  charge_iter_Ok l g g' : charge_iter l g = Ok g' -> gas_adv g g' }.

(** ** The virtual machine

    A contract that runs is handed the prefixed store and two functions on
    addresses, and nothing else of the chain; what it does with them is a finite
    program of calls, each continuing with the answer it got. *)
Inductive host_prog (A : Type) : Type :=
  | HDone (r : result string A)
  | HGet (key : bytes) (k : option bytes -> host_prog A)
  | HSet (key value : bytes) (k : host_prog A)
  | HHumanAddress (canon : bytes) (k : result string string -> host_prog A)
  | HCanonicalAddress (human : string) (k : result string bytes -> host_prog A).
Arguments HDone {A} r.
Arguments HGet {A} key k.
Arguments HSet {A} key value k.
Arguments HHumanAddress {A} canon k.
Arguments HCanonicalAddress {A} human k.

Class Wasmer := {
  vm : Type;
  wasmer_Create : bytes -> vm -> result string bytes * vm;
  wasmer_GetCode : bytes -> vm -> result string bytes;
  wasmer_Instantiate :
    vm -> bytes -> wasmTypes.Params -> bytes -> Z -> host_prog wasmTypes.Result;
  wasmer_Execute :
    vm -> bytes -> wasmTypes.Params -> bytes -> Z -> host_prog wasmTypes.Result;
  wasmer_Query : vm -> bytes -> bytes -> Z -> host_prog (bytes * Z) }.

Class WasmerLaws `{Wasmer} : Prop := {
  GetCode_Create code v h v' :
    wasmer_Create code v = (Ok h, v') -> wasmer_GetCode h v' = Ok code;
  GetCode_kept h c code v r v' :
    wasmer_GetCode h v = Ok c -> wasmer_Create code v = (r, v') ->
    wasmer_GetCode h v' = Ok c;
  Create_hash code v h v' w :
    wasmer_Create code v = (Ok h, v') -> fst (wasmer_Create code w) = Ok h }.

(** ** The state of a call

    [w_store]: the wasm module's substore; [w_sdk]: every other module's state,
    accounts and balances among it; [w_vm]: the compiled code on disk; [w_gas]
    and [w_events]: the meter and the event manager of the current context. *)
Class SdkState := {
  sdk_state : Type;
  account_at : sdk_state -> bytes -> option Account }.

Record world `{KVStore, GasMeter, Wasmer, SdkState} := World {
  w_store : kv;
  w_gas : meter;
  w_sdk : sdk_state;
  w_vm : vm;
  w_events : list Event }.
Arguments World {_ _ _ _} _ _ _ _ _.

Section Setters.
Context `{KVStore, GasMeter, Wasmer, SdkState}.
Definition set_store (s : kv) (w : world) : world :=
  World s (w_gas w) (w_sdk w) (w_vm w) (w_events w).
Definition set_gas (g : meter) (w : world) : world :=
  World (w_store w) g (w_sdk w) (w_vm w) (w_events w).
Definition set_vm (v : vm) (w : world) : world :=
  World (w_store w) (w_gas w) (w_sdk w) v (w_events w).
Definition set_events (e : list Event) (w : world) : world :=
  World (w_store w) (w_gas w) (w_sdk w) (w_vm w) e.

(** Only gas was spent. *)
Definition gas_step (w w' : world) : Prop :=
  exists g, w' = set_gas g w /\ gas_adv (w_gas w) g.

(** What another module can do to the state: it holds no key of the wasm
    substore, and accounts are never removed. *)
Definition sdk_step (w w' : world) : Prop :=
  w_store w' = w_store w /\ w_vm w' = w_vm w /\ gas_adv (w_gas w) (w_gas w') /\
  forall a, is_Some (account_at (w_sdk w) a) -> is_Some (account_at (w_sdk w') a).
End Setters.

(** ** Messages *)

Record MsgSend := { FromAddress : bytes; ToAddress : bytes; Amount : Coins }.

Inductive wasm_msg :=
  | WStoreCode (m : MsgStoreCode)
  | WInstantiate (m : MsgInstantiateContract)
  | WExecute (m : MsgExecuteContract).

Class OtherMsgs := {
  other_msg : Type;
  other_Route : other_msg -> string;
  other_GetSigners : other_msg -> list bytes }.

(** An [sdk.Msg]: one of the module's (by value or by pointer), the bank's
    [MsgSend], or one of another module. *)
Inductive sdk_msg `{OtherMsgs} :=
  | WasmMsg (ptr : bool) (m : wasm_msg)
  | BankSend (m : MsgSend)
  | OtherMsg (m : other_msg).

(** ** Accounts, transfers, the other modules' handlers *)

Class Modules `{KVStore, GasMeter, Wasmer, SdkState, OtherMsgs} := {
  GetAccount : Ctx -> bytes -> M world (option Account);
  SendCoins : Ctx -> bytes -> bytes -> Coins -> M world (option error);
  bank_Route : string;
  bank_GetSigners : MsgSend -> list bytes;
  type_name : sdk_msg -> string;
  other_handler : string -> option (Ctx -> sdk_msg -> M world Result) }.

Class ModulesLaws `{Modules} : Prop := {
  account_at_address s a acc : account_at s a = Some acc -> acc_Address acc = a;
  GetAccount_spec ctx a w r w' :
    GetAccount ctx a w = Ret r w' -> r = account_at (w_sdk w) a /\ gas_step w w';
  GetAccount_total ctx a : total (GetAccount ctx a);
  SendCoins_step ctx a b cs w r w' : SendCoins ctx a b cs w = Ret r w' -> sdk_step w w';
  SendCoins_total ctx a b cs : total (SendCoins ctx a b cs);
  SendCoins_account ctx a b cs w w' :
    SendCoins ctx a b cs w = Ret None w' -> is_Some (account_at (w_sdk w') b);
  bank_GetSigners_spec m : bank_GetSigners m = [FromAddress m];
  other_handler_step r h ctx m w res w' :
    other_handler r = Some h -> h ctx m w = Ret res w' -> sdk_step w w';
  other_handler_total r h ctx m : other_handler r = Some h -> total (h ctx m) }.

(** ** The amino codec

    The code id of a contract record is a [uint64]: encoding an integer outside
    that range is not possible in the source, and truncates here. The JSON text
    [null] decodes into an interface as [nil], without an error: [Ok None]. *)

Class Codec `{OtherMsgs} := {
  marshal_CodeInfo : CodeInfo -> bytes;
  unmarshal_CodeInfo : bytes -> option CodeInfo;
  marshal_ContractInfo : ContractInfo -> bytes;
  unmarshal_ContractInfo : bytes -> option ContractInfo;
  MarshalJSON_Msg : sdk_msg -> result string bytes;
  UnmarshalJSON_Msg : bytes -> result string (option sdk_msg) }.

Class CodecLaws `{Codec} : Prop := {
  unmarshal_marshal_CodeInfo i : unmarshal_CodeInfo (marshal_CodeInfo i) = Some i;
  unmarshal_marshal_ContractInfo i :
    unmarshal_ContractInfo (marshal_ContractInfo i) =
      Some (NewContractInfo (u64 (CodeID i)) (Creator i) (InitMsg i));
  unmarshal_ContractInfo_u64 b i : unmarshal_ContractInfo b = Some i -> is_u64 (CodeID i);
  UnmarshalJSON_MarshalJSON m b : MarshalJSON_Msg m = Ok b -> UnmarshalJSON_Msg b = Ok (Some m);
  UnmarshalJSON_null : UnmarshalJSON_Msg (bytes_of_string "null") = Ok None }.

(** ** The bundle *)

Class Env := {
  env_Addresses :: Addresses;
  env_Amounts :: Amounts;
  env_Results :: Results;
  env_Net :: Net;
  env_Gzip :: Gzip;
  env_KVStore :: KVStore;
  env_GasMeter :: GasMeter;
  env_Wasmer :: Wasmer;
  env_SdkState :: SdkState;
  env_OtherMsgs :: OtherMsgs;
  env_Modules :: Modules;
  env_Codec :: Codec }.

Class EnvLaws (E : Env) : Prop := {
  laws_Addresses :: AddressesLaws;
  laws_Amounts :: AmountsLaws;
  laws_Results :: ResultsLaws;
  laws_Gzip :: GzipLaws;
  laws_KVStore :: KVStoreLaws;
  laws_GasMeter :: GasMeterLaws;
  laws_Wasmer :: WasmerLaws;
  laws_Modules :: ModulesLaws;
  laws_Codec :: CodecLaws }.

(** ** The store as the keeper sees it

    [ctx.KVStore(key)] is the substore behind the context's meter: a read or a
    write first pays, and panics when it cannot. *)
Section MeteredStore.
Context {E : Env}.

Definition pay (f : meter -> result panic meter) : M world unit := fun w =>
  match f (w_gas w) with
  | Ok g => Ret tt (set_gas g w)
  | Err p => Panic p
  end.

Definition store_Get (k : bytes) : M world (option bytes) :=
  let! v := gget (fun w => kv_get k (w_store w)) in
  do! pay (charge_get k v) in
  gret v.

Definition store_Set (k v : bytes) : M world unit :=
  do! pay (charge_set k v) in
  gmodify (fun w => set_store (kv_set k v (w_store w)) w).

(** [prefix.NewStore(store, pre)]: every key gets the prefix. *)
Definition prefix_Get (pre k : bytes) : M world (option bytes) := store_Get (pre ++ k).
Definition prefix_Set (pre k v : bytes) : M world unit := store_Set (pre ++ k) v.

(** [iter := store.Iterator(nil, nil)], and its use by
    [for ; iter.Valid(); iter.Next() { ... }]: the entries are visited in order
    and every move of the iterator is charged. The body says whether to go on. *)
Fixpoint iterate {A} (l : list (bytes * bytes)) (body : A -> bytes -> bytes -> M world (bool * A))
    (acc : A) : M world A :=
  do! pay (charge_iter l) in
  match l with
  | [] => gret acc
  | (k, v) :: l =>
      let! r := body acc k v in
      let (stop, acc) := r : bool * A in
      if stop then gret acc else iterate l body acc
  end.

Definition prefix_Iterate {A} (pre : bytes) (body : A -> bytes -> bytes -> M world (bool * A))
    (acc : A) : M world A :=
  let! l := gget (fun w => kv_iter pre (w_store w)) in
  iterate l body acc.

(** ** Running a contract against its store and its address functions *)
Record GoAPI := {
  HumanAddress : bytes -> result string string;
  CanonicalAddress : string -> result string bytes }.

Fixpoint run_host {A} (pre : bytes) (api : GoAPI) (p : host_prog A) : M world (result string A) :=
  match p with
  | HDone r => gret r
  | HGet k f => let! v := prefix_Get pre k in run_host pre api (f v)
  | HSet k v p => do! prefix_Set pre k v in run_host pre api p
  | HHumanAddress c f => run_host pre api (f (HumanAddress api c))
  | HCanonicalAddress h f => run_host pre api (f (CanonicalAddress api h))
  end.

End MeteredStore.

(** ** Lemmas *)

Section Steps.
Context `{KVStore, GasMeter, Wasmer, SdkState, !GasMeterLaws}.

#[export] Instance gas_adv_preorder : PreOrder gas_adv.
Proof.
  split.
  - intros g. split; [done|]. split; [lia|]. intros Hf. split; [done|]. by apply gm_finite_le.
  - intros g1 g2 g3 (L1 & C1 & F1) (L2 & C2 & F2). split; [congruence|]. split; [lia|].
    intros Hf. by apply F2, F1.
Qed.

Lemma set_gas_gas w : set_gas (w_gas w) w = w.
Proof. by destruct w. Qed.

#[export] Instance gas_step_preorder : PreOrder gas_step.
Proof.
  split.
  - intros w. exists (w_gas w). split; [by rewrite set_gas_gas|reflexivity].
  - intros w1 w2 w3 (g & -> & Hg) (g' & -> & Hg'). exists g'. split; [done|].
    by transitivity g.
Qed.

#[export] Instance sdk_step_preorder : PreOrder sdk_step.
Proof.
  split.
  - intros w. split; [done|]. split; [done|]. split; [reflexivity|done].
  - intros w1 w2 w3 (S1 & V1 & G1 & A1) (S2 & V2 & G2 & A2).
    split; [congruence|]. split; [congruence|]. split; [by transitivity (w_gas w2)|]. eauto.
Qed.

Lemma gas_sdk_step w w' : gas_step w w' -> sdk_step w w'.
Proof. intros (g & -> & Hg). split; [done|]. split; [done|]. by split. Qed.
End Steps.

Section Lemmas.
Context {E : Env} {L : EnvLaws E}.

Lemma pay_Ret f w r w' :
  pay f w = Ret r w' -> exists g, f (w_gas w) = Ok g /\ w' = set_gas g w.
Proof. unfold pay. destruct (f (w_gas w)); naive_solver. Qed.

Lemma store_Get_Ret k w v w' :
  store_Get k w = Ret v w' -> v = kv_get k (w_store w) /\ gas_step w w'
    /\ gm_GasConsumed (w_gas w) < gm_GasConsumed (w_gas w').
Proof.
  unfold store_Get. intros H. minv H. unfold gget in E0. injection E0 as <- <-.
  minv H. apply pay_Ret in E0 as (g & Hg & ->). injection H as <- <-.
  apply charge_get_Ok in Hg as [Ha Hc]. split; [done|]. split; [by exists g|done].
Qed.

(** The state after a write: the gas paid and the entry set. *)
Lemma store_Set_Ret k v w r w' :
  store_Set k v w = Ret r w' ->
  exists g, gas_adv (w_gas w) g /\ gm_GasConsumed (w_gas w) < gm_GasConsumed g /\
            w' = set_store (kv_set k v (w_store w)) (set_gas g w).
Proof.
  unfold store_Set. intros H. minv H. apply pay_Ret in E0 as (g & Hg & ->).
  injection H as <- <-. apply charge_set_Ok in Hg as [Ha Hc]. by exists g.
Qed.

Lemma pay_total f : total (pay f).
Proof. intros w. unfold pay. by destruct (f (w_gas w)). Qed.
Hint Resolve pay_total : sound.

Lemma store_Get_total k : total (store_Get k).
Proof. unfold store_Get. solve_sound. Qed.

Lemma store_Set_total k v : total (store_Set k v).
Proof. unfold store_Set. solve_sound. Qed.
Hint Resolve store_Get_total store_Set_total : sound.

Lemma run_host_total {A} pre api (p : host_prog A) : total (run_host pre api p).
Proof.
  induction p; simpl; unfold prefix_Get, prefix_Set; solve_sound; auto.
Qed.

End Lemmas.

#[export] Hint Resolve pay_total store_Get_total store_Set_total run_host_total
  GetAccount_total SendCoins_total : sound.
