(* ===== verification/Ref.v ===== *)
(** * A concrete chain

    An instance of the interfaces of [SdkTypes.v] and [Sdk.v], with a proof of
    every law, so that the hypotheses of the development are seen to hold
    together, and theorems can be applied to inputs that compute. The store is a
    finite map whose iterators sort, accounts are a finite map of balances, the
    meter is the SDK's basic one, code is stored under itself, and the contracts
    that run ([scripts]) are a parameter. Nothing here models code of the
    repository. *)

From Stdlib Require Import DecimalString DecimalZ.
From stdpp Require Import sorting countable.
From S2P Require Import Prelude GoStd SdkTypes Types Sdk.
#[local] Open Scope Z_scope.

(** ** The order on keys *)

Definition entry_le (a b : bytes * bytes) : Prop := bytes_ltb (fst b) (fst a) = false.
#[local] Instance entry_le_dec : RelDecision entry_le.
Proof. intros a b. unfold entry_le. apply _. Defined.

#[local] Instance entry_le_total : Total entry_le.
Proof.
  intros [a x] [b y]. unfold entry_le. simpl.
  destruct (bytes_ltb b a) eqn:E; [|by left]. right.
  destruct (bytes_ltb a b) eqn:E'; [|done].
  pose proof (bytes_ltb_trans _ _ _ E E') as H. by rewrite bytes_ltb_irrefl in H.
Qed.

#[local] Instance entry_le_trans : Transitive entry_le.
Proof.
  intros [a x] [b y] [c z]. unfold entry_le. simpl. intros H1 H2.
  destruct (bytes_ltb c a) eqn:E; [|done].
  destruct (bytes_ltb b a) eqn:E1; [done|].
  destruct (bytes_ltb a b) eqn:E2.
  - by rewrite (bytes_ltb_trans _ _ _ E E2) in H2.
  - rewrite (bytes_ltb_total _ _ E1 E2) in H2. congruence.
Qed.

(** ** The store *)

Fixpoint strip (p k : bytes) : option bytes :=
  match p, k with
  | [], k => Some k
  | x :: p, y :: k => if decide (x = y) then strip p k else None
  | _ :: _, [] => None
  end.

Lemma strip_spec (p k k' : bytes) : strip p k = Some k' <-> k = p ++ k'.
Proof.
  revert k. induction p as [|x p IH]; intros k; simpl; [split; congruence|].
  destruct k as [|y k]; [split; congruence|]. case_decide as Hxy.
  - rewrite IH. subst. split; [by intros ->|by intros [= ->]].
  - split; [done|by intros [= ? ?]].
Qed.

Definition ref_iter (p : bytes) (m : gmap bytes bytes) : list (bytes * bytes) :=
  merge_sort entry_le
    (omap (fun kv : bytes * bytes => (fun k => (k, snd kv)) <$> strip p (fst kv))
          (map_to_list m)).

#[local] Instance ref_KVStore : KVStore := {|
  kv := gmap bytes bytes;
  kv_get k m := m !! k;
  kv_set k v m := <[k := v]> m;
  kv_iter := ref_iter |}.

Lemma ref_iter_spec (p : bytes) (m : gmap bytes bytes) (k v : bytes) :
  In (k, v) (ref_iter p m) <-> m !! (p ++ k) = Some v.
Proof.
  unfold ref_iter. rewrite <- list_elem_of_In, merge_sort_Permutation, list_elem_of_omap. split.
  - intros ([k' v'] & Hin & Hk). apply elem_of_map_to_list in Hin. simpl in Hk.
    destruct (strip p k') as [k''|] eqn:E; [|done]. simpl in Hk. simplify_eq.
    apply strip_spec in E. by subst.
  - intros Hm. exists (p ++ k, v). rewrite elem_of_map_to_list. split; [done|]. simpl.
    assert (strip p (p ++ k) = Some k) as -> by by apply strip_spec. done.
Qed.

Lemma ref_iter_nodup (p : bytes) (m : gmap bytes bytes) : NoDup (map fst (ref_iter p m)).
Proof.
  unfold ref_iter. rewrite merge_sort_Permutation.
  pose proof (NoDup_fst_map_to_list m) as Hn. induction (map_to_list m) as [|[k v] l IH].
  - constructor.
  - simpl in *. apply list.NoDup_cons in Hn as [Hk Hn].
    destruct (strip p k) as [k'|] eqn:E; simpl; [|auto]. apply list.NoDup_cons. split; [|auto].
    intros Hin. apply Hk. apply list_elem_of_In, in_map_iff in Hin as ([k2 v2] & Hf & Hin).
    simpl in Hf. subst k2. apply list_elem_of_In, list_elem_of_omap in Hin as ([k3 v3] & Hin & H3).
    simpl in H3. destruct (strip p k3) eqn:E3; simplify_eq/=.
    apply strip_spec in E, E3. subst. apply list_elem_of_fmap. by exists (p ++ k', v2).
Qed.

Lemma sorted_strict l :
  StronglySorted entry_le l -> NoDup (map fst l) -> StronglySorted bytes_lt (map fst l).
Proof.
  induction 1 as [|[k v] l Hs IH Hf]; simpl; [constructor|].
  intros [Hk Hn]%list.NoDup_cons. constructor; [auto|].
  apply Forall_forall. intros k' Hin. apply in_map_iff in Hin as ([k2 v2] & <- & Hin).
  rewrite Forall_forall in Hf. specialize (Hf (k2, v2)). unfold entry_le in Hf. simpl in *.
  unfold bytes_lt. destruct (bytes_ltb k k2) eqn:E; [done|]. exfalso. apply Hk.
  rewrite (bytes_ltb_total k k2) by auto.
  apply list_elem_of_In, in_map_iff. by exists (k2, v2).
Qed.

#[local] Instance ref_KVStoreLaws : KVStoreLaws.
Proof.
  split; simpl.
  - intros. by rewrite lookup_insert_eq.
  - intros. by rewrite lookup_insert_ne.
  - intros. apply ref_iter_spec.
  - intros. apply sorted_strict; [|apply ref_iter_nodup].
    apply (StronglySorted_merge_sort entry_le).
Qed.

(** ** The gas meter *)

Record ref_meter := { rm_limit : Z; rm_consumed : Z; rm_infinite : bool }.

Definition rm_Consume (n : Z) (g : ref_meter) : result panic ref_meter :=
  let c := u64 (rm_consumed g) in
  if (n <? 0) || (two64 <=? c + n) then Err PanicGasOverflow
  else if negb (rm_infinite g) && (u64 (rm_limit g) <? c + n) then Err PanicOutOfGas
  else Ok {| rm_limit := rm_limit g; rm_consumed := c + n; rm_infinite := rm_infinite g |}.

#[local] Instance ref_GasMeter : GasMeter := {|
  meter := ref_meter;
  gm_Limit g := u64 (rm_limit g);
  gm_GasConsumed g := u64 (rm_consumed g);
  gm_finite g := rm_infinite g = false /\ u64 (rm_consumed g) <= u64 (rm_limit g);
  gm_ConsumeGas n _ := rm_Consume n;
  gm_NewGasMeter n := {| rm_limit := n; rm_consumed := 0; rm_infinite := false |};
  charge_get k v := rm_Consume (1000 + 3 * Z.of_nat (length (default [] v)));
  charge_set k v := rm_Consume (2000 + 30 * Z.of_nat (length v));
  charge_iter l := rm_Consume 30 |}.

Lemma rm_Consume_Ok n g g' :
  rm_Consume n g = Ok g' -> gas_adv g g' /\ gm_GasConsumed g' = gm_GasConsumed g + n.
Proof.
  unfold rm_Consume, gas_adv. simpl.
  pose proof (u64_range (rm_consumed g)) as Hc. unfold is_u64 in Hc.
  destruct (Z.ltb_spec n 0), (Z.leb_spec two64 (u64 (rm_consumed g) + n)); simpl; try done; try lia.
  destruct (rm_infinite g) eqn:Ei; simpl;
    [|destruct (Z.ltb_spec (u64 (rm_limit g)) (u64 (rm_consumed g) + n)); [done|]];
    intros [= <-]; simpl; rewrite (u64_small (_ + n)) by (unfold is_u64; lia);
    repeat split; try lia; try done; naive_solver lia.
Qed.

#[local] Instance ref_GasMeterLaws : GasMeterLaws.
Proof.
  split; simpl.
  - intros. apply u64_range.
  - intros. apply u64_range.
  - tauto.
  - intros n _ g g'. apply rm_Consume_Ok.
  - intros n _ g [Hi _] Hn Hle. unfold rm_Consume.
    pose proof (u64_range (rm_limit g)) as Hl. unfold is_u64 in Hl.
    destruct (Z.ltb_spec n 0), (Z.leb_spec two64 (u64 (rm_consumed g) + n)); simpl; try lia.
    rewrite Hi. simpl. destruct (Z.ltb_spec (u64 (rm_limit g)) (u64 (rm_consumed g) + n)); [lia|].
    by eexists.
  - intros n Hn. rewrite (u64_small n) by done. change (u64 0) with 0.
    unfold is_u64 in Hn. repeat split; lia.
  - intros k v g g' H. apply rm_Consume_Ok in H as [Ha Hc]. simpl in Hc. split; [done|lia].
  - intros k v g g' H. apply rm_Consume_Ok in H as [Ha Hc]. simpl in Hc. split; [done|lia].
  - intros l g g' H. by apply rm_Consume_Ok in H as [Ha Hc].
Qed.

(** ** Addresses, amounts, results, network, gzip *)

Definition ref_hash (b : bytes) : bytes := take AddrLen (b ++ replicate AddrLen x00).

Lemma ref_hash_length b : length (ref_hash b) = AddrLen.
Proof. unfold ref_hash. rewrite length_take, length_app, length_replicate. lia. Qed.

#[local] Instance ref_Addresses : Addresses := {|
  AccAddress_String := string_of_bytes;
  AccAddressFromBech32 s :=
    let b := bytes_of_string s in
    if decide (length b = AddrLen) then Ok b else Err "invalid address"%string;
  AccAddress_Equals := bytes_Equal;
  AddressHash := ref_hash;
  Uint64ToBigEndian := BigEndian.PutUint64 |}.

#[local] Instance ref_AddressesLaws : AddressesLaws.
Proof.
  split; simpl.
  - intros a Ha. rewrite bytes_of_string_of_bytes, decide_True by done. done.
  - intros. apply bytes_Equal_true.
  - apply ref_hash_length.
  - apply PutUint64_length.
  - apply Uint64_PutUint64.
Qed.

#[local] Instance ref_Amounts : Amounts := {|
  Int_String z := NilZero.string_of_int (Z.to_int z);
  NewIntFromString s := Z.of_int <$> NilZero.int_of_string s;
  IsAnyNegative := existsb (fun c => coin_Amount c <? 0) |}.

#[local] Instance ref_AmountsLaws : AmountsLaws.
Proof.
  split; simpl.
  - intros z _. rewrite NilZero.isi; simpl; [by rewrite DecimalZ.of_to| |];
      intros Hn; pose proof (DecimalZ.of_to z) as Hz; rewrite Hn in Hz;
      simpl in Hz; subst z; discriminate.
  - intros cs. rewrite existsb_exists, List.Exists_exists. by setoid_rewrite Z.ltb_lt.
Qed.

#[local] Instance ref_Results : Results := {|
  ResultFromError e :=
    {| res_Code := 1; res_Codespace := "sdk"; res_Data := []; res_Log := "failed";
       res_GasUsed := 0; res_Events := [] |};
  IsOK r := res_Code r =? 0;
  ABCIInfo e debug :=
    match root_of e with
    | ErrRoot r => (err_Codespace r, err_Code r, err_Desc r)
    | _ => ("undefined"%string, 1, "internal error"%string)
    end;
  Quote s := s;
  HexBytes_String := string_of_bytes |}.

#[local] Instance ref_ResultsLaws : ResultsLaws.
Proof. split; simpl; [|done]. intros r. apply Z.eqb_eq. Qed.

(** Sources starting with [https:] are absolute and answer 200. *)
#[local] Instance ref_Net : Net := {|
  url_Parse s := if String.prefix "https:" s then Ok "https"%string else Ok ""%string;
  http_Get s := Ok 200 |}.

(** A stream is its payload after the ten byte header; one whose flags byte is
    set is broken, with an error that comes with the last bytes. *)
#[local] Instance ref_Gzip : Gzip := {|
  gzip_open b := if decide (length b < 10)%nat then Err "unexpected EOF"%string
                 else Ok (drop 10 b, if decide (nth 3 b x00 = x00) then EOF
                                     else Broken "gzip: invalid checksum" true);
  gzip_write b := Ok ([x1f; x8b; x08; x00; x00; x00; x00; x00; x00; x00] ++ b) |}.

#[local] Instance ref_GzipLaws : GzipLaws.
Proof.
  split; simpl; intros b z [= <-]; [done|]. by rewrite decide_False by (simpl; lia).
Qed.

(** ** The virtual machine, running given scripts *)

Class Scripts := {
  script_instantiate : bytes -> wasmTypes.Params -> bytes -> Z -> host_prog wasmTypes.Result;
  script_execute : bytes -> wasmTypes.Params -> bytes -> Z -> host_prog wasmTypes.Result;
  script_query : bytes -> bytes -> Z -> host_prog (bytes * Z) }.

Section WithScripts.
Context `{Scripts}.

(** Code is stored under itself: a set of known codes. *)
Definition ref_Create (code : bytes) (v : gset bytes) : result string bytes * gset bytes :=
  if decide (code = []) then (Err "empty code"%string, v) else (Ok code, {[code]} ∪ v).

#[local] Instance ref_Wasmer : Wasmer := {|
  vm := gset bytes;
  wasmer_Create := ref_Create;
  wasmer_GetCode h v := if decide (h ∈ v) then Ok h else Err "no code"%string;
  wasmer_Instantiate _ := script_instantiate;
  wasmer_Execute _ := script_execute;
  wasmer_Query _ := script_query |}.

#[local] Instance ref_WasmerLaws : WasmerLaws.
Proof.
  split; simpl; unfold ref_Create.
  - intros code v h v'. case_decide; intros [= <- <-]. rewrite decide_True; [done|set_solver].
  - intros h c code v r v' Hc. case_decide as Hin; [|done].
    case_decide; intros [= <- <-]; rewrite decide_True; [done|done|done|set_solver].
  - intros code v h v' w. by case_decide; intros [= <- <-].
Qed.
End WithScripts.
#[local] Existing Instances ref_Wasmer ref_WasmerLaws.

(** ** Accounts and the bank *)

(** The balance of a denomination, and adding to it; zero balances stay listed. *)
Fixpoint add_coin (d : string) (n : Z) (cs : Coins) : Coins :=
  match cs with
  | [] => [{| coin_Denom := d; coin_Amount := n |}]
  | c :: cs =>
      if decide (coin_Denom c = d)
      then {| coin_Denom := d; coin_Amount := coin_Amount c + n |} :: cs
      else c :: add_coin d n cs
  end.

Definition add_coins (k : Z) (new old : Coins) : Coins :=
  foldr (fun c cs => add_coin (coin_Denom c) (k * coin_Amount c) cs) old new.

#[local] Instance ref_SdkState : SdkState := {|
  sdk_state := gmap bytes Coins;
  account_at s a := (fun cs => {| acc_Address := a; acc_Coins := cs |}) <$> s !! a |}.

#[local] Instance ref_OtherMsgs : OtherMsgs := {|
  other_msg := Z;
  other_Route z := "other"%string;
  other_GetSigners z := [] |}.

Section Bank.
Context `{Scripts}.

Definition ref_pay (n : Z) : M world unit := fun w =>
  match gm_ConsumeGas n "" (w_gas w) with
  | Ok g => Ret tt (set_gas g w)
  | Err p => Panic p
  end.

Definition set_sdk (s : gmap bytes Coins) (w : world) : world :=
  World (w_store w) (w_gas w) s (w_vm w) (w_events w).

Definition ref_GetAccount (ctx : Ctx) (a : bytes) : M world (option Account) :=
  do! ref_pay 1000 in gget (fun w => account_at (w_sdk w) a).

(** Fails on an amount that is not positive and on insufficient funds; creates the
    receiver. *)
Definition ref_transfer (from to : bytes) (cs : Coins) (s : gmap bytes Coins)
    : result error (gmap bytes Coins) :=
  if existsb (fun c => coin_Amount c <=? 0) cs
  then Err (ErrSdk CodeInvalidCoins "invalid coins")
  else
    let rest := add_coins (-1) cs (default [] (s !! from)) in
    if existsb (fun c => coin_Amount c <? 0) rest
    then Err (ErrSdk CodeInvalidCoins "insufficient account funds")
    else
      let s1 := <[from := rest]> s in
      Ok (<[to := add_coins 1 cs (default [] (s1 !! to))]> s1).

Definition ref_SendCoins (ctx : Ctx) (from to : bytes) (cs : Coins) : M world (option error) :=
  do! ref_pay 5000 in
  let! r := gget (fun w => ref_transfer from to cs (w_sdk w)) in
  match r with
  | Err e => gret (Some e)
  | Ok s => do! gmodify (set_sdk s) in gret None
  end.

Definition ref_bank_handler (ctx : Ctx) (m : sdk_msg) : M world Result :=
  match m with
  | BankSend m =>
      let! r := ref_SendCoins ctx (FromAddress m) (ToAddress m) (Amount m) in
      match r with
      | Some e => gret (ResultFromError e)
      | None => gret Result_zero
      end
  | _ => gret (ResultFromError (ErrSdk CodeUnknownRequest "unrecognized bank message type"))
  end.

#[local] Instance ref_Modules : Modules := {|
  GetAccount := ref_GetAccount;
  SendCoins := ref_SendCoins;
  bank_Route := "bank";
  bank_GetSigners m := [FromAddress m];
  type_name m := "msg";
  other_handler r := if decide (r = "bank"%string) then Some ref_bank_handler else None |}.

Lemma ref_pay_Ret n w r w' : ref_pay n w = Ret r w' -> gas_step w w'.
Proof.
  unfold ref_pay. destruct (gm_ConsumeGas n "" (w_gas w)) as [g|] eqn:E; [|done].
  intros [= <- <-]. exists g. split; [done|]. by apply (gm_Consume_Ok n ""%string).
Qed.

Lemma ref_transfer_keeps from to cs s s' a :
  ref_transfer from to cs s = Ok s' -> is_Some (s !! a) -> is_Some (s' !! a).
Proof.
  unfold ref_transfer. repeat case_match; try done. intros [= <-] Ha.
  destruct (decide (a = to)) as [->|]; [rewrite lookup_insert_eq; by eexists|].
  rewrite lookup_insert_ne by done.
  destruct (decide (a = from)) as [->|]; [rewrite lookup_insert_eq; by eexists|].
  by rewrite lookup_insert_ne.
Qed.

Lemma ref_SendCoins_step ctx from to cs w r w' :
  ref_SendCoins ctx from to cs w = Ret r w' -> sdk_step w w'.
Proof.
  unfold ref_SendCoins. intros H0. minv H0. apply ref_pay_Ret in E as Hg.
  destruct Hg as (g & -> & Hg). minv H0. unfold gget in E0. injection E0 as <- <-. simpl in H0.
  destruct (ref_transfer from to cs (w_sdk w)) as [s|e] eqn:Et.
  - injection H0 as <- <-. split; [done|]. split; [done|]. split; [done|].
    intros a. simpl. rewrite !fmap_is_Some. by apply (ref_transfer_keeps from to cs).
  - injection H0 as <- <-. split; [done|]. split; [done|]. by split.
Qed.

Lemma ref_SendCoins_total ctx from to cs : total (ref_SendCoins ctx from to cs).
Proof.
  unfold ref_SendCoins. apply total_gbind; [intros w; unfold ref_pay; by case_match|].
  intros _. apply total_gbind; [by intros w|]. intros [s|e]; [|by intros w].
  apply total_gbind; by intros.
Qed.

Lemma ref_SendCoins_account ctx from to cs w w' :
  ref_SendCoins ctx from to cs w = Ret None w' -> is_Some (w_sdk w' !! to).
Proof.
  unfold ref_SendCoins. intros H0. minv H0. minv H0. destruct r0 as [s|e] eqn:Et; [|done].
  injection H0 as <-. injection E0 as Et' _. simpl. subst. revert Et'. unfold ref_transfer.
  repeat case_match; try done. intros [= <-]. rewrite lookup_insert_eq. by eexists.
Qed.

#[local] Instance ref_ModulesLaws : ModulesLaws.
Proof.
  split; simpl.
  - intros s a acc. destruct (s !! a); [|done]. by intros [= <-].
  - intros ctx a w r w'. unfold ref_GetAccount. intros H0. minv H0.
    apply ref_pay_Ret in E as Hg. destruct Hg as (g & -> & Hg).
    injection H0 as <- <-. split; [done|]. by exists g.
  - intros ctx a. apply total_gbind; [|by intros].
    intros w. unfold ref_pay. by case_match.
  - apply ref_SendCoins_step.
  - apply ref_SendCoins_total.
  - intros ctx a b cs w w' Hs%ref_SendCoins_account. simpl. by apply fmap_is_Some.
  - done.
  - intros r h ctx m w res w' Hh Hr. case_decide; [|done]. injection Hh as <-.
    destruct m as [| m |]; try (injection Hr as <- <-; apply (reflexivity (R:=sdk_step))).
    simpl in Hr. minv Hr. apply ref_SendCoins_step in E.
    destruct r0; injection Hr as <- <-; done.
  - intros r h ctx m Hh. case_decide; [|done]. injection Hh as <-.
    destruct m as [| m |]; try (by intros w).
    apply total_gbind; [apply ref_SendCoins_total|]. by intros [].
Qed.
End Bank.
#[local] Existing Instances ref_Modules ref_ModulesLaws.

(** ** The codec: any countable type, bit by bit *)

Fixpoint pos_bytes (p : positive) : bytes :=
  match p with
  | xH => []
  | xO p => x00 :: pos_bytes p
  | xI p => x01 :: pos_bytes p
  end.

Fixpoint bytes_pos (b : bytes) : option positive :=
  match b with
  | [] => Some xH
  | x00 :: b => xO <$> bytes_pos b
  | x01 :: b => xI <$> bytes_pos b
  | _ => None
  end.

Lemma bytes_pos_bytes p : bytes_pos (pos_bytes p) = Some p.
Proof. induction p as [p IH|p IH|]; simpl; by rewrite ?IH. Qed.

Definition ref_marshal {A} `{Countable A} (a : A) : bytes := pos_bytes (encode a).
Definition ref_unmarshal {A} `{Countable A} (b : bytes) : option A :=
  p ← bytes_pos b; decode p.

Lemma ref_unmarshal_marshal {A} `{Countable A} (a : A) : ref_unmarshal (ref_marshal a) = Some a.
Proof. unfold ref_unmarshal, ref_marshal. rewrite bytes_pos_bytes. apply decode_encode. Qed.

#[local] Program Instance CodeInfo_countable : Countable CodeInfo :=
  inj_countable' (fun i => (CodeHash i, code_Creator i, Source i, Builder i))
    (fun '(h, c, s, b) => NewCodeInfo h c s b) _.
Next Obligation. by intros []. Qed.

#[local] Program Instance ContractInfo_countable : Countable ContractInfo :=
  inj_countable' (fun i => (CodeID i, Creator i, InitMsg i))
    (fun '(a, b, c) => NewContractInfo a b c) _.
Next Obligation. by intros []. Qed.

#[local] Program Instance Coin_countable : Countable Coin :=
  inj_countable' (fun c => (coin_Denom c, coin_Amount c))
    (fun '(d, a) => {| coin_Denom := d; coin_Amount := a |}) _.
Next Obligation. by intros []. Qed.

Definition wasm_msg_rep : Type :=
  (bytes * bytes * string * string) + (bytes * Z * bytes * Coins) + (bytes * bytes * bytes * Coins).

Definition wasm_msg_to (m : wasm_msg) : wasm_msg_rep :=
  match m with
  | WStoreCode m => inl (inl (sc_Sender m, sc_WASMByteCode m, sc_Source m, sc_Builder m))
  | WInstantiate m => inl (inr (ic_Sender m, ic_Code m, ic_InitMsg m, ic_InitFunds m))
  | WExecute m => inr (ec_Sender m, ec_Contract m, ec_Msg m, ec_SentFunds m)
  end.

Definition wasm_msg_of (r : wasm_msg_rep) : wasm_msg :=
  match r with
  | inl (inl (a, b, c, d)) =>
      WStoreCode {| sc_Sender := a; sc_WASMByteCode := b; sc_Source := c; sc_Builder := d |}
  | inl (inr (a, b, c, d)) =>
      WInstantiate {| ic_Sender := a; ic_Code := b; ic_InitMsg := c; ic_InitFunds := d |}
  | inr (a, b, c, d) =>
      WExecute {| ec_Sender := a; ec_Contract := b; ec_Msg := c; ec_SentFunds := d |}
  end.

Definition sdk_msg_rep : Type := (bool * wasm_msg_rep) + (bytes * bytes * Coins) + Z.

Definition sdk_msg_to (m : sdk_msg) : sdk_msg_rep :=
  match m with
  | WasmMsg p m => inl (inl (p, wasm_msg_to m))
  | BankSend m => inl (inr (FromAddress m, ToAddress m, Amount m))
  | OtherMsg z => inr z
  end.

Definition sdk_msg_of (r : sdk_msg_rep) : sdk_msg :=
  match r with
  | inl (inl (p, m)) => WasmMsg p (wasm_msg_of m)
  | inl (inr (a, b, c)) => BankSend {| FromAddress := a; ToAddress := b; Amount := c |}
  | inr z => OtherMsg z
  end.

Lemma sdk_msg_of_to m : sdk_msg_of (sdk_msg_to m) = m.
Proof. by destruct m as [p []|[]|]; try destruct m. Qed.

#[local] Instance ref_Codec : Codec := {|
  marshal_CodeInfo := ref_marshal;
  unmarshal_CodeInfo := ref_unmarshal;
  marshal_ContractInfo i := ref_marshal (NewContractInfo (u64 (CodeID i)) (Creator i) (InitMsg i));
  unmarshal_ContractInfo b :=
    i ← ref_unmarshal b;
    if decide (0 <= CodeID i < two64) then Some i else None;
  MarshalJSON_Msg m := Ok (ref_marshal (sdk_msg_to m));
  UnmarshalJSON_Msg b :=
    match ref_unmarshal b with
    | Some r => Ok (Some (sdk_msg_of r))
    | None => if bool_decide (b = bytes_of_string "null") then Ok None else Err "invalid json"%string
    end |}.

#[local] Instance ref_CodecLaws : CodecLaws.
Proof.
  split; simpl.
  - apply ref_unmarshal_marshal.
  - intros i. rewrite ref_unmarshal_marshal. simpl. by rewrite decide_True by apply u64_range.
  - intros b i Hb. apply bind_Some in Hb as (j & _ & Hj). by case_decide; simplify_eq.
  - intros m b [= <-]. by rewrite ref_unmarshal_marshal, sdk_msg_of_to.
  - reflexivity.
Qed.

(** ** The bundle *)

#[local] Instance RefEnv `{Scripts} : Env := {}.
#[local] Instance RefEnvLaws `{Scripts} : EnvLaws RefEnv.
Proof. split; apply _. Qed.

(** Contracts that do nothing, and a state with given balances. *)
Definition done_result : wasmTypes.Result :=
  {| wasmTypes.GasUsed := 0; wasmTypes.Messages := []; wasmTypes.Data := "";
     wasmTypes.Log := "" |}.

Definition idle_scripts : Scripts := {|
  script_instantiate _ _ _ _ := HDone (Ok done_result);
  script_execute _ _ _ _ := HDone (Ok done_result);
  script_query _ _ _ := HDone (Ok ([], 0)) |}.

Definition ref_world `{Scripts} (gas : Z) (accounts : gmap bytes Coins) : world :=
  World (∅ : gmap bytes bytes) (gm_NewGasMeter gas) (accounts : gmap bytes Coins)
    (∅ : gset bytes) [].

Definition ref_ctx : Ctx :=
  {| ctx_BlockHeight := 1; ctx_BlockTimeUnix := 0; ctx_ChainID := "test" |}.
