(* ===== verification/SignBytes.v ===== *)
(** * Codec registration and signing bytes (codec.go, msg.go)

    [RegisterCodec], the module's own codec, and [GetSignBytes] of the three
    messages: the bytes an account signs are the amino JSON of the message with its
    keys sorted. The codec and [sdk.SortJSON] are interfaces; what they are relied
    on for is stated with the JSON reader of [Unmarshal.v] and the canonical form
    of [Canon.v]. *)

From S2P Require Import Prelude GoStd Base64 Json Unmarshal JsonText Canon SdkTypes Types Sdk Ref.
Import Json Unmarshal.

(** ** The interface of the codec *)

(** A field of a struct, as the encoder sees it by its type. *)
Inductive go_field :=
  | FAddress (a : bytes)
  | FBytes (b : bytes)
  | FString (s : string)
  | FUint64 (n : Z)
  | FRawMessage (raw : bytes)
  | FCoins (cs : Coins).

(** A struct: its type, and its fields under the names of their [json] tags. *)
Record go_struct := { go_type : string; go_fields : list (string * go_field) }.

(** amino and [sdk.SortJSON]. [empty_list] is what is written for coins without
    elements: the encoder tells [nil] from an empty slice, the model does not. *)
Class AminoJSON := {
  codec : Type;
  codec_New : codec;
  RegisterConcrete : string -> string -> codec -> result panic codec;
  RegisterCrypto : codec -> result panic codec;
  Seal : codec -> codec;
  registered : codec -> string -> option string;
  sealed : codec -> bool;
  MarshalJSON : codec -> go_struct -> result string bytes;
  SortJSON : bytes -> result string bytes;
  empty_list : value }.

Section Encoding.
Context `{Addresses} `{Amounts} `{AminoJSON}.

Definition coin_value (c : Coin) : value :=
  VObj [(bytes_of_string "denom", text (coin_Denom c));
        (bytes_of_string "amount", text (Int_String (coin_Amount c)))].

(** How a field is written: an integer as text, bytes in base64, raw JSON as it is;
    what raw bytes that are no JSON text, or an absent address or code, lead to is
    left open. *)
Definition field_value (f : go_field) : option value :=
  match f with
  | FAddress [] | FBytes [] => None
  | FAddress a => Some (text (AccAddress_String a))
  | FBytes b => Some (VStr (Base64.Encode b))
  | FString s => Some (text s)
  | FUint64 n => Some (VStr (bytes_of_string (Strconv.FormatUint n)))
  | FRawMessage raw => parse raw
  | FCoins [] => Some empty_list
  | FCoins cs => Some (VArr (map coin_value cs))
  end.

Definition fields_value (fs : list (string * go_field)) : option (list (bytes * value)) :=
  mapM (fun f => pair (bytes_of_string f.1) <$> field_value f.2) fs.

(** A value of a registered type is written under the name of the type. *)
Definition wrapped (name : string) (fields : list (bytes * value)) : value :=
  VObj [(bytes_of_string "type", text name); (bytes_of_string "value", VObj fields)].

End Encoding.

(** A number a [float64] can hold. *)
Fixpoint small_numbers (v : value) : bool :=
  match v with
  | VNum text => (length text <=? 15)%nat && forallb is_digit text
  | VArr l => forallb small_numbers l
  | VObj fs => forallb (fun kv => small_numbers kv.2) fs
  | _ => true
  end.

Class AminoJSONLaws `{Addresses, Amounts, AminoJSON} : Prop := {
  registered_New t : registered codec_New t = None;
  sealed_New : sealed codec_New = false;
  RegisterConcrete_Ok t name c c' t' :
    RegisterConcrete t name c = Ok c' ->
    registered c' t' = if bool_decide (t' = t) then Some name else registered c t';
  RegisterConcrete_open t name c c' : RegisterConcrete t name c = Ok c' -> sealed c' = false;
  RegisterConcrete_fresh t name c :
    sealed c = false -> registered c t = None -> (forall t', registered c t' <> Some name) ->
    exists c', RegisterConcrete t name c = Ok c';
  RegisterConcrete_again t name c : is_Some (registered c t) -> exists p, RegisterConcrete t name c = Err p;
  RegisterConcrete_sealed t name c : sealed c = true -> exists p, RegisterConcrete t name c = Err p;
  RegisterCrypto_Ok c c' t name :
    RegisterCrypto c = Ok c' -> registered c t = Some name -> registered c' t = Some name;
  RegisterCrypto_fresh c :
    sealed c = false ->
    (forall t name, registered c t = Some name -> String.prefix "wasm/" name = true) ->
    exists c', RegisterCrypto c = Ok c';
  registered_Seal c t : registered (Seal c) t = registered c t;
  sealed_Seal c : sealed (Seal c) = true;
  MarshalJSON_Ok c s name fields :
    Forall (fun f => Valid (bytes_of_string f.1) = true) (go_fields s) ->
    registered c (go_type s) = Some name -> fields_value (go_fields s) = Some fields ->
    exists out, MarshalJSON c s = Ok out /\ parse out = Some (wrapped name fields);
  SortJSON_Ok data out :
    SortJSON data = Ok out ->
    exists v v', parse data = Some v /\ parse out = Some v' /\ erase v' = erase (canon v);
  SortJSON_same data data' v v' :
    parse data = Some v -> parse data' = Some v' -> small_numbers v = true -> small_numbers v' = true ->
    canon v = canon v' -> SortJSON data = SortJSON data';
  SortJSON_small data v :
    parse data = Some v -> small_numbers v = true -> exists out, SortJSON data = Ok out;
  empty_list_shape : empty_list = VNull \/ empty_list = VArr [] }.

(** ** codec.go *)

Section Codec.
Context `{AminoJSON}.

Definition type_MsgStoreCode : string := "types.MsgStoreCode".
Definition type_MsgInstantiateContract : string := "types.MsgInstantiateContract".
Definition type_MsgExecuteContract : string := "types.MsgExecuteContract".

Definition res_bind {E A B} (r : result E A) (f : A -> result E B) : result E B :=
  match r with Ok a => f a | Err e => Err e end.

Definition RegisterCodec (cdc : codec) : result panic codec :=
  res_bind (RegisterConcrete type_MsgStoreCode "wasm/store-code" cdc) (fun cdc =>
  res_bind (RegisterConcrete type_MsgInstantiateContract "wasm/instantiate" cdc) (fun cdc =>
  RegisterConcrete type_MsgExecuteContract "wasm/execute" cdc)).

(** [func init()]: the codec it stores in [ModuleCdc]. *)
Definition init : result panic codec :=
  res_bind (RegisterCodec codec_New) (fun cdc =>
  res_bind (RegisterCrypto cdc) (fun cdc =>
  Ok (Seal cdc))).

End Codec.

(** ** msg.go: signing bytes *)

Section SignBytes.
Context `{AminoJSON} (ModuleCdc : codec).

Definition MustMarshalJSON (s : go_struct) : result panic bytes :=
  match MarshalJSON ModuleCdc s with Ok out => Ok out | Err _ => Err PanicErr end.

Definition MustSortJSON (data : bytes) : result panic bytes :=
  match SortJSON data with Ok out => Ok out | Err _ => Err PanicErr end.

Definition MsgStoreCode_struct (msg : MsgStoreCode) : go_struct :=
  {| go_type := type_MsgStoreCode;
     go_fields := [("sender", FAddress (sc_Sender msg));
                   ("wasm_byte_code", FBytes (sc_WASMByteCode msg));
                   ("source", FString (sc_Source msg));
                   ("builder", FString (sc_Builder msg))]%string |}.

Definition MsgInstantiateContract_struct (msg : MsgInstantiateContract) : go_struct :=
  {| go_type := type_MsgInstantiateContract;
     go_fields := [("sender", FAddress (ic_Sender msg));
                   ("code_id", FUint64 (ic_Code msg));
                   ("init_msg", FRawMessage (ic_InitMsg msg));
                   ("init_funds", FCoins (ic_InitFunds msg))]%string |}.

Definition MsgExecuteContract_struct (msg : MsgExecuteContract) : go_struct :=
  {| go_type := type_MsgExecuteContract;
     go_fields := [("sender", FAddress (ec_Sender msg));
                   ("contract", FAddress (ec_Contract msg));
                   ("msg", FRawMessage (ec_Msg msg));
                   ("sent_funds", FCoins (ec_SentFunds msg))]%string |}.

Definition MsgStoreCode_GetSignBytes (msg : MsgStoreCode) : result panic bytes :=
  res_bind (MustMarshalJSON (MsgStoreCode_struct msg)) MustSortJSON.

Definition MsgInstantiateContract_GetSignBytes (msg : MsgInstantiateContract) : result panic bytes :=
  res_bind (MustMarshalJSON (MsgInstantiateContract_struct msg)) MustSortJSON.

Definition MsgExecuteContract_GetSignBytes (msg : MsgExecuteContract) : result panic bytes :=
  res_bind (MustMarshalJSON (MsgExecuteContract_struct msg)) MustSortJSON.

(** The method of the interface [sdk.Msg]. *)
Definition GetSignBytes (m : wasm_msg) : result panic bytes :=
  match m with
  | WStoreCode msg => MsgStoreCode_GetSignBytes msg
  | WInstantiate msg => MsgInstantiateContract_GetSignBytes msg
  | WExecute msg => MsgExecuteContract_GetSignBytes msg
  end.

End SignBytes.

(** ** Registration *)

Section Registration.
Context {ad : Addresses} {am : Amounts} {aj : AminoJSON} {laws : AminoJSONLaws}.

Lemma res_bind_Ok {E A B} (r : result E A) (f : A -> result E B) b :
  res_bind r f = Ok b <-> exists a, r = Ok a /\ f a = Ok b.
Proof. destruct r as [a|e]; simpl; split; [eauto|by intros (? & [= <-] & ?)|done|by intros (? & ? & ?)]. Qed.

(** What each type is registered as. *)
Definition wasm_names (cdc : codec) : Prop :=
  registered cdc type_MsgStoreCode = Some "wasm/store-code"%string /\
  registered cdc type_MsgInstantiateContract = Some "wasm/instantiate"%string /\
  registered cdc type_MsgExecuteContract = Some "wasm/execute"%string.

Definition wasm_types : list string :=
  [type_MsgStoreCode; type_MsgInstantiateContract; type_MsgExecuteContract].

Lemma RegisterCodec_spec cdc cdc' t :
  RegisterCodec cdc = Ok cdc' ->
  wasm_names cdc' /\ sealed cdc' = false /\ (t ∉ wasm_types -> registered cdc' t = registered cdc t).
Proof.
  unfold RegisterCodec. intros (c1 & H1 & (c2 & H2 & H3)%res_bind_Ok)%res_bind_Ok.
  assert (E : forall t, registered cdc' t
      = if bool_decide (t = type_MsgExecuteContract) then Some "wasm/execute"%string
        else if bool_decide (t = type_MsgInstantiateContract) then Some "wasm/instantiate"%string
        else if bool_decide (t = type_MsgStoreCode) then Some "wasm/store-code"%string
        else registered cdc t).
  { intros t'. by rewrite (RegisterConcrete_Ok _ _ _ _ t' H3), (RegisterConcrete_Ok _ _ _ _ t' H2),
      (RegisterConcrete_Ok _ _ _ _ t' H1). }
  unfold wasm_names. rewrite !E. split; [done|]. split; [by eapply RegisterConcrete_open|].
  intros Ht. unfold wasm_types in Ht. rewrite !bool_decide_eq_false_2; [done|set_solver..].
Qed.

(** A codec the module has not been registered with. *)
Definition without_wasm (cdc : codec) : Prop :=
  sealed cdc = false /\ (forall t, t ∈ wasm_types -> registered cdc t = None) /\
  (forall t name, registered cdc t = Some name -> String.prefix "wasm/" name = false).

Lemma RegisterCodec_fresh cdc : without_wasm cdc -> exists cdc', RegisterCodec cdc = Ok cdc'.
Proof.
  intros (Hs & Ht & Hn). unfold RegisterCodec, wasm_types in *.
  assert (Hfresh : forall name, String.prefix "wasm/" name = true -> forall t, registered cdc t <> Some name).
  { intros name Hp t E. apply Hn in E. congruence. }
  destruct (RegisterConcrete_fresh type_MsgStoreCode "wasm/store-code" cdc) as (c1 & H1).
  { done. } { apply Ht. set_solver. } { by apply Hfresh. }
  rewrite H1. cbn [res_bind]. assert (E1 := fun t => RegisterConcrete_Ok _ _ _ _ t H1).
  destruct (RegisterConcrete_fresh type_MsgInstantiateContract "wasm/instantiate" c1) as (c2 & H2).
  { by eapply RegisterConcrete_open. } { rewrite E1. simpl. apply Ht. set_solver. }
  { intros t. rewrite E1. case_bool_decide; [congruence|by apply Hfresh]. }
  rewrite H2. cbn [res_bind]. assert (E2 := fun t => RegisterConcrete_Ok _ _ _ _ t H2).
  apply RegisterConcrete_fresh.
  { by eapply RegisterConcrete_open. } { rewrite E2, E1. simpl. apply Ht. set_solver. }
  intros t. rewrite E2, E1. repeat case_bool_decide; [congruence..|by apply Hfresh].
Qed.

Lemma init_names cdc : init = Ok cdc -> wasm_names cdc /\ sealed cdc = true.
Proof.
  unfold init. intros (c1 & H1 & (c2 & H2 & [= <-])%res_bind_Ok)%res_bind_Ok.
  destruct (RegisterCodec_spec _ _ EmptyString H1) as ((N1 & N2 & N3) & _ & _).
  split; [|apply sealed_Seal]. unfold wasm_names. rewrite !registered_Seal.
  repeat split; by eapply RegisterCrypto_Ok.
Qed.

(** The module's codec is built without a panic, knows the three messages under
    their names, and is closed: registering the messages with it, or a second time
    with any codec, panics. *)
Theorem module_codec :
  (exists cdc, init = Ok cdc /\ wasm_names cdc /\ exists p, RegisterCodec cdc = Err p) /\
  (forall cdc cdc', RegisterCodec cdc = Ok cdc' -> exists p, RegisterCodec cdc' = Err p).
Proof.
  split.
  - destruct (RegisterCodec_fresh codec_New) as (c1 & H1).
    { split; [apply sealed_New|]. split; [intros; apply registered_New|]. intros t name. by rewrite registered_New. }
    destruct (RegisterCodec_spec _ _ EmptyString H1) as (_ & Hs & _).
    destruct (RegisterCrypto_fresh c1) as (c2 & H2); [done| |].
    { intros t name Hname. destruct (RegisterCodec_spec _ _ t H1) as ((N1 & N2 & N3) & _ & Ho).
      destruct (decide (t ∈ wasm_types)) as [Hin|Hout]; [|rewrite Ho, registered_New in Hname by done; done].
      unfold wasm_types in Hin. repeat (apply elem_of_cons in Hin as [->|Hin]; [by simplify_eq|]).
      by apply not_elem_of_nil in Hin. }
    assert (Hi : init = Ok (Seal c2)) by (unfold init; rewrite H1; simpl; by rewrite H2).
    exists (Seal c2). split; [done|]. destruct (init_names _ Hi) as [Hn Hsealed]. split; [done|].
    destruct (RegisterConcrete_sealed type_MsgStoreCode "wasm/store-code" _ Hsealed) as (p & Hp).
    exists p. unfold RegisterCodec. by rewrite Hp.
  - intros cdc cdc' Hr. destruct (RegisterCodec_spec _ _ EmptyString Hr) as ((N1 & _) & _ & _).
    destruct (RegisterConcrete_again type_MsgStoreCode "wasm/store-code" cdc') as (p & Hp); [by rewrite N1|].
    exists p. unfold RegisterCodec. by rewrite Hp.
Qed.

End Registration.

(** ** What the signing bytes determine *)

(** Two values with one canonical form, numbers aside. *)
Definition same_value (v w : value) : Prop := erase (canon v) = erase (canon w).

(** Two JSON texts with one canonical form: they may differ in spaces, in the order
    of fields and in fields that are overwritten. *)
Definition same_json (a b : bytes) : Prop :=
  exists v w, parse a = Some v /\ parse b = Some w /\ canon v = canon w.

(** The same but for the texts of numbers. *)
Definition alike_json (a b : bytes) : Prop :=
  exists v w, parse a = Some v /\ parse b = Some w /\ same_value v w.

(** The same text, but for bytes that are not valid UTF-8, each of which is
    written as the replacement character. *)
Definition same_string (s s' : string) : Prop :=
  sanitize (bytes_of_string s) = sanitize (bytes_of_string s').

Definition same_funds (cs cs' : Coins) : Prop :=
  Forall2 (fun c c' => same_string (coin_Denom c) (coin_Denom c') /\ coin_Amount c = coin_Amount c') cs cs'.

(** [eqv] on the raw JSON of two messages, equal characters in texts, equality on
    all the rest. *)
Definition same_message (eqv : bytes -> bytes -> Prop) (m m' : wasm_msg) : Prop :=
  match m, m' with
  | WStoreCode a, WStoreCode b =>
      sc_Sender a = sc_Sender b /\ sc_WASMByteCode a = sc_WASMByteCode b /\
      same_string (sc_Source a) (sc_Source b) /\ same_string (sc_Builder a) (sc_Builder b)
  | WInstantiate a, WInstantiate b =>
      ic_Sender a = ic_Sender b /\ ic_Code a = ic_Code b /\ eqv (ic_InitMsg a) (ic_InitMsg b) /\
      same_funds (ic_InitFunds a) (ic_InitFunds b)
  | WExecute a, WExecute b =>
      ec_Sender a = ec_Sender b /\ ec_Contract a = ec_Contract b /\ eqv (ec_Msg a) (ec_Msg b) /\
      same_funds (ec_SentFunds a) (ec_SentFunds b)
  | _, _ => False
  end.

Lemma get_same_field k v w : same_value v w -> forall x, get k v = Some x -> exists y, get k w = Some y /\ same_value x y.
Proof.
  intros H x Hx. pose proof (get_same k v w H) as E. rewrite Hx in E.
  destruct (get k w) as [y|]; [|done]. exists y. split; [done|]. by injection E.
Qed.

Lemma get_same_Some k v w x y : same_value v w -> get k v = Some x -> get k w = Some y -> same_value x y.
Proof. intros H Hx Hy. destruct (get_same_field k v w H x Hx) as (y' & Hy' & Hs). by simplify_eq. Qed.

Lemma same_str s s' : same_value (VStr s) (VStr s') -> s = s'.
Proof. by intros [= ->]. Qed.

Lemma same_arr l l' : same_value (VArr l) (VArr l') -> Forall2 same_value l l'.
Proof.
  unfold same_value. simpl. intros [= H]. revert l' H.
  induction l as [|v l IH]; intros [|v' l'] H; try done; simpl in H; constructor; [congruence|].
  apply IH. congruence.
Qed.

Section Signing.
Context {ad : Addresses} {am : Amounts} {aj : AminoJSON}.

Definition valid_text (s : string) : Prop := Valid (bytes_of_string s) = true.

(** Strings that hold the same valid UTF-8 are the same. *)
Lemma same_string_valid s s' : valid_text s -> valid_text s' -> same_string s s' -> s = s'.
Proof.
  unfold valid_text, Valid, same_string. intros Hs%bool_decide_eq_true Hs'%bool_decide_eq_true H.
  rewrite Hs, Hs' in H. rewrite <- (string_of_bytes_of_string s), H. apply string_of_bytes_of_string.
Qed.

(** Fields that can be written and read: addresses have the SDK's length and,
    as amounts, texts that are valid UTF-8 (bech32 and decimal text are), the code
    is there, ids are [uint64], raw messages are JSON. Nothing is asked of
    strings. *)
Definition coin_ok (c : Coin) : Prop :=
  valid_text (Int_String (coin_Amount c)) /\ int_ok (coin_Amount c).

Definition address_ok (a : bytes) : Prop := length a = AddrLen /\ valid_text (AccAddress_String a).

Definition field_ok (f : go_field) : Prop :=
  match f with
  | FAddress a => address_ok a
  | FBytes b => b <> []
  | FString s => True
  | FUint64 n => is_u64 n
  | FRawMessage raw => is_Some (parse raw)
  | FCoins cs => Forall coin_ok cs
  end.

Definition message_struct (m : wasm_msg) : go_struct :=
  match m with
  | WStoreCode msg => MsgStoreCode_struct msg
  | WInstantiate msg => MsgInstantiateContract_struct msg
  | WExecute msg => MsgExecuteContract_struct msg
  end.

Definition signable (m : wasm_msg) : Prop := Forall (fun f => field_ok f.2) (go_fields (message_struct m)).

Lemma address_nonempty (a : bytes) : length a = AddrLen -> exists c l, a = c :: l.
Proof. destruct a as [|c l]; [done|eauto]. Qed.

Lemma field_value_ok f : field_ok f -> is_Some (field_value f).
Proof.
  destruct f as [a|[|c b]|s|n|raw|[|c cs]]; simpl; try done.
  intros [(c & l & ->)%address_nonempty _]. done.
Qed.

Lemma same_text s s' : same_value (text s) (text s') -> same_string s s'.
Proof. apply same_str. Qed.

Context {ad_laws : AddressesLaws} {am_laws : AmountsLaws} {laws : AminoJSONLaws}.

Lemma same_address a a' :
  address_ok a -> address_ok a' -> same_value (text (AccAddress_String a)) (text (AccAddress_String a')) -> a = a'.
Proof.
  intros [Hl Ht] [Hl' Ht'] H%same_text%same_string_valid; [|done..].
  pose proof (FromBech32_String a Hl) as E. rewrite H, FromBech32_String in E by done. congruence.
Qed.

Lemma same_coin c c' :
  coin_ok c -> coin_ok c' -> same_value (coin_value c) (coin_value c') ->
  same_string (coin_Denom c) (coin_Denom c') /\ coin_Amount c = coin_Amount c'.
Proof.
  destruct c as [d z], c' as [d' z']. intros (Ha & Hi) (Ha' & Hi') H. simpl in *.
  split; [apply same_text; by apply (get_same_Some "denom" _ _ _ _ H)|].
  assert (Ez : Int_String z = Int_String z')
    by (apply same_string_valid; [done..|]; apply same_text; by apply (get_same_Some "amount" _ _ _ _ H)).
  pose proof (NewIntFromString_String z Hi) as E. rewrite Ez, NewIntFromString_String in E by done. congruence.
Qed.

Lemma same_coins cs cs' :
  Forall coin_ok cs -> Forall coin_ok cs' ->
  same_value (VArr (map coin_value cs)) (VArr (map coin_value cs')) -> same_funds cs cs'.
Proof.
  intros Hcs Hcs' H%same_arr. revert cs' Hcs' H. induction Hcs as [|c cs Hc _ IH]; intros [|c' cs'] Hcs' H;
    try by inversion H. { constructor. }
  inversion H; subst. apply list.Forall_cons in Hcs' as [Hc' Hcs'].
  constructor; [by apply same_coin|by apply IH].
Qed.

(** Coins that are written the same are the same. *)
Lemma same_coins_field cs cs' v v' :
  Forall coin_ok cs -> Forall coin_ok cs' ->
  field_value (FCoins cs) = Some v -> field_value (FCoins cs') = Some v' -> same_value v v' -> same_funds cs cs'.
Proof.
  intros Hcs Hcs' Hv Hv' H.
  assert (Hlist : forall (c : Coin) cs, ~ same_value empty_list (VArr (map coin_value (c :: cs)))).
  { intros c l. by destruct empty_list_shape as [-> | ->]. }
  destruct cs as [|c cs], cs' as [|c' cs']; injection Hv as <-; injection Hv' as <-;
    [constructor| | |by apply same_coins].
  - by apply Hlist in H.
  - symmetry in H. by apply Hlist in H.
Qed.

Lemma same_uint n n' :
  is_u64 n -> is_u64 n' ->
  same_value (VStr (bytes_of_string (Strconv.FormatUint n))) (VStr (bytes_of_string (Strconv.FormatUint n'))) ->
  n = n'.
Proof.
  intros Hn Hn' H%same_str. apply (f_equal string_of_bytes) in H. rewrite !string_of_bytes_of_string in H.
  pose proof (ParseUint_FormatUint n Hn) as E. rewrite H, ParseUint_FormatUint in E by done. congruence.
Qed.

(** Two fields of one type that are written the same. *)
Definition same_field (f f' : go_field) : Prop :=
  match f, f' with
  | FRawMessage a, FRawMessage b => alike_json a b
  | FAddress a, FAddress b => a = b
  | FBytes a, FBytes b => a = b
  | FString a, FString b => same_string a b
  | FUint64 a, FUint64 b => a = b
  | FCoins a, FCoins b => same_funds a b
  | _, _ => True
  end.

Lemma same_field_value f f' v v' :
  field_ok f -> field_ok f' -> field_value f = Some v -> field_value f' = Some v' -> same_value v v' ->
  same_field f f'.
Proof.
  destruct f as [a|b|s|n|raw|cs], f' as [a'|b'|s'|n'|raw'|cs']; simpl; try done; intros Hf Hf' Hv Hv' H.
  - destruct (address_nonempty a (proj1 Hf)) as (c & l & ->), (address_nonempty a' (proj1 Hf')) as (c' & l' & ->).
    simplify_eq. by apply same_address.
  - destruct b as [|c b]; [done|]. destruct b' as [|c' b']; [done|]. simplify_eq. apply same_str in H.
    pose proof (Base64.Decode_Encode (c :: b)) as E. rewrite H, Base64.Decode_Encode in E. congruence.
  - simplify_eq. by apply same_text.
  - simplify_eq. by apply same_uint.
  - by exists v, v'.
  - by eapply same_coins_field.
Qed.

Definition message_name (m : wasm_msg) : string :=
  match m with
  | WStoreCode _ => "wasm/store-code"
  | WInstantiate _ => "wasm/instantiate"
  | WExecute _ => "wasm/execute"
  end.

Lemma fields_value_ok fs :
  Forall (fun f => field_ok f.2) fs -> exists fields, fields_value fs = Some fields.
Proof.
  intros Hfs. apply mapM_is_Some_2. eapply Forall_impl; [|exact Hfs].
  intros [k f] (v & Hv)%field_value_ok. simpl in *. rewrite Hv. by eexists.
Qed.

Lemma registered_message cdc m :
  wasm_names cdc -> registered cdc (go_type (message_struct m)) = Some (message_name m).
Proof. intros (N1 & N2 & N3). by destruct m. Qed.

Lemma valid_tags m : Forall (fun f => Valid (bytes_of_string f.1) = true) (go_fields (message_struct m)).
Proof. destruct m; by repeat constructor. Qed.

Lemma GetSignBytes_struct cdc m :
  GetSignBytes cdc m = res_bind (MustMarshalJSON cdc (message_struct m)) MustSortJSON.
Proof. by destruct m. Qed.

(** What is marshalled for a message, before it is sorted. *)
Lemma marshalled cdc m :
  wasm_names cdc -> signable m ->
  exists fields data, fields_value (go_fields (message_struct m)) = Some fields /\
    MustMarshalJSON cdc (message_struct m) = Ok data /\ parse data = Some (wrapped (message_name m) fields).
Proof.
  intros Hn Hs. destruct (fields_value_ok _ Hs) as (fields & Hf).
  destruct (MarshalJSON_Ok cdc _ _ _ (valid_tags m) (registered_message cdc m Hn) Hf) as (data & Hm & Hp).
  exists fields, data. unfold MustMarshalJSON. by rewrite Hm.
Qed.

Lemma sign_bytes_value cdc m out :
  wasm_names cdc -> signable m -> GetSignBytes cdc m = Ok out ->
  exists fields v, fields_value (go_fields (message_struct m)) = Some fields /\
    parse out = Some v /\ erase v = erase (canon (wrapped (message_name m) fields)).
Proof.
  intros Hn Hs. rewrite GetSignBytes_struct. destruct (marshalled cdc m Hn Hs) as (fields & data & Hf & -> & Hp).
  unfold MustSortJSON. cbn [res_bind]. destruct (SortJSON data) as [out'|] eqn:E; [|done]. intros [= ->].
  destruct (SortJSON_Ok _ _ E) as (v & v' & Hv & Hv' & He). exists fields, v'. by simplify_eq.
Qed.

(** The fields of structs of one shape. *)
Lemma wrapped_same name name' fields fields' :
  same_value (wrapped name fields) (wrapped name' fields') ->
  same_value (text name) (text name') /\ same_value (VObj fields) (VObj fields').
Proof.
  intros H. split; [by apply (get_same_Some "type" _ _ _ _ H)|by apply (get_same_Some "value" _ _ _ _ H)].
Qed.

Lemma fields_value_get fs fields k f :
  NoDup (map fst fs) -> fields_value fs = Some fields -> (k, f) ∈ fs ->
  get k (VObj fields) = field_value f.
Proof.
  unfold fields_value. intros Hn Hfields Hin. cbn [get].
  assert (Hkeys : map fst fields = map (fun f => bytes_of_string f.1) fs).
  { clear Hn Hin. revert fields Hfields. induction fs as [|[k' f'] fs IH]; intros fields H; [by injection H as <-|].
    apply mapM_Some in H. inversion H as [|? kv ? l Hkv Hl]; subst. simpl in *.
    apply fmap_Some in Hkv as (v & _ & ->). simpl. f_equal. apply IH. by apply mapM_Some. }
  assert (Hnd : NoDup (map fst fields)).
  { rewrite Hkeys, <- (map_map fst bytes_of_string). apply NoDup_fmap; [|done].
    intros a b E. by rewrite <- (string_of_bytes_of_string a), E, string_of_bytes_of_string. }
  apply mapM_Some in Hfields. apply list_elem_of_lookup in Hin as (i & Hi).
  destruct (Forall2_lookup_l _ _ _ _ _ Hfields Hi) as ([k' v] & Hj & Hkv). cbn [fst snd] in Hkv.
  apply fmap_Some in Hkv as (v' & Hv & [= -> ->]). rewrite Hv. unfold field.
  apply assoc_nodup; [by rewrite reverse_Permutation|]. apply elem_of_reverse. by eapply list_elem_of_lookup_2.
Qed.

(** Two structs with the same tags, of which one field is written the same. *)
Lemma same_struct_field fs fs' fields fields' k f f' :
  Forall (fun f => field_ok f.2) fs -> Forall (fun f => field_ok f.2) fs' ->
  fields_value fs = Some fields -> fields_value fs' = Some fields' ->
  NoDup (map fst fs) -> NoDup (map fst fs') ->
  same_value (VObj fields) (VObj fields') -> (k, f) ∈ fs -> (k, f') ∈ fs' -> same_field f f'.
Proof.
  intros Hok Hok' Hf Hf' Hn Hn' H Hin Hin'. rewrite list.Forall_forall in Hok, Hok'.
  specialize (Hok _ Hin). specialize (Hok' _ Hin'). simpl in *.
  destruct (field_value_ok f Hok) as (v & Hv), (field_value_ok f' Hok') as (v' & Hv').
  pose proof (fields_value_get _ _ _ _ Hn Hf Hin) as G. pose proof (fields_value_get _ _ _ _ Hn' Hf' Hin') as G'.
  rewrite Hv in G. rewrite Hv' in G'. eapply same_field_value; [done..|]. by eapply get_same_Some.
Qed.

Lemma message_tags m : NoDup (map fst (go_fields (message_struct m))).
Proof. apply (bool_decide_unpack _). by destruct m. Qed.

(** C10: The bytes an account signs determine its message up to the form of its
    texts. Of two messages whose addresses have the SDK's length, whose code is
    not empty and whose raw messages are JSON, and which have the same signing
    bytes: they are of one kind, come from one sender, and agree in the code id,
    the contract, the uploaded bytes and the amounts; sources, builders and coin
    names hold the same characters, where all bytes that are not valid UTF-8 count
    as one; and their raw messages are the same JSON up to spaces, the order of
    fields, overwritten fields and the spelling of numbers. *)
Theorem sign_bytes_bind cdc m m' out :
  init = Ok cdc -> signable m -> signable m' ->
  GetSignBytes cdc m = Ok out -> GetSignBytes cdc m' = Ok out ->
  same_message alike_json m m'.
Proof.
  intros [Hn _]%init_names Hs Hs' Hb Hb'.
  destruct (sign_bytes_value cdc m out Hn Hs Hb) as (fs & v & Hfs & Hp & He).
  destruct (sign_bytes_value cdc m' out Hn Hs' Hb') as (fs' & v' & Hfs' & Hp' & He').
  assert (Hw : same_value (wrapped (message_name m) fs) (wrapped (message_name m') fs')).
  { unfold same_value. rewrite <- He, <- He'. by simplify_eq. }
  apply wrapped_same in Hw as [Hname Hfields].
  assert (Hfield := fun k f f' =>
    same_struct_field _ _ _ _ k f f' Hs Hs' Hfs Hfs' (message_tags m) (message_tags m') Hfields).
  destruct m as [a|a|a], m' as [b|b|b]; try (exfalso; discriminate Hname); simpl in Hfield |- *.
  - repeat split;
      [apply (Hfield "sender"%string (FAddress _) (FAddress _))
      |apply (Hfield "wasm_byte_code"%string (FBytes _) (FBytes _))
      |apply (Hfield "source"%string (FString _) (FString _))
      |apply (Hfield "builder"%string (FString _) (FString _))]; set_solver.
  - repeat split;
      [apply (Hfield "sender"%string (FAddress _) (FAddress _))
      |apply (Hfield "code_id"%string (FUint64 _) (FUint64 _))
      |apply (Hfield "init_msg"%string (FRawMessage _) (FRawMessage _))
      |apply (Hfield "init_funds"%string (FCoins _) (FCoins _))]; set_solver.
  - repeat split;
      [apply (Hfield "sender"%string (FAddress _) (FAddress _))
      |apply (Hfield "contract"%string (FAddress _) (FAddress _))
      |apply (Hfield "msg"%string (FRawMessage _) (FRawMessage _))
      |apply (Hfield "sent_funds"%string (FCoins _) (FCoins _))]; set_solver.
Qed.

(** Fields of one tag each, equal up to the form of raw JSON and of texts. *)
Definition same_tagged (f f' : string * go_field) : Prop :=
  f.1 = f'.1 /\
  match f.2, f'.2 with
  | FRawMessage a, FRawMessage b => same_json a b
  | FString a, FString b => same_string a b
  | FCoins a, FCoins b => same_funds a b
  | g, g' => g = g'
  end.

Lemma same_funds_values cs cs' : same_funds cs cs' -> map coin_value cs = map coin_value cs'.
Proof.
  induction 1 as [|[d z] [d' z'] cs cs' [Hd Hz] _ IH]; [done|]. simpl in *. subst z'.
  unfold coin_value at 1 3, text. simpl. by rewrite Hd, IH.
Qed.

Lemma same_tagged_canon k f k' f' v v' :
  same_tagged (k, f) (k', f') -> field_value f = Some v -> field_value f' = Some v' ->
  k = k' /\ canon v = canon v'.
Proof.
  intros [Hk Hf] Hv Hv'. simpl in *. split; [done|].
  destruct f, f'; try done; try (injection Hf as ->; by simplify_eq).
  - simpl in *. unfold text in *. rewrite Hf in Hv. by simplify_eq.
  - destruct Hf as (w & w' & Hw & Hw' & E). simpl in *. by simplify_eq.
  - pose proof (same_funds_values _ _ Hf) as E. destruct Hf; injection Hv as <-; injection Hv' as <-; [done|].
    exact (f_equal (fun l => canon (VArr l)) E).
Qed.

Lemma same_tagged_fields fs fs' fields fields' :
  Forall2 same_tagged fs fs' -> fields_value fs = Some fields -> fields_value fs' = Some fields' ->
  canon (VObj fields) = canon (VObj fields').
Proof.
  intros Hs Hf Hf'. cbn [canon]. do 2 f_equal. apply mapM_Some in Hf, Hf'.
  revert fields fields' Hf Hf'. induction Hs as [|[k f] [k' f'] fs fs' Hff _ IH]; intros fields fields' H1 H2;
    inversion H1 as [|? kv ? l Hkv Hl]; inversion H2 as [|? kv' ? l' Hkv' Hl']; subst; [done|].
  cbn [fst snd] in *. apply fmap_Some in Hkv as (v & Hv & ->), Hkv' as (v' & Hv' & ->).
  destruct (same_tagged_canon _ _ _ _ _ _ Hff Hv Hv') as [-> E]. cbn [map fst snd]. rewrite E.
  f_equal. by apply IH.
Qed.

Lemma wrapped_canon name fields fields' :
  canon (VObj fields) = canon (VObj fields') -> canon (wrapped name fields) = canon (wrapped name fields').
Proof. unfold wrapped. cbn [canon map fst snd]. intros [= E]. by rewrite E. Qed.

(** Messages that are the same but for the form of their texts: how their fields
    compare. *)
Lemma same_message_fields m m' :
  same_message same_json m m' ->
  message_name m = message_name m' /\
  Forall2 same_tagged (go_fields (message_struct m)) (go_fields (message_struct m')).
Proof.
  intros H. destruct m as [a|a|a], m' as [b|b|b]; try done; destruct a, b; simpl in H;
    destruct H as (-> & -> & Er & Ef); split; try done; by repeat constructor.
Qed.

(** The numbers inside the raw JSON of a message. *)
Definition small_raw (m : wasm_msg) : Prop :=
  match m with
  | WStoreCode _ => True
  | WInstantiate msg => forall v, parse (ic_InitMsg msg) = Some v -> small_numbers v = true
  | WExecute msg => forall v, parse (ec_Msg msg) = Some v -> small_numbers v = true
  end.

Lemma field_small f v :
  (forall raw, f <> FRawMessage raw) -> field_value f = Some v -> small_numbers v = true.
Proof.
  intros Hraw Hv. destruct f as [[|]|[|]| | |raw|[|c cs]]; simplify_eq/=; try done.
  - by destruct (Hraw raw).
  - by destruct empty_list_shape as [-> | ->].
  - apply forallb_forall. by intros w (c' & <- & _)%in_map_iff.
Qed.

Lemma message_small m fields :
  small_raw m -> fields_value (go_fields (message_struct m)) = Some fields ->
  small_numbers (wrapped (message_name m) fields) = true.
Proof.
  intros Hm Hf. simpl. rewrite andb_true_r. apply mapM_Some in Hf. apply forallb_forall.
  intros kv Hin. apply list_elem_of_In, list_elem_of_lookup in Hin as (i & Hi).
  destruct (Forall2_lookup_r _ _ _ _ _ Hf Hi) as ([k f] & Hj & Hkv).
  apply fmap_Some in Hkv as (v & Hv & ->). cbn [fst snd] in *.
  apply list_elem_of_lookup_2 in Hj. revert Hv. destruct f as [| | | |raw|] eqn:Ef;
    try (intros Hv; eapply field_small; [|exact Hv]; done).
  intros Hv. destruct m as [a|a|a]; simpl in Hm, Hj, Hv;
    repeat (apply elem_of_cons in Hj as [Hj|Hj]); simplify_eq; auto; by apply not_elem_of_nil in Hj.
Qed.

(** Two messages that differ in the form of their texts only. *)
Lemma sign_bytes_same cdc m out m' :
  wasm_names cdc -> signable m -> small_raw m -> GetSignBytes cdc m = Ok out ->
  signable m' -> small_raw m' -> same_message same_json m m' -> GetSignBytes cdc m' = Ok out.
Proof.
  intros Hn Hs Hsmall Ho Hs' Hsmall' Hsame. revert Ho. rewrite !GetSignBytes_struct.
  destruct (marshalled cdc m Hn Hs) as (fields & data & Hf & -> & Hp). cbn [res_bind].
  destruct (marshalled cdc m' Hn Hs') as (fields' & data' & Hf' & -> & Hp'). cbn [res_bind].
  destruct (same_message_fields m m' Hsame) as [Hname Hfields].
  unfold MustSortJSON. rewrite (SortJSON_same data data' _ _ Hp Hp'); [done|by apply message_small..|].
  rewrite Hname. apply wrapped_canon. by eapply same_tagged_fields.
Qed.

Lemma sign_bytes_exist cdc m :
  wasm_names cdc -> signable m -> small_raw m -> exists out, GetSignBytes cdc m = Ok out.
Proof.
  intros Hn Hs Hsmall. setoid_rewrite GetSignBytes_struct.
  destruct (marshalled cdc m Hn Hs) as (fields & data & Hf & -> & Hp). cbn [res_bind].
  destruct (SortJSON_small data _ Hp (message_small m fields Hsmall Hf)) as (out & Ho).
  exists out. unfold MustSortJSON. by rewrite Ho.
Qed.

(** C27: What an account signs does not depend on the form of the raw JSON of its
    message. A message with addresses of the SDK's length, code that is not empty
    and raw JSON whose numbers are in the range of the codec has signing bytes, and
    every such message with the same canonical form has the same: the same JSON
    up to its form, and texts that agree up to bytes that are not valid UTF-8. *)
Theorem sign_bytes_canonical cdc m :
  init = Ok cdc -> signable m -> small_raw m ->
  exists out, GetSignBytes cdc m = Ok out /\
    forall m', signable m' -> small_raw m' -> same_message same_json m m' -> GetSignBytes cdc m' = Ok out.
Proof.
  intros [Hn _]%init_names Hs Hsmall. destruct (sign_bytes_exist cdc m Hn Hs Hsmall) as [out Ho].
  exists out. split; [done|]. intros m'. by apply sign_bytes_same.
Qed.

(** The stateless checks do not ask for valid UTF-8: for every upload they accept
    there are two different ones, with other builders, that they accept too and
    that have the same signing bytes. *)
Theorem sign_bytes_collide `{Net} cdc msg :
  init = Ok cdc -> address_ok (sc_Sender msg) -> MsgStoreCode_ValidateBasic msg = None ->
  exists b1 b2 out,
    let with_builder b := {| sc_Sender := sc_Sender msg; sc_WASMByteCode := sc_WASMByteCode msg;
                             sc_Source := sc_Source msg; sc_Builder := b |} in
    b1 <> b2 /\ MsgStoreCode_ValidateBasic (with_builder b1) = None /\
    MsgStoreCode_ValidateBasic (with_builder b2) = None /\
    GetSignBytes cdc (WStoreCode (with_builder b1)) = Ok out /\
    GetSignBytes cdc (WStoreCode (with_builder b2)) = Ok out.
Proof.
  intros [Hn _]%init_names Ha Hv. destruct msg as [sender code source builder].
  set (tag c := String.append "cosmwasm-opt:" (string_of_bytes [c])). exists (tag xff), (tag xfe).
  assert (Hchecks : forall c, MsgStoreCode_ValidateBasic {| sc_Sender := sender; sc_WASMByteCode := code;
      sc_Source := source; sc_Builder := tag c |} = None).
  { intros c. unfold MsgStoreCode_ValidateBasic in Hv |- *. simpl in Hv |- *.
    destruct (Z.of_nat (length code) =? 0); [done|]. destruct (MaxWasmSize <? _); [done|].
    by destruct (validate_source source). }
  assert (Hs : forall c, signable (WStoreCode {| sc_Sender := sender; sc_WASMByteCode := code;
      sc_Source := source; sc_Builder := tag c |})).
  { intros c. repeat constructor; try apply Ha. intros Hc. simpl in Hc. subst code. discriminate Hv. }
  destruct (sign_bytes_exist cdc _ Hn (Hs xff) I) as [out Ho]. exists out.
  split; [done|]. do 2 (split; [apply Hchecks|]). split; [done|].
  by apply (sign_bytes_same cdc _ _ _ Hn (Hs xff) I Ho (Hs xfe) I).
Qed.

End Signing.

(** ** A concrete codec

    An instance of the interface with its laws: a list of registrations, and the
    printer of [JsonText.v]. *)

Section Concrete.
#[local] Existing Instances ref_Addresses ref_Amounts ref_AddressesLaws ref_AmountsLaws.

Record ref_codec := { rc_names : gmap string string; rc_sealed : bool }.

Definition rc_register (t name : string) (c : ref_codec) : result panic ref_codec :=
  if rc_sealed c || bool_decide (is_Some (rc_names c !! t)) || bool_decide (map_Exists (fun _ n => n = name) (rc_names c))
  then Err (PanicMsg "already registered")
  else Ok {| rc_names := <[t := name]> (rc_names c); rc_sealed := false |}.

Definition rc_register_crypto (c : ref_codec) : result panic ref_codec :=
  if rc_sealed c then Err (PanicMsg "sealed") else Ok c.

(** The encoding of a struct needs none of the operations. *)
Definition ref_json (reg : ref_codec -> string -> option string)
    (enc : list (string * go_field) -> option (list (bytes * value))) (c : ref_codec) (s : go_struct)
    : result string bytes :=
  match reg c (go_type s), enc (go_fields s) with
  | Some name, Some fields => Ok (compact (wrapped name fields))
  | _, _ => Err "cannot encode"%string
  end.

Definition ref_sort (data : bytes) : result string bytes :=
  match parse data with
  | Some v => Ok (compact (canon v))
  | None => Err "invalid JSON"%string
  end.

Definition ref_field (f : go_field) : option value :=
  match f with
  | FAddress [] | FBytes [] => None
  | FAddress a => Some (text (AccAddress_String a))
  | FBytes b => Some (VStr (Base64.Encode b))
  | FString s => Some (text s)
  | FUint64 n => Some (VStr (bytes_of_string (Strconv.FormatUint n)))
  | FRawMessage raw => parse raw
  | FCoins [] => Some (VArr [])
  | FCoins cs => Some (VArr (map coin_value cs))
  end.

Definition ref_fields (fs : list (string * go_field)) : option (list (bytes * value)) :=
  mapM (fun f => pair (bytes_of_string f.1) <$> ref_field f.2) fs.

#[local] Instance ref_AminoJSON : AminoJSON := {|
  codec := ref_codec;
  codec_New := {| rc_names := ∅; rc_sealed := false |};
  RegisterConcrete := rc_register;
  RegisterCrypto := rc_register_crypto;
  Seal c := {| rc_names := rc_names c; rc_sealed := true |};
  registered c t := rc_names c !! t;
  sealed := rc_sealed;
  MarshalJSON := ref_json (fun c t => rc_names c !! t) ref_fields;
  SortJSON := ref_sort;
  empty_list := VArr [] |}.

Lemma sanitize_ascii s : Forall (fun c => byte_val c < 128) s -> sanitize s = s.
Proof.
  induction 1 as [|c s Hc _ IH]; [done|]. change (c :: s) with ([c] ++ s).
  rewrite sanitize_rune by by constructor. by rewrite IH.
Qed.

Lemma num_char_ascii c : num_char c = true -> byte_val c < 128.
Proof. destruct c; intros E; try discriminate E; vm_compute; done. Qed.

Lemma digit_char_ascii d : d < 10 ->
  Forall (fun c => byte_val c < 128) (bytes_of_string (String (Strconv.digit_char d) EmptyString)).
Proof.
  intros Hd. assert (Hn : (Z.to_N (48 + d) < 58)%N) by lia. unfold Strconv.digit_char.
  remember (Z.to_N (48 + d)) as n eqn:E. clear E.
  assert (Hin : n ∈ map N.of_nat (seq 0 58)).
  { apply list_elem_of_fmap. exists (N.to_nat n). split; [lia|]. apply elem_of_seq. lia. }
  revert Hin. vm_compute map. clear. intros Hin.
  repeat (apply elem_of_cons in Hin as [->|Hin]; [by repeat constructor|]). by apply not_elem_of_nil in Hin.
Qed.

Lemma FormatUint_ascii n : Forall (fun c => byte_val c < 128) (bytes_of_string (Strconv.FormatUint n)).
Proof.
  unfold Strconv.FormatUint. generalize 20%nat. intros fuel. revert n.
  induction fuel as [|fuel IH]; intros n; [constructor|]. cbn [Strconv.format].
  destruct (Z.ltb_spec n 10); [by apply digit_char_ascii|].
  rewrite bytes_of_string_append. apply list.Forall_app. split; [apply IH|].
  apply digit_char_ascii. apply Z.mod_pos_bound. lia.
Qed.

Lemma Encode_ascii b : Forall (fun c => byte_val c < 128) (Base64.Encode b).
Proof.
  pose proof (Encode_plain b) as H. rewrite forallb_forall in H. apply list.Forall_forall.
  intros c Hin%list_elem_of_In%H. apply plain_byte in Hin. lia.
Qed.

Lemma coin_proper c : proper (coin_value c).
Proof.
  apply proper_obj. repeat constructor; cbn [fst snd]; try (by vm_compute); simpl; by rewrite sanitize_sanitize.
Qed.

Lemma ref_field_proper f v : ref_field f = Some v -> proper v.
Proof.
  intros Hv. destruct f as [[|c a]|[|c b]|s|n|raw|[|c cs]]; simplify_eq/=; try done.
  - split; [done|]. simpl. by rewrite sanitize_sanitize.
  - split; [done|]. simpl. f_equal. apply sanitize_ascii, (Encode_ascii (c :: b)).
  - split; [done|]. simpl. by rewrite sanitize_sanitize.
  - split; [done|]. simpl. f_equal. apply sanitize_ascii, FormatUint_ascii.
  - by eapply parse_proper.
  - apply (proper_arr (map coin_value (c :: cs))), Forall_fmap. apply list.Forall_forall. intros. apply coin_proper.
Qed.

Lemma ref_fields_proper fs fields :
  Forall (fun f => Valid (bytes_of_string f.1) = true) fs -> ref_fields fs = Some fields -> proper (VObj fields).
Proof.
  intros Ht Hf. apply proper_obj. apply mapM_Some in Hf. revert Ht.
  induction Hf as [|[k f] kv fs fields Hkv _ IH]; intros Ht; [constructor|].
  apply list.Forall_cons in Ht as [Hk Ht]. constructor; [|auto]. cbn [fst snd] in *.
  apply fmap_Some in Hkv as (v & Hv & ->). cbn [fst snd]. split; [by apply bool_decide_eq_true in Hk|].
  by eapply ref_field_proper.
Qed.

Lemma wrapped_proper name fields : proper (VObj fields) -> proper (wrapped name fields).
Proof.
  intros Hf. apply proper_obj. repeat constructor; cbn [fst snd]; try (by vm_compute); try apply Hf.
  simpl. by rewrite sanitize_sanitize.
Qed.

#[local] Instance ref_AminoJSONLaws : AminoJSONLaws.
Proof.
  split; simpl.
  - done.
  - done.
  - intros t name c c' t'. unfold rc_register. case_match; [done|]. intros [= <-]. simpl.
    destruct (bool_decide_reflect (t' = t)) as [->|Hne]; [apply lookup_insert_eq|by apply lookup_insert_ne].
  - intros t name c c'. unfold rc_register. case_match; [done|]. by intros [= <-].
  - intros t name c Hs Ht Hn. unfold rc_register. rewrite Hs. simpl.
    rewrite Ht. rewrite (bool_decide_eq_false_2 (is_Some None)) by by intros [? ?]. simpl.
    rewrite bool_decide_eq_false_2; [by eexists|]. intros (t' & n & Hl & ->). by apply (Hn t').
  - intros t name c Hn. unfold rc_register. rewrite (bool_decide_eq_true_2 (is_Some _)) by done.
    rewrite orb_true_r. by eexists.
  - intros t name c Hs. unfold rc_register. rewrite Hs. by eexists.
  - intros c c' t name. unfold rc_register_crypto. case_match; [done|]. by intros [= <-].
  - intros c Hs _. unfold rc_register_crypto. rewrite Hs. by eexists.
  - done.
  - done.
  - intros c s name fields Ht Hn Hf. unfold ref_json. rewrite Hn. change (ref_fields (go_fields s) = Some fields) in Hf.
    rewrite Hf. eexists. split; [done|]. pose proof (wrapped_proper name fields (ref_fields_proper _ _ Ht Hf)) as Hp.
    rewrite parse_compact by apply Hp. by rewrite clean_proper.
  - intros data out. unfold ref_sort. destruct (parse data) as [v|] eqn:E; [|done]. intros [= <-].
    exists v, (canon v). by rewrite (canon_readback data).
  - intros data data' v v' Hv Hv' _ _ E. unfold ref_sort. by rewrite Hv, Hv', E.
  - intros data v Hv _. unfold ref_sort. rewrite Hv. by eexists.
  - by right.
Qed.

Definition ref_cdc : codec :=
  match init with Ok cdc => cdc | Err _ => codec_New end.

Lemma ref_init : init = Ok ref_cdc.
Proof. vm_compute. reflexivity. Qed.

(** Two spellings of one message of an instantiation. *)
Definition sample (init_msg : string) : wasm_msg :=
  WInstantiate {| ic_Sender := replicate 20 x61; ic_Code := 7; ic_InitMsg := bytes_of_string (quotes init_msg);
                  ic_InitFunds := [{| coin_Denom := "stake"; coin_Amount := 12 |}] |}.

Definition sample_1 : wasm_msg := sample "{`owner`: `bob`, `shares`: [1, 2]}".
Definition sample_2 : wasm_msg := sample "{`shares`:[1,2],`owner`:`eve`,`owner`:`b\u006fb`}".

Definition ref_sign_bytes : bytes :=
  match GetSignBytes ref_cdc sample_1 with Ok out => out | Err _ => [] end.

Lemma sample_signable_1 : signable sample_1.
Proof.
  repeat constructor; cbn [snd field_ok ic_Sender ic_Code ic_InitMsg ic_InitFunds];
    try (by vm_compute); try (eexists; vm_compute; reflexivity).
Qed.

Lemma sample_signable_2 : signable sample_2.
Proof.
  repeat constructor; cbn [snd field_ok ic_Sender ic_Code ic_InitMsg ic_InitFunds];
    try (by vm_compute); try (eexists; vm_compute; reflexivity).
Qed.

Example ref_sign_bytes_text :
  string_of_bytes ref_sign_bytes
  = quotes (String.append "{`type`:`wasm/instantiate`,`value`:{`code_id`:`7`,`init_funds`:[{`amount`:`12`,`denom`:`stake`}],"
                          "`init_msg`:{`owner`:`bob`,`shares`:[1,2]},`sender`:`aaaaaaaaaaaaaaaaaaaa`}}").
Proof. vm_compute. reflexivity. Qed.

Lemma sign_bytes_bind_witness :
  GetSignBytes ref_cdc sample_1 = Ok ref_sign_bytes /\ GetSignBytes ref_cdc sample_2 = Ok ref_sign_bytes /\
  same_message alike_json sample_1 sample_2.
Proof.
  assert (H1 : GetSignBytes ref_cdc sample_1 = Ok ref_sign_bytes) by (vm_compute; reflexivity).
  assert (H2 : GetSignBytes ref_cdc sample_2 = Ok ref_sign_bytes) by (vm_compute; reflexivity).
  split; [exact H1|]. split; [exact H2|].
  exact (sign_bytes_bind ref_cdc sample_1 sample_2 ref_sign_bytes ref_init sample_signable_1 sample_signable_2 H1 H2).
Defined.

Lemma sign_bytes_canonical_witness :
  exists out, GetSignBytes ref_cdc sample_1 = Ok out /\
    forall m', signable m' -> small_raw m' -> same_message same_json sample_1 m' -> GetSignBytes ref_cdc m' = Ok out.
Proof.
  refine (sign_bytes_canonical ref_cdc sample_1 ref_init sample_signable_1 _).
  assert (E : (small_numbers <$> parse (bytes_of_string (quotes "{`owner`: `bob`, `shares`: [1, 2]}"))) = Some true)
    by (vm_compute; reflexivity).
  intros v Hv. cbn [small_raw sample_1 sample ic_InitMsg] in Hv. rewrite Hv in E. by injection E.
Defined.

Lemma sign_bytes_collide_witness :
  exists b1 b2, b1 <> b2 /\
    let upload b := {| sc_Sender := replicate 20 x61; sc_WASMByteCode := [x00]; sc_Source := "";
                       sc_Builder := b |} in
    GetSignBytes ref_cdc (WStoreCode (upload b1)) = GetSignBytes ref_cdc (WStoreCode (upload b2)).
Proof.
  destruct (@sign_bytes_collide _ _ _ _ ref_Net ref_cdc {| sc_Sender := replicate 20 x61; sc_WASMByteCode := [x00];
      sc_Source := ""; sc_Builder := "" |} ref_init) as (b1 & b2 & out & Hb & _ & _ & H1 & H2);
    [by vm_compute|by vm_compute|].
  exists b1, b2. split; [exact Hb|]. etransitivity; [exact H1|symmetry; exact H2].
Defined.

(** The two spellings have one canonical form, and different texts. *)
Example samples_same : same_message same_json sample_1 sample_2 /\ sample_1 <> sample_2.
Proof.
  split; [|by intros [=]]. split; [done|]. split; [done|]. split; [|by repeat constructor].
  do 2 eexists. split; [vm_compute; reflexivity|]. split; [vm_compute; reflexivity|]. by vm_compute.
Qed.
End Concrete.
