(* ===== verification/Gas.v ===== *)
(** * Gas accounting of the keeper (keeper.go, [gasForContract] and [consumeGas])

    One unit of SDK gas buys [GasMultiplier] units of contract gas. The keeper
    hands a contract what is left on the meter, capped, and charges what the
    contract reports, rounded down. *)

From S2P Require Import Prelude GoStd SdkTypes Types Sdk Ref.

Definition GasMultiplier : Z := 100.
Definition MaxGas : Z := 900000000.

Section Gas.
Context {E : Env}.

(** All operations are on [uint64] and wrap. *)
Definition remaining_gas (limit consumed : Z) : Z := u64 (u64 (limit - consumed) * GasMultiplier).

Definition gasForContract : M world Z :=
  let! meter := gget w_gas in
  let remaining := remaining_gas (gm_Limit meter) (gm_GasConsumed meter) in
  gret (if MaxGas <? remaining then MaxGas else remaining).

Definition consumeGas (gas : Z) : M world unit :=
  let consumed := gas / GasMultiplier in
  pay (gm_ConsumeGas consumed "wasm contract").

End Gas.

(** ** Lemmas *)

Section GasLemmas.
Context {E : Env} {L : EnvLaws E}.

Lemma gasForContract_Ret w :
  gasForContract w =
  Ret (Z.min MaxGas (remaining_gas (gm_Limit (w_gas w)) (gm_GasConsumed (w_gas w)))) w.
Proof.
  unfold gasForContract, gbind, gget, gret. f_equal.
  destruct (Z.ltb_spec MaxGas (remaining_gas (gm_Limit (w_gas w)) (gm_GasConsumed (w_gas w)))); lia.
Qed.

Lemma remaining_gas_le l c :
  0 <= c <= l -> l < two64 -> 0 <= remaining_gas l c <= (l - c) * GasMultiplier.
Proof.
  intros Hc Hl. unfold remaining_gas. pose proof (u64_range (u64 (l - c) * GasMultiplier)) as Hr.
  unfold is_u64 in Hr. rewrite (u64_small (l - c)) in * by (unfold is_u64; lia).
  split; [lia|]. unfold u64. apply Z.mod_le; unfold GasMultiplier, two64; lia.
Qed.

Lemma remaining_gas_exact l c :
  0 <= c <= l -> (l - c) * GasMultiplier < two64 ->
  remaining_gas l c = (l - c) * GasMultiplier.
Proof.
  intros Hc Hl. unfold remaining_gas, GasMultiplier in *.
  rewrite (u64_small (l - c)) by (unfold is_u64; lia). apply u64_small. unfold is_u64. lia.
Qed.

Lemma consumeGas_Ret gas w r w' :
  consumeGas gas w = Ret r w' ->
  gas_step w w' /\
  gm_GasConsumed (w_gas w') = gm_GasConsumed (w_gas w) + gas / GasMultiplier.
Proof.
  intros H. apply pay_Ret in H as (g & Hc & ->). apply gm_Consume_Ok in Hc as [Ha Hc].
  split; [by exists g|done].
Qed.

Lemma gasForContract_total : total gasForContract.
Proof. unfold gasForContract. solve_sound. Qed.

Lemma consumeGas_total gas : total (consumeGas gas).
Proof. unfold consumeGas. solve_sound. Qed.

End GasLemmas.
#[export] Hint Resolve gasForContract_total consumeGas_total : sound.

(** ** Properties *)

Section GasProperties.
Context {E : Env} {L : EnvLaws E}.

(** The gas a contract may use is what is left on a transaction's meter,
    scaled and capped at [MaxGas]; no wrap-around happens as long as the scaled
    amount fits in 64 bits, and the state is not touched. *)
Theorem gasForContract_exact w :
  gm_finite (w_gas w) ->
  (gm_Limit (w_gas w) - gm_GasConsumed (w_gas w)) * GasMultiplier < two64 ->
  gasForContract w =
    Ret (Z.min MaxGas ((gm_Limit (w_gas w) - gm_GasConsumed (w_gas w)) * GasMultiplier)) w.
Proof.
  intros Hf Hb. rewrite gasForContract_Ret, remaining_gas_exact; [done| |done].
  pose proof (gm_finite_le _ Hf). pose proof (gm_Consumed_u64 (w_gas w)) as Hc.
  unfold is_u64 in Hc. lia.
Qed.


(** The scaling can wrap: a meter with 184467440737095517 gas left, far more
    than the cap needs, grants the contract 84 units. *)
Theorem gasForContract_wraps w :
  gm_Limit (w_gas w) - gm_GasConsumed (w_gas w) = 184467440737095517 ->
  gasForContract w = Ret 84 w.
Proof. intros Hr. rewrite gasForContract_Ret. unfold remaining_gas. by rewrite Hr. Qed.

End GasProperties.

(** ** Witnesses *)

#[local] Existing Instances idle_scripts RefEnv RefEnvLaws.

Definition gas_world (limit : Z) : world := ref_world limit ∅.

Lemma gasForContract_exact_witness :
  gasForContract (gas_world 200000) = Ret 20000000 (gas_world 200000).
Proof.
  exact (gasForContract_exact (gas_world 200000) ltac:(vm_compute; done) ltac:(vm_compute; done)).
Defined.


Lemma gasForContract_wraps_witness :
  gasForContract (gas_world 184467440737095517) = Ret 84 (gas_world 184467440737095517).
Proof. apply gasForContract_wraps. vm_compute. reflexivity. Defined.
