(* ===== verification/Store.v ===== *)
(** * The keeper's records (keeper.go: counters, code and contract records, state)

    Every access of the keeper to its substore apart from the calls that run a
    contract: the two counters, the address a new contract gets, reading and
    writing code and contract records, and a contract's own state. *)

From S2P Require Import Prelude GoStd SdkTypes Types Sdk Ref.

Section Keeper.
Context {E : Env}.

(** ** Counters and addresses *)

(** The id a counter record holds: 1 when it is absent; a record of fewer than
    eight bytes makes [binary.BigEndian.Uint64] panic. *)
Definition read_id (bz : option bytes) : M world Z :=
  match bz with
  | None => gret 1
  | Some bz =>
      match BigEndian.Uint64 bz with
      | Some id => gret id
      | None => gpanic PanicIndex
      end
  end.

Definition GetNextCodeID : M world Z :=
  let! bz := store_Get KeyLastCodeID in
  read_id bz.

Definition autoIncrementID (lastIDKey : bytes) : M world Z :=
  let! bz := store_Get lastIDKey in
  let! id := read_id bz in
  do! store_Set lastIDKey (Uint64ToBigEndian (u64 (id + 1))) in
  gret id.

(** The twenty bytes that are hashed into the address of contract [id]:
    ['C'], the uvarint, zeros. *)
Definition addr_preimage (id : Z) : option bytes :=
  (fun rest => x43 :: rest) <$> Uvarint.PutUvarint (replicate 19 x00) id.

Definition addrFromUint64 (id : Z) : M world bytes :=
  match addr_preimage id with
  | Some addr => gret (AddressHash addr)
  | None => gpanic PanicIndex
  end.

(** [codeID<<32 + instanceID] on [uint64] *)
Definition contract_id (codeID instanceID : Z) : Z := u64 (u64 (codeID * 2 ^ 32) + instanceID).

Definition generateContractAddress (codeID : Z) : M world bytes :=
  let! instanceID := autoIncrementID KeyLastInstanceID in
  let contractID := contract_id codeID instanceID in
  addrFromUint64 contractID.

(** ** Records *)

(** [k.cdc.MustUnmarshalBinaryBare] *)
Definition must {A} (o : option A) : M world A :=
  match o with Some a => gret a | None => gpanic PanicCodec end.

Definition GetCodeInfo (codeID : Z) : M world (option CodeInfo) :=
  let! codeInfoBz := store_Get (GetCodeKey codeID) in
  match codeInfoBz with
  | None => gret None
  | Some bz => let! codeInfo := must (unmarshal_CodeInfo bz) in gret (Some codeInfo)
  end.

(** [nil, nil] when there is no such code. *)
Definition GetByteCode (codeID : Z) : M world (result error (option bytes)) :=
  let! codeInfoBz := store_Get (GetCodeKey codeID) in
  match codeInfoBz with
  | None => gret (Ok None)
  | Some bz =>
      let! codeInfo := must (unmarshal_CodeInfo bz) in
      let! r := gget (fun w => wasmer_GetCode (CodeHash codeInfo) (w_vm w)) in
      match r with
      | Ok code => gret (Ok (Some code))
      | Err text => gret (Err (ErrForeign text))
      end
  end.

Definition GetContractInfo (contractAddress : bytes) : M world (option ContractInfo) :=
  let! contractBz := store_Get (GetContractAddressKey contractAddress) in
  match contractBz with
  | None => gret None
  | Some bz => let! contract := must (unmarshal_ContractInfo bz) in gret (Some contract)
  end.

Definition setContractInfo (contractAddress : bytes) (contract : ContractInfo) : M world unit :=
  store_Set (GetContractAddressKey contractAddress) (marshal_ContractInfo contract).

(** The code record of a contract and the prefix of its store. *)
Definition contractInstance (contractAddress : bytes) : M world (result error (CodeInfo * bytes)) :=
  let! contractBz := store_Get (GetContractAddressKey contractAddress) in
  match contractBz with
  | None => gret (Err (Wrap ErrNotFound "contract"))
  | Some bz =>
      let! contract := must (unmarshal_ContractInfo bz) in
      let! contractInfoBz := store_Get (GetCodeKey (CodeID contract)) in
      match contractInfoBz with
      | None => gret (Err (Wrap ErrNotFound "contract info"))
      | Some bz =>
          let! codeInfo := must (unmarshal_CodeInfo bz) in
          let prefixStoreKey := GetContractStorePrefixKey contractAddress in
          gret (Ok (codeInfo, prefixStoreKey))
      end
  end.

(** [cb] gets the address and the record, and says whether to stop. *)
Definition ListContractInfo {A} (cb : A -> bytes -> ContractInfo -> M world (bool * A)) (acc : A)
    : M world A :=
  prefix_Iterate ContractKeyPrefix
    (fun acc key value =>
       let! contract := must (unmarshal_ContractInfo value) in
       cb acc key contract) acc.

(** ** A contract's state *)

(** The iterator over a contract's state, with the loop that consumes it. *)
Definition GetContractState {A} (contractAddress : bytes)
    (body : A -> bytes -> bytes -> M world (bool * A)) (acc : A) : M world A :=
  let prefixStoreKey := GetContractStorePrefixKey contractAddress in
  prefix_Iterate prefixStoreKey body acc.

(** The loop both of its callers run: append every entry to a list of models. *)
Definition append_model (state : list Model) (key value : bytes) : M world (bool * list Model) :=
  gret (false, state ++ [{| Key := string_of_bytes key; Value := string_of_bytes value |}]).

Definition setContractState (contractAddress : bytes) (models : list Model) : M world unit :=
  let prefixStoreKey := GetContractStorePrefixKey contractAddress in
  for_each models (fun model =>
    prefix_Set prefixStoreKey (bytes_of_string (Key model)) (bytes_of_string (Value model))).

(** [key] is [None] for a [nil] slice. *)
Definition QueryRaw (contractAddress : bytes) (key : option bytes) : M world (list Model) :=
  match key with
  | None => gret []
  | Some key =>
      let prefixStoreKey := GetContractStorePrefixKey contractAddress in
      let! val := prefix_Get prefixStoreKey key in
      match val with
      | Some val => gret [{| Key := string_of_bytes key; Value := string_of_bytes val |}]
      | None => gret []
      end
  end.

(** ** What the store holds, read as data *)

Definition next_id (key : bytes) (s : kv) : Z :=
  match kv_get key s with
  | None => 1
  | Some bz => default 0 (BigEndian.Uint64 bz)
  end.

Definition code_at (s : kv) (id : Z) : option CodeInfo :=
  kv_get (GetCodeKey id) s ≫= unmarshal_CodeInfo.

Definition contract_at (s : kv) (a : bytes) : option ContractInfo :=
  kv_get (GetContractAddressKey a) s ≫= unmarshal_ContractInfo.

(** Every record of the store has the form its readers expect. *)
Record well_typed (s : kv) : Prop := {
  wt_code_counter bz : kv_get KeyLastCodeID s = Some bz -> length bz = 8%nat;
  wt_instance_counter bz : kv_get KeyLastInstanceID s = Some bz -> length bz = 8%nat;
  wt_code id bz : kv_get (GetCodeKey id) s = Some bz -> is_Some (unmarshal_CodeInfo bz);
  wt_contract a bz : kv_get (GetContractAddressKey a) s = Some bz ->
    is_Some (unmarshal_ContractInfo bz) }.

End Keeper.

(** ** Lemmas *)

Section StoreLemmas.
Context {E : Env} {L : EnvLaws E}.

Lemma read_id_Ret bz w id w' :
  read_id bz w = Ret id w' ->
  w' = w /\ is_u64 id /\ id = match bz with None => 1 | Some b => default 0 (BigEndian.Uint64 b) end.
Proof.
  unfold read_id. destruct bz as [b|].
  - destruct (BigEndian.Uint64 b) as [n|] eqn:Eb; [|done]. intros [= <- <-].
    split; [done|]. split; [exact (Uint64_is_u64 _ _ Eb)|done].
  - intros [= <- <-]. split; [done|]. split; [|done]. unfold is_u64, two64. lia.
Qed.

(** The counter's value is returned, and its successor stored; nothing else of
    the state changes but the gas. *)
Lemma autoIncrementID_Ret key w id w' :
  autoIncrementID key w = Ret id w' ->
  id = next_id key (w_store w) /\ is_u64 id /\
  exists g, gas_adv (w_gas w) g /\ gm_GasConsumed (w_gas w) < gm_GasConsumed g /\
    w' = set_store (kv_set key (Uint64ToBigEndian (u64 (id + 1))) (w_store w)) (set_gas g w).
Proof.
  unfold autoIncrementID. intros H. minv H. apply store_Get_Ret in E0 as (-> & (g & -> & Hg) & Hlt).
  minv H. apply read_id_Ret in E0 as (-> & Hu & Hr). minv H.
  apply store_Set_Ret in E0 as (g' & Hg' & Hlt' & ->). injection H as <- <-.
  simpl in *. split; [done|]. split; [done|]. exists g'. split; [by transitivity g|].
  split; [lia|done].
Qed.

Lemma next_id_u64 key s : is_u64 (next_id key s).
Proof.
  unfold next_id. destruct (kv_get key s) as [b|]; [|done].
  destruct (BigEndian.Uint64 b) eqn:Eb; [exact (Uint64_is_u64 _ _ Eb)|done].
Qed.

Lemma next_id_set key s id :
  is_u64 id -> next_id key (kv_set key (Uint64ToBigEndian id) s) = id.
Proof.
  intros Hi. unfold next_id. by rewrite kv_get_set_eq, Uint64ToBigEndian_spec.
Qed.

Lemma next_id_set_ne key k v s : k <> key -> next_id key (kv_set k v s) = next_id key s.
Proof. intros Hk. unfold next_id. by rewrite kv_get_set_ne. Qed.

Lemma addr_preimage_Some id : exists p, addr_preimage id = Some p /\ length p = 20%nat.
Proof.
  destruct (PutUvarint_Some (replicate 19 x00) id) as (b & Hb & Hl).
  { rewrite length_replicate. unfold Uvarint.MaxVarintLen64. lia. }
  exists (x43 :: b). unfold addr_preimage. rewrite Hb. split; [done|].
  simpl. by rewrite Hl, length_replicate.
Qed.

Lemma addr_preimage_inj x y p :
  is_u64 x -> is_u64 y -> addr_preimage x = Some p -> addr_preimage y = Some p -> x = y.
Proof.
  unfold addr_preimage. intros Hx Hy.
  destruct (Uvarint.PutUvarint (replicate 19 x00) x) as [b|] eqn:Ex; [|done].
  destruct (Uvarint.PutUvarint (replicate 19 x00) y) as [b'|] eqn:Ey; [|done].
  simpl. intros [= <-] [= ->]. exact (PutUvarint_inj _ _ x y _ Hx Hy Ex Ey).
Qed.

(** [addrFromUint64] never panics. *)
Definition contract_address (id : Z) : bytes := default [] (AddressHash <$> addr_preimage id).

Lemma addrFromUint64_Ret id w : addrFromUint64 id w = Ret (contract_address id) w.
Proof.
  unfold addrFromUint64, contract_address.
  by destruct (addr_preimage_Some id) as (p & -> & _).
Qed.

Lemma contract_address_length id : length (contract_address id) = AddrLen.
Proof.
  unfold contract_address. destruct (addr_preimage_Some id) as (p & -> & _).
  apply AddressHash_length.
Qed.

Lemma generateContractAddress_Ret codeID w a w' :
  generateContractAddress codeID w = Ret a w' ->
  a = contract_address (contract_id codeID (next_id KeyLastInstanceID (w_store w))) /\
  exists g, gas_adv (w_gas w) g /\ gm_GasConsumed (w_gas w) < gm_GasConsumed g /\
    w' = set_store (kv_set KeyLastInstanceID
           (Uint64ToBigEndian (u64 (next_id KeyLastInstanceID (w_store w) + 1))) (w_store w))
           (set_gas g w).
Proof.
  unfold generateContractAddress. intros H. minv H.
  apply autoIncrementID_Ret in E0 as (-> & Hu & g & Hg & Hlt & ->).
  rewrite addrFromUint64_Ret in H. injection H as <- <-. split; [done|]. by exists g.
Qed.

Lemma must_Ret {A} (o : option A) w a w' : must o w = Ret a w' -> o = Some a /\ w' = w.
Proof. unfold must. destruct o; [|done]. by intros [= -> ->]. Qed.

Lemma must_total {A} (o : option A) : total (must o).
Proof. by destruct o. Qed.
Hint Resolve must_total : sound.

Lemma read_id_total bz : total (read_id bz).
Proof. unfold read_id. solve_sound. Qed.
Hint Resolve read_id_total : sound.

Lemma autoIncrementID_total key : total (autoIncrementID key).
Proof. unfold autoIncrementID. solve_sound. Qed.
Hint Resolve autoIncrementID_total : sound.

Lemma generateContractAddress_total codeID : total (generateContractAddress codeID).
Proof.
  unfold generateContractAddress. apply total_gbind; [auto with sound|].
  intros id w. by rewrite addrFromUint64_Ret.
Qed.

Lemma contractInstance_total a : total (contractInstance a).
Proof. unfold contractInstance. solve_sound. Qed.

Lemma GetCodeInfo_total id : total (GetCodeInfo id).
Proof. unfold GetCodeInfo. solve_sound. Qed.

Lemma GetCodeInfo_Ret id w r w' :
  GetCodeInfo id w = Ret r w' -> r = code_at (w_store w) id /\ gas_step w w'.
Proof.
  unfold GetCodeInfo, code_at. intros H. minv H. apply store_Get_Ret in E0 as (-> & Hs & _).
  destruct (kv_get (GetCodeKey id) (w_store w)) as [bz|]; [|by injection H as <- <-].
  minv H. apply must_Ret in E0 as (Hm & ->). injection H as <- <-. simpl. by rewrite Hm.
Qed.

Lemma GetContractInfo_Ret a w r w' :
  GetContractInfo a w = Ret r w' -> r = contract_at (w_store w) a /\ gas_step w w'.
Proof.
  unfold GetContractInfo, contract_at. intros H. minv H. apply store_Get_Ret in E0 as (-> & Hs & _).
  destruct (kv_get (GetContractAddressKey a) (w_store w)) as [bz|]; [|by injection H as <- <-].
  minv H. apply must_Ret in E0 as (Hm & ->). injection H as <- <-. simpl. by rewrite Hm.
Qed.

(** What [contractInstance] returns is determined by the two records. *)
Lemma contractInstance_Ret a w r w' :
  contractInstance a w = Ret r w' ->
  gas_step w w' /\ gm_GasConsumed (w_gas w) < gm_GasConsumed (w_gas w') /\
  match r with
  | Ok (ci, p) => exists i, contract_at (w_store w) a = Some i /\
      code_at (w_store w) (CodeID i) = Some ci /\ p = GetContractStorePrefixKey a
  | Err e => root_of e = ErrNotFound /\
      (kv_get (GetContractAddressKey a) (w_store w) = None \/
       exists i, contract_at (w_store w) a = Some i /\ kv_get (GetCodeKey (CodeID i)) (w_store w) = None)
  end.
Proof.
  unfold contractInstance. intros H. minv H. apply store_Get_Ret in E0 as (-> & (g & -> & Hg) & Hlt).
  destruct (kv_get (GetContractAddressKey a) (w_store w)) as [bz|] eqn:Ek; cycle 1.
  { injection H as <- <-. split; [by exists g|]. split; [done|]. split; [done|by left]. }
  assert (Hc : contract_at (w_store w) a = unmarshal_ContractInfo bz)
    by (unfold contract_at; by rewrite Ek).
  minv H. apply must_Ret in E0 as (Hm & ->). rewrite Hm in Hc. minv H.
  apply store_Get_Ret in E0 as (-> & (g' & -> & Hg') & Hlt'). simpl in *.
  assert (Hs : gas_step w (set_gas g' w)) by (exists g'; split; [done|by transitivity g]).
  destruct (kv_get (GetCodeKey (CodeID r0)) (w_store w)) as [bz'|] eqn:Ek'; cycle 1.
  { injection H as <- <-. split; [done|]. split; [simpl; lia|]. split; [done|right; eauto]. }
  minv H. apply must_Ret in E0 as (Hm' & ->). injection H as <- <-.
  split; [done|]. split; [simpl; lia|]. exists r0. split; [done|]. split; [|done].
  unfold code_at. rewrite Ek'. exact Hm'.
Qed.

End StoreLemmas.

#[export] Hint Resolve must_total read_id_total autoIncrementID_total generateContractAddress_total
  contractInstance_total GetCodeInfo_total : sound.

(** *** Panics

    With records of the right form, gas is the only reason a record access
    panics. *)

Definition gas_panic {E : Env} (p : panic) : Prop :=
  exists g, (exists k v, charge_get k v g = Err p) \/ (exists k v, charge_set k v g = Err p) \/
            (exists l, charge_iter l g = Err p) \/ (exists n d, gm_ConsumeGas n d g = Err p).

(** From [w], [m] panics only over gas. *)
Definition only_gas_panics {E : Env} {A} (w : world) (m : M world A) : Prop :=
  forall p, m w = Panic p -> gas_panic p.

(** From [w], [m] panics only over gas, and otherwise returns with [Q]. *)
Definition wpg {E : Env} {A} (m : M world A) (Q : A -> world -> Prop) (w : world) : Prop :=
  match m w with
  | Ret a w' => Q a w'
  | Panic p => gas_panic p
  | NoFuel => False
  end.

Section Panics.
Context {E : Env} {L : EnvLaws E}.

Lemma ogp_gret {A} (a : A) w : only_gas_panics w (gret a).
Proof. by intros p. Qed.

Lemma ogp_gbind {A B} (m : M world A) (f : A -> M world B) w :
  only_gas_panics w m -> (forall a w', m w = Ret a w' -> only_gas_panics w' (f a)) ->
  only_gas_panics w (gbind m f).
Proof.
  intros Hm Hf p. unfold gbind. destruct (m w) as [a w'|q|] eqn:Em; [|intros [= ->]; by apply Hm|done].
  by apply Hf.
Qed.

Lemma ogp_store_Get k w : only_gas_panics w (store_Get k).
Proof.
  intros p. unfold store_Get, gbind, gget, pay.
  destruct (charge_get k (kv_get k (w_store w)) (w_gas w)) eqn:Ec; [done|].
  intros [= <-]. exists (w_gas w). left. eauto.
Qed.

Lemma ogp_store_Set k v w : only_gas_panics w (store_Set k v).
Proof.
  intros p. unfold store_Set, gbind, pay. destruct (charge_set k v (w_gas w)) eqn:Ec; [done|].
  intros [= <-]. exists (w_gas w). right. left. eauto.
Qed.

Lemma ogp_must {A} (o : option A) w : is_Some o -> only_gas_panics w (must o).
Proof. by intros [a ->]. Qed.

Lemma ogp_read_id bz w : (forall b, bz = Some b -> length b = 8%nat) -> only_gas_panics w (read_id bz).
Proof.
  unfold read_id. destruct bz as [b|]; [|by intros _ p]. intros Hl. specialize (Hl b eq_refl).
  unfold BigEndian.Uint64. rewrite decide_True by lia. by intros p.
Qed.

(** After a read, the store is what it was. *)
Lemma ogp_read {A} k (f : option bytes -> M world A) w :
  (forall g, only_gas_panics (set_gas g w) (f (kv_get k (w_store w)))) ->
  only_gas_panics w (gbind (store_Get k) f).
Proof.
  intros Hf. apply ogp_gbind; [apply ogp_store_Get|].
  intros v w' (-> & (g & -> & _) & _)%store_Get_Ret. apply Hf.
Qed.

Lemma ogp_must_then {A B} (o : option A) (f : A -> M world B) w :
  is_Some o -> (forall a, o = Some a -> only_gas_panics w (f a)) ->
  only_gas_panics w (gbind (must o) f).
Proof.
  intros Ho Hf. apply ogp_gbind; [by apply ogp_must|]. intros a w' [Hoa ->]%must_Ret. by apply Hf.
Qed.

Lemma ogp_autoIncrementID key w :
  (forall bz, kv_get key (w_store w) = Some bz -> length bz = 8%nat) ->
  only_gas_panics w (autoIncrementID key).
Proof.
  intros Hk. apply ogp_read. intros g. apply ogp_gbind; [by apply ogp_read_id|].
  intros id w' _. apply ogp_gbind; [apply ogp_store_Set|]. intros. apply ogp_gret.
Qed.

Lemma ogp_GetCodeInfo id w : well_typed (w_store w) -> only_gas_panics w (GetCodeInfo id).
Proof.
  intros Hw. apply ogp_read. intros g. destruct (kv_get _ _) eqn:Ek; [|apply ogp_gret].
  apply ogp_must_then; [by eapply wt_code|]. intros. apply ogp_gret.
Qed.

Lemma ogp_GetContractInfo a w : well_typed (w_store w) -> only_gas_panics w (GetContractInfo a).
Proof.
  intros Hw. apply ogp_read. intros g. destruct (kv_get _ _) eqn:Ek; [|apply ogp_gret].
  apply ogp_must_then; [by eapply wt_contract|]. intros. apply ogp_gret.
Qed.

Lemma ogp_contractInstance a w : well_typed (w_store w) -> only_gas_panics w (contractInstance a).
Proof.
  intros Hw. apply ogp_read. intros g. destruct (kv_get _ _) eqn:Ek; [|apply ogp_gret].
  apply ogp_must_then; [by eapply wt_contract|]. intros i' _. apply ogp_read. intros g'.
  destruct (kv_get (GetCodeKey _) _) eqn:Ek'; [|apply ogp_gret].
  apply ogp_must_then; [by eapply wt_code|]. intros. apply ogp_gret.
Qed.

Lemma wpg_gret {A} (a : A) (Q : A -> world -> Prop) w : Q a w -> wpg (gret a) Q w.
Proof. done. Qed.

Lemma wpg_bind {A B} (m : M world A) (f : A -> M world B) Q w :
  wpg m (fun a w' => wpg (f a) Q w') w -> wpg (gbind m f) Q w.
Proof. unfold wpg, gbind. by destruct (m w). Qed.

Lemma wpg_mono {A} (m : M world A) (Q Q' : A -> world -> Prop) w :
  (forall a w', Q a w' -> Q' a w') -> wpg m Q w -> wpg m Q' w.
Proof. unfold wpg. destruct (m w); auto. Qed.

Lemma wpg_pay f (Q : unit -> world -> Prop) w :
  (forall p, f (w_gas w) = Err p -> gas_panic p) ->
  (forall g, f (w_gas w) = Ok g -> Q tt (set_gas g w)) -> wpg (pay f) Q w.
Proof. intros Hp HQ. unfold wpg, pay. destruct (f (w_gas w)) eqn:Ef; auto. Qed.

(** What a returning computation satisfies, and that it only panics over gas. *)
Lemma wpg_intro {A} (m : M world A) (Q : A -> world -> Prop) w :
  only_gas_panics w m -> total m -> (forall a w', m w = Ret a w' -> Q a w') -> wpg m Q w.
Proof.
  intros Hp Ht HQ. unfold wpg. specialize (Ht w). specialize (Hp). unfold only_gas_panics in Hp.
  destruct (m w); eauto.
Qed.

Lemma wpg_elim {A} (m : M world A) (Q : A -> world -> Prop) w :
  wpg m Q w -> only_gas_panics w m /\ forall a w', m w = Ret a w' -> Q a w'.
Proof.
  unfold wpg, only_gas_panics. destruct (m w) as [a w'|p|]; intros HQ.
  - split; [done|]. by intros ? ? [= <- <-].
  - split; [|done]. by intros ? [= <-].
  - done.
Qed.

Lemma wpg_store_Get k (Q : option bytes -> world -> Prop) w :
  (forall g, gas_adv (w_gas w) g -> Q (kv_get k (w_store w)) (set_gas g w)) -> wpg (store_Get k) Q w.
Proof.
  intros HQ. apply wpg_intro; [apply ogp_store_Get|auto with sound|].
  intros v w' (-> & (g & -> & Hg) & _)%store_Get_Ret. by apply HQ.
Qed.

Lemma wpg_store_Set k v (Q : unit -> world -> Prop) w :
  (forall g, gas_adv (w_gas w) g -> Q tt (set_store (kv_set k v (w_store w)) (set_gas g w))) ->
  wpg (store_Set k v) Q w.
Proof.
  intros HQ. apply wpg_intro; [apply ogp_store_Set|auto with sound|].
  intros [] w' (g & Hg & _ & ->)%store_Set_Ret. by apply HQ.
Qed.

(** A loop over a list, with an invariant that knows what is left. *)
Lemma wpg_for_each {A} (l : list A) (f : A -> M world unit) (Inv : list A -> world -> Prop) w :
  (forall x l' w, Inv (x :: l') w -> wpg (f x) (fun _ w' => Inv l' w') w) ->
  Inv l w -> wpg (for_each l f) (fun _ w' => Inv [] w') w.
Proof.
  intros Hf. revert w. induction l as [|x l IH]; intros w Hi; [done|]. simpl.
  apply wpg_bind. eapply wpg_mono; [|by apply Hf]. intros u w' Hi'. by apply IH.
Qed.

(** An iteration that never stops early and only reads. *)
Lemma wpg_iterate {A} (l : list (bytes * bytes)) (body : A -> bytes -> bytes -> M world (bool * A))
    (step : A -> bytes -> bytes -> A) acc w :
  (forall acc k v w', In (k, v) l -> gas_step w w' ->
     wpg (body acc k v) (fun r w'' => r = (false, step acc k v) /\ gas_step w' w'') w') ->
  wpg (iterate l body acc)
    (fun r w' => r = fold_left (fun acc kv => step acc kv.1 kv.2) l acc /\ gas_step w w') w.
Proof.
  intros Hb. assert (Hgen : forall w', gas_step w w' ->
    wpg (iterate l body acc)
      (fun r w'' => r = fold_left (fun acc kv => step acc kv.1 kv.2) l acc /\ gas_step w w'') w').
  2: { apply Hgen. reflexivity. }
  revert acc. induction l as [|[k v] l IH]; intros acc w' Hw'; simpl; apply wpg_bind, wpg_pay.
  - intros p Hp. exists (w_gas w'). eauto.
  - intros g Hg%charge_iter_Ok. apply wpg_gret. split; [done|]. transitivity w'; [done|by exists g].
  - intros p Hp. exists (w_gas w'). eauto 6.
  - intros g Hg%charge_iter_Ok. assert (Hw : gas_step w (set_gas g w')).
    { transitivity w'; [done|by exists g]. }
    apply wpg_bind. eapply wpg_mono; [|apply Hb; [by left|exact Hw]].
    intros r w'' [-> Hg']. simpl. apply IH; [|by transitivity (set_gas g w')].
    intros ? ? ? ? Hin. apply Hb. by right.
Qed.

End Panics.

(** ** Properties *)

Section StoreProperties.
Context {E : Env} {L : EnvLaws E}.

(** C21: the module's records never overlap: code records, contract records, the
    state of contracts, and the two counters live under different keys, and so do
    records of one kind for different ids, for different contracts, and state
    entries of different contracts with addresses of one length. *)
Theorem store_keys_disjoint id id' a b k k' :
  is_u64 id -> is_u64 id' -> length a = length b ->
  NoDup [GetCodeKey id; GetContractAddressKey a; GetContractStorePrefixKey b ++ k;
         KeyLastCodeID; KeyLastInstanceID] /\
  (GetCodeKey id = GetCodeKey id' -> id = id') /\
  (GetContractAddressKey a = GetContractAddressKey b -> a = b) /\
  (GetContractStorePrefixKey a ++ k = GetContractStorePrefixKey b ++ k' -> a = b /\ k = k').
Proof.
  intros Hi Hi' Hl. split; [|split; [|split]].
  - rewrite !list.NoDup_cons, !not_elem_of_cons, list.NoDup_nil.
    pose proof (not_elem_of_nil (A:=bytes)). repeat split; auto; keys_differ.
  - by apply GetCodeKey_inj.
  - apply GetContractAddressKey_inj.
  - by apply state_key_inj.
Qed.

(** Two contracts with different code or instance ids, all below 2^32, are
    given addresses that hash different twenty byte strings. *)
Theorem contract_preimages_differ c i c' i' :
  0 <= c < 2 ^ 32 -> 0 <= i < 2 ^ 32 -> 0 <= c' < 2 ^ 32 -> 0 <= i' < 2 ^ 32 ->
  (c, i) <> (c', i') -> addr_preimage (contract_id c i) <> addr_preimage (contract_id c' i').
Proof.
  change (2 ^ 32) with 4294967296. intros Hc Hi Hc' Hi' Hne He. apply Hne.
  destruct (addr_preimage_Some (contract_id c i)) as (p & Hp & _).
  assert (Heq : contract_id c i = contract_id c' i').
  { eapply addr_preimage_inj; [apply u64_range..|exact Hp|congruence]. }
  unfold contract_id in Heq. change (2 ^ 32) with 4294967296 in Heq.
  rewrite (u64_small (c * _)), (u64_small (c' * _)) in Heq by (unfold is_u64, two64; lia).
  rewrite !u64_small in Heq by (unfold is_u64, two64; lia). f_equal; lia.
Qed.

(** Past 32 bits the ids do collide, as the source notes: instance
    [i + 2^32] of code [c] has the address of instance [i] of code [c + 1]. *)
Theorem contract_ids_collide c i :
  contract_address (contract_id c (i + 2 ^ 32)) = contract_address (contract_id (c + 1) i).
Proof.
  f_equal. unfold contract_id, u64.
  rewrite !Z.add_mod_idemp_l by (unfold two64; lia). f_equal. lia.
Qed.

(** A counter starts at 1 and counts up by one (until it wraps): two
    successive calls return successive ids, no other key of the store changes,
    and no other part of the state but the gas. *)
Theorem autoIncrementID_successive key w id w1 id' w2 :
  autoIncrementID key w = Ret id w1 -> autoIncrementID key w1 = Ret id' w2 ->
  id = next_id key (w_store w) /\ id' = u64 (id + 1) /\
  next_id key (w_store w2) = u64 (id' + 1) /\
  (forall k, k <> key -> kv_get k (w_store w2) = kv_get k (w_store w)) /\
  w_sdk w2 = w_sdk w /\ w_vm w2 = w_vm w /\ w_events w2 = w_events w.
Proof.
  intros (Hid & Hu & g & _ & _ & ->)%autoIncrementID_Ret (Hid' & Hu' & g' & _ & _ & ->)%autoIncrementID_Ret.
  simpl in *. rewrite next_id_set in Hid' by apply u64_range.
  split; [done|]. split; [done|]. rewrite next_id_set by apply u64_range. split; [done|].
  split; [|done]. intros k Hk. by rewrite !kv_get_set_ne by done.
Qed.

(** On a store whose records are well formed, reading a code record, a
    contract record, both (for a call), and drawing an id panic over gas and
    nothing else: no decoding fails and no index is out of range. *)
Theorem records_never_panic id a w :
  well_typed (w_store w) ->
  only_gas_panics w (GetCodeInfo id) /\ only_gas_panics w (GetContractInfo a) /\
  only_gas_panics w (contractInstance a) /\ only_gas_panics w (autoIncrementID KeyLastCodeID) /\
  only_gas_panics w (autoIncrementID KeyLastInstanceID).
Proof.
  intros Hw. split; [by apply ogp_GetCodeInfo|]. split; [by apply ogp_GetContractInfo|].
  split; [by apply ogp_contractInstance|].
  split; apply ogp_autoIncrementID; [apply (wt_code_counter _ Hw)|apply (wt_instance_counter _ Hw)].
Qed.

End StoreProperties.

(** ** Witnesses *)

#[local] Existing Instances idle_scripts RefEnv RefEnvLaws.

Definition empty_world : world := ref_world 200000 ∅.

Lemma store_keys_disjoint_witness :
  NoDup [GetCodeKey 1; GetContractAddressKey [x61]; GetContractStorePrefixKey [x62] ++ [x01];
         KeyLastCodeID; KeyLastInstanceID].
Proof.
  apply (store_keys_disjoint 1 2 [x61] [x62] [x01] [x02]); [..|reflexivity];
    unfold is_u64, two64; lia.
Defined.

Lemma contract_preimages_differ_witness :
  addr_preimage (contract_id 3 7) <> addr_preimage (contract_id 4 7).
Proof. apply contract_preimages_differ; [lia..|congruence]. Defined.

Lemma autoIncrementID_successive_witness :
  next_id KeyLastCodeID
    (w_store (final (autoIncrementID KeyLastCodeID) (final (autoIncrementID KeyLastCodeID) empty_world))) = 3.
Proof.
  refine (proj1 (proj2 (proj2 (autoIncrementID_successive KeyLastCodeID empty_world 1 _ 2 _ _ _)))).
  - by_run.
  - by_run.
Defined.

Lemma records_never_panic_witness : only_gas_panics empty_world (contractInstance []).
Proof.
  refine (proj1 (proj2 (proj2 (records_never_panic 1 [] empty_world _)))).
  split; intros *; (replace (kv_get _ _) with (@None bytes) by exact (eq_sym (lookup_empty _))); intros He;
    discriminate He.
Defined.
