(* ===== verification/Code.v ===== *)
(** * Uploading code (ioutil.go, and [Create] of keeper.go) *)

From S2P Require Import Prelude GoStd SdkTypes Types Sdk Ref Store.

(** ** ioutil.go *)

Definition gzipIdent : bytes := [x1f; x8b; x08].
Definition maxSize : Z := 400 * 1024.

(** The length of a slice, and its first [n] bytes. *)
Definition len (b : bytes) : Z := Z.of_nat (length b).
Definition first (n : Z) (b : bytes) : bytes := take (Z.to_nat n) b.

Section Code.
Context {E : Env}.

(** Whether a reader that stops asking after [maxSize] bytes is told of the
    error: when the content ends before them, or exactly there and the error
    comes with the last bytes. *)
Definition error_met (content : bytes) (with_last : bool) : bool :=
  (len content <? maxSize) || (with_last && (len content =? maxSize)).

(** [ioutil.ReadAll(io.LimitReader(zr, maxSize))]: at most [maxSize] bytes are
    read, and an error of the stream is met only on the way to them. *)
Definition ReadAll_limited (stream : bytes * stream_end) : bytes * option string :=
  let (content, e) := stream in
  match e with
  | Broken err with_last =>
      if error_met content with_last then (content, Some err) else (first maxSize content, None)
  | EOF => (first maxSize content, None)
  end.

(** The content, and the error if there was one. *)
Definition uncompress (src : bytes) : bytes * option string :=
  if len src <? 3 then (src, None)
  else if negb (bytes_Equal gzipIdent (first 3 src)) then (src, None)
  else
    match gzip_open src with
    | Err e => ([], Some e)
    | Ok zr => ReadAll_limited zr
    end.

(** ** Create *)

(** [k.wasmer.Create(wasmCode)] *)
Definition compile (wasmCode : bytes) : M world (result string bytes) := fun w =>
  let (r, v) := wasmer_Create wasmCode (w_vm w) in Ret r (set_vm v w).

Definition Create (creator wasmCode : bytes) (source builder : string) : M world (result error Z) :=
  match uncompress wasmCode with
  | (_, Some err) => gret (Err (Wrap ErrCreateFailed err))
  | (wasmCode, None) =>
      let! r := compile wasmCode in
      match r with
      | Err err => gret (Err (Wrap ErrCreateFailed err))
      | Ok codeHash =>
          let! codeID := autoIncrementID KeyLastCodeID in
          let contractInfo := NewCodeInfo codeHash creator source builder in
          do! store_Set (GetCodeKey codeID) (marshal_CodeInfo contractInfo) in
          gret (Ok codeID)
      end
  end.

(** The code ids in use are those below the counter. *)
Definition codes_dense (s : kv) : Prop :=
  1 <= next_id KeyLastCodeID s /\
  forall id, is_u64 id ->
    (is_Some (kv_get (GetCodeKey id) s) <-> 1 <= id < next_id KeyLastCodeID s).

End Code.

(** ** Lemmas *)

Section CodeLemmas.
Context {E : Env} {L : EnvLaws E}.

Lemma compile_Ret code w r w' :
  compile code w = Ret r w' -> exists v, wasmer_Create code (w_vm w) = (r, v) /\ w' = set_vm v w.
Proof.
  unfold compile. destruct (wasmer_Create code (w_vm w)) as [r' v]. intros [= <- <-]. by exists v.
Qed.

Lemma compile_total code : total (compile code).
Proof. intros w. unfold compile. by destruct (wasmer_Create code (w_vm w)). Qed.
Hint Resolve compile_total : sound.

Lemma Create_total creator code src bld : total (Create creator code src bld).
Proof. unfold Create. solve_sound. Qed.

(** All there is to know of a call of [Create] that returned. *)
Lemma Create_Ret creator code src bld w r w' :
  Create creator code src bld w = Ret r w' ->
  match r with
  | Ok id =>
      let s := w_store w in
      exists c h v g, uncompress code = (c, None) /\ wasmer_Create c (w_vm w) = (Ok h, v) /\
        id = next_id KeyLastCodeID s /\ is_u64 id /\ gas_adv (w_gas w) g /\
        gm_GasConsumed (w_gas w) < gm_GasConsumed g /\
        w' = set_store
          (kv_set (GetCodeKey id) (marshal_CodeInfo (NewCodeInfo h creator src bld))
            (kv_set KeyLastCodeID (Uint64ToBigEndian (u64 (id + 1))) s))
          (set_gas g (set_vm v w))
  | Err e => root_of e = ErrCreateFailed /\ (exists v, w' = set_vm v w) /\
      (is_Some (snd (uncompress code)) \/
       exists c t, uncompress code = (c, None) /\ fst (wasmer_Create c (w_vm w)) = Err t)
  end.
Proof.
  unfold Create. destruct (uncompress code) as [c [e|]] eqn:Eu.
  { intros [= <- <-]. split; [done|]. split; [exists (w_vm w); by destruct w|left; by eexists]. }
  intros H. minv H. apply compile_Ret in E0 as (v & Hv & ->). destruct r0 as [h|e]; cycle 1.
  { injection H as <- <-. split; [done|]. split; [by exists v|]. right. exists c, e. by rewrite Hv. }
  minv H. apply autoIncrementID_Ret in E0 as (-> & Hu & g & Hg & Hlt & ->). minv H.
  apply store_Set_Ret in E0 as (g' & Hg' & Hlt' & ->). injection H as <- <-. simpl in *.
  exists c, h, v, g'. do 5 (split; [by try transitivity g|]). split; [lia|done].
Qed.

Lemma code_at_set_eq s id i :
  code_at (kv_set (GetCodeKey id) (marshal_CodeInfo i) s) id = Some i.
Proof. unfold code_at. rewrite kv_get_set_eq. simpl. apply unmarshal_marshal_CodeInfo. Qed.

Lemma code_at_set_ne s id k v : k <> GetCodeKey id -> code_at (kv_set k v s) id = code_at s id.
Proof. intros Hk. unfold code_at. by rewrite kv_get_set_ne. Qed.

Lemma contract_at_set_ne s a k v :
  k <> GetContractAddressKey a -> contract_at (kv_set k v s) a = contract_at s a.
Proof. intros Hk. unfold contract_at. by rewrite kv_get_set_ne. Qed.

Lemma first_len n b : 0 <= n -> len (first n b) = Z.min n (len b).
Proof. unfold len, first. rewrite length_take. lia. Qed.

Lemma gzipIdent_len src : bytes_Equal gzipIdent (first 3 src) = true -> 3 <= len src.
Proof.
  intros Hg%bytes_Equal_true%(f_equal len). rewrite first_len in Hg by lia.
  change (len gzipIdent) with 3 in Hg. lia.
Qed.

Lemma first_all n b : len b <= n -> first n b = b.
Proof. intros H. unfold first. apply take_ge. unfold len in H. lia. Qed.

Lemma error_met_true content l :
  error_met content l = true <-> len content < maxSize \/ (len content = maxSize /\ l = true).
Proof. unfold error_met. rewrite orb_true_iff, andb_true_iff, Z.ltb_lt, Z.eqb_eq. tauto. Qed.

Lemma ReadAll_limited_bound s c e : ReadAll_limited s = (c, e) -> len c <= maxSize.
Proof.
  destruct s as [content [|err l]]; simpl.
  - intros [= <- <-]. rewrite first_len by done. lia.
  - destruct (error_met content l) eqn:Hm; intros [= <- <-]; [|rewrite first_len by done; lia].
    apply error_met_true in Hm. lia.
Qed.

Lemma uncompress_bound src c e : uncompress src = (c, e) ->
  bytes_Equal gzipIdent (first 3 src) = true -> len c <= maxSize.
Proof.
  unfold uncompress, maxSize. intros H Hg. rewrite Hg in H.
  destruct (Z.ltb_spec (len src) 3); [injection H as <- _; lia|].
  simpl in H. destruct (gzip_open src) as [[content err]|]; [|by injection H as <- _].
  by apply ReadAll_limited_bound in H.
Qed.

(** An upload keeps the code ids dense, and the records that were there. *)
Lemma Create_dense creator code src bld w id w' :
  codes_dense (w_store w) -> next_id KeyLastCodeID (w_store w) < two64 - 1 ->
  Create creator code src bld w = Ret (Ok id) w' ->
  codes_dense (w_store w') /\
  forall j, is_u64 j -> is_Some (kv_get (GetCodeKey j) (w_store w)) ->
    kv_get (GetCodeKey j) (w_store w') = kv_get (GetCodeKey j) (w_store w).
Proof.
  intros [Hn Hd] Hb (c & h & v & g & Hc & Hv & -> & Hu & Hg & _ & ->)%Create_Ret. simpl.
  set (n := next_id KeyLastCodeID (w_store w)) in *.
  assert (Hnext : next_id KeyLastCodeID
      (kv_set (GetCodeKey n) (marshal_CodeInfo (NewCodeInfo h creator src bld))
        (kv_set KeyLastCodeID (Uint64ToBigEndian (u64 (n + 1))) (w_store w))) = n + 1).
  { rewrite next_id_set_ne by keys_differ. rewrite next_id_set by apply u64_range.
    apply u64_small. unfold is_u64. lia. }
  split.
  - unfold codes_dense. rewrite Hnext. split; [lia|]. intros j Hj.
    destruct (decide (j = n)) as [->|Hne].
    + rewrite kv_get_set_eq. split; [lia|]. intros _. by eexists.
    + rewrite !kv_get_set_ne; [rewrite Hd by done; lia|keys_differ|].
      intros Heq. by apply Hne, eq_sym, GetCodeKey_inj.
  - intros j Hj Hs. rewrite !kv_get_set_ne; [done|keys_differ|].
    intros Heq. apply GetCodeKey_inj in Heq; [|done..]. subst j. apply Hd in Hs; [lia|done].
Qed.

End CodeLemmas.
#[export] Hint Resolve compile_total Create_total : sound.

(** ** Properties *)

Section CodeProperties.
Context {E : Env} {L : EnvLaws E}.

(** C34: [uncompress] returns what is not gzip unchanged, refuses what cannot be
    opened, and of a gzip stream never returns more than 400 KiB. A sound stream
    gives its content, cut off there without an error when it is longer; a broken
    one gives its error when it ends before the bound, or exactly at the bound
    with an error that comes with the last bytes, and is otherwise cut off
    there as if it were sound. *)
Theorem uncompress_spec src :
  (bytes_Equal gzipIdent (first 3 src) = false -> uncompress src = (src, None)) /\
  (bytes_Equal gzipIdent (first 3 src) = true ->
     len (fst (uncompress src)) <= 400 * 1024 /\
     match gzip_open src with
     | Err e => uncompress src = ([], Some e)
     | Ok (content, EOF) =>
         (len content <= 400 * 1024 -> uncompress src = (content, None)) /\
         (400 * 1024 < len content -> uncompress src = (first (400 * 1024) content, None))
     | Ok (content, Broken err with_last) =>
         (len content < 400 * 1024 -> uncompress src = (content, Some err)) /\
         (len content = 400 * 1024 ->
            uncompress src = (content, if with_last then Some err else None)) /\
         (400 * 1024 < len content -> uncompress src = (first (400 * 1024) content, None))
     end).
Proof.
  split; intros Hg.
  - unfold uncompress. rewrite Hg. by destruct (len src <? 3).
  - destruct (uncompress src) as [c e] eqn:Eu.
    pose proof (uncompress_bound _ _ _ Eu Hg) as Hb. split; [exact Hb|].
    unfold uncompress in Eu. rewrite Hg in Eu. apply gzipIdent_len in Hg.
    destruct (Z.ltb_spec (len src) 3); [lia|].
    simpl in Eu. destruct (gzip_open src) as [[content [|err l]]|e']; [| |done];
      rewrite <- Eu; unfold ReadAll_limited, error_met, maxSize.
    + split; intros Hl; [|done]. by rewrite first_all.
    + change (400 * 1024) with 409600 in *.
      destruct (Z.ltb_spec (len content) 409600), (Z.eqb_spec (len content) 409600);
        destruct l; simpl; repeat split; intros Hl; try lia; try done.
      by rewrite first_all by lia.
Qed.

(** C22: a successful upload draws the next code id, stores under it a record with
    the hash the virtual machine gave, the sender, source and builder, and the
    uncompressed code can be read back by that id. No other code, contract, state
    entry or account is touched, and code uploaded before can still be read. *)
Theorem Create_success creator code src bld w id w' :
  Create creator code src bld w = Ret (Ok id) w' ->
  exists c h, uncompress code = (c, None) /\ id = next_id KeyLastCodeID (w_store w) /\
    code_at (w_store w') id = Some (NewCodeInfo h creator src bld) /\
    wasmer_GetCode h (w_vm w') = Ok c /\
    (forall h' c', wasmer_GetCode h' (w_vm w) = Ok c' -> wasmer_GetCode h' (w_vm w') = Ok c') /\
    next_id KeyLastCodeID (w_store w') = u64 (id + 1) /\
    (forall k, k <> GetCodeKey id -> k <> KeyLastCodeID ->
       kv_get k (w_store w') = kv_get k (w_store w)) /\
    w_sdk w' = w_sdk w.
Proof.
  intros (c & h & v & g & Hc & Hv & -> & Hu & Hg & _ & ->)%Create_Ret. exists c, h. simpl.
  split; [done|]. split; [done|]. split; [apply code_at_set_eq|].
  split; [by eapply GetCode_Create|].
  split; [intros h' c' Hh; by eapply GetCode_kept|].
  split.
  - rewrite next_id_set_ne by keys_differ. apply next_id_set, u64_range.
  - split; [|done]. intros k H1 H2. by rewrite !kv_get_set_ne by done.
Qed.

(** An upload that fails, because the archive is broken or the virtual machine
    refuses the code, fails with [ErrCreateFailed] and leaves the store, the gas
    and the accounts as they were. *)
Theorem Create_failure creator code src bld w e w' :
  Create creator code src bld w = Ret (Err e) w' ->
  root_of e = ErrCreateFailed /\ w_store w' = w_store w /\ w_gas w' = w_gas w /\
  w_sdk w' = w_sdk w.
Proof. by intros (He & (v & ->) & _)%Create_Ret. Qed.

End CodeProperties.

(** ** Witnesses *)

#[local] Existing Instances idle_scripts RefEnv RefEnvLaws.

Definition upload : M world (result error Z) := Create [x61] [x00; x61; x73; x6d] "" "".

Lemma Create_success_witness :
  exists c h, uncompress [x00; x61; x73; x6d] = (c, None) /\
    code_at (w_store (final upload empty_world)) 1 = Some (NewCodeInfo h [x61] "" "").
Proof.
  destruct (Create_success [x61] [x00; x61; x73; x6d] "" "" empty_world 1 (final upload empty_world)
    ltac:(by_run)) as (c & h & H1 & _ & H2 & _).
  exists c, h. exact (conj H1 H2).
Defined.

Lemma Create_failure_witness :
  w_store (final (Create [x61] [] "" "") empty_world) = w_store empty_world.
Proof.
  refine (proj1 (proj2 (Create_failure [x61] [] "" "" empty_world _ _ _))). by_run.
Defined.
