(* ===== verification/Keeper.v ===== *)
(** * Running contracts (keeper.go, handler.go, opaque.go, api.go)

    [Instantiate], [Execute] and [QuerySmart], the messages a contract answers
    with and their dispatch, and the module's message handler. The calls are
    mutually recursive through the router: a message of a contract can be a call
    of a contract, and an opaque message can be any message of the application,
    those of this module included. [Entry] is what a dispatched message can call
    back into; the operations are defined over an [Entry], and [entry n] ties the
    knot with [n] levels of nesting. *)

From S2P Require Import Prelude GoStd Base64 SdkTypes Types Sdk Ref Gas Store Code.

(** What the handler of a message can re-enter. *)
Record Entry {E : Env} := {
  e_Instantiate : Ctx -> Z -> bytes -> bytes -> Coins -> M world (bytes * option error);
  e_Execute : Ctx -> bytes -> bytes -> bytes -> Coins -> M world (result error Result) }.

Section Keeper.
Context {E : Env}.

(** ** api.go *)

Definition humanAddress (canon : bytes) : result string string :=
  if negb (bool_decide (length canon = AddrLen))
  then Err (String.append "Expected "
             (String.append (Strconv.FormatUint (Z.of_nat AddrLen)) " byte address"))
  else Ok (AccAddress_String canon).

Definition canonicalAddress (human : string) : result string bytes := AccAddressFromBech32 human.

Definition cosmwasmAPI : GoAPI :=
  {| HumanAddress := humanAddress; CanonicalAddress := canonicalAddress |}.

(** ** opaque.go *)

Definition ToOpaqueMsg (msg : sdk_msg) : result error wasmTypes.OpaqueMsg :=
  match MarshalJSON_Msg msg with
  | Err err => Err (Wrap (ErrSdkRoot ErrJSONMarshal) err)
  | Ok opaqueBz => Ok {| wasmTypes.OpaqueData := Base64.EncodeToString opaqueBz |}
  end.

(** The decoded message may be [nil]. *)
Definition ParseOpaqueMsg (msg : wasmTypes.OpaqueMsg) : result error (option sdk_msg) :=
  match Base64.DecodeString (wasmTypes.OpaqueData msg) with
  | Err err => Err (Wrap (ErrSdkRoot ErrTxDecode) err)
  | Ok bz =>
      match UnmarshalJSON_Msg bz with
      | Err err => Err (Wrap (ErrSdkRoot ErrJSONUnmarshal) err)
      | Ok sdkmsg => Ok sdkmsg
      end
  end.

(** ** The messages of the application *)

Definition msg_Route (m : sdk_msg) : string :=
  match m with
  | WasmMsg _ (WStoreCode m) => MsgStoreCode_Route m
  | WasmMsg _ (WInstantiate m) => MsgInstantiateContract_Route m
  | WasmMsg _ (WExecute m) => MsgExecuteContract_Route m
  | BankSend _ => bank_Route
  | OtherMsg m => other_Route m
  end.

Definition msg_GetSigners (m : sdk_msg) : list bytes :=
  match m with
  | WasmMsg _ (WStoreCode m) => MsgStoreCode_GetSigners m
  | WasmMsg _ (WInstantiate m) => MsgInstantiateContract_GetSigners m
  | WasmMsg _ (WExecute m) => MsgExecuteContract_GetSigners m
  | BankSend m => bank_GetSigners m
  | OtherMsg m => other_GetSigners m
  end.

(** ** handler.go *)

Definition AttributeKeyContract : string := "contract_address".
Definition AttributeKeyCodeID : string := "code_id".

Definition EmitEvent (ev : Event) : M world unit :=
  gmodify (fun w => set_events (w_events w ++ [ev]) w).

Definition attr (k v : string) : Attribute := {| attr_Key := k; attr_Value := v |}.

Definition handleStoreCode (ctx : Ctx) (msg : MsgStoreCode) : M world Result :=
  match MsgStoreCode_ValidateBasic msg with
  | Some sdkerr => gret (ResultFromError sdkerr)
  | None =>
      let! r := Create (sc_Sender msg) (sc_WASMByteCode msg) (sc_Source msg) (sc_Builder msg) in
      match r with
      | Err err => gret (ResultFromError err)
      | Ok codeID =>
          do! EmitEvent
            {| ev_Type := EventTypeMessage;
               ev_Attributes :=
                 [attr AttributeKeyModule ModuleName; attr AttributeKeyAction "store-code";
                  attr AttributeKeySender (AccAddress_String (sc_Sender msg));
                  attr AttributeKeyCodeID (Strconv.FormatUint codeID)] |} in
          let! events := gget w_events in
          gret {| res_Code := 0; res_Codespace := "";
                  res_Data := bytes_of_string (Strconv.FormatUint codeID);
                  res_Log := ""; res_GasUsed := 0; res_Events := events |}
      end
  end.

Definition handleInstantiate (e : Entry) (ctx : Ctx) (msg : MsgInstantiateContract)
    : M world Result :=
  let! r := e_Instantiate e ctx (ic_Code msg) (ic_Sender msg) (ic_InitMsg msg) (ic_InitFunds msg) in
  match r with
  | (_, Some err) => gret (ResultFromError err)
  | (contractAddr, None) =>
      do! EmitEvent
        {| ev_Type := EventTypeMessage;
           ev_Attributes :=
             [attr AttributeKeyModule ModuleName; attr AttributeKeyAction "instantiate";
              attr AttributeKeySender (AccAddress_String (ic_Sender msg));
              attr AttributeKeyCodeID (Strconv.FormatUint (ic_Code msg));
              attr AttributeKeyContract (AccAddress_String contractAddr)] |} in
      let! events := gget w_events in
      gret {| res_Code := 0; res_Codespace := ""; res_Data := contractAddr;
              res_Log := ""; res_GasUsed := 0; res_Events := events |}
  end.

Definition handleExecute (e : Entry) (ctx : Ctx) (msg : MsgExecuteContract) : M world Result :=
  let! r := e_Execute e ctx (ec_Contract msg) (ec_Sender msg) (ec_Msg msg) (ec_SentFunds msg) in
  match r with
  | Err err => gret (ResultFromError err)
  | Ok res =>
      do! EmitEvent
        {| ev_Type := EventTypeMessage;
           ev_Attributes :=
             [attr AttributeKeyModule ModuleName; attr AttributeKeyAction "execute";
              attr AttributeKeySender (AccAddress_String (ec_Sender msg));
              attr AttributeKeyContract (AccAddress_String (ec_Contract msg))] |} in
      let! events := gget w_events in
      gret {| res_Code := res_Code res; res_Codespace := res_Codespace res;
              res_Data := res_Data res; res_Log := res_Log res; res_GasUsed := res_GasUsed res;
              res_Events := res_Events res ++ events |}
  end.

(** The context given to the handler has a fresh event manager; the caller's is
    untouched. *)
Definition NewHandler (e : Entry) (ctx : Ctx) (msg : sdk_msg) : M world Result :=
  let! outer := gget w_events in
  do! gmodify (set_events []) in
  let! res :=
    match msg with
    | WasmMsg _ (WStoreCode msg) => handleStoreCode ctx msg
    | WasmMsg _ (WInstantiate msg) => handleInstantiate e ctx msg
    | WasmMsg _ (WExecute msg) => handleExecute e ctx msg
    | _ =>
        let errMsg := String.append "unrecognized wasm message type: " (type_name msg) in
        gret (ResultFromError (ErrSdk CodeUnknownRequest errMsg))
    end in
  do! gmodify (set_events outer) in
  gret res.

(** ** Dispatch *)

(** [k.router.Route(path)]: the application registers this module's handler under
    [RouterKey], next to those of the other modules. *)
Definition router_Route (e : Entry) (path : string) : option (Ctx -> sdk_msg -> M world Result) :=
  if bool_decide (path = RouterKey) then Some (NewHandler e) else other_handler path.

Definition handleSdkMessage (e : Entry) (ctx : Ctx) (contractAddr : bytes) (msg : option sdk_msg)
    : M world (option error) :=
  match msg with
  | None => gpanic PanicNilMsg
  | Some msg =>
  if negb (forallb (fun acct => AccAddress_Equals acct contractAddr) (msg_GetSigners msg))
  then gret (Some (Wrap (ErrSdkRoot ErrUnauthorized) "contract doesn't have permission"))
  else
    match router_Route e (msg_Route msg) with
    | None => gret (Some (Wrap (ErrSdkRoot ErrUnknownRequest) (msg_Route msg)))
    | Some h =>
        let! res := h ctx msg in
        if negb (IsOK res)
        then gret (Some (ErrABCI (res_Codespace res) (res_Code res mod 2 ^ 32) (res_Log res)))
        else gret None
    end
  end.

Fixpoint convert_coins (coins : list wasmTypes.Coin) : result error Coins :=
  match coins with
  | [] => Ok []
  | coin :: coins =>
      match NewIntFromString (wasmTypes.Amount coin) with
      | None =>
          Err (ErrSdk CodeInvalidCoins
                 (String.append (wasmTypes.Amount coin) (wasmTypes.Denom coin)))
      | Some amount =>
          match convert_coins coins with
          | Err e => Err e
          | Ok toSend =>
              Ok ({| coin_Denom := wasmTypes.Denom coin; coin_Amount := amount |} :: toSend)
          end
      end
  end.

Definition convertCosmosSendMsg (from to : string) (coins : list wasmTypes.Coin)
    : result error MsgSend :=
  match AccAddressFromBech32 from with
  | Err _ => Err (ErrSdk CodeInvalidAddress from)
  | Ok fromAddr =>
      match AccAddressFromBech32 to with
      | Err _ => Err (ErrSdk CodeInvalidAddress to)
      | Ok toAddr =>
          match convert_coins coins with
          | Err e => Err e
          | Ok toSend => Ok {| FromAddress := fromAddr; ToAddress := toAddr; Amount := toSend |}
          end
      end
  end.

Definition sendTokens (e : Entry) (ctx : Ctx) (signer : bytes) (origin target : string)
    (tokens : list wasmTypes.Coin) : M world (option error) :=
  match tokens with
  | [] => gret None
  | _ =>
      match convertCosmosSendMsg origin target tokens with
      | Err err => gret (Some err)
      | Ok msg => handleSdkMessage e ctx signer (Some (BankSend msg))
      end
  end.

Definition dispatchMessage (e : Entry) (ctx : Ctx) (contract : option Account)
    (msg : wasmTypes.CosmosMsg) : M world (option error) :=
  match contract with
  | None => gpanic PanicNilDeref
  | Some acct =>
      let contractAddr := acc_Address acct in
      match wasmTypes.MsgSend msg, wasmTypes.MsgContract msg, wasmTypes.MsgOpaque msg with
      | Some send, _, _ =>
          sendTokens e ctx contractAddr (wasmTypes.FromAddress send) (wasmTypes.ToAddress send)
            (wasmTypes.SendAmount send)
      | None, Some call, _ =>
          match AccAddressFromBech32 (wasmTypes.ContractAddr call) with
          | Err _ => gret (Some (ErrSdk CodeInvalidAddress (wasmTypes.ContractAddr call)))
          | Ok targetAddr =>
              let! err := sendTokens e ctx contractAddr (AccAddress_String contractAddr)
                            (AccAddress_String targetAddr) (wasmTypes.Send call) in
              match err with
              | Some err => gret (Some err)
              | None =>
                  let! r := e_Execute e ctx targetAddr contractAddr
                              (bytes_of_string (wasmTypes.Msg call)) [] in
                  match r with
                  | Ok _ => gret None
                  | Err err => gret (Some err)
                  end
              end
          end
      | None, None, Some opaque =>
          match ParseOpaqueMsg opaque with
          | Err err => gret (Some err)
          | Ok msg => handleSdkMessage e ctx contractAddr msg
          end
      | None, None, None => gpanic (PanicMsg "Unknown CosmosMsg")
      end
  end.

Definition dispatchMessages (e : Entry) (ctx : Ctx) (contract : option Account)
    (msgs : list wasmTypes.CosmosMsg) : M world (option error) :=
  for_range msgs (dispatchMessage e ctx contract).

(** ** The keeper's entry points *)

(** A call of the virtual machine, on the store under [pre]. *)
Definition call_vm {A} (pre : bytes) (prog : vm -> host_prog A) : M world (result string A) :=
  let! v := gget w_vm in
  run_host pre cosmwasmAPI (prog v).

Definition Instantiate (e : Entry) (ctx : Ctx) (codeID : Z) (creator initMsg : bytes)
    (deposit : Coins) : M world (bytes * option error) :=
  let! contractAddress := generateContractAddress codeID in
  let! existingAcct := GetAccount ctx contractAddress in
  match existingAcct with
  | Some existingAcct =>
      gret ([], Some (Wrap ErrAccountExists (AccAddress_String (acc_Address existingAcct))))
  | None =>
      let! sdkerr := SendCoins ctx creator contractAddress deposit in
      match sdkerr with
      | Some sdkerr => gret ([], Some sdkerr)
      | None =>
          let! contractAccount := GetAccount ctx contractAddress in
          let! bz := store_Get (GetCodeKey codeID) in
          match bz with
          | None => gret ([], Some (Wrap ErrNotFound "contract"))
          | Some bz =>
              let! codeInfo := must (unmarshal_CodeInfo bz) in
              let! params := NewParams ctx creator deposit contractAccount in
              let prefixStoreKey := GetContractStorePrefixKey contractAddress in
              let! gas := gasForContract in
              let! r := call_vm prefixStoreKey
                          (fun v => wasmer_Instantiate v (CodeHash codeInfo) params initMsg gas) in
              match r with
              | Err err => gret (contractAddress, Some (Wrap ErrInstantiateFailed err))
              | Ok res =>
                  do! consumeGas (wasmTypes.GasUsed res) in
                  let! err := dispatchMessages e ctx contractAccount (wasmTypes.Messages res) in
                  match err with
                  | Some err => gret ([], Some err)
                  | None =>
                      let instance := NewContractInfo codeID creator (string_of_bytes initMsg) in
                      do! store_Set (GetContractAddressKey contractAddress)
                            (marshal_ContractInfo instance) in
                      gret (contractAddress, None)
                  end
              end
          end
      end
  end.

Definition Execute (e : Entry) (ctx : Ctx) (contractAddress caller msg : bytes) (coins : Coins)
    : M world (result error Result) :=
  try! inst := contractInstance contractAddress in
  let (codeInfo, prefixStore) := inst : CodeInfo * bytes in
  check! SendCoins ctx caller contractAddress coins in
  let! contractAccount := GetAccount ctx contractAddress in
  let! params := NewParams ctx caller coins contractAccount in
  let! gas := gasForContract in
  let! r := call_vm prefixStore
              (fun v => wasmer_Execute v (CodeHash codeInfo) params msg gas) in
  match r with
  | Err execErr => gret (Err (Wrap ErrExecuteFailed execErr))
  | Ok res =>
      do! consumeGas (wasmTypes.GasUsed res) in
      check! dispatchMessages e ctx contractAccount (wasmTypes.Messages res) in
      gret (Ok (CosmosResult res))
  end.

(** [ctx = ctx.WithGasMeter(meter)] in a callee: the caller's meter is not charged. *)
Definition with_meter {A} (g : meter) (m : M world A) : M world A := fun w =>
  match m (set_gas g w) with
  | Ret a w' => Ret a (set_gas (w_gas w) w')
  | Panic p => Panic p
  | NoFuel => NoFuel
  end.

Definition QuerySmart (queryGasLimit : Z) (contractAddr req : bytes) : M world (result error bytes) :=
  with_meter (gm_NewGasMeter queryGasLimit)
    (try! inst := contractInstance contractAddr in
     let (codeInfo, prefixStore) := inst : CodeInfo * bytes in
     let! gas := gasForContract in
     let! r := call_vm prefixStore (fun v => wasmer_Query v (CodeHash codeInfo) req gas) in
     match r with
     | Err qErr => gret (Err (Wrap ErrQueryFailed qErr))
     | Ok (queryResult, gasUsed) =>
         do! consumeGas gasUsed in
         gret (Ok queryResult)
     end).

(** ** Nesting *)

Definition bottom : Entry :=
  {| e_Instantiate _ _ _ _ _ := fun _ => NoFuel; e_Execute _ _ _ _ _ := fun _ => NoFuel |}.

Fixpoint entry (n : nat) : Entry :=
  match n with
  | O => bottom
  | S n => let e := entry n in {| e_Instantiate := Instantiate e; e_Execute := Execute e |}
  end.

End Keeper.
