(* ===== verification/Demo.v ===== *)
(** * A small deployment

    Contracts for the chain of [Ref.v] that do on request each thing a contract
    can do, and the states of a chain on which one of them was uploaded and
    instantiated, for the witnesses and examples of the other files. Nothing here
    models code of the repository. *)

From S2P Require Import Prelude GoStd SdkTypes Types Sdk Ref Gas Store Code Keeper.

Definition with_messages (msgs : list wasmTypes.CosmosMsg) : wasmTypes.Result :=
  {| wasmTypes.GasUsed := 100; wasmTypes.Messages := msgs; wasmTypes.Data := "done";
     wasmTypes.Log := "" |}.

Definition demo_send (from to : bytes) : wasmTypes.CosmosMsg :=
  {| wasmTypes.MsgSend :=
       Some {| wasmTypes.FromAddress := string_of_bytes from;
               wasmTypes.ToAddress := string_of_bytes to;
               wasmTypes.SendAmount := [{| wasmTypes.Denom := "gold"; wasmTypes.Amount := "7" |}] |};
     wasmTypes.MsgContract := None; wasmTypes.MsgOpaque := None |}.

Definition demo_call (to : bytes) (msg : string) : wasmTypes.CosmosMsg :=
  {| wasmTypes.MsgSend := None;
     wasmTypes.MsgContract :=
       Some {| wasmTypes.ContractAddr := string_of_bytes to; wasmTypes.Msg := msg;
               wasmTypes.Send := [] |};
     wasmTypes.MsgOpaque := None |}.

(** A contract writes its first message as its state, and calls itself if that is
    "self"; then "pay" sends tokens to
    the caller, "steal" tries to take some from the caller, "loop" calls the
    contract itself with the same message, "call" calls it once, "fail" fails
    after a write, and any other message is written to the state. *)
Definition demo_scripts : Scripts := {|
  script_instantiate _ params msg _ :=
    HSet (bytes_of_string "state") msg (HDone (Ok (with_messages
      (if String.eqb (string_of_bytes msg) "self"
       then [demo_call (wasmTypes.Address (wasmTypes.Contract params)) "hello"] else []))));
  script_execute _ params msg _ :=
    let self := wasmTypes.Address (wasmTypes.Contract params) in
    let caller := wasmTypes.Signer (wasmTypes.Message params) in
    let m := string_of_bytes msg in
    if String.eqb m "pay" then HDone (Ok (with_messages [demo_send self caller]))
    else if String.eqb m "steal" then HDone (Ok (with_messages [demo_send caller self]))
    else if String.eqb m "loop" then HDone (Ok (with_messages [demo_call self "loop"]))
    else if String.eqb m "call" then HDone (Ok (with_messages [demo_call self "hello"]))
    else if String.eqb m "fail" then HSet (bytes_of_string "state") msg (HDone (Err "failed"%string))
    else HSet (bytes_of_string "state") msg (HDone (Ok (with_messages [])));
  script_query _ req _ :=
    HGet req (fun v => HDone (match v with
                              | Some v => Ok (v, 100)
                              | None => Err "no such key"%string
                              end)) |}.

#[local] Existing Instances demo_scripts RefEnv RefEnvLaws.

Definition alice : bytes := bytes_of_string "alice---------------".
Definition gold (n : Z) : Coins := [{| coin_Denom := "gold"; coin_Amount := n |}].
Definition demo_code : bytes := bytes_of_string "code".

Definition demo_empty : world := ref_world 200000 {[ alice := gold 1000 ]}.

Definition demo_uploaded : world := final (Create alice demo_code "" "") demo_empty.

Definition demo_contract : bytes := contract_address (contract_id 1 1).

Definition demo_ready : world :=
  final (Instantiate (entry 3) ref_ctx 1 alice (bytes_of_string "init") (gold 100)) demo_uploaded.

Definition demo_execute (n : nat) (msg : string) : M world (result error Result) :=
  Execute (entry n) ref_ctx demo_contract alice (bytes_of_string msg) [].

Example demo_instantiated :
  contract_at (w_store demo_ready) demo_contract = Some (NewContractInfo 1 alice "init").
Proof. vm_compute. reflexivity. Qed.

Example demo_pay : returned (demo_execute 3 "pay" demo_ready) =
  Some (Ok (CosmosResult (with_messages []))).
Proof. vm_compute. reflexivity. Qed.

Example demo_loop : panicked (demo_execute 60 "loop" demo_ready) = Some PanicOutOfGas.
Proof. vm_compute. reflexivity. Qed.
