(* ===== verification/Runs.v ===== *)
(** * The paths of a call

    Big-step rules for [Instantiate] and [Execute], one per way a call can
    return, with the states between its stages; and that the functions of
    [Keeper.v] return exactly along them. The theorems about calls are proved
    from the rules. *)

From S2P Require Import Prelude GoStd SdkTypes Types Sdk Ref Gas Store Code Keeper Demo.

(** ** The rules *)

Section Rules.
Context {E : Env}.

Definition call_params (ctx : Ctx) (caller : bytes) (coins : Coins) (acct : Account) : wasmTypes.Params :=
  {| wasmTypes.Block := {| wasmTypes.Height := ctx_BlockHeight ctx;
                           wasmTypes.Time := ctx_BlockTimeUnix ctx;
                           wasmTypes.ChainID := ctx_ChainID ctx |};
     wasmTypes.Message := {| wasmTypes.Signer := caller;
                             wasmTypes.SentFunds := NewWasmCoins coins |};
     wasmTypes.Contract := {| wasmTypes.Address := acc_Address acct;
                              wasmTypes.Balance := NewWasmCoins (acc_Coins acct) |} |}.

(** The gas a contract is handed from state [w]. *)
Definition granted (w : world) : Z :=
  Z.min MaxGas (remaining_gas (gm_Limit (w_gas w)) (gm_GasConsumed (w_gas w))).

(** What the contract's code did when it ran: the answer of the virtual machine,
    run against the contract's store. *)
Definition ran {A} (a : bytes) (prog : vm -> host_prog A) (w : world) (r : result string A) (w' : world)
    : Prop :=
  run_host (GetContractStorePrefixKey a) cosmwasmAPI (prog (w_vm w)) w = Ret r w'.

(** [w'] is [w] after the charge for [used] units of contract gas. *)
Definition charged (used : Z) (w w' : world) : Prop :=
  gas_step w w' /\ gm_GasConsumed (w_gas w') = gm_GasConsumed (w_gas w) + used / GasMultiplier.

(** The state in which a new contract has its address. *)
Definition counted (w w1 : world) : Prop :=
  exists g, gas_adv (w_gas w) g /\ gm_GasConsumed (w_gas w) < gm_GasConsumed g /\
    w1 = set_store (kv_set KeyLastInstanceID
           (Uint64ToBigEndian (u64 (next_id KeyLastInstanceID (w_store w) + 1))) (w_store w))
           (set_gas g w).

Definition new_address (codeID : Z) (w : world) : bytes :=
  contract_address (contract_id codeID (next_id KeyLastInstanceID (w_store w))).

(** [w'] differs from [w] at keys that start with [pre], and in the gas spent. *)
Definition only_under (pre : bytes) (w w' : world) : Prop :=
  (forall k, (forall k', k <> pre ++ k') -> kv_get k (w_store w') = kv_get k (w_store w)) /\
  w_sdk w' = w_sdk w /\ w_vm w' = w_vm w /\ w_events w' = w_events w /\
  gas_adv (w_gas w) (w_gas w').

Inductive Instantiate_run (e : Entry) (ctx : Ctx) (codeID : Z) (creator initMsg : bytes)
    (deposit : Coins) (w : world) : bytes * option error -> world -> Prop :=
  | inst_exists acct w1 :
      account_at (w_sdk w) (new_address codeID w) = Some acct -> counted w w1 ->
      Instantiate_run e ctx codeID creator initMsg deposit w
        ([], Some (Wrap ErrAccountExists (AccAddress_String (acc_Address acct)))) w1
  | inst_deposit w1 err w2 :
      account_at (w_sdk w) (new_address codeID w) = None -> counted w w1 ->
      SendCoins ctx creator (new_address codeID w) deposit w1 = Ret (Some err) w2 ->
      Instantiate_run e ctx codeID creator initMsg deposit w ([], Some err) w2
  | inst_no_code w1 w2 w3 :
      account_at (w_sdk w) (new_address codeID w) = None -> counted w w1 ->
      SendCoins ctx creator (new_address codeID w) deposit w1 = Ret None w2 -> gas_step w2 w3 ->
      kv_get (GetCodeKey codeID) (w_store w2) = None ->
      Instantiate_run e ctx codeID creator initMsg deposit w
        ([], Some (Wrap ErrNotFound "contract")) w3
  | inst_vm_error w1 w2 w3 ci acct err w4 :
      account_at (w_sdk w) (new_address codeID w) = None -> counted w w1 ->
      SendCoins ctx creator (new_address codeID w) deposit w1 = Ret None w2 -> gas_step w2 w3 ->
      account_at (w_sdk w2) (new_address codeID w) = Some acct ->
      code_at (w_store w2) codeID = Some ci ->
      ran (new_address codeID w) (fun v => wasmer_Instantiate v (CodeHash ci)
            (call_params ctx creator deposit acct) initMsg (granted w3)) w3 (Err err) w4 ->
      Instantiate_run e ctx codeID creator initMsg deposit w
        (new_address codeID w, Some (Wrap ErrInstantiateFailed err)) w4
  | inst_ran w1 w2 w3 ci acct res w4 w5 derr w6 r w' :
      account_at (w_sdk w) (new_address codeID w) = None -> counted w w1 ->
      SendCoins ctx creator (new_address codeID w) deposit w1 = Ret None w2 -> gas_step w2 w3 ->
      account_at (w_sdk w2) (new_address codeID w) = Some acct ->
      code_at (w_store w2) codeID = Some ci ->
      ran (new_address codeID w) (fun v => wasmer_Instantiate v (CodeHash ci)
            (call_params ctx creator deposit acct) initMsg (granted w3)) w3 (Ok res) w4 ->
      charged (wasmTypes.GasUsed res) w4 w5 ->
      dispatchMessages e ctx (Some acct) (wasmTypes.Messages res) w5 = Ret derr w6 ->
      match derr with
      | Some err => r = ([], Some err) /\ w' = w6
      | None => r = (new_address codeID w, None) /\
          store_Set (GetContractAddressKey (new_address codeID w))
            (marshal_ContractInfo (NewContractInfo codeID creator (string_of_bytes initMsg))) w6
          = Ret tt w'
      end ->
      Instantiate_run e ctx codeID creator initMsg deposit w r w'.

Inductive Execute_run (e : Entry) (ctx : Ctx) (a caller msg : bytes) (coins : Coins) (w : world)
    : result error Result -> world -> Prop :=
  | exec_not_found err w1 :
      root_of err = ErrNotFound -> gas_step w w1 ->
      kv_get (GetContractAddressKey a) (w_store w) = None \/
      (exists i, contract_at (w_store w) a = Some i /\ kv_get (GetCodeKey (CodeID i)) (w_store w) = None) ->
      Execute_run e ctx a caller msg coins w (Err err) w1
  | exec_funds w1 err w2 :
      gas_step w w1 -> SendCoins ctx caller a coins w1 = Ret (Some err) w2 ->
      Execute_run e ctx a caller msg coins w (Err err) w2
  | exec_vm_error info ci w1 w2 w3 acct err w4 :
      contract_at (w_store w) a = Some info -> code_at (w_store w) (CodeID info) = Some ci ->
      gas_step w w1 -> SendCoins ctx caller a coins w1 = Ret None w2 -> gas_step w2 w3 ->
      account_at (w_sdk w2) a = Some acct ->
      ran a (fun v => wasmer_Execute v (CodeHash ci) (call_params ctx caller coins acct) msg
               (granted w3)) w3 (Err err) w4 ->
      Execute_run e ctx a caller msg coins w (Err (Wrap ErrExecuteFailed err)) w4
  | exec_ran info ci w1 w2 w3 acct res w4 w5 derr w6 :
      contract_at (w_store w) a = Some info -> code_at (w_store w) (CodeID info) = Some ci ->
      gas_step w w1 -> SendCoins ctx caller a coins w1 = Ret None w2 -> gas_step w2 w3 ->
      account_at (w_sdk w2) a = Some acct ->
      ran a (fun v => wasmer_Execute v (CodeHash ci) (call_params ctx caller coins acct) msg
               (granted w3)) w3 (Ok res) w4 ->
      charged (wasmTypes.GasUsed res) w4 w5 ->
      dispatchMessages e ctx (Some acct) (wasmTypes.Messages res) w5 = Ret derr w6 ->
      Execute_run e ctx a caller msg coins w
        (match derr with Some err => Err err | None => Ok (CosmosResult res) end) w6.

End Rules.

(** ** Every return is along a rule *)

Section Runs.
Context {E : Env} {L : EnvLaws E}.

Lemma counted_sdk w w1 : counted w w1 -> w_sdk w1 = w_sdk w.
Proof. by intros (g & _ & _ & ->). Qed.

Lemma gas_step_sdk w w1 : gas_step w w1 -> w_sdk w1 = w_sdk w.
Proof. by intros (g & -> & _). Qed.

Lemma gas_step_store w w1 : gas_step w w1 -> w_store w1 = w_store w.
Proof. by intros (g & -> & _). Qed.

Lemma counted_gas_step w w1 w2 : counted w w1 -> gas_step w1 w2 -> counted w w2.
Proof.
  intros (g & Hg & Hlt & ->) (g' & -> & Hg'). exists g'. simpl in *.
  split; [by transitivity g|]. split; [destruct Hg' as (_ & ? & _); lia|done].
Qed.

Lemma NewParams_Ret ctx caller coins acct (w : world) p w' :
  NewParams ctx caller coins acct w = Ret p w' ->
  exists a, acct = Some a /\ p = call_params ctx caller coins a /\ w' = w.
Proof. destruct acct as [a|]; [|done]. intros [= <- <-]. by exists a. Qed.

Lemma call_vm_Ret {A} a (prog : vm -> host_prog A) w r w' :
  call_vm (GetContractStorePrefixKey a) prog w = Ret r w' -> ran a prog w r w'.
Proof. unfold call_vm. intros H. minv H. unfold gget in E0. by injection E0 as <- <-. Qed.

Lemma Instantiate_Ret e ctx codeID creator initMsg deposit w r w' :
  Instantiate e ctx codeID creator initMsg deposit w = Ret r w' ->
  Instantiate_run e ctx codeID creator initMsg deposit w r w'.
Proof.
  unfold Instantiate. intros H. minv H. apply generateContractAddress_Ret in E0 as (-> & Hc).
  fold (new_address codeID w) in H. change (counted w w0) in Hc.
  minv H. apply GetAccount_spec in E0 as [-> Hg1].
  pose proof (counted_gas_step _ _ _ Hc Hg1) as Hc1. rewrite (counted_sdk _ _ Hc) in H.
  destruct (account_at (w_sdk w) (new_address codeID w)) as [acct|] eqn:Ha.
  { injection H as <- <-. by eapply inst_exists. }
  minv H. rename E0 into Hsend. destruct r0 as [err|].
  { injection H as <- <-. by eapply inst_deposit. }
  minv H. apply GetAccount_spec in E0 as [-> Hg2]. minv H. apply store_Get_Ret in E0 as (-> & Hg3 & _).
  rewrite (gas_step_store _ _ Hg2) in H. assert (Hg : gas_step w2 w4) by by transitivity w3.
  destruct (kv_get (GetCodeKey codeID) (w_store w2)) as [bz|] eqn:Ek.
  2: { injection H as <- <-. by eapply inst_no_code. }
  minv H. apply must_Ret in E0 as [Hci ->].
  assert (Hcode : code_at (w_store w2) codeID = Some r0) by (unfold code_at; by rewrite Ek).
  minv H. apply NewParams_Ret in E0 as (acct & Hacct & -> & ->).
  minv H. rewrite gasForContract_Ret in E0. injection E0 as <- <-. fold (granted w4) in H.
  minv H. apply call_vm_Ret in E0. destruct r1 as [res|err].
  2: { injection H as <- <-. by eapply inst_vm_error. }
  minv H. apply consumeGas_Ret in E1. minv H. rewrite Hacct in E2. eapply inst_ran; [eassumption..|].
  destruct r2 as [err|]; [by injection H as <- <-|].
  minv H. destruct r2. by injection H as <- <-.
Qed.

Lemma Execute_Ret e ctx a caller msg coins w r w' :
  Execute e ctx a caller msg coins w = Ret r w' -> Execute_run e ctx a caller msg coins w r w'.
Proof.
  unfold Execute. intros H. minv H. apply contractInstance_Ret in E0 as (Hg & _ & Hi).
  destruct r0 as [[ci p]|err].
  2: { injection H as <- <-. destruct Hi. by apply exec_not_found. }
  destruct Hi as (info & Hinfo & Hci & ->). minv H. rename E0 into Hsend. destruct r0 as [err|].
  { injection H as <- <-. by eapply exec_funds. }
  minv H. apply GetAccount_spec in E0 as [-> Hg2].
  minv H. apply NewParams_Ret in E0 as (acct & Hacct & -> & ->).
  minv H. rewrite gasForContract_Ret in E0. injection E0 as <- <-. fold (granted w2) in H.
  minv H. apply call_vm_Ret in E0. destruct r0 as [res|err].
  2: { injection H as <- <-. by eapply exec_vm_error. }
  minv H. apply consumeGas_Ret in E1. minv H. rewrite Hacct in E2.
  pose proof (exec_ran e ctx a caller msg coins w info ci w0 w1 w2 acct res w3 w4 r1 w5) as Hr.
  destruct r1 as [err|]; injection H as <- <-; by apply Hr.
Qed.

#[export] Instance only_under_preorder pre : PreOrder (only_under pre).
Proof.
  split; unfold only_under.
  - intros w. do 4 (split; [done|]). reflexivity.
  - intros w1 w2 w3 (K1 & S1 & V1 & E1 & G1) (K2 & S2 & V2 & E2 & G2).
    split; [intros k Hk; rewrite K2, K1 by done; done|].
    do 3 (split; [congruence|]). by transitivity (w_gas w2).
Qed.

Lemma gas_step_under pre w w' : gas_step w w' -> only_under pre w w'.
Proof. by intros (g & -> & Hg). Qed.

(** A contract that runs reaches nothing but its own store and the gas. *)
Lemma ran_under {A} a (prog : vm -> host_prog A) w r w' :
  ran a prog w r w' -> only_under (GetContractStorePrefixKey a) w w'.
Proof.
  unfold ran. generalize (prog (w_vm w)). intros p. clear prog. revert w.
  induction p as [r0|k f IH|k v p IH|c f IH|h f IH]; simpl; intros w H.
  - injection H as <- <-. reflexivity.
  - minv H. apply store_Get_Ret in E0 as (_ & Hg & _). transitivity w0; [by apply gas_step_under|eauto].
  - minv H. transitivity w0; [|eauto]. apply store_Set_Ret in E0 as (g & Hg & _ & ->).
    split; [|done]. intros k' Hk'. simpl. by rewrite kv_get_set_ne by (intros <-; by eapply Hk').
  - eauto.
  - eauto.
Qed.

Lemma charged_under pre used w w' : charged used w w' -> only_under pre w w'.
Proof. intros [H _]. by apply gas_step_under. Qed.

Lemma other_store_key a b k :
  length a = length b -> a <> b ->
  forall k', GetContractStorePrefixKey b ++ k <> GetContractStorePrefixKey a ++ k'.
Proof. intros Hl Hne k' He. symmetry in He. by apply state_key_inj in He as [-> _]. Qed.

(** A smart query's own meter is dropped, and its errors are of two kinds. *)
Lemma QuerySmart_frame limit a req w r w' :
  QuerySmart limit a req w = Ret r w' ->
  w_gas w' = w_gas w /\ w_sdk w' = w_sdk w /\ w_vm w' = w_vm w /\ w_events w' = w_events w /\
  (forall k, (forall k', k <> GetContractStorePrefixKey a ++ k') ->
     kv_get k (w_store w') = kv_get k (w_store w)) /\
  (forall err, r = Err err -> root_of err = ErrNotFound \/ root_of err = ErrQueryFailed).
Proof.
  unfold QuerySmart, with_meter. set (w0 := set_gas _ w).
  destruct (gbind _ _ w0) as [r' w9|p|] eqn:H; [|done|done]. intros [= <- <-].
  enough (only_under (GetContractStorePrefixKey a) w0 w9 /\
    (forall err, r' = Err err -> root_of err = ErrNotFound \/ root_of err = ErrQueryFailed))
    as [(Hk & Hs & Hv & He & _) Herr] by done.
  minv H. apply contractInstance_Ret in E0 as (Hg & _ & Hi). apply (gas_step_under (GetContractStorePrefixKey a)) in Hg.
  destruct r as [[ci p]|err].
  2: { injection H as <- <-. split; [done|]. intros err' [= <-]. left. by destruct Hi. }
  destruct Hi as (i & _ & _ & ->). minv H. rewrite gasForContract_Ret in E0. injection E0 as <- <-.
  minv H. apply call_vm_Ret, ran_under in E0. destruct r as [[q used]|err].
  - minv H. apply consumeGas_Ret, (charged_under (GetContractStorePrefixKey a)) in E1.
    injection H as <- <-. split; [|done]. transitivity w1; [done|]. by transitivity w2.
  - injection H as <- <-. split; [by transitivity w1|]. intros err' [= <-]. by right.
Qed.


End Runs.

(** ** Properties *)

Section RunProperties.
Context {E : Env} {L : EnvLaws E}.

(** C16: what a successful execution did. The contract had a record and its code a
    record; the caller's coins were transferred to the contract; the code of the
    contract's id ran once, with the caller and the coins as message info, the
    balance after the transfer, and the capped gas as its limit; what it reported
    was charged; all its messages were dispatched in order without an error; and
    the result is the contract's data and log. *)
Theorem Execute_success e ctx a caller msg coins w res w' :
  Execute e ctx a caller msg coins w = Ret (Ok res) w' ->
  exists info ci acct vmres w1 w2 w3 w4 w5,
    contract_at (w_store w) a = Some info /\ code_at (w_store w) (CodeID info) = Some ci /\
    gas_step w w1 /\ SendCoins ctx caller a coins w1 = Ret None w2 /\ gas_step w2 w3 /\
    account_at (w_sdk w2) a = Some acct /\
    ran a (fun v => wasmer_Execute v (CodeHash ci) (call_params ctx caller coins acct) msg
             (granted w3)) w3 (Ok vmres) w4 /\
    charged (wasmTypes.GasUsed vmres) w4 w5 /\
    dispatchMessages e ctx (Some acct) (wasmTypes.Messages vmres) w5 = Ret None w' /\
    res = CosmosResult vmres.
Proof.
  intros H%Execute_Ret. inversion H as [| | |info ci w1 w2 w3 acct vmres w4 w5 derr w6]. subst.
  destruct derr; [done|]. simplify_eq. exists info, ci, acct, vmres, w1, w2, w3, w4, w5. done.
Qed.

(** A call of an address without a contract fails with [ErrNotFound], whatever
    it carries: no coins are moved, no code runs, and only gas is spent. *)
Theorem Execute_not_found e ctx a caller msg coins w r w' :
  kv_get (GetContractAddressKey a) (w_store w) = None ->
  Execute e ctx a caller msg coins w = Ret r w' ->
  gas_step w w' /\ exists err, r = Err err /\ root_of err = ErrNotFound.
Proof.
  intros Hn. unfold Execute. intros H. minv H. apply contractInstance_Ret in E0 as (Hg & _ & Hi).
  destruct r0 as [[ci p]|err].
  - destruct Hi as (i & Hc & _). unfold contract_at in Hc. by rewrite Hn in Hc.
  - injection H as <- <-. split; [done|]. exists err. by destruct Hi.
Qed.

(** C15: what a successful instantiation did. The new address is the one of the
    code's id and the next instance number; it had no account before, and the
    transfer of the deposit gave it one; the code's init function ran against the
    contract's own store; its messages were dispatched; and the contract record,
    with the code id, the creator and the init message, was written last. *)
Theorem Instantiate_success e ctx codeID creator initMsg deposit w a w' :
  is_u64 codeID ->
  Instantiate e ctx codeID creator initMsg deposit w = Ret (a, None) w' ->
  a = contract_address (contract_id codeID (next_id KeyLastInstanceID (w_store w))) /\
  account_at (w_sdk w) a = None /\
  contract_at (w_store w') a = Some (NewContractInfo codeID creator (string_of_bytes initMsg)) /\
  exists ci acct vmres w1 w2 w3 w4 w5 w6,
    counted w w1 /\ SendCoins ctx creator a deposit w1 = Ret None w2 /\ gas_step w2 w3 /\
    account_at (w_sdk w2) a = Some acct /\ code_at (w_store w2) codeID = Some ci /\
    ran a (fun v => wasmer_Instantiate v (CodeHash ci) (call_params ctx creator deposit acct)
             initMsg (granted w3)) w3 (Ok vmres) w4 /\
    charged (wasmTypes.GasUsed vmres) w4 w5 /\
    dispatchMessages e ctx (Some acct) (wasmTypes.Messages vmres) w5 = Ret None w6 /\
    only_under (GetContractAddressKey a) w6 w'.
Proof.
  intros Hid H%Instantiate_Ret.
  inversion H as [| | | |w1 w2 w3 ci acct res w4 w5 derr w6 r w7 Ha Hc Hs Hg Hacct Hci Hr Hch Hd Hend].
  subst. destruct derr as [err|]; destruct Hend as [Hr' Hset]; [discriminate Hr'|].
  injection Hr' as ->. split; [done|]. split; [done|].
  apply store_Set_Ret in Hset as (g & Hg' & _ & ->). split.
  - unfold contract_at. simpl. rewrite kv_get_set_eq. simpl.
    rewrite unmarshal_marshal_ContractInfo. simpl. by rewrite u64_small.
  - exists ci, acct, res, w1, w2, w3, w4, w5, w6. do 8 (split; [done|]). split; [|done].
    intros k Hk. simpl. rewrite kv_get_set_ne; [done|]. intros <-.
    by apply (Hk []); rewrite app_nil_r.
Qed.

(** An address that is taken refuses the instantiation, before any coins move
    and before any code runs: [ErrAccountExists], with the instance number used
    up and gas spent, and nothing else changed. *)
Theorem Instantiate_address_taken e ctx codeID creator initMsg deposit w r w' :
  let a := contract_address (contract_id codeID (next_id KeyLastInstanceID (w_store w))) in
  is_Some (account_at (w_sdk w) a) ->
  Instantiate e ctx codeID creator initMsg deposit w = Ret r w' ->
  (exists err, r = ([], Some err) /\ root_of err = ErrAccountExists) /\
  next_id KeyLastInstanceID (w_store w') = u64 (next_id KeyLastInstanceID (w_store w) + 1) /\
  (forall k, k <> KeyLastInstanceID -> kv_get k (w_store w') = kv_get k (w_store w)) /\
  w_sdk w' = w_sdk w /\ w_vm w' = w_vm w /\ w_events w' = w_events w.
Proof.
  intros a [acct0 Ha] H%Instantiate_Ret. fold (new_address codeID w) in a.
  destruct H as [acct w1 Ha' (g & Hg & _ & ->)|? ? ? Hn|? ? ? Hn|? ? ? ? ? ? ? Hn|? ? ? ? ? ? ? ? ? ? ? ? Hn];
    [|subst a; congruence..].
  split; [by eexists|]. split; [apply next_id_set, u64_range|]. split; [|done].
  intros k Hk. simpl. by rewrite kv_get_set_ne.
Qed.

(** C14: a contract that runs is confined: from the moment its code starts until it
    ends, the only part of the state that changes, besides the gas, is its own
    store; the state of every other contract, code and contract records,
    counters, accounts and events are untouched. *)
Theorem contract_is_confined {A} a (prog : vm -> host_prog A) w r w' :
  call_vm (GetContractStorePrefixKey a) prog w = Ret r w' ->
  (forall b k, length a = length b -> a <> b ->
     kv_get (GetContractStorePrefixKey b ++ k) (w_store w')
     = kv_get (GetContractStorePrefixKey b ++ k) (w_store w)) /\
  (forall b, contract_at (w_store w') b = contract_at (w_store w) b) /\
  (forall id, code_at (w_store w') id = code_at (w_store w) id) /\
  next_id KeyLastCodeID (w_store w') = next_id KeyLastCodeID (w_store w) /\
  next_id KeyLastInstanceID (w_store w') = next_id KeyLastInstanceID (w_store w) /\
  w_sdk w' = w_sdk w /\ w_vm w' = w_vm w /\ w_events w' = w_events w.
Proof.
  intros (Hk & Hs & Hv & He & _)%call_vm_Ret%ran_under.
  split; [intros b k Hl Hne; by apply Hk, other_store_key|].
  unfold contract_at, code_at, next_id.
  split; [intros b; by rewrite Hk by (intros; keys_differ)|].
  split; [intros id; by rewrite Hk by (intros; keys_differ)|].
  do 2 (split; [by rewrite Hk by (intros; keys_differ)|]). done.
Qed.

(** C25: a smart query runs on a meter of its own with the given limit: the caller
    is charged nothing, and no account, code or record changes; only keys of the
    contract's own store can, since the store it is handed can be written. A
    query that is answered with an error says that the contract was not found or
    that the query failed. *)
Theorem QuerySmart_isolated limit a req w r w' :
  QuerySmart limit a req w = Ret r w' ->
  w_gas w' = w_gas w /\ w_sdk w' = w_sdk w /\ w_vm w' = w_vm w /\ w_events w' = w_events w /\
  (forall k, (forall k', k <> GetContractStorePrefixKey a ++ k') ->
     kv_get k (w_store w') = kv_get k (w_store w)) /\
  (forall err, r = Err err -> root_of err = ErrNotFound \/ root_of err = ErrQueryFailed).
Proof. exact (QuerySmart_frame limit a req w r w'). Qed.

End RunProperties.

(** ** Witnesses *)

#[local] Existing Instances demo_scripts RefEnv RefEnvLaws.

Lemma Execute_success_witness :
  exists info ci, contract_at (w_store demo_ready) demo_contract = Some info /\
    code_at (w_store demo_ready) (CodeID info) = Some ci.
Proof.
  destruct (Execute_success (entry 2) ref_ctx demo_contract alice (bytes_of_string "call") []
    demo_ready _ _ ltac:(by_run))
    as (info & ci & _ & _ & _ & _ & _ & _ & _ & H1 & H2 & _).
  exists info, ci. exact (conj H1 H2).
Defined.

Lemma Execute_not_found_witness :
  gas_step demo_uploaded (final (demo_execute 2 "call") demo_uploaded).
Proof.
  exact (proj1 (Execute_not_found (entry 2) ref_ctx demo_contract alice (bytes_of_string "call") []
    demo_uploaded _ _ ltac:(vm_compute; reflexivity) ltac:(by_run))).
Defined.

Lemma Instantiate_success_witness :
  contract_at (w_store demo_ready) demo_contract = Some (NewContractInfo 1 alice "init") /\
  account_at (w_sdk demo_uploaded) demo_contract = None.
Proof.
  destruct (Instantiate_success (entry 3) ref_ctx 1 alice (bytes_of_string "init") (gold 100)
    demo_uploaded demo_contract demo_ready) as (_ & H1 & H2 & _).
  - unfold is_u64, two64. lia.
  - by_run.
  - exact (conj H2 H1).
Defined.

(** A chain on which the first contract address already has an account. *)
Definition taken_world : world := ref_world 200000 {[ alice := gold 1000; demo_contract := gold 1 ]}.

Lemma Instantiate_address_taken_witness :
  next_id KeyLastInstanceID
    (w_store (final (Instantiate (entry 3) ref_ctx 1 alice [] []) taken_world)) = 2.
Proof.
  refine (proj1 (proj2 (Instantiate_address_taken (entry 3) ref_ctx 1 alice [] [] taken_world _ _ _ _))).
  - vm_compute. by eexists.
  - by_run.
Defined.

Definition write_hello (v : vm) : host_prog Z :=
  HSet (bytes_of_string "k") (bytes_of_string "hello") (HDone (Ok 1)).

Lemma contract_is_confined_witness :
  contract_at (w_store (final (call_vm (GetContractStorePrefixKey alice) write_hello) demo_ready))
    demo_contract = Some (NewContractInfo 1 alice "init").
Proof.
  destruct (contract_is_confined alice write_hello demo_ready _ _ ltac:(by_run)) as (_ & H & _).
  rewrite H. vm_compute. reflexivity.
Defined.

Definition demo_query : M world (result error bytes) :=
  QuerySmart 3000000 demo_contract (bytes_of_string "state").

Lemma QuerySmart_isolated_witness :
  returned (demo_query demo_ready) = Some (Ok (bytes_of_string "init")) /\
  w_gas (final demo_query demo_ready) = w_gas demo_ready.
Proof.
  split; [vm_compute; reflexivity|].
  exact (proj1 (QuerySmart_isolated 3000000 demo_contract (bytes_of_string "state") demo_ready _ _
    ltac:(by_run))).
Defined.
