(* ===== verification/Dispatch.v ===== *)
(** * Messages: who may send them, what they become, what is reported

    The checks and conversions on the way of a message: stateless validation,
    the signature check of a contract's messages, the conversions of coins and
    opaque messages, and the results and events of the module's handler. *)

From S2P Require Import Prelude GoStd Base64 SdkTypes Types Sdk Ref Gas Store Code Keeper Demo Runs.

(** ** Lemmas *)

Section Lemmas.
Context {E : Env} {L : EnvLaws E}.

Lemma convert_coins_NewWasmCoins cs :
  Forall (fun c => int_ok (coin_Amount c)) cs -> convert_coins (NewWasmCoins cs) = Ok cs.
Proof.
  induction 1 as [|[d n] cs Hn _ IH]; [done|]. simpl in *.
  by rewrite NewIntFromString_String, IH.
Qed.

(** The two ways of the signature check. *)
Lemma handleSdkMessage_cases e ctx a m w :
  Forall (eq a) (msg_GetSigners m) \/
  handleSdkMessage e ctx a (Some m) w =
    Ret (Some (Wrap (ErrSdkRoot ErrUnauthorized) "contract doesn't have permission")) w.
Proof.
  unfold handleSdkMessage. destruct (forallb _ _) eqn:Ef; [left|by right].
  rewrite forallb_forall in Ef. apply List.Forall_forall. intros s Hs.
  specialize (Ef s Hs). symmetry. by apply Equals_spec.
Qed.

Lemma convertCosmosSendMsg_from from to ts m :
  convertCosmosSendMsg from to ts = Ok m -> AccAddressFromBech32 from = Ok (FromAddress m).
Proof.
  unfold convertCosmosSendMsg. destruct (AccAddressFromBech32 from); [|done].
  destruct (AccAddressFromBech32 to); [|done]. destruct (convert_coins ts); [|done].
  by intros [= <-].
Qed.

Lemma validate_source_None source :
  validate_source source = None <->
  source = EmptyString \/
  exists scheme, url_Parse source = Ok scheme /\ scheme <> EmptyString /\ http_Get source = Ok 200.
Proof.
  unfold validate_source. case_bool_decide as H1; [tauto|].
  destruct (url_Parse source) as [scheme|] eqn:Eu.
  2: { split; [done|intros [?|(s & Hs & _)]; congruence]. }
  case_bool_decide as H2; [split; [done|intros [?|(s & Hs & Hn & _)]; congruence]|].
  destruct (http_Get source) as [status|] eqn:Eg.
  2: { split; [done|intros [?|(s & _ & _ & Hg)]; congruence]. }
  case_bool_decide as H3; [|split; [done|intros [?|(s & _ & _ & Hg)]; congruence]].
  subst. split; [intros _; right; by exists scheme|done].
Qed.

(** The handler restores the caller's events. *)
Lemma NewHandler_Ret e ctx m w res w' :
  NewHandler e ctx m w = Ret res w' ->
  exists w1, w' = set_events (w_events w) w1 /\
    match m with
    | WasmMsg _ (WStoreCode msg) => handleStoreCode ctx msg
    | WasmMsg _ (WInstantiate msg) => handleInstantiate e ctx msg
    | WasmMsg _ (WExecute msg) => handleExecute e ctx msg
    | _ => gret (ResultFromError (ErrSdk CodeUnknownRequest
                   (String.append "unrecognized wasm message type: " (type_name m))))
    end (set_events [] w) = Ret res w1.
Proof.
  unfold NewHandler. intros H. minv H. unfold gget in E0. injection E0 as <- <-.
  minv H. injection E0 as <- <-. minv H. minv H. injection E1 as <- <-. injection H as <- <-.
  by exists w0.
Qed.

End Lemmas.

(** ** Properties *)

Section DispatchProperties.
Context {E : Env} {L : EnvLaws E}.

(** C11: a contract signs for itself only. A message whose signers are not all the
    contract is refused with [ErrUnauthorized] before any handler is looked up,
    and the state is unchanged; so a send that names another origin, and an
    opaque message of another signer, whoever they pretend to be, do nothing. *)
Theorem contract_signs_for_itself e ctx acct msg w r w' :
  dispatchMessage e ctx (Some acct) msg w = Ret r w' ->
  (forall send, wasmTypes.MsgSend msg = Some send -> wasmTypes.SendAmount send <> [] ->
     AccAddressFromBech32 (wasmTypes.FromAddress send) = Ok (acc_Address acct) \/
     (w' = w /\ is_Some r)) /\
  (forall op, wasmTypes.MsgSend msg = None -> wasmTypes.MsgContract msg = None ->
     wasmTypes.MsgOpaque msg = Some op ->
     (exists m, ParseOpaqueMsg op = Ok (Some m) /\ Forall (eq (acc_Address acct)) (msg_GetSigners m)) \/
     (w' = w /\ is_Some r)).
Proof.
  intros H. split; [intros send Hs Hne|intros op Hs Hc Ho]; unfold dispatchMessage in H; rewrite Hs in H.
  - unfold sendTokens in H. destruct (wasmTypes.SendAmount send) as [|t ts] eqn:Et; [done|].
    destruct (convertCosmosSendMsg _ _ _) as [m|err] eqn:Em.
    2: { injection H as <- <-. right. by split; [|eexists]. }
    apply convertCosmosSendMsg_from in Em. rewrite Em.
    destruct (handleSdkMessage_cases e ctx (acc_Address acct) (BankSend m) w) as [Hf|Hf].
    + left. simpl in Hf. rewrite bank_GetSigners_spec in Hf. inversion Hf. congruence.
    + right. rewrite Hf in H. injection H as <- <-. by split; [|eexists].
  - rewrite Hc, Ho in H. destruct (ParseOpaqueMsg op) as [[m|]|err] eqn:Em; [|done|].
    2: { injection H as <- <-. right. by split; [|eexists]. }
    destruct (handleSdkMessage_cases e ctx (acc_Address acct) m w) as [Hf|Hf]; [left; eauto|].
    right. rewrite Hf in H. injection H as <- <-. by split; [|eexists].
Qed.

(** The messages of a contract are dispatched in order, up to the first that
    fails: dispatching two lists one after the other is dispatching their
    concatenation, and after an error nothing more is dispatched. *)
Theorem dispatchMessages_in_order e ctx acct ms ms' w :
  dispatchMessages e ctx acct (ms ++ ms') w =
  match dispatchMessages e ctx acct ms w with
  | Ret None w1 => dispatchMessages e ctx acct ms' w1
  | o => o
  end.
Proof.
  unfold dispatchMessages. revert w. induction ms as [|m ms IH]; intros w; [done|]. simpl.
  unfold gbind. destruct (dispatchMessage e ctx acct m w) as [[err|] w1|p|]; done.
Qed.

(** Coins survive the trip to a contract and back: the coins a contract is
    shown, sent back in a message, are the coins they were. *)
Theorem coins_roundtrip from to cs :
  length from = AddrLen -> length to = AddrLen ->
  Forall (fun c => int_ok (coin_Amount c)) cs ->
  convertCosmosSendMsg (AccAddress_String from) (AccAddress_String to) (NewWasmCoins cs)
  = Ok {| FromAddress := from; ToAddress := to; Amount := cs |}.
Proof.
  intros Hf Ht Hcs. unfold convertCosmosSendMsg. rewrite !FromBech32_String by done.
  by rewrite convert_coins_NewWasmCoins.
Qed.

(** An opaque message decodes to the message that was encoded. *)
Theorem opaque_roundtrip m op : ToOpaqueMsg m = Ok op -> ParseOpaqueMsg op = Ok (Some m).
Proof.
  unfold ToOpaqueMsg, ParseOpaqueMsg. destruct (MarshalJSON_Msg m) as [b|err] eqn:Em; [|done].
  intros [= <-]. simpl. rewrite Base64.DecodeString_EncodeToString.
  by rewrite (UnmarshalJSON_MarshalJSON _ _ Em).
Qed.

(** C38: The opaque message [null], in base64, is decoded without an error to a message
    that is [nil], and the first method called on it panics: a contract can end any
    call this way, where every other message that means nothing is answered with an
    error. *)
Theorem null_message_panics e ctx acct w :
  dispatchMessage e ctx (Some acct)
    {| wasmTypes.MsgSend := None; wasmTypes.MsgContract := None;
       wasmTypes.MsgOpaque := Some {| wasmTypes.OpaqueData := "bnVsbA==" |} |} w
  = Panic PanicNilMsg /\
  forall op err, ParseOpaqueMsg op = Err err ->
    dispatchMessage e ctx (Some acct)
      {| wasmTypes.MsgSend := None; wasmTypes.MsgContract := None; wasmTypes.MsgOpaque := Some op |} w
    = Ret (Some err) w.
Proof.
  split; [|by intros op err Hop; unfold dispatchMessage; simpl; rewrite Hop].
  assert (Hnull : ParseOpaqueMsg {| wasmTypes.OpaqueData := "bnVsbA==" |} = Ok None).
  { unfold ParseOpaqueMsg. change (Base64.DecodeString (wasmTypes.OpaqueData {| wasmTypes.OpaqueData := "bnVsbA==" |}))
      with (Base64.DecodeString "bnVsbA==").
    replace (Base64.DecodeString "bnVsbA==") with (@Ok string bytes (bytes_of_string "null"))
      by (vm_compute; reflexivity). by rewrite UnmarshalJSON_null. }
  unfold dispatchMessage. simpl. by rewrite Hnull.
Qed.

(** The text of an address is accepted back, and [humanAddress] accepts the
    twenty byte addresses and nothing else. *)
Theorem address_api_roundtrip a :
  (length a = AddrLen ->
     exists s, humanAddress a = Ok s /\ canonicalAddress s = Ok a) /\
  (length a <> AddrLen -> exists err, humanAddress a = Err err).
Proof.
  unfold humanAddress, canonicalAddress. split; intros Ha.
  - rewrite bool_decide_eq_true_2 by done. simpl. eexists. split; [done|]. by apply FromBech32_String.
  - rewrite bool_decide_eq_false_2 by done. simpl. by eexists.
Qed.

(** What [MsgStoreCode.ValidateBasic] accepts: code of 1 byte to 500 KiB, a
    source that is empty or an absolute url that answers 200, and a builder that
    is empty or starts with the tag. *)
Theorem MsgStoreCode_valid msg :
  MsgStoreCode_ValidateBasic msg = None <->
  1 <= len (sc_WASMByteCode msg) <= 500 * 1024 /\
  (sc_Source msg = EmptyString \/
   exists scheme, url_Parse (sc_Source msg) = Ok scheme /\ scheme <> EmptyString /\
                  http_Get (sc_Source msg) = Ok 200) /\
  (sc_Builder msg = EmptyString \/ String.prefix "cosmwasm-opt:" (sc_Builder msg) = true).
Proof.
  rewrite <- validate_source_None. unfold MsgStoreCode_ValidateBasic, MaxWasmSize, len.
  destruct (Z.eqb_spec (Z.of_nat (length (sc_WASMByteCode msg))) 0); [split; [done|lia]|].
  destruct (Z.ltb_spec (500 * 1024) (Z.of_nat (length (sc_WASMByteCode msg)))); [split; [done|lia]|].
  destruct (validate_source (sc_Source msg)); [split; [done|by intros (_ & ? & _)]|].
  case_bool_decide as Hb; [intuition lia|].
  change (MatchAnchored BuildTagRegex (sc_Builder msg)) with (String.prefix "cosmwasm-opt:" (sc_Builder msg)).
  destruct (String.prefix "cosmwasm-opt:" (sc_Builder msg)); intuition first [lia|done].
Qed.

(** A successful store message reports the id of the code, in decimal, and the
    code record of that id carries the sender, the source and the builder. *)
Theorem store_message_result e ctx ptr m w res w' :
  NewHandler e ctx (WasmMsg ptr (WStoreCode m)) w = Ret res w' -> IsOK res = true ->
  exists id h, res_Data res = bytes_of_string (Strconv.FormatUint id) /\
    code_at (w_store w') id = Some (NewCodeInfo h (sc_Sender m) (sc_Source m) (sc_Builder m)).
Proof.
  intros (w1 & -> & H)%NewHandler_Ret Hok. unfold handleStoreCode in H.
  destruct (MsgStoreCode_ValidateBasic m) as [err|].
  { injection H as <- <-. by rewrite ResultFromError_not_ok in Hok. }
  minv H. apply Create_Ret in E0. destruct r as [id|err].
  - destruct E0 as (c & h & v & g & _ & _ & _ & _ & _ & _ & ->). minv H. injection E0 as <- <-.
    minv H. injection E0 as <- <-. injection H as <- <-. exists id, h. split; [done|].
    simpl. apply code_at_set_eq.
  - injection H as <- <-. by rewrite ResultFromError_not_ok in Hok.
Qed.

(** A successful instantiate message reports the address of a contract that
    exists afterwards, with the code, creator and init message of the message. *)
Theorem instantiate_message_result n ctx ptr m w res w' :
  is_u64 (ic_Code m) ->
  NewHandler (entry (S n)) ctx (WasmMsg ptr (WInstantiate m)) w = Ret res w' -> IsOK res = true ->
  contract_at (w_store w') (res_Data res)
  = Some (NewContractInfo (ic_Code m) (ic_Sender m) (string_of_bytes (ic_InitMsg m))).
Proof.
  intros Hid (w1 & -> & H)%NewHandler_Ret Hok. unfold handleInstantiate in H.
  minv H. destruct r as [a [err|]].
  { injection H as <- <-. by rewrite ResultFromError_not_ok in Hok. }
  minv H. injection E1 as <- <-. minv H. injection E1 as <- <-. injection H as <- <-. simpl.
  apply Instantiate_Ret in E0. inversion E0 as [| | | |? ? ? ? ? ? ? ? derr ? ? ? _ _ _ _ _ _ _ _ _ Hend]. subst.
  destruct derr as [err|]; destruct Hend as [Hr Hset]; [discriminate Hr|]. injection Hr as ->.
  apply store_Set_Ret in Hset as (g & _ & _ & ->). unfold contract_at. simpl.
  rewrite kv_get_set_eq. simpl. rewrite unmarshal_marshal_ContractInfo. simpl. by rewrite u64_small.
Qed.

(** The handler works on an event manager of its own: whatever it runs, the
    events of the caller's context are what they were, so what is emitted by a
    contract's own messages does not reach the transaction's events. *)
Theorem handler_keeps_events e ctx m w res w' :
  NewHandler e ctx m w = Ret res w' -> w_events w' = w_events w.
Proof. by intros (w1 & -> & _)%NewHandler_Ret. Qed.

(** C12: a contract that calls a contract pays it beforehand. The tokens of the
    message move by a bank message, and then the callee is run with the caller as
    its signer and without funds: the tokens are in the balance it is shown, but
    not in its sent funds. *)
Theorem contract_call_hides_funds n ctx acct call op w w' target :
  AccAddressFromBech32 (wasmTypes.ContractAddr call) = Ok target ->
  dispatchMessage (entry (S n)) ctx (Some acct)
    {| wasmTypes.MsgSend := None; wasmTypes.MsgContract := Some call; wasmTypes.MsgOpaque := op |} w
    = Ret None w' ->
  exists w1 w2 w3 w4 w5 ci callee res params,
    sendTokens (entry (S n)) ctx (acc_Address acct) (AccAddress_String (acc_Address acct))
      (AccAddress_String target) (wasmTypes.Send call) w = Ret None w1 /\
    SendCoins ctx (acc_Address acct) target [] w2 = Ret None w3 /\ gas_step w1 w2 /\
    account_at (w_sdk w3) target = Some callee /\
    wasmTypes.Message params =
      {| wasmTypes.Signer := acc_Address acct; wasmTypes.SentFunds := [] |} /\
    wasmTypes.Balance (wasmTypes.Contract params) = NewWasmCoins (acc_Coins callee) /\
    ran target (fun v => wasmer_Execute v (CodeHash ci) params (bytes_of_string (wasmTypes.Msg call))
                           (granted w4)) w4 (Ok res) w5.
Proof.
  intros Ht H. unfold dispatchMessage in H. simpl in H. rewrite Ht in H. minv H.
  destruct r as [err|]; [done|]. minv H. destruct r as [res|err]; [|done]. injection H as <-.
  change (Execute (entry n) ctx target (acc_Address acct) (bytes_of_string (wasmTypes.Msg call)) [] w0
    = Ret (Ok res) w1) in E1.
  apply Execute_Ret in E1. inversion E1 as [| | |info ci w2 w3 w4 callee res' w5 w6 derr w7 Hi Hc Hg Hs Hg' Ha Hr].
  subst. exists w0, w2, w3, w4, w5, ci, callee, res', (call_params ctx (acc_Address acct) [] callee).
  destruct derr; [done|]. auto 10.
Qed.

End DispatchProperties.

(** ** Witnesses *)

#[local] Existing Instances demo_scripts RefEnv RefEnvLaws.

Definition demo_account : Account := {| acc_Address := demo_contract; acc_Coins := gold 100 |}.

Lemma contract_signs_for_itself_witness :
  w_sdk (final (dispatchMessage (entry 2) ref_ctx (Some demo_account) (demo_send alice demo_contract))
           demo_ready) = w_sdk demo_ready.
Proof.
  destruct (contract_signs_for_itself (entry 2) ref_ctx demo_account (demo_send alice demo_contract)
    demo_ready _ _ ltac:(by_run)) as [H _].
  destruct (H _ eq_refl ltac:(discriminate)) as [Hf|[Hw _]].
  - vm_compute in Hf. discriminate Hf.
  - rewrite Hw. reflexivity.
Defined.

Lemma coins_roundtrip_witness :
  convertCosmosSendMsg (AccAddress_String alice) (AccAddress_String demo_contract)
    (NewWasmCoins (gold 1234)) = Ok {| FromAddress := alice; ToAddress := demo_contract; Amount := gold 1234 |}.
Proof.
  apply coins_roundtrip; [reflexivity..|]. repeat constructor; vm_compute; reflexivity.
Defined.

Definition demo_opaque : sdk_msg :=
  BankSend {| FromAddress := demo_contract; ToAddress := alice; Amount := gold 1 |}.

Lemma opaque_roundtrip_witness :
  exists op, ToOpaqueMsg demo_opaque = Ok op /\ ParseOpaqueMsg op = Ok (Some demo_opaque).
Proof.
  eexists. split; [vm_compute; reflexivity|]. apply opaque_roundtrip. vm_compute. reflexivity.
Defined.

Definition opaque_only (data : string) : wasmTypes.CosmosMsg :=
  {| wasmTypes.MsgSend := None; wasmTypes.MsgContract := None;
     wasmTypes.MsgOpaque := Some {| wasmTypes.OpaqueData := data |} |}.

Lemma null_message_panics_witness :
  dispatchMessage (entry 1) ref_ctx (Some demo_account) (opaque_only "bnVsbA==") demo_ready = Panic PanicNilMsg /\
  exists err, dispatchMessage (entry 1) ref_ctx (Some demo_account) (opaque_only "e30=") demo_ready
    = Ret (Some err) demo_ready.
Proof.
  destruct (null_message_panics (entry 1) ref_ctx demo_account demo_ready) as [H1 H2]. split; [exact H1|].
  eexists. apply (H2 {| wasmTypes.OpaqueData := "e30=" |}). vm_compute. reflexivity.
Defined.

Definition store_msg : MsgStoreCode :=
  {| sc_Sender := alice; sc_WASMByteCode := bytes_of_string "more code"; sc_Source := "";
     sc_Builder := "cosmwasm-opt:0.6" |}.

Definition handle_store : M world Result := NewHandler (entry 1) ref_ctx (WasmMsg false (WStoreCode store_msg)).

Lemma store_message_result_witness :
  exists id h, bytes_of_string "2" = bytes_of_string (Strconv.FormatUint id) /\
    code_at (w_store (final handle_store demo_ready)) id = Some (NewCodeInfo h alice "" "cosmwasm-opt:0.6").
Proof.
  apply (store_message_result (entry 1) ref_ctx false store_msg demo_ready _ _ ltac:(by_run)).
  vm_compute. reflexivity.
Defined.

Definition instantiate_msg : MsgInstantiateContract :=
  {| ic_Sender := alice; ic_Code := 1; ic_InitMsg := bytes_of_string "hi"; ic_InitFunds := gold 5 |}.

Definition handle_instantiate : M world Result :=
  NewHandler (entry 2) ref_ctx (WasmMsg false (WInstantiate instantiate_msg)).

Lemma instantiate_message_result_witness :
  contract_at (w_store (final handle_instantiate demo_ready)) (contract_address (contract_id 1 2))
  = Some (NewContractInfo 1 alice "hi").
Proof.
  apply (instantiate_message_result 1 ref_ctx false instantiate_msg demo_ready _ _
           ltac:(unfold is_u64, two64; simpl; lia) ltac:(by_run)).
  vm_compute. reflexivity.
Defined.

Definition paid_call : wasmTypes.ContractMsg :=
  {| wasmTypes.ContractAddr := string_of_bytes demo_contract; wasmTypes.Msg := "hello";
     wasmTypes.Send := [{| wasmTypes.Denom := "gold"; wasmTypes.Amount := "7" |}] |}.

Definition paid_message : wasmTypes.CosmosMsg :=
  {| wasmTypes.MsgSend := None; wasmTypes.MsgContract := Some paid_call; wasmTypes.MsgOpaque := None |}.

Lemma contract_call_hides_funds_witness :
  exists params, wasmTypes.SentFunds (wasmTypes.Message params) = [] /\
    wasmTypes.Signer (wasmTypes.Message params) = demo_contract /\
    account_at (w_sdk (final (dispatchMessage (entry 3) ref_ctx (Some demo_account) paid_message) demo_ready))
      demo_contract = Some demo_account.
Proof.
  destruct (contract_call_hides_funds 2 ref_ctx demo_account paid_call None demo_ready
    (final (dispatchMessage (entry 3) ref_ctx (Some demo_account) paid_message) demo_ready) demo_contract
    ltac:(vm_compute; reflexivity) ltac:(by_run))
    as (w1 & w2 & w3 & w4 & w5 & ci & callee & res & params & _ & _ & _ & _ & Hm & _).
  exists params. rewrite Hm. split; [reflexivity|]. split; [reflexivity|]. vm_compute. reflexivity.
Defined.

Lemma handler_keeps_events_witness :
  w_events (final handle_instantiate demo_ready) = w_events demo_ready.
Proof.
  exact (handler_keeps_events (entry 2) ref_ctx (WasmMsg false (WInstantiate instantiate_msg))
           demo_ready _ _ ltac:(by_run)).
Defined.
