(* ===== verification/Nesting.v ===== *)
(** * Reasoning about nested calls

    Three principles for everything that runs under an [Entry]: a relation on
    states that the single operations respect is respected by any message,
    however deeply it nests ([entry_sound]); more fuel never changes a result
    ([entry_approx]); and on a transaction's gas meter some fuel is enough
    ([entry_ends]), because every nested call pays for a read or a write. *)

From S2P Require Import Prelude GoStd Base64 SdkTypes Types Sdk Ref Gas Store Code Keeper Demo.

(** ** Relations the single operations respect *)

(** [R] holds across: whatever another module does (gas included), compiling
    code, emitting events, and a contract writing in its own store. *)
Class Frame {E : Env} (R : world -> world -> Prop) : Prop := {
  frame_preorder :: PreOrder R;
  frame_sdk w w' : sdk_step w w' -> R w w';
  frame_vm c w r v : wasmer_Create c (w_vm w) = (r, v) -> R w (set_vm v w);
  frame_events es w : R w (set_events es w);
  frame_state a k v w :
    R w (set_store (kv_set (GetContractStorePrefixKey a ++ k) v (w_store w)) w) }.

Definition sound_entry {E : Env} (R : world -> world -> Prop) (e : Entry) : Prop :=
  (forall ctx id creator msg cs, sound R (e_Instantiate e ctx id creator msg cs)) /\
  (forall ctx a caller msg cs, sound R (e_Execute e ctx a caller msg cs)).

(** [R] also holds across an upload, and across an instantiation whose nested
    calls respect it. *)
Class CallFrame {E : Env} (R : world -> world -> Prop) : Prop := {
  callframe_frame :: Frame R;
  callframe_Create creator code src bld : sound R (Create creator code src bld);
  callframe_Instantiate e ctx id creator msg cs :
    sound_entry R e -> sound R (Instantiate e ctx id creator msg cs) }.

Section Sound.
Context {E : Env} {L : EnvLaws E} (R : world -> world -> Prop).

Section WithFrame.
Context `{!Frame R}.

Lemma frame_gas w w' : gas_step w w' -> R w w'.
Proof. intros H. by apply frame_sdk, gas_sdk_step. Qed.

Lemma sound_store_Get k : sound R (store_Get k).
Proof. apply sound_intro. intros w r w' (_ & H & _)%store_Get_Ret. by apply frame_gas. Qed.

Lemma sound_GetAccount ctx a : sound R (GetAccount ctx a).
Proof. apply sound_intro. intros w r w' [_ H]%GetAccount_spec. by apply frame_gas. Qed.

Lemma sound_SendCoins ctx a b cs : sound R (SendCoins ctx a b cs).
Proof. apply sound_intro. intros w r w' H%SendCoins_step. by apply frame_sdk. Qed.

Lemma sound_contractInstance a : sound R (contractInstance a).
Proof. apply sound_intro. intros w r w' [H _]%contractInstance_Ret. by apply frame_gas. Qed.

Lemma sound_must {A} (o : option A) : sound R (must o).
Proof. apply sound_intro. intros w r w' [_ ->]%must_Ret. reflexivity. Qed.

Lemma sound_NewParams ctx c d acct : sound R (NewParams ctx c d acct).
Proof. unfold NewParams. destruct acct; [apply sound_gret; apply _|apply sound_gpanic]. Qed.

Lemma sound_gasForContract : sound R gasForContract.
Proof. apply sound_intro. intros w r w'. rewrite gasForContract_Ret. intros [= _ <-]. reflexivity. Qed.

Lemma sound_consumeGas n : sound R (consumeGas n).
Proof. apply sound_intro. intros w r w' [H _]%consumeGas_Ret. by apply frame_gas. Qed.

Lemma sound_EmitEvent ev : sound R (EmitEvent ev).
Proof. apply sound_intro. intros w r w' [= _ <-]. apply frame_events. Qed.

Lemma sound_set_events es : sound R (gmodify (set_events es)).
Proof. apply sound_intro. intros w r w' [= _ <-]. apply frame_events. Qed.

Lemma sound_prefix_Set a k v : sound R (prefix_Set (GetContractStorePrefixKey a) k v).
Proof.
  apply sound_intro. intros w r w' (g & Hg & _ & ->)%store_Set_Ret.
  transitivity (set_gas g w); [apply frame_gas; by exists g|]. apply (frame_state a k v (set_gas g w)).
Qed.

Lemma sound_run_host {A} a api (p : host_prog A) :
  sound R (run_host (GetContractStorePrefixKey a) api p).
Proof.
  induction p; simpl; [apply sound_gret; apply _|..]; try done.
  - apply sound_gbind; [apply _|apply sound_store_Get|done].
  - apply sound_gbind; [apply _|apply sound_prefix_Set|done].
Qed.

Lemma sound_call_vm {A} a (prog : vm -> host_prog A) :
  sound R (call_vm (GetContractStorePrefixKey a) prog).
Proof.
  unfold call_vm. apply sound_gbind; [apply _|apply sound_gget; apply _|].
  intros v. apply sound_run_host.
Qed.

End WithFrame.
End Sound.

#[export] Hint Resolve sound_store_Get sound_GetAccount sound_SendCoins sound_contractInstance
  sound_must sound_NewParams sound_gasForContract sound_consumeGas sound_EmitEvent
  sound_set_events sound_call_vm : sound.

Section SoundEntry.
Context {E : Env} {L : EnvLaws E} (R : world -> world -> Prop) `{!CallFrame R}.

Lemma sound_NewHandler e ctx m : sound_entry R e -> sound R (NewHandler e ctx m).
Proof.
  intros [HI HX]. pose proof (callframe_Create (R:=R)) as HC.
  unfold NewHandler, handleStoreCode, handleInstantiate, handleExecute. solve_sound.
Qed.

Lemma sound_handleSdkMessage e ctx a m : sound_entry R e -> sound R (handleSdkMessage e ctx a m).
Proof.
  intros He. unfold handleSdkMessage. destruct m as [m|]; [|apply sound_gpanic].
  destruct (negb _); [apply sound_gret; apply _|].
  destruct (router_Route e (msg_Route m)) as [h|] eqn:Er; [|apply sound_gret; apply _].
  apply sound_gbind; [apply _| |solve_sound].
  unfold router_Route in Er. case_bool_decide; [injection Er as <-; by apply sound_NewHandler|].
  apply sound_intro. intros w r w' Hr. apply frame_sdk. by eapply other_handler_step.
Qed.

Lemma sound_sendTokens e ctx s o t ts : sound_entry R e -> sound R (sendTokens e ctx s o t ts).
Proof.
  intros He. unfold sendTokens. pose proof (sound_handleSdkMessage e ctx s). solve_sound.
Qed.

Lemma sound_dispatchMessage e ctx acct m :
  sound_entry R e -> sound R (dispatchMessage e ctx acct m).
Proof.
  intros He. destruct He as [HI HX] eqn:Ee. unfold dispatchMessage.
  pose proof (fun s o t ts => sound_sendTokens e ctx s o t ts He).
  pose proof (fun a m => sound_handleSdkMessage e ctx a m He). solve_sound.
Qed.

Lemma sound_dispatchMessages e ctx acct msgs :
  sound_entry R e -> sound R (dispatchMessages e ctx acct msgs).
Proof.
  intros He. pose proof (fun m => sound_dispatchMessage e ctx acct m He).
  unfold dispatchMessages. solve_sound.
Qed.

Lemma sound_Execute e ctx a caller msg cs :
  sound_entry R e -> sound R (Execute e ctx a caller msg cs).
Proof.
  intros He. pose proof (fun acct msgs => sound_dispatchMessages e ctx acct msgs He).
  apply sound_intro. intros w r w' H0. unfold Execute in H0.
  apply gbind_Ret_inv in H0 as (ri & w1 & E1 & H0).
  apply contractInstance_Ret in E1 as (Hg & _ & Hi). transitivity w1; [exact (frame_gas R _ _ Hg)|].
  destruct ri as [[ci p]|err]; [|injection H0 as <- <-; reflexivity].
  destruct Hi as (i & _ & _ & ->).
  refine (sound_Ret R _ _ _ _ _ H0). clear -L CallFrame0 H. solve_sound.
Qed.

(** The principle: by induction on the nesting. *)
Lemma entry_sound n : sound_entry R (entry n).
Proof.
  induction n as [|n IH]; [by split; intros ** w|]. split; simpl; intros.
  - by apply callframe_Instantiate.
  - by apply sound_Execute.
Qed.

End SoundEntry.

(** ** More fuel never changes a result *)

Definition approx_entry {E : Env} (e e' : Entry) : Prop :=
  (forall ctx id creator msg cs w,
     approx (e_Instantiate e ctx id creator msg cs w) (e_Instantiate e' ctx id creator msg cs w)) /\
  (forall ctx a caller msg cs w,
     approx (e_Execute e ctx a caller msg cs w) (e_Execute e' ctx a caller msg cs w)).

Ltac approx_step :=
  match goal with
  | |- approx ?o ?o => apply approx_refl
  | |- approx (gbind _ _ _) (gbind _ _ _) => apply approx_gbind; [|intros]
  | |- approx (for_range _ _ _) (for_range _ _ _) => apply approx_for_range; intros
  | |- approx ((match ?x with _ => _ end) _) _ => destruct x
  | H : approx_entry _ _ |- _ => apply H
  end.

Section Approx.
Context {E : Env} {L : EnvLaws E} (e e' : Entry) (He : approx_entry e e').

Lemma approx_NewHandler ctx m w : approx (NewHandler e ctx m w) (NewHandler e' ctx m w).
Proof.
  unfold NewHandler, handleInstantiate, handleExecute. repeat approx_step.
Qed.

Lemma approx_handleSdkMessage ctx a m w :
  approx (handleSdkMessage e ctx a m w) (handleSdkMessage e' ctx a m w).
Proof.
  unfold handleSdkMessage, router_Route. destruct m as [m|]; [|apply approx_refl].
  destruct (negb _); [apply approx_refl|].
  case_bool_decide; [|apply approx_refl].
  apply approx_gbind; [apply approx_NewHandler|]. intros. apply approx_refl.
Qed.

Lemma approx_sendTokens ctx s o t ts w :
  approx (sendTokens e ctx s o t ts w) (sendTokens e' ctx s o t ts w).
Proof.
  unfold sendTokens. destruct ts; [apply approx_refl|].
  destruct (convertCosmosSendMsg _ _ _); [apply approx_handleSdkMessage|apply approx_refl].
Qed.

Lemma approx_dispatchMessages ctx acct msgs w :
  approx (dispatchMessages e ctx acct msgs w) (dispatchMessages e' ctx acct msgs w).
Proof.
  unfold dispatchMessages, dispatchMessage. apply approx_for_range. intros m w'.
  destruct acct; [|apply approx_refl].
  destruct (wasmTypes.MsgSend m); [apply approx_sendTokens|].
  destruct (wasmTypes.MsgContract m) as [c|].
  - destruct (AccAddressFromBech32 _); [|apply approx_refl].
    apply approx_gbind; [apply approx_sendTokens|]. intros [err|] w1; [apply approx_refl|].
    repeat approx_step.
  - destruct (wasmTypes.MsgOpaque m); [|apply approx_refl].
    destruct (ParseOpaqueMsg _); [apply approx_handleSdkMessage|apply approx_refl].
Qed.

Lemma approx_Instantiate ctx id creator msg cs w :
  approx (Instantiate e ctx id creator msg cs w) (Instantiate e' ctx id creator msg cs w).
Proof.
  unfold Instantiate. repeat first [approx_step | apply approx_dispatchMessages].
Qed.

Lemma approx_Execute ctx a caller msg cs w :
  approx (Execute e ctx a caller msg cs w) (Execute e' ctx a caller msg cs w).
Proof.
  unfold Execute. repeat first [approx_step | apply approx_dispatchMessages].
Qed.

End Approx.

Lemma approx_bottom {E : Env} e : approx_entry bottom e.
Proof. split; intros; by left. Qed.

Lemma entry_approx {E : Env} {L : EnvLaws E} n m : (n <= m)%nat -> approx_entry (entry n) (entry m).
Proof.
  revert m. induction n as [|n IH]; intros m Hm; [apply approx_bottom|].
  destruct m as [|m]; [lia|]. specialize (IH m ltac:(lia)).
  split; simpl; intros; [by apply approx_Instantiate|by apply approx_Execute].
Qed.

(** ** Gas bounds the nesting *)

Definition gas_left {E : Env} (w : world) : Z := gm_Limit (w_gas w) - gm_GasConsumed (w_gas w).

(** From any state with a transaction's meter and less than [k] gas left, [m]
    comes to an end. *)
Definition ends_under {E : Env} {A} (k : Z) (m : M world A) : Prop :=
  forall w, gm_finite (w_gas w) -> gas_left w < k -> m w <> NoFuel.

Definition ends_entry {E : Env} (k : Z) (e : Entry) : Prop :=
  (forall ctx id creator msg cs, ends_under k (e_Instantiate e ctx id creator msg cs)) /\
  (forall ctx a caller msg cs, ends_under k (e_Execute e ctx a caller msg cs)).

(** Gas only goes down. *)
Definition gasR {E : Env} (w w' : world) : Prop := gas_adv (w_gas w) (w_gas w').

Section Ends.
Context {E : Env} {L : EnvLaws E}.

#[export] Instance gasR_frame : Frame gasR.
Proof.
  split; unfold gasR.
  - split; [intros w; reflexivity|]. intros w1 w2 w3 H1 H2. by transitivity (w_gas w2).
  - intros w w' (_ & _ & H & _). exact H.
  - reflexivity.
  - reflexivity.
  - reflexivity.
Qed.

Lemma gasR_Create creator code src bld : sound gasR (Create creator code src bld).
Proof.
  apply sound_intro. intros w r w' H%Create_Ret. destruct r as [id|err].
  - destruct H as (c & h & v & g & _ & _ & _ & _ & Hg & _ & ->). exact Hg.
  - destruct H as (_ & (v & ->) & _). unfold gasR. simpl. reflexivity.
Qed.

Lemma gasR_store_Set k v : sound gasR (store_Set k v).
Proof. apply sound_intro. intros w r w' (g & Hg & _ & ->)%store_Set_Ret. exact Hg. Qed.

Lemma gasR_generateContractAddress id : sound gasR (generateContractAddress id).
Proof.
  apply sound_intro. intros w r w' (_ & g & Hg & _ & ->)%generateContractAddress_Ret. exact Hg.
Qed.

Lemma gasR_call_vm {A} pre (prog : vm -> host_prog A) : sound gasR (call_vm pre prog).
Proof.
  unfold call_vm. apply sound_gbind; [apply _|apply sound_gget; apply _|].
  intros v. generalize (prog v). intros p. pose proof gasR_store_Set as HS.
  induction p; simpl; unfold prefix_Get, prefix_Set; solve_sound; auto.
Qed.

(** The dispatch of messages under an entry that respects a frame respects it;
    stated without [CallFrame], whose instances need it. *)
Lemma frame_dispatchMessages (R : world -> world -> Prop) `{!Frame R} e ctx acct msgs :
  (forall c d s b, sound R (Create c d s b)) -> sound_entry R e ->
  sound R (dispatchMessages e ctx acct msgs).
Proof.
  intros HC He. assert (HN : forall ctx m, sound R (NewHandler e ctx m)).
  { destruct He as [HI HX]. intros. unfold NewHandler, handleStoreCode, handleInstantiate, handleExecute.
    solve_sound. }
  assert (HH : forall a m, sound R (handleSdkMessage e ctx a m)).
  { intros a m. unfold handleSdkMessage. destruct m as [m|]; [|apply sound_gpanic].
    destruct (negb _); [apply sound_gret; apply _|].
    destruct (router_Route e (msg_Route m)) as [h|] eqn:Er; [|apply sound_gret; apply _].
    apply sound_gbind; [apply _| |solve_sound].
    unfold router_Route in Er. case_bool_decide; [injection Er as <-; apply HN|].
    apply sound_intro. intros w r w' Hr. apply frame_sdk. by eapply other_handler_step. }
  destruct He as [HI HX]. unfold dispatchMessages, dispatchMessage, sendTokens. solve_sound.
Qed.

#[export] Instance gasR_callframe : CallFrame gasR.
Proof.
  split; [apply _|apply gasR_Create|]. intros e ctx id creator msg cs He.
  pose proof (fun acct msgs => frame_dispatchMessages gasR e ctx acct msgs gasR_Create He).
  pose proof (gasR_generateContractAddress id). pose proof gasR_store_Set.
  unfold Instantiate. solve_sound.
Qed.

Lemma ends_gbind {A B} k (m : M world A) (f : A -> M world B) :
  ends_under k m -> sound gasR m -> (forall a, ends_under k (f a)) -> ends_under k (gbind m f).
Proof.
  intros Hm Hs Hf w Hw Hk. unfold gbind. destruct (m w) as [a w'|p|] eqn:Em; [|done|by apply Hm in Em].
  pose proof (sound_Ret _ _ _ _ _ Hs Em) as (Hl & Hc & Hfin). destruct (Hfin Hw) as [Hw' _].
  apply Hf; [done|]. unfold gas_left in *. lia.
Qed.

(** A step that costs gas leaves room for one more level. *)
Lemma ends_gbind_strict {A B} k (m : M world A) (f : A -> M world B) :
  total m ->
  (forall w a w', m w = Ret a w' -> gasR w w' /\ gm_GasConsumed (w_gas w) < gm_GasConsumed (w_gas w')) ->
  (forall a, ends_under k (f a)) -> ends_under (k + 1) (gbind m f).
Proof.
  intros Hm Hs Hf w Hw Hk. unfold gbind. destruct (m w) as [a w'|p|] eqn:Em; [|done|by apply Hm in Em].
  destruct (Hs _ _ _ Em) as [(Hl & Hc & Hfin) Hlt]. destruct (Hfin Hw) as [Hw' _].
  apply Hf; [done|]. unfold gas_left in *. lia.
Qed.

Lemma ends_total {A} k (m : M world A) : total m -> ends_under k m.
Proof. intros Hm w _ _. apply Hm. Qed.

Lemma ends_for_range {A B} k (l : list A) (f : A -> M world (option B)) :
  (forall x, ends_under k (f x)) -> (forall x, sound gasR (f x)) -> ends_under k (for_range l f).
Proof.
  intros Hf Hs. induction l as [|x l IH]; [by apply ends_total|]. simpl.
  apply ends_gbind; [done|done|]. intros [e|]; [by apply ends_total|done].
Qed.

Lemma total_call_vm {A} pre (prog : vm -> host_prog A) : total (call_vm pre prog).
Proof. unfold call_vm. solve_sound. Qed.

Lemma total_NewParams ctx c d acct : total (W:=world) (NewParams ctx c d acct).
Proof. unfold NewParams. solve_sound. Qed.

End Ends.

Lemma total_EmitEvent {E : Env} ev : total (EmitEvent ev).
Proof. by intros w. Qed.

#[export] Hint Resolve total_call_vm total_NewParams total_EmitEvent : sound.

Ltac ends_step :=
  match goal with
  | |- forall _, _ => intro
  | |- ends_under _ (gbind _ _) => apply ends_gbind
  | |- ends_under _ (match ?x with _ => _ end) => destruct x
  | |- sound _ _ => solve_sound
  end.
Ltac solve_ends :=
  repeat first [solve [auto] | solve [apply ends_total; solve_sound] | ends_step].

Section EndsEntry.
Context {E : Env} {L : EnvLaws E} (k : Z) (e : Entry) (He : ends_entry k e) (Hs : sound_entry gasR e).

Lemma ends_NewHandler ctx m : ends_under k (NewHandler e ctx m).
Proof.
  destruct He as [HI HX], Hs as [SI SX]. pose proof gasR_Create.
  unfold NewHandler, handleStoreCode, handleInstantiate, handleExecute. solve_ends.
Qed.

Lemma ends_handleSdkMessage ctx a m : ends_under k (handleSdkMessage e ctx a m).
Proof.
  unfold handleSdkMessage. destruct m as [m|]; [|by intros w]. destruct (negb _); [solve_ends|].
  destruct (router_Route e (msg_Route m)) as [h|] eqn:Er; [|solve_ends].
  unfold router_Route in Er. case_bool_decide.
  - injection Er as <-. apply ends_gbind; [apply ends_NewHandler|exact (sound_NewHandler gasR e ctx m Hs)|].
    intros. apply ends_total. solve_sound.
  - apply ends_total. apply total_gbind; [by eapply other_handler_total|]. solve_sound.
Qed.

Lemma ends_dispatchMessages ctx acct msgs : ends_under k (dispatchMessages e ctx acct msgs).
Proof.
  pose proof (fun a m => sound_handleSdkMessage gasR e ctx a m Hs).
  pose proof (fun s o t ts => sound_sendTokens gasR e ctx s o t ts Hs).
  pose proof (fun a m => ends_handleSdkMessage ctx a m).
  assert (Hsend : forall s o t ts, ends_under k (sendTokens e ctx s o t ts))
    by (unfold sendTokens; solve_ends).
  destruct He as [HI HX] eqn:E1, Hs as [SI SX] eqn:E2. unfold dispatchMessages, dispatchMessage.
  apply ends_for_range; intros; [solve_ends|solve_sound].
Qed.

Lemma ends_Execute ctx a caller msg cs : ends_under (k + 1) (Execute e ctx a caller msg cs).
Proof.
  pose proof ends_dispatchMessages. pose proof (fun ctx acct ms => sound_dispatchMessages gasR e ctx acct ms Hs).
  pose proof @gasR_call_vm.
  unfold Execute. apply ends_gbind_strict; [solve_sound| |].
  - intros w r w' (Hg & Hlt & _)%contractInstance_Ret. split; [|done].
    exact (frame_gas gasR _ _ Hg).
  - solve_ends.
Qed.

Lemma ends_Instantiate ctx id creator msg cs :
  ends_under (k + 1) (Instantiate e ctx id creator msg cs).
Proof.
  pose proof ends_dispatchMessages. pose proof (fun ctx acct ms => sound_dispatchMessages gasR e ctx acct ms Hs).
  pose proof @gasR_call_vm. pose proof gasR_store_Set.
  unfold Instantiate. apply ends_gbind_strict; [solve_sound| |].
  - intros w r w' (_ & g & Hg & Hlt & ->)%generateContractAddress_Ret. by split.
  - solve_ends.
Qed.

End EndsEntry.

(** Every nested call pays for a read or a write, so [n] levels are enough for
    any run that starts with less than [n] gas. *)
Lemma entry_ends {E : Env} {L : EnvLaws E} n : ends_entry (Z.of_nat n) (entry n).
Proof.
  induction n as [|n IH].
  - split; intros ** w Hw Hk; unfold gas_left in Hk; pose proof (gm_finite_le _ Hw); simpl in Hk; lia.
  - replace (Z.of_nat (S n)) with (Z.of_nat n + 1) by lia.
    pose proof (entry_sound gasR n).
    split; intros; [by apply ends_Instantiate|by apply ends_Execute].
Qed.

(** ** Properties *)

Section NestingProperties.
Context {E : Env} {L : EnvLaws E}.

(** C9: contracts that call each other, and themselves, without end are stopped by
    gas: on a transaction's meter, a message handled, a contract instantiated or
    executed with less gas left than the nesting allowed always comes to an end,
    by returning or by a panic; the bound on the nesting is never what stops it. *)
Theorem gas_bounds_nesting n w :
  gm_finite (w_gas w) -> gm_Limit (w_gas w) - gm_GasConsumed (w_gas w) < Z.of_nat n ->
  (forall ctx m, NewHandler (entry n) ctx m w <> NoFuel) /\
  (forall ctx id creator msg cs, Instantiate (entry n) ctx id creator msg cs w <> NoFuel) /\
  (forall ctx a caller msg cs, Execute (entry n) ctx a caller msg cs w <> NoFuel).
Proof.
  intros Hw Hk. pose proof (entry_ends n) as He. pose proof (entry_sound gasR n) as Hs.
  split; [|split]; intros.
  - by apply (ends_NewHandler (Z.of_nat n)).
  - apply (ends_Instantiate (Z.of_nat n)); [done..|]. unfold gas_left. lia.
  - apply (ends_Execute (Z.of_nat n)); [done..|]. unfold gas_left. lia.
Qed.

End NestingProperties.

(** ** Witnesses *)

#[local] Existing Instances demo_scripts RefEnv RefEnvLaws.

Definition loop_msg : sdk_msg :=
  WasmMsg false (WExecute {| ec_Sender := alice; ec_Contract := demo_contract;
                             ec_Msg := bytes_of_string "loop"; ec_SentFunds := [] |}).

Definition call_msg : sdk_msg :=
  WasmMsg false (WExecute {| ec_Sender := alice; ec_Contract := demo_contract;
                             ec_Msg := bytes_of_string "call"; ec_SentFunds := [] |}).

Lemma gas_bounds_nesting_witness :
  NewHandler (entry (Z.to_nat 84000)) ref_ctx loop_msg demo_ready <> NoFuel.
Proof.
  apply (gas_bounds_nesting (Z.to_nat 84000) demo_ready).
  - vm_compute. split; [reflexivity|]. intros H. discriminate H.
  - vm_compute. reflexivity.
Defined.
