(* ===== verification/Invariants.v ===== *)
(** * What every message preserves

    Relations between the states before and after a message that hold however
    deeply it nests: each is an instance of [CallFrame], and its theorem follows
    by [sound_NewHandler] and [entry_sound]. *)

From S2P Require Import Prelude GoStd SdkTypes Types Sdk Ref Gas Store Code Keeper Demo Runs Nesting.

(** ** The relations *)

Section Relations.
Context {E : Env}.

(** A contract record belongs to an account. *)
Definition contracts_have_accounts (w : world) : Prop :=
  forall a, is_Some (kv_get (GetContractAddressKey a) (w_store w)) -> is_Some (account_at (w_sdk w) a).

(** Where there is an account, the contract record (or its absence) stays. *)
Definition records_kept (w w' : world) : Prop :=
  forall a, is_Some (account_at (w_sdk w) a) ->
    is_Some (account_at (w_sdk w') a) /\
    kv_get (GetContractAddressKey a) (w_store w') = kv_get (GetContractAddressKey a) (w_store w).

(** Both together. *)
Definition contractsR (w w' : world) : Prop :=
  records_kept w w' /\ (contracts_have_accounts w -> contracts_have_accounts w').

Definition typedR (w w' : world) : Prop := well_typed (w_store w) -> well_typed (w_store w').

(** New code ids are paid for, so the counter does not wrap within a meter. *)
Definition code_room (w : world) : Prop :=
  codes_dense (w_store w) /\ gm_finite (w_gas w) /\
  next_id KeyLastCodeID (w_store w) + (gm_Limit (w_gas w) - gm_GasConsumed (w_gas w)) < two64 - 1.

Definition codesR (w w' : world) : Prop :=
  gasR w w' /\
  (code_room w ->
     code_room w' /\
     next_id KeyLastCodeID (w_store w) <= next_id KeyLastCodeID (w_store w') /\
     forall id, is_u64 id -> is_Some (kv_get (GetCodeKey id) (w_store w)) ->
       kv_get (GetCodeKey id) (w_store w') = kv_get (GetCodeKey id) (w_store w)).

End Relations.

(** ** They hold of every step *)

Section Instances.
Context {E : Env} {L : EnvLaws E}.

(** A relation that reads only the contract records and the accounts. *)
Lemma contractsR_same w w' :
  (forall a, kv_get (GetContractAddressKey a) (w_store w') = kv_get (GetContractAddressKey a) (w_store w)) ->
  (forall a, is_Some (account_at (w_sdk w) a) -> is_Some (account_at (w_sdk w') a)) ->
  contractsR w w'.
Proof.
  intros Hk Ha. split.
  - intros a Hs. auto.
  - intros Hc a. rewrite Hk. auto.
Qed.

#[export] Instance contractsR_preorder : PreOrder contractsR.
Proof.
  split.
  - intros w. by apply contractsR_same.
  - intros w1 w2 w3 [K1 C1] [K2 C2]. split; [|auto].
    intros a Ha. destruct (K1 a Ha) as [Ha' E1], (K2 a Ha') as [Ha'' E2].
    split; [done|congruence].
Qed.

#[export] Instance contractsR_frame : Frame contractsR.
Proof.
  split; [apply _|..].
  - intros w w' (Hs & _ & _ & Ha). apply contractsR_same; [|done]. intros a. by rewrite Hs.
  - intros. by apply contractsR_same.
  - intros. by apply contractsR_same.
  - intros. apply contractsR_same; [|done]. intros b. simpl. apply kv_get_set_ne. keys_differ.
Qed.

Lemma contractsR_Create creator code src bld : sound contractsR (Create creator code src bld).
Proof.
  apply sound_intro. intros w r w' H%Create_Ret. apply contractsR_same; destruct r as [id|err].
  - destruct H as (c & h & v & g & _ & _ & _ & _ & Hg & _ & ->). intros a. simpl.
    rewrite !kv_get_set_ne; [done|keys_differ..].
  - by destruct H as (_ & (v & ->) & _).
  - by destruct H as (c & h & v & g & _ & _ & _ & _ & Hg & _ & ->).
  - by destruct H as (_ & (v & ->) & _).
Qed.

(** What an instantiation does besides the steps of a frame: the instance counter
    first, and, if it succeeds, the record of a contract whose address had no
    account before the call and has one since the transfer. *)
Lemma Instantiate_frame (R : world -> world -> Prop) `{!Frame R} e ctx id creator msg cs w r w' :
  (forall c d s b, sound R (Create c d s b)) -> sound_entry R e ->
  (forall w w1, counted w w1 -> R w w1) ->
  Instantiate e ctx id creator msg cs w = Ret r w' ->
  R w w' \/
  exists w2 w6, account_at (w_sdk w) (new_address id w) = None /\ R w w2 /\ R w2 w6 /\
    is_Some (account_at (w_sdk w2) (new_address id w)) /\
    (is_Some (code_at (w_store w2) id) /\
     forall a, kv_get (GetContractAddressKey a) (w_store w2) = kv_get (GetContractAddressKey a) (w_store w)) /\
    store_Set (GetContractAddressKey (new_address id w))
      (marshal_ContractInfo (NewContractInfo id creator (string_of_bytes msg))) w6 = Ret tt w'.
Proof.
  intros HC He Hcount H%Instantiate_Ret.
  assert (Hsend : forall a w1 r w2, SendCoins ctx creator a cs w1 = Ret r w2 -> R w1 w2)
    by (intros; eapply (sound_Ret R); [by apply sound_SendCoins|done]).
  assert (Hran : forall A a (prog : vm -> host_prog A) w1 r w2, ran a prog w1 r w2 -> R w1 w2).
  { intros A a prog w1 r1 w2 Hr. exact (sound_Ret R _ _ _ _ (sound_run_host R a cosmwasmAPI (prog (w_vm w1))) Hr). }
  pose proof (fun acct ms => frame_dispatchMessages R e ctx acct ms HC He) as Hdisp.
  pose proof (fun w w' => frame_gas R w w') as Hgas.
  destruct H as [| |w1 w2 w3 Hn Hc Hs Hg|w1 w2 w3 ci acct err w4 Hn Hc Hs Hg _ _ Hr
                |w1 w2 w3 ci acct res w4 w5 derr w6 r w' Hn Hc Hs Hg Ha Hci Hr Hch Hd Hend].
  - left. eauto.
  - left. transitivity w1; eauto.
  - left. transitivity w2; [transitivity w1|]; eauto.
  - left. transitivity w2; [transitivity w1|transitivity w3]; eauto.
  - assert (H2 : R w w2) by (transitivity w1; eauto).
    assert (H6 : R w2 w6).
    { transitivity w3; [eauto|]. transitivity w4; [eauto|]. destruct Hch as [Hch _].
      transitivity w5; [eauto|]. exact (sound_Ret R _ _ _ _ (Hdisp _ _) Hd). }
    destruct derr as [err|]; destruct Hend as [-> Hend]; [left; subst w'; by transitivity w2|].
    right. exists w2, w6. rewrite Ha, Hci. split; [done|]. split; [done|]. split; [done|].
    split; [by eexists|]. split; [|done]. split; [by eexists|]. intros a.
    apply SendCoins_step in Hs as (-> & _). destruct Hc as (g & _ & _ & ->). simpl.
    rewrite kv_get_set_ne; [done|keys_differ].
Qed.

(** A relation that also holds when a contract record is written. *)
Lemma callframe_record (R : world -> world -> Prop) `{!Frame R} :
  (forall c d s b, sound R (Create c d s b)) -> (forall w w1, counted w w1 -> R w w1) ->
  (forall a i g w, gas_adv (w_gas w) g ->
     R w (set_store (kv_set (GetContractAddressKey a) (marshal_ContractInfo i) (w_store w)) (set_gas g w))) ->
  CallFrame R.
Proof.
  intros HC Hcount Hset. split; [done|done|]. intros e ctx id creator msg cs He.
  apply sound_intro. intros w r w' H.
  destruct (Instantiate_frame R e ctx id creator msg cs w r w' HC He Hcount H)
    as [HR|(w2 & w6 & _ & H2 & H6 & _ & _ & Hw)]; [done|].
  transitivity w2; [done|]. transitivity w6; [done|].
  apply store_Set_Ret in Hw as (g & Hg & _ & ->). by apply Hset.
Qed.

Lemma contractsR_counted w w1 : counted w w1 -> contractsR w w1.
Proof.
  intros (g & _ & _ & ->). apply contractsR_same; [|done]. intros a. simpl.
  rewrite kv_get_set_ne; [done|keys_differ].
Qed.

#[export] Instance contractsR_callframe : CallFrame contractsR.
Proof.
  split; [apply _|apply contractsR_Create|]. intros e ctx id creator msg cs He.
  apply sound_intro. intros w r w' H.
  destruct (Instantiate_frame contractsR e ctx id creator msg cs w r w' contractsR_Create He contractsR_counted H)
    as [HR|(w2 & w6 & Hn & H2 & H6 & Ha & _ & Hset)]; [done|].
  assert (H26 : contractsR w w6) by by transitivity w2.
  apply store_Set_Ret in Hset as (g & _ & _ & ->). set (a := new_address id w) in *.
  destruct H26 as [K C], H6 as [K6 _]. split.
  - intros b Hb. destruct (K b Hb) as [Hb' Eb]. split; [done|]. simpl. rewrite kv_get_set_ne; [done|].
    intros Hk%GetContractAddressKey_inj. subst b. rewrite Hn in Hb. by destruct Hb.
  - intros Hc b. simpl. destruct (decide (b = a)) as [->|Hne]; [intros _; by apply K6|].
    rewrite kv_get_set_ne by (intros Hk%GetContractAddressKey_inj; congruence). by apply C.
Qed.

(** *** Well-formed records *)

Lemma well_typed_set k v s :
  well_typed s ->
  (k = KeyLastCodeID -> length v = 8%nat) -> (k = KeyLastInstanceID -> length v = 8%nat) ->
  (forall id, k = GetCodeKey id -> is_Some (unmarshal_CodeInfo v)) ->
  (forall a, k = GetContractAddressKey a -> is_Some (unmarshal_ContractInfo v)) ->
  well_typed (kv_set k v s).
Proof.
  intros [W1 W2 W3 W4] H1 H2 H3 H4.
  assert (Hget : forall k' bz, kv_get k' (kv_set k v s) = Some bz ->
            (k = k' /\ bz = v) \/ kv_get k' s = Some bz).
  { intros k' bz. destruct (decide (k = k')) as [->|Hne].
    - rewrite kv_get_set_eq. intros [= ->]. by left.
    - rewrite kv_get_set_ne by done. by right. }
  split.
  - intros bz [[? ->]|?]%Hget; eauto.
  - intros bz [[? ->]|?]%Hget; eauto.
  - intros id bz [[? ->]|?]%Hget; eauto.
  - intros a bz [[? ->]|?]%Hget; eauto.
Qed.

Lemma well_typed_counter k n s :
  k = KeyLastCodeID \/ k = KeyLastInstanceID -> well_typed s ->
  well_typed (kv_set k (Uint64ToBigEndian n) s).
Proof.
  intros Hk Hw.
  assert (classify k = KCounter) as Hc by (destruct Hk as [-> | ->]; autorewrite with classify; done).
  apply well_typed_set; [done|intros; apply Uint64ToBigEndian_length..| |];
    intros ? ->; autorewrite with classify in Hc; discriminate Hc.
Qed.

Lemma well_typed_state a k v s :
  well_typed s -> well_typed (kv_set (GetContractStorePrefixKey a ++ k) v s).
Proof.
  intros Hw. assert (classify (GetContractStorePrefixKey a ++ k) = KState) as Hc by apply classify_state.
  apply well_typed_set; [done| | | |]; intros; exfalso; revert Hc; rewrite H; autorewrite with classify;
    discriminate.
Qed.

Lemma well_typed_code id i s :
  well_typed s -> well_typed (kv_set (GetCodeKey id) (marshal_CodeInfo i) s).
Proof.
  intros Hw. apply well_typed_set; [done| | |intros; rewrite unmarshal_marshal_CodeInfo; by eexists|];
    intros; exfalso; revert H; try intros H; revert H; keys_differ.
Qed.

Lemma well_typed_contract a i s :
  well_typed s -> well_typed (kv_set (GetContractAddressKey a) (marshal_ContractInfo i) s).
Proof.
  intros Hw. apply well_typed_set; [done| | | |intros; rewrite unmarshal_marshal_ContractInfo; by eexists];
    intros; exfalso; revert H; keys_differ.
Qed.

#[export] Instance typedR_preorder : PreOrder typedR.
Proof. split; unfold typedR; [by intros w|]. intros w1 w2 w3. auto. Qed.

#[export] Instance typedR_frame : Frame typedR.
Proof.
  split; unfold typedR; simpl; [apply _|..]; [|done|done|].
  - intros w w' (-> & _). done.
  - intros. by apply well_typed_state.
Qed.

Lemma typedR_Create creator code src bld : sound typedR (Create creator code src bld).
Proof.
  apply sound_intro. intros w r w' H%Create_Ret. intros Hw. destruct r as [id|err].
  - destruct H as (c & h & v & g & _ & _ & _ & _ & _ & _ & ->). simpl.
    apply well_typed_code, well_typed_counter; auto.
  - by destruct H as (_ & (v & ->) & _).
Qed.

Lemma typedR_counted w w1 : counted w w1 -> typedR w w1.
Proof. intros (g & _ & _ & ->) Hw. apply well_typed_counter; auto. Qed.

#[export] Instance typedR_callframe : CallFrame typedR.
Proof.
  apply callframe_record; [apply _|apply typedR_Create|apply typedR_counted|].
  intros a i g w _ Hw. by apply well_typed_contract.
Qed.

(** *** Code records *)

(** A step that neither touches a code record nor the counter of codes. *)
Lemma codesR_same w w' :
  gasR w w' ->
  (forall k, classify k = KCode \/ k = KeyLastCodeID -> kv_get k (w_store w') = kv_get k (w_store w)) ->
  codesR w w'.
Proof.
  intros Hg Hk. split; [done|]. intros (Hd & Hf & Hr). destruct Hg as (Hl & Hc & Hfin).
  assert (Hn : next_id KeyLastCodeID (w_store w') = next_id KeyLastCodeID (w_store w))
    by (unfold next_id; rewrite Hk by auto; done).
  assert (Hcode : forall id, kv_get (GetCodeKey id) (w_store w') = kv_get (GetCodeKey id) (w_store w))
    by (intros; apply Hk; left; apply classify_code).
  unfold code_room, codes_dense in *. rewrite Hn. split; [|split; [lia|intros; apply Hcode]].
  split; [|split; [by apply Hfin|lia]].
  split; [tauto|]. intros id Hi. rewrite Hcode. by apply Hd.
Qed.

#[export] Instance codesR_preorder : PreOrder codesR.
Proof.
  split.
  - intros w. apply codesR_same; [unfold gasR; simpl; reflexivity|done].
  - intros w1 w2 w3 [G1 C1] [G2 C2]. split; [by transitivity w2|].
    intros H1. destruct (C1 H1) as (H2 & N1 & K1), (C2 H2) as (H3 & N2 & K2).
    split; [done|]. split; [lia|]. intros id Hi Hs. rewrite K2; [auto|done|]. by rewrite K1.
Qed.

#[export] Instance codesR_frame : Frame codesR.
Proof.
  split; [apply _|..].
  - intros w w' Hw. apply codesR_same; [by apply frame_sdk|]. destruct Hw as (Hs & _). by rewrite Hs.
  - intros. apply codesR_same; [unfold gasR; simpl; reflexivity|done].
  - intros. apply codesR_same; [unfold gasR; simpl; reflexivity|done].
  - intros. apply codesR_same; [unfold gasR; simpl; reflexivity|]. intros k' Hk. simpl. apply kv_get_set_ne.
    destruct Hk as [Hk| ->]; [apply classify_ne; rewrite Hk|]; keys_differ || done.
Qed.

(** An upload costs gas, and moves the counter by one. *)
Lemma codesR_Create creator code src bld : sound codesR (Create creator code src bld).
Proof.
  apply sound_intro. intros w r w' H.
  pose proof (sound_Ret _ _ _ _ _ (gasR_Create creator code src bld) H) as HgR.
  pose proof (Create_Ret _ _ _ _ _ _ _ H) as Hr. destruct r as [id|err].
  2: { destruct Hr as (_ & (v & ->) & _). by apply codesR_same. }
  split; [done|]. intros (Hd & Hf & Hroom).
  destruct Hr as (c & h & v & g & _ & _ & Hid & _ & Hg & Hlt & Hw').
  pose proof (gm_finite_le _ Hf) as Hle.
  destruct (Create_dense creator code src bld w id w' Hd ltac:(lia) H) as [Hd' Hk].
  subst w'. assert (Hn : next_id KeyLastCodeID (kv_set (GetCodeKey id)
      (marshal_CodeInfo (NewCodeInfo h creator src bld))
      (kv_set KeyLastCodeID (Uint64ToBigEndian (u64 (id + 1))) (w_store w))) = id + 1).
  { rewrite next_id_set_ne by keys_differ. rewrite next_id_set by apply u64_range.
    apply u64_small. unfold is_u64. destruct Hd. lia. }
  simpl in *. destruct Hg as (Hl & Hc & Hfin). destruct (Hfin Hf) as [Hf' _].
  split; [|split; [rewrite Hn; lia|done]].
  split; [done|]. split; [done|]. simpl. rewrite Hn. lia.
Qed.

Lemma codesR_counted w w1 : counted w w1 -> codesR w w1.
Proof.
  intros (g & Hg & _ & ->). apply codesR_same; [exact Hg|]. intros k Hk. simpl. apply kv_get_set_ne.
  destruct Hk as [Hk| ->]; [apply classify_ne; rewrite Hk; autorewrite with classify; done|keys_differ].
Qed.

#[export] Instance codesR_callframe : CallFrame codesR.
Proof.
  apply callframe_record; [apply _|apply codesR_Create|apply codesR_counted|].
  intros a i g w Hg. apply codesR_same; [exact Hg|]. intros k Hk. simpl. apply kv_get_set_ne.
  destruct Hk as [Hk| ->]; [apply classify_ne; rewrite Hk; autorewrite with classify; done|keys_differ].
Qed.

End Instances.

(** ** Properties *)

(** *** Contracts that have no record yet *)

Section Absent.
Context {E : Env}.

(** What a call of an address without a record amounts to: the lookup is paid
    for, and refused. *)
Definition refused (a : bytes) : M world (result error Result) :=
  let! _ := store_Get (GetContractAddressKey a) in
  gret (Err (Wrap ErrNotFound "contract")).

(** The calls of [entry n], in which at every level every call of [a] is refused. *)
Fixpoint entry_without (a : bytes) (n : nat) : Entry :=
  match n with
  | O => bottom
  | S n =>
      let e := entry_without a n in
      {| e_Instantiate := Instantiate e;
         e_Execute := fun ctx b caller msg cs =>
           if decide (b = a) then refused a else Execute e ctx b caller msg cs |}
  end.

(** An account that is no contract. *)
Definition no_record (a : bytes) (w : world) : Prop :=
  is_Some (account_at (w_sdk w) a) /\ kv_get (GetContractAddressKey a) (w_store w) = None.

(** The same behaviour in every state in which [a] is no contract. *)
Definition same_without {A} (a : bytes) (m m' : M world A) : Prop :=
  forall w, no_record a w -> m w = m' w.

Definition same_entry (a : bytes) (e e' : Entry) : Prop :=
  (forall ctx id creator msg cs,
     same_without a (e_Instantiate e ctx id creator msg cs) (e_Instantiate e' ctx id creator msg cs)) /\
  (forall ctx b caller msg cs,
     same_without a (e_Execute e ctx b caller msg cs) (e_Execute e' ctx b caller msg cs)).

End Absent.

Section AbsentLemmas.
Context {E : Env} {L : EnvLaws E}.

Lemma no_record_kept a w w' : contractsR w w' -> no_record a w -> no_record a w'.
Proof. intros [Hk _] [Ha Hr]. destruct (Hk a Ha) as [Ha' E']. split; [done|congruence]. Qed.

Lemma gbind_cong {A B} (m : M world A) (f f' : A -> M world B) w :
  (forall x w', m w = Ret x w' -> f x w' = f' x w') -> gbind m f w = gbind m f' w.
Proof. unfold gbind. destruct (m w); auto. Qed.

Lemma same_refl {A} a (m : M world A) : same_without a m m.
Proof. by intros w. Qed.

Lemma same_gbind {A B} a (m m' : M world A) (f f' : A -> M world B) :
  same_without a m m' -> sound contractsR m -> (forall x, same_without a (f x) (f' x)) ->
  same_without a (gbind m f) (gbind m' f').
Proof.
  intros Hm Hs Hf w Hw. transitivity (gbind m f' w).
  - apply gbind_cong. intros x w' Hx. apply Hf. eapply no_record_kept; [|exact Hw]. exact (sound_Ret _ _ _ _ _ Hs Hx).
  - unfold gbind. by rewrite (Hm w Hw).
Qed.

Lemma same_for_range {A B} a (l : list A) (f f' : A -> M world (option B)) :
  (forall x, same_without a (f x) (f' x)) -> (forall x, sound contractsR (f x)) ->
  same_without a (for_range l f) (for_range l f').
Proof.
  intros Hf Hs. induction l as [|x l IH]; [apply same_refl|]. simpl.
  apply same_gbind; [done|done|]. intros [e|]; [apply same_refl|exact IH].
Qed.

End AbsentLemmas.

Ltac same_step :=
  match goal with
  | |- same_without _ ?m ?m => apply same_refl
  | |- forall _, _ => intro
  | |- same_without _ (gbind _ _) (gbind _ _) => apply same_gbind
  | |- same_without _ (match ?x with _ => _ end) _ => destruct x
  | |- sound _ _ => solve_sound
  end.
Ltac solve_same := repeat first [solve [auto] | same_step].

Section SameEntry.
Context {E : Env} {L : EnvLaws E} (a : bytes) (e e' : Entry).
Context (He : same_entry a e e') (Hs : sound_entry contractsR e).

Lemma same_NewHandler ctx m : same_without a (NewHandler e ctx m) (NewHandler e' ctx m).
Proof.
  destruct He as [HI HX], Hs as [SI SX]. pose proof contractsR_Create.
  unfold NewHandler, handleStoreCode, handleInstantiate, handleExecute. solve_same.
Qed.

Lemma same_handleSdkMessage ctx b m :
  same_without a (handleSdkMessage e ctx b m) (handleSdkMessage e' ctx b m).
Proof.
  unfold handleSdkMessage, router_Route. destruct m as [m|]; [|apply same_refl].
  destruct (negb _); [apply same_refl|]. case_bool_decide; [|apply same_refl].
  apply same_gbind; [apply same_NewHandler|exact (sound_NewHandler contractsR e ctx m Hs)|]. intros. apply same_refl.
Qed.

Lemma same_dispatchMessages ctx acct msgs :
  same_without a (dispatchMessages e ctx acct msgs) (dispatchMessages e' ctx acct msgs).
Proof.
  assert (Hsend : forall b o t ts, same_without a (sendTokens e ctx b o t ts) (sendTokens e' ctx b o t ts)).
  { intros. unfold sendTokens. destruct ts; [apply same_refl|].
    destruct (convertCosmosSendMsg _ _ _); [apply same_handleSdkMessage|apply same_refl]. }
  pose proof (fun b o t ts => sound_sendTokens contractsR e ctx b o t ts Hs) as Ssend.
  pose proof (fun b m => same_handleSdkMessage ctx b m).
  apply same_for_range; intros m; [|exact (sound_dispatchMessage contractsR e ctx acct m Hs)].
  pose proof (fun b m => sound_handleSdkMessage contractsR e ctx b m Hs).
  destruct He as [HI HX], Hs as [SI SX]. unfold dispatchMessage. solve_same.
Qed.

Lemma same_Instantiate ctx id creator msg cs :
  same_without a (Instantiate e ctx id creator msg cs) (Instantiate e' ctx id creator msg cs).
Proof.
  pose proof same_dispatchMessages. pose proof (fun ctx acct ms => sound_dispatchMessages contractsR e ctx acct ms Hs).
  assert (Hgen : sound contractsR (generateContractAddress id)).
  { apply sound_intro. intros w r w' (_ & g & Hg & _ & ->)%generateContractAddress_Ret.
    apply contractsR_same; [|done]. intros b. simpl. apply kv_get_set_ne. keys_differ. }
  unfold Instantiate. solve_same.
Qed.

Lemma same_Execute ctx b caller msg cs :
  same_without a (Execute e ctx b caller msg cs) (Execute e' ctx b caller msg cs).
Proof.
  pose proof same_dispatchMessages. pose proof (fun ctx acct ms => sound_dispatchMessages contractsR e ctx acct ms Hs).
  intros w Hw. unfold Execute. apply gbind_cong. intros [[ci p]|err] w1 Hi; [|done].
  apply contractInstance_Ret in Hi as (Hg & _ & i & _ & _ & ->).
  pose proof (no_record_kept a _ _ (frame_gas contractsR _ _ Hg) Hw) as Hw1.
  revert Hw1. clear Hg. revert w1.
  match goal with |- forall w1, _ -> ?m w1 = ?m' w1 => change (same_without a m m') end. solve_same.
Qed.

End SameEntry.

Section WhileInstantiating.
Context {E : Env} {L : EnvLaws E}.

Lemma same_refused a e ctx caller msg cs : same_without a (Execute e ctx a caller msg cs) (refused a).
Proof.
  intros w [_ Hw]. unfold Execute, contractInstance, refused, gbind.
  destruct (store_Get (GetContractAddressKey a) w) as [v w'|p|] eqn:Hget; [|done..].
  apply store_Get_Ret in Hget as (-> & _). by rewrite Hw.
Qed.

Lemma same_entry_without a n : same_entry a (entry n) (entry_without a n).
Proof.
  induction n as [|n IH]; [by split|]. pose proof (entry_sound contractsR n) as Hs. split; simpl; intros.
  - by apply same_Instantiate.
  - case_decide as Hb; [subst b; apply same_refused|by apply same_Execute].
Qed.

End WhileInstantiating.

Section InvariantProperties.
Context {E : Env} {L : EnvLaws E}.

(** C1: contracts are for ever. Starting from a state in which contract records
    belong to accounts, whatever a message does, through any nesting of contract
    calls, every contract record is still there and unchanged, and records still
    belong to accounts. *)
Theorem contracts_are_forever n ctx m w res w' :
  contracts_have_accounts w -> NewHandler (entry n) ctx m w = Ret res w' ->
  contracts_have_accounts w' /\
  forall a bz, kv_get (GetContractAddressKey a) (w_store w) = Some bz ->
    kv_get (GetContractAddressKey a) (w_store w') = Some bz.
Proof.
  intros Hw H. apply (sound_Ret contractsR) in H as [Hk Hc];
    [|exact (sound_NewHandler contractsR _ ctx m (entry_sound contractsR n))].
  split; [auto|]. intros a bz Ha. destruct (Hk a) as [_ ->]; [apply Hw; by eexists|done].
Qed.

(** C17: a contract cannot be called while it is being instantiated. An
    instantiation, with everything that the new contract's messages and the
    contracts they reach do, runs exactly as if every call of the new contract's
    address, at every level of nesting, were refused with [ErrNotFound] after the
    lookup of its record: the address has an account from the transfer on, so that
    no nested instantiation can take it, and its record is written last. *)
Theorem no_call_while_instantiating n ctx id creator msg cs w :
  contracts_have_accounts w ->
  Instantiate (entry n) ctx id creator msg cs w
  = Instantiate (entry_without (new_address id w) n) ctx id creator msg cs w.
Proof.
  intros Hw. set (a := new_address id w). unfold Instantiate. apply gbind_cong.
  intros a' w1 (-> & g & _ & _ & ->)%generateContractAddress_Ret. fold (new_address id w). fold a.
  apply gbind_cong. intros acct w2 [-> Hg]%GetAccount_spec.
  destruct (account_at _ a) as [acct|] eqn:Hno; [done|]. simpl in Hno.
  assert (Hrec : kv_get (GetContractAddressKey a) (w_store w) = None).
  { destruct (kv_get (GetContractAddressKey a) (w_store w)) eqn:Ek; [|done].
    destruct (Hw a) as [acct Hacct]; [by rewrite Ek|congruence]. }
  apply gbind_cong. intros [err|] w3 Hs; [done|]. pose proof (SendCoins_account _ _ _ _ _ _ Hs) as [acct Ha].
  apply SendCoins_step in Hs as (Hst & _).
  apply gbind_cong. intros acct' w4 [-> (g4 & -> & _)]%GetAccount_spec. rewrite Ha.
  assert (Hw4 : no_record a (set_gas g4 w3)).
  { split; [by exists acct|]. simpl. rewrite Hst. destruct Hg as (g2 & -> & _). simpl.
    rewrite kv_get_set_ne by keys_differ. exact Hrec. }
  pose proof (same_dispatchMessages a _ _ (same_entry_without a n) (entry_sound contractsR n)).
  pose proof (fun ctx acct ms => sound_dispatchMessages contractsR _ ctx acct ms (entry_sound contractsR n)).
  match goal with |- ?m ?v = ?m' ?v => apply (fun H : same_without a m m' => H v Hw4) end. solve_same.
Qed.

(** C20: every record keeps the form its readers expect: on a well-formed store no
    message leaves a code record or a contract record that does not decode, or a
    counter that is not eight bytes long. *)
Theorem records_stay_well_typed n ctx m w res w' :
  well_typed (w_store w) -> NewHandler (entry n) ctx m w = Ret res w' -> well_typed (w_store w').
Proof.
  intros Hw H. eapply (sound_Ret typedR); [|exact H|exact Hw].
  exact (sound_NewHandler typedR _ ctx m (entry_sound typedR n)).
Qed.

(** C2: uploaded code is immutable. The ids in use stay exactly those from 1 up
    to the counter, the counter only grows, and no message changes the record of
    an id in use: new ids are paid for with gas, so within one meter the counter
    cannot wrap around to an old id. *)
Theorem code_is_immutable n ctx m w res w' :
  codes_dense (w_store w) -> gm_finite (w_gas w) ->
  next_id KeyLastCodeID (w_store w) + (gm_Limit (w_gas w) - gm_GasConsumed (w_gas w)) < two64 - 1 ->
  NewHandler (entry n) ctx m w = Ret res w' ->
  codes_dense (w_store w') /\
  next_id KeyLastCodeID (w_store w) <= next_id KeyLastCodeID (w_store w') /\
  forall id, 1 <= id < next_id KeyLastCodeID (w_store w) ->
    code_at (w_store w') id = code_at (w_store w) id.
Proof.
  intros Hd Hf Hr H. apply (sound_Ret codesR) in H as [_ Hk];
    [|exact (sound_NewHandler codesR _ ctx m (entry_sound codesR n))].
  destruct Hk as ((Hd' & _ & _) & Hn & Hcode); [done|].
  split; [done|]. split; [done|]. intros id Hi.
  pose proof (gm_finite_le _ Hf). assert (is_u64 id) by (unfold is_u64; lia).
  unfold code_at. rewrite Hcode; [done|done|]. by apply Hd.
Qed.

End InvariantProperties.

(** ** Witnesses *)

#[local] Existing Instances demo_scripts RefEnv RefEnvLaws.

Definition demo_handled : world := final (NewHandler (entry 4) ref_ctx call_msg) demo_ready.

(** The demo chain reached its state by an upload and an instantiation. *)
Lemma demo_ready_related (R : world -> world -> Prop) `{!CallFrame R} : R demo_empty demo_ready.
Proof.
  transitivity demo_uploaded.
  - refine (sound_Ret R (Create alice demo_code "" "") _ _ _ (callframe_Create _ _ _ _) _). by_run.
  - refine (sound_Ret R (Instantiate (entry 3) ref_ctx 1 alice (bytes_of_string "init") (gold 100))
      _ _ _ (callframe_Instantiate _ _ _ _ _ _ (entry_sound R 3)) _). by_run.
Qed.

Lemma demo_empty_get k : kv_get k (w_store demo_empty) = None.
Proof. exact (lookup_empty k). Qed.

Lemma contracts_are_forever_witness :
  contracts_have_accounts demo_ready /\ contracts_have_accounts demo_handled /\
  contract_at (w_store demo_handled) demo_contract = Some (NewContractInfo 1 alice "init").
Proof.
  assert (Hr : contracts_have_accounts demo_ready).
  { apply (demo_ready_related contractsR). intros a Ha. rewrite demo_empty_get in Ha. by destruct Ha. }
  split; [exact Hr|].
  destruct (contracts_are_forever 4 ref_ctx call_msg demo_ready _ demo_handled Hr ltac:(by_run)) as [H1 H2].
  split; [exact H1|].
  unfold contract_at. rewrite (H2 demo_contract _ ltac:(vm_compute; reflexivity)).
  vm_compute. reflexivity.
Defined.

(** A contract that calls itself in its first message. *)
Definition self_calling (e : Entry) : M world (bytes * option error) :=
  Instantiate e ref_ctx 1 alice (bytes_of_string "self") (gold 100).

Lemma no_call_while_instantiating_witness :
  self_calling (entry 3) demo_uploaded = self_calling (entry_without demo_contract 3) demo_uploaded /\
  returned (self_calling (entry 3) demo_uploaded) = Some ([], Some (Wrap ErrNotFound "contract")).
Proof.
  split; [|vm_compute; reflexivity].
  refine (no_call_while_instantiating 3 ref_ctx 1 alice (bytes_of_string "self") (gold 100) demo_uploaded _).
  assert (Hr : contractsR demo_empty demo_uploaded).
  { refine (sound_Ret contractsR (Create alice demo_code "" "") _ _ _ (callframe_Create _ _ _ _) _). by_run. }
  apply Hr. intros a Ha. rewrite demo_empty_get in Ha. by destruct Ha.
Defined.

Lemma demo_empty_well_typed : well_typed (w_store demo_empty).
Proof. by split; intros *; rewrite demo_empty_get. Qed.

Lemma records_stay_well_typed_witness :
  well_typed (w_store demo_ready) /\ well_typed (w_store demo_handled).
Proof.
  assert (Hr : well_typed (w_store demo_ready))
    by exact (demo_ready_related typedR demo_empty_well_typed).
  split; [exact Hr|].
  exact (records_stay_well_typed 4 ref_ctx call_msg demo_ready _ demo_handled Hr ltac:(by_run)).
Defined.

Lemma demo_empty_room : code_room demo_empty.
Proof.
  split; [|split; [split; [done|]; vm_compute; discriminate|vm_compute; done]].
  split; [vm_compute; discriminate|]. intros id _. rewrite demo_empty_get. split; [by intros []|].
  change (next_id KeyLastCodeID (w_store demo_empty)) with 1. lia.
Qed.

Lemma code_is_immutable_witness :
  next_id KeyLastCodeID (w_store demo_ready) = 2 /\
  code_at (w_store demo_handled) 1 = Some (NewCodeInfo demo_code alice "" "").
Proof.
  split; [vm_compute; reflexivity|].
  destruct (demo_ready_related codesR) as [_ Hroom].
  destruct (Hroom demo_empty_room) as ((Hd & Hf & Hr) & _).
  destruct (code_is_immutable 4 ref_ctx call_msg demo_ready _ demo_handled Hd Hf Hr ltac:(by_run))
    as (_ & _ & Hk).
  rewrite Hk; [vm_compute; reflexivity|].
  replace (next_id KeyLastCodeID (w_store demo_ready)) with 2 by (vm_compute; reflexivity). lia.
Defined.
