(* ===== verification/Safety.v ===== *)
(** * What can panic

    On a state with well-formed records in which contracts have accounts, a
    message of the module, with everything that contracts do in its course, panics
    for three reasons only: gas, a contract's message with nothing in it, and a
    panic inside another module. Index errors, missing accounts and records that
    do not decode are excluded. *)

From S2P Require Import Prelude GoStd Base64 SdkTypes Types Sdk Ref Gas.
From S2P Require Import Store Code Keeper Demo Runs Nesting Invariants.

(** ** Relations together *)

Section Conjunction.
Context {E : Env} (R R' : world -> world -> Prop).

Definition bothR (w w' : world) : Prop := R w w' /\ R' w w'.

Lemma sound_both {A} (m : M world A) : sound R m -> sound R' m -> sound bothR m.
Proof. intros H H' w. apply wp_conj; [apply H|apply H']. Qed.

Lemma sound_entry_both e : sound_entry bothR e -> sound_entry R e /\ sound_entry R' e.
Proof.
  intros [HI HX]. split; split; intros; (eapply sound_mono; [|apply HI || apply HX]); by intros ?? [].
Qed.

#[export] Instance bothR_preorder `{!PreOrder R, !PreOrder R'} : PreOrder bothR.
Proof.
  split; [by intros w; split|]. intros w1 w2 w3 [H1 H1'] [H2 H2'].
  split; [by transitivity w2|by transitivity w2].
Qed.

#[export] Instance bothR_frame `{!Frame R, !Frame R'} : Frame bothR.
Proof.
  split; [apply _|..]; intros; split;
    solve [by apply frame_sdk | by eapply frame_vm | apply frame_events | apply frame_state].
Qed.

#[export] Instance bothR_callframe `{!CallFrame R, !CallFrame R'} : CallFrame bothR.
Proof.
  split; [apply _|..].
  - intros. apply sound_both; apply callframe_Create.
  - intros e ctx id creator msg cs [He He']%sound_entry_both.
    apply sound_both; by apply callframe_Instantiate.
Qed.

End Conjunction.

(** ** Panics that are allowed *)

Section Safety.
Context {E : Env}.

(** Raised by an operation of another module. *)
Inductive foreign_panic (p : panic) : Prop :=
  | foreign_account ctx a w : GetAccount ctx a w = Panic p -> foreign_panic p
  | foreign_send ctx a b cs w : SendCoins ctx a b cs w = Panic p -> foreign_panic p
  | foreign_handler r h ctx m w : other_handler r = Some h -> h ctx m w = Panic p -> foreign_panic p.

(** A message of a contract with no variant set, or the opaque message [null]. *)
Definition contract_panic (p : panic) : Prop := p = PanicMsg "Unknown CosmosMsg" \/ p = PanicNilMsg.

Definition allowed_panic (p : panic) : Prop := gas_panic p \/ contract_panic p \/ foreign_panic p.

Definition safe {A} (w : world) (m : M world A) : Prop := forall p, m w = Panic p -> allowed_panic p.

(** What the calls rely on, and what every step keeps. *)
Definition callable (w : world) : Prop := well_typed (w_store w) /\ contracts_have_accounts w.

Definition callR : world -> world -> Prop := bothR typedR contractsR.

Definition safe_entry (e : Entry) : Prop :=
  (forall ctx id creator msg cs w, callable w -> safe w (e_Instantiate e ctx id creator msg cs)) /\
  (forall ctx a caller msg cs w, callable w -> safe w (e_Execute e ctx a caller msg cs)).

End Safety.

(** ** Lemmas *)

Section SafetyLemmas.
Context {E : Env} {L : EnvLaws E}.

#[export] Instance callR_callframe : CallFrame callR.
Proof. unfold callR. apply _. Qed.

(** The step keeps what calls rely on, by the lemma given. *)
Ltac keeps l := apply l; first [exact callR_callframe | apply callframe_frame | done].

Lemma callable_next w w' : callR w w' -> callable w -> callable w'.
Proof. intros [HT [_ HC]] [H1 H2]. split; auto. Qed.

Lemma safe_gret {A} (a : A) w : safe w (gret a).
Proof. by intros p. Qed.

Lemma safe_ogp {A} (m : M world A) w : only_gas_panics w m -> safe w m.
Proof. intros H p Hp. left. by apply H. Qed.

Lemma safe_returns {A} (m : M world A) w a w' : m w = Ret a w' -> safe w m.
Proof. intros H p. by rewrite H. Qed.

Lemma safe_bind {A B} (m : M world A) (f : A -> M world B) w :
  safe w m -> (forall a w', m w = Ret a w' -> safe w' (f a)) -> safe w (gbind m f).
Proof.
  intros Hm Hf p. unfold gbind. destruct (m w) as [a w'|q|] eqn:Em; [|intros [= ->]; by apply Hm|done].
  by apply Hf.
Qed.

(** A step that keeps what calls rely on. *)
Lemma safe_step {A B} (m : M world A) (f : A -> M world B) w :
  callable w -> sound callR m -> safe w m ->
  (forall a w', m w = Ret a w' -> callR w w' -> callable w' -> safe w' (f a)) -> safe w (gbind m f).
Proof.
  intros Hw Hs Hm Hf. apply safe_bind; [done|]. intros a w' Em.
  pose proof (sound_Ret _ _ _ _ _ Hs Em) as HR. apply Hf; [done|done|]. by eapply callable_next.
Qed.

Lemma safe_GetAccount ctx a w : safe w (GetAccount ctx a).
Proof. intros p H. right. right. by eapply foreign_account. Qed.

Lemma safe_SendCoins ctx a b cs w : safe w (SendCoins ctx a b cs).
Proof. intros p H. right. right. by eapply foreign_send. Qed.

Lemma ogp_run_host {A} pre api (p : host_prog A) w : only_gas_panics w (run_host pre api p).
Proof.
  revert w. induction p; intros w; simpl; auto using ogp_gret.
  - apply ogp_gbind; [apply ogp_store_Get|auto].
  - apply ogp_gbind; [apply ogp_store_Set|auto].
Qed.

Lemma ogp_consumeGas n w : only_gas_panics w (consumeGas n).
Proof.
  intros p H. unfold consumeGas, pay in H. destruct (gm_ConsumeGas _ _ (w_gas w)) eqn:Ec; [done|].
  injection H as <-. exists (w_gas w). do 3 right. eauto.
Qed.

Lemma safe_call_vm {A} pre (prog : vm -> host_prog A) w : safe w (call_vm pre prog).
Proof. apply safe_bind; [by intros p|]. intros v w' _. apply safe_ogp, ogp_run_host. Qed.

Lemma safe_consumeGas n w : safe w (consumeGas n).
Proof. apply safe_ogp, ogp_consumeGas. Qed.

Lemma safe_NewParams ctx c d acct w : safe w (NewParams ctx c d (Some acct)).
Proof. by intros p. Qed.

Lemma safe_autoIncrementID k w :
  k = KeyLastCodeID \/ k = KeyLastInstanceID -> callable w -> safe w (autoIncrementID k).
Proof.
  intros Hk [Hw _]. apply safe_ogp, ogp_autoIncrementID. intros b Hb.
  destruct Hk as [-> | ->]; [by apply (wt_code_counter _ Hw)|by apply (wt_instance_counter _ Hw)].
Qed.

Lemma safe_Create creator code src bld w : callable w -> safe w (Create creator code src bld).
Proof.
  intros Hw. unfold Create. destruct (uncompress code) as [c [err|]]; [by intros p|].
  apply safe_bind; [intros p; unfold compile; by destruct (wasmer_Create c (w_vm w))|].
  intros r w' (v & _ & ->)%compile_Ret. destruct r as [h|err]; [|apply safe_gret].
  apply safe_bind; [apply safe_autoIncrementID; auto|]. intros id w1 _.
  apply safe_bind; [apply safe_ogp, ogp_store_Set|]. intros. apply safe_gret.
Qed.

Section WithEntry.
Context (e : Entry) (He : safe_entry e) (HeR : sound_entry callR e).

(** Emitting the event and the result, after a call of the keeper. *)
Lemma safe_emit {A} ev (f : list Event -> M world A) w :
  (forall es w', safe w' (f es)) -> safe w (do! EmitEvent ev in let! events := gget w_events in f events).
Proof. intros Hf. apply safe_bind; [by intros p|]. intros. apply safe_bind; [by intros p|]. auto. Qed.

Lemma safe_NewHandler ctx m w : callable w -> safe w (NewHandler e ctx m).
Proof.
  intros Hw. destruct He as [HI HX]. unfold NewHandler.
  apply safe_bind; [by intros p|]. intros outer w0 [= _ <-].
  apply safe_bind; [by intros p|]. intros [] w0 [= <-].
  assert (Hw' : callable (set_events [] w)) by exact Hw. revert Hw'. generalize (set_events [] w).
  clear w Hw. intros w Hw.
  apply safe_bind; [|intros; apply safe_bind; [by intros p|intros; apply safe_gret]].
  destruct m as [ptr [m|m|m]|m|m]; try apply safe_gret.
  - unfold handleStoreCode. destruct (MsgStoreCode_ValidateBasic m); [apply safe_gret|].
    apply safe_bind; [by apply safe_Create|]. intros [id|err] w1 _; [|apply safe_gret].
    apply safe_emit. intros. apply safe_gret.
  - unfold handleInstantiate. apply safe_bind; [by apply HI|]. intros [a [err|]] w1 _; [apply safe_gret|].
    apply safe_emit. intros. apply safe_gret.
  - unfold handleExecute. apply safe_bind; [by apply HX|]. intros [res|err] w1 _; [|apply safe_gret].
    apply safe_emit. intros. apply safe_gret.
Qed.

Lemma safe_handleSdkMessage ctx a m w : callable w -> safe w (handleSdkMessage e ctx a m).
Proof.
  intros Hw. unfold handleSdkMessage. destruct m as [m|]; [|intros p [= <-]; right; left; by right].
  destruct (negb _); [apply safe_gret|].
  destruct (router_Route e (msg_Route m)) as [h|] eqn:Er; [|apply safe_gret].
  apply safe_bind; [|intros res w' _; destruct (negb _); apply safe_gret].
  unfold router_Route in Er. case_bool_decide; [injection Er as <-; by apply safe_NewHandler|].
  intros p Hp. right. right. by eapply foreign_handler.
Qed.

Lemma safe_sendTokens ctx s o t ts w : callable w -> safe w (sendTokens e ctx s o t ts).
Proof.
  intros Hw. unfold sendTokens. destruct ts; [apply safe_gret|].
  destruct (convertCosmosSendMsg _ _ _); [by apply safe_handleSdkMessage|apply safe_gret].
Qed.

Lemma safe_dispatchMessage ctx acct m w : callable w -> safe w (dispatchMessage e ctx (Some acct) m).
Proof.
  intros Hw. unfold dispatchMessage. destruct (wasmTypes.MsgSend m); [by apply safe_sendTokens|].
  destruct (wasmTypes.MsgContract m) as [c|].
  - destruct (AccAddressFromBech32 _) as [t|]; [|apply safe_gret].
    apply safe_step; [done|keeps sound_sendTokens|by apply safe_sendTokens|].
    intros [err|] w1 _ _ Hw1; [apply safe_gret|].
    apply safe_bind; [by apply He|]. intros [res|err] w2 _; apply safe_gret.
  - destruct (wasmTypes.MsgOpaque m) as [o|].
    + destruct (ParseOpaqueMsg o); [by apply safe_handleSdkMessage|apply safe_gret].
    + intros p [= <-]. right. left. by left.
Qed.

Lemma safe_dispatchMessages ctx acct ms w : callable w -> safe w (dispatchMessages e ctx (Some acct) ms).
Proof.
  revert w. induction ms as [|m ms IH]; intros w Hw; [apply safe_gret|].
  apply safe_step; [done|keeps sound_dispatchMessage|by apply safe_dispatchMessage|].
  intros [err|] w1 _ _ Hw1; [apply safe_gret|]. by apply IH.
Qed.

Lemma safe_Execute ctx a caller msg cs w : callable w -> safe w (Execute e ctx a caller msg cs).
Proof.
  intros Hw. unfold Execute.
  apply safe_step; [done|keeps sound_contractInstance|by apply safe_ogp, ogp_contractInstance, Hw|].
  intros [[ci pre]|err] w1 Ei HR1 Hw1; [|apply safe_gret].
  assert (Ha : is_Some (account_at (w_sdk w) a)).
  { apply contractInstance_Ret in Ei as (_ & _ & i & Hi & _). apply Hw. unfold contract_at in Hi.
    destruct (kv_get _ _); [by eexists|done]. }
  assert (Hpre : pre = GetContractStorePrefixKey a)
    by (apply contractInstance_Ret in Ei as (_ & _ & i & _ & _ & ->); done).
  subst pre. assert (Ha1 : is_Some (account_at (w_sdk w1) a)) by (destruct HR1 as [_ [HK _]]; by apply HK).
  apply safe_step; [done|keeps sound_SendCoins|apply safe_SendCoins|].
  intros [err|] w2 _ HR2 Hw2; [apply safe_gret|].
  assert (Ha2 : is_Some (account_at (w_sdk w2) a)) by (destruct HR2 as [_ [HK _]]; by apply HK).
  apply safe_step; [done|keeps sound_GetAccount|apply safe_GetAccount|].
  intros acct w3 [-> _]%GetAccount_spec _ Hw3. destruct Ha2 as [acct ->].
  apply safe_step; [done|keeps sound_NewParams|apply safe_NewParams|].
  intros params w4 _ _ Hw4.
  apply safe_step; [done|keeps sound_gasForContract|by eapply safe_returns, gasForContract_Ret|].
  intros gas w5 _ _ Hw5.
  apply safe_step; [done|keeps sound_call_vm|apply safe_call_vm|].
  intros [res|err] w6 _ _ Hw6; [|apply safe_gret].
  apply safe_step; [done|keeps sound_consumeGas|apply safe_consumeGas|]. intros [] w7 _ _ Hw7.
  apply safe_bind; [by apply safe_dispatchMessages|]. intros [err|] w8 _; apply safe_gret.
Qed.

Lemma safe_generateContractAddress id w : callable w -> safe w (generateContractAddress id).
Proof.
  intros Hw. apply safe_bind; [apply safe_autoIncrementID; auto|]. intros n w1 _.
  eapply safe_returns, addrFromUint64_Ret.
Qed.

Lemma callR_generateContractAddress id : sound callR (generateContractAddress id).
Proof.
  apply sound_intro. intros w a w' [_ Hc]%generateContractAddress_Ret.
  split; [by apply typedR_counted|by apply contractsR_counted].
Qed.

Lemma safe_Instantiate ctx id creator msg cs w : callable w -> safe w (Instantiate e ctx id creator msg cs).
Proof.
  intros Hw. unfold Instantiate.
  apply safe_step; [done|apply callR_generateContractAddress|by apply safe_generateContractAddress|].
  intros a w1 _ _ Hw1.
  apply safe_step; [done|keeps sound_GetAccount|apply safe_GetAccount|].
  intros [acct|] w2 _ _ Hw2; [apply safe_gret|].
  apply safe_step; [done|keeps sound_SendCoins|apply safe_SendCoins|].
  intros [err|] w3 Hs _ Hw3; [apply safe_gret|]. apply SendCoins_account in Hs.
  apply safe_step; [done|keeps sound_GetAccount|apply safe_GetAccount|].
  intros acct w4 [-> _]%GetAccount_spec _ Hw4. destruct Hs as [acct ->].
  apply safe_step; [done|keeps sound_store_Get|apply safe_ogp, ogp_store_Get|].
  intros [bz|] w5 Hb _ Hw5; [|apply safe_gret].
  assert (Hbz : is_Some (unmarshal_CodeInfo bz))
    by (apply store_Get_Ret in Hb as [Hb _]; by apply (wt_code _ (proj1 Hw4) id)).
  apply safe_step; [done|keeps sound_must|by apply safe_ogp, ogp_must|]. intros ci w6 _ _ Hw6.
  apply safe_step; [done|keeps sound_NewParams|apply safe_NewParams|]. intros params w7 _ _ Hw7.
  apply safe_step; [done|keeps sound_gasForContract|by eapply safe_returns, gasForContract_Ret|].
  intros gas w8 _ _ Hw8.
  apply safe_step; [done|keeps sound_call_vm|apply safe_call_vm|].
  intros [res|err] w9 _ _ Hw9; [|apply safe_gret].
  apply safe_step; [done|keeps sound_consumeGas|apply safe_consumeGas|]. intros [] w10 _ _ Hw10.
  apply safe_bind; [by apply safe_dispatchMessages|]. intros [err|] w11 _; [apply safe_gret|].
  apply safe_bind; [apply safe_ogp, ogp_store_Set|]. intros. apply safe_gret.
Qed.

End WithEntry.

Lemma safe_entry_n n : safe_entry (entry n).
Proof.
  induction n as [|n IH]; [by split; intros ** p|].
  split; simpl; intros; [apply safe_Instantiate|apply safe_Execute]; first [done|exact (entry_sound callR n)].
Qed.

End SafetyLemmas.

(** ** The property *)

(** C7: on a chain whose records are well-formed and whose contracts have accounts,
    a store, instantiate or execute message (and any other message that reaches the
    handler), with all that contracts do in its course, panics only for gas, for a
    contract's message with no variant set or the opaque message [null], or inside
    another module: never from an
    index out of range, a missing account or a record that does not decode. *)
Theorem message_panics {E : Env} {L : EnvLaws E} n ctx m w p :
  well_typed (w_store w) -> contracts_have_accounts w ->
  NewHandler (entry n) ctx m w = Panic p ->
  gas_panic p \/ contract_panic p \/ foreign_panic p.
Proof.
  intros H1 H2. assert (Hw : callable w) by done.
  by apply (safe_NewHandler (entry n) (safe_entry_n n)).
Qed.

(** ** Witness *)

#[local] Existing Instances demo_scripts RefEnv RefEnvLaws.

Lemma panicked_Panic {W A} (o : outcome W A) p : panicked o = Some p -> o = Panic p.
Proof. destruct o; [done| |done]. by intros [= ->]. Qed.

(** A contract that calls itself without end runs out of gas. *)
Lemma message_panics_witness :
  panicked (NewHandler (entry 60) ref_ctx loop_msg demo_ready) = Some PanicOutOfGas /\
  (gas_panic PanicOutOfGas \/ contract_panic PanicOutOfGas \/ foreign_panic PanicOutOfGas).
Proof.
  assert (Hp : panicked (NewHandler (entry 60) ref_ctx loop_msg demo_ready) = Some PanicOutOfGas)
    by (vm_compute; reflexivity).
  split; [exact Hp|].
  apply (message_panics 60 ref_ctx loop_msg demo_ready).
  - exact (demo_ready_related typedR demo_empty_well_typed).
  - apply (demo_ready_related contractsR). intros a Ha. rewrite demo_empty_get in Ha. by destruct Ha.
  - exact (panicked_Panic _ _ Hp).
Defined.
