(* ===== verification/Registry.v ===== *)
(** * The module as a registry: an abstract specification

    What the module promises, without its store, gas or re-entrancy: numbered
    code, contracts that name a code, cells of contract state, and a log of what
    happened to them. Every message of the application, whatever contracts do in
    its course, appends events to the log that were allowed when they happened
    ([NewHandler_refines]); properties of the chain follow by induction on logs. *)

From S2P Require Import Prelude GoStd SdkTypes Types Sdk Ref Gas Store Code Keeper Demo Runs Nesting.
From S2P Require Import Invariants.

(** ** The specification *)

Section Spec.
Context {E : Env}.

(** Cells are named by a contract's address and a key, one after the other. *)
Record registry := {
  reg_next_code : Z;
  reg_codes : Z -> option CodeInfo;
  reg_next_instance : Z;
  reg_contracts : bytes -> option ContractInfo;
  reg_cells : bytes -> option bytes }.

Inductive reg_event :=
  | Uploaded (info : CodeInfo)
  | Numbered
  | Registered (instance : Z) (info : ContractInfo)
  | Wrote (a key value : bytes).

(** The address of instance [n] of the code a contract names. *)
Definition reg_address (n : Z) (info : ContractInfo) : bytes :=
  contract_address (contract_id (CodeID info) n).

(** When an event may happen: code gets a fresh id; a contract has an address of
    its own, and its code is there. *)
Definition reg_allowed (ev : reg_event) (r : registry) : Prop :=
  match ev with
  | Uploaded _ => is_u64 (reg_next_code r) /\ reg_codes r (reg_next_code r) = None
  | Numbered | Wrote _ _ _ => True
  | Registered n info =>
      reg_contracts r (reg_address n info) = None /\ is_u64 (CodeID info) /\
      is_Some (reg_codes r (CodeID info))
  end.

Definition reg_apply (ev : reg_event) (r : registry) : registry :=
  match ev with
  | Uploaded info =>
      {| reg_next_code := reg_next_code r + 1;
         reg_codes := fun id => if decide (id = reg_next_code r) then Some info else reg_codes r id;
         reg_next_instance := reg_next_instance r; reg_contracts := reg_contracts r;
         reg_cells := reg_cells r |}
  | Numbered =>
      {| reg_next_code := reg_next_code r; reg_codes := reg_codes r;
         reg_next_instance := u64 (reg_next_instance r + 1);
         reg_contracts := reg_contracts r; reg_cells := reg_cells r |}
  | Registered n info =>
      {| reg_next_code := reg_next_code r; reg_codes := reg_codes r;
         reg_next_instance := reg_next_instance r;
         reg_contracts := fun a =>
           if decide (a = reg_address n info) then Some info else reg_contracts r a;
         reg_cells := reg_cells r |}
  | Wrote a key value =>
      {| reg_next_code := reg_next_code r; reg_codes := reg_codes r;
         reg_next_instance := reg_next_instance r; reg_contracts := reg_contracts r;
         reg_cells := fun c => if decide (c = a ++ key) then Some value else reg_cells r c |}
  end.

(** Registries with the same content; ids are [uint64]. *)
#[export] Instance registry_equiv : Equiv registry := fun r r' =>
  reg_next_code r = reg_next_code r' /\ (forall id, is_u64 id -> reg_codes r id = reg_codes r' id) /\
  reg_next_instance r = reg_next_instance r' /\
  (forall a, reg_contracts r a = reg_contracts r' a) /\ (forall c, reg_cells r c = reg_cells r' c).

Inductive reg_log : list reg_event -> registry -> registry -> Prop :=
  | reg_log_nil r r' : r ≡ r' -> reg_log [] r r'
  | reg_log_cons ev log r r' :
      reg_allowed ev r -> reg_log log (reg_apply ev r) r' -> reg_log (ev :: log) r r'.

(** What a state of the chain holds, as a registry. *)
Definition registry_of (w : world) : registry :=
  {| reg_next_code := next_id KeyLastCodeID (w_store w);
     reg_codes := code_at (w_store w);
     reg_next_instance := next_id KeyLastInstanceID (w_store w);
     reg_contracts := contract_at (w_store w);
     reg_cells := fun c => kv_get (GetContractStorePrefixKey c) (w_store w) |}.

(** Every contract's code is there, and its address is that of an instance of it. *)
Definition reg_sound (r : registry) : Prop :=
  forall a info, reg_contracts r a = Some info ->
    is_u64 (CodeID info) /\ is_Some (reg_codes r (CodeID info)) /\ exists n, a = reg_address n info.

Definition is_upload (ev : reg_event) : bool :=
  match ev with Uploaded _ => true | _ => false end.

Definition uploads (log : list reg_event) : Z := Z.of_nat (length (filter is_upload log)).

End Spec.

(** ** Logs *)

Section Logs.
Context {E : Env}.

#[export] Instance registry_equivalence : Equivalence (≡@{registry}).
Proof.
  split.
  - intros r. by repeat split.
  - intros r r' (H1 & H2 & H3 & H4 & H5). repeat split; try done; intros; symmetry; auto.
  - intros r1 r2 r3 (H1 & H2 & H3 & H4 & H5) (J1 & J2 & J3 & J4 & J5).
    repeat split; try congruence; intros. by rewrite H2, J2.
Qed.

#[export] Instance reg_apply_proper ev : Proper ((≡) ==> (≡)) (reg_apply ev).
Proof.
  intros r r' (H1 & H2 & H3 & H4 & H5).
  destruct ev; repeat split; simpl; intros; rewrite <-?H1; try case_decide; try done;
    try congruence; auto.
Qed.

#[export] Instance reg_allowed_proper ev : Proper ((≡) ==> iff) (reg_allowed ev).
Proof.
  assert (Hone : forall r r', r ≡ r' -> reg_allowed ev r -> reg_allowed ev r').
  { intros r r' (H1 & H2 & H3 & H4 & H5). destruct ev; simpl; try done.
    - rewrite <- H1. intros [Hu Hn]. by rewrite <- H2.
    - rewrite <- H4. intros (Hn & Hu & Hc). by rewrite <- H2. }
  intros r r' Hr. split; by apply Hone.
Qed.

Lemma reg_log_equiv log r0 r r' : r0 ≡ r -> reg_log log r r' -> reg_log log r0 r'.
Proof.
  intros Hr H. revert r0 Hr. induction H as [r r' H|ev log r r' Ha _ IH]; intros r0 Hr.
  - constructor. by rewrite Hr.
  - constructor; [by rewrite Hr|]. apply IH. by rewrite Hr.
Qed.

Lemma reg_log_app log log' r1 r2 r3 :
  reg_log log r1 r2 -> reg_log log' r2 r3 -> reg_log (log ++ log') r1 r3.
Proof.
  induction 1 as [r r' H|ev log r r' Ha _ IH]; intros H'; [by eapply reg_log_equiv|].
  constructor; auto.
Qed.

Lemma reg_log_one ev r r' : reg_allowed ev r -> reg_apply ev r ≡ r' -> reg_log [ev] r r'.
Proof. intros. constructor; [done|]. by constructor. Qed.

(** What is in the registry stays. *)
Lemma reg_log_keeps log r r' :
  reg_log log r r' ->
  (forall id info, is_u64 id -> reg_codes r id = Some info -> reg_codes r' id = Some info) /\
  (forall a info, reg_contracts r a = Some info -> reg_contracts r' a = Some info).
Proof.
  induction 1 as [r r' (_ & H2 & _ & H4 & _)|ev log r r' Ha _ [IHc IHa]].
  - split; intros; [by rewrite <- H2|by rewrite <- H4].
  - split; intros; [apply IHc; [done|]|apply IHa]; destruct ev; simpl in *; try done; case_decide; try done;
      subst; destruct Ha; congruence.
Qed.

Lemma reg_sound_equiv r r' : r ≡ r' -> reg_sound r -> reg_sound r'.
Proof.
  intros (_ & H2 & _ & H4 & _) Hs a info. rewrite <- H4. intros Hi.
  destruct (Hs _ _ Hi) as (Hu & Hc & Hn). by rewrite <- H2.
Qed.

Lemma reg_log_sound log r r' : reg_log log r r' -> reg_sound r -> reg_sound r'.
Proof.
  induction 1 as [r r' H|ev log r r' Ha _ IH]; [by apply reg_sound_equiv|]. intros Hs. apply IH.
  intros a info Hi.
  assert (Hk : forall i, is_u64 i -> is_Some (reg_codes r i) -> is_Some (reg_codes (reg_apply ev r) i)).
  { intros i _ Hi'. destruct ev; simpl; try done. by case_decide. }
  assert (Hr : reg_contracts r a = Some info \/
    exists n, ev = Registered n info /\ a = reg_address n info).
  { destruct ev; simpl in Hi; auto. case_decide; [|by left]. right. injection Hi as <-. eauto. }
  destruct Hr as [Hr|(n & -> & ->)].
  - destruct (Hs _ _ Hr) as (Hu & Hc & Hn). auto.
  - destruct Ha as (_ & Hu & Hc). eauto 6.
Qed.

Lemma reg_log_uploads log r r' :
  reg_log log r r' -> reg_next_code r' = reg_next_code r + uploads log.
Proof.
  induction 1 as [r r' (-> & _)|ev log r r' _ _ IH]; [unfold uploads; simpl; lia|].
  rewrite IH. unfold uploads. rewrite filter_cons. destruct ev; simpl; lia.
Qed.

End Logs.

(** ** The module refines the registry *)

Section Refinement.
Context {E : Env} {L : EnvLaws E}.

Definition registry_ready (w : world) : Prop := contracts_have_accounts w /\ code_room w.

(** The states after respect the invariants, and are explained by a log. *)
Definition registryR (w w' : world) : Prop :=
  contractsR w w' /\ codesR w w' /\
  (registry_ready w -> exists log, reg_log log (registry_of w) (registry_of w')).

Lemma registry_ready_next w w' : registryR w w' -> registry_ready w -> registry_ready w'.
Proof. intros ([_ Hc] & [_ Hd] & _) [H1 H2]. split; [auto|by apply Hd]. Qed.

(** A step that is one event, or none. *)
Lemma registryR_log log w w' :
  contractsR w w' -> codesR w w' ->
  (registry_ready w -> reg_log log (registry_of w) (registry_of w')) -> registryR w w'.
Proof. intros. split; [done|]. split; [done|]. eauto. Qed.

#[export] Instance registryR_preorder : PreOrder registryR.
Proof.
  split.
  - intros w. apply (registryR_log []); [reflexivity..|]. by constructor.
  - intros w1 w2 w3 R1 R2. pose proof (registry_ready_next _ _ R1) as Hn.
    destruct R1 as (A1 & B1 & C1), R2 as (A2 & B2 & C2).
    split; [by transitivity w2|]. split; [by transitivity w2|]. intros Hw.
    destruct (C1 Hw) as [l1 L1], (C2 (Hn Hw)) as [l2 L2]. exists (l1 ++ l2). by eapply reg_log_app.
Qed.

(** Writes at keys that the registry does not read, and writes that it does. *)
Lemma registry_of_write k v w (r := registry_of w) :
  registry_of (set_store (kv_set k v (w_store w)) w) ≡
  {| reg_next_code := if decide (k = KeyLastCodeID) then default 0 (BigEndian.Uint64 v) else reg_next_code r;
     reg_codes := fun id => if decide (k = GetCodeKey id) then unmarshal_CodeInfo v else reg_codes r id;
     reg_next_instance :=
       if decide (k = KeyLastInstanceID) then default 0 (BigEndian.Uint64 v) else reg_next_instance r;
     reg_contracts := fun a =>
       if decide (k = GetContractAddressKey a) then unmarshal_ContractInfo v else reg_contracts r a;
     reg_cells := fun c =>
       if decide (k = GetContractStorePrefixKey c) then Some v else reg_cells r c |}.
Proof.
  repeat split; simpl; intros; unfold next_id, code_at, contract_at; case_decide; subst;
    rewrite ?kv_get_set_eq, ?kv_get_set_ne by done; done.
Qed.

Lemma registry_of_same w w' : w_store w' = w_store w -> registry_of w ≡ registry_of w'.
Proof. unfold registry_of. by intros ->. Qed.

Lemma state_prefix_inj a b : GetContractStorePrefixKey a = GetContractStorePrefixKey b -> a = b.
Proof. by intros [= H]. Qed.

(** Decides which cell a write is for: keys of different kinds differ, keys of one
    kind are those of one thing. *)
Ltac which_key :=
  repeat split; simpl; intros; repeat case_decide; subst; try done;
  try (exfalso; revert select (_ = _); keys_differ);
  repeat match goal with
    | H : GetContractStorePrefixKey _ = GetContractStorePrefixKey _ |- _ =>
        apply state_prefix_inj in H
    | H : GetContractAddressKey _ = GetContractAddressKey _ |- _ =>
        apply GetContractAddressKey_inj in H
    | H : GetCodeKey _ = GetCodeKey _ |- _ => apply GetCodeKey_inj in H; [|done..]
    end; subst; try done.

#[export] Instance registryR_frame : Frame registryR.
Proof.
  split; [apply _|..].
  - intros w w' H. apply (registryR_log []); [by apply frame_sdk..|]. constructor.
    apply registry_of_same. by destruct H.
  - intros c w r v H. apply (registryR_log []); [by eapply frame_vm..|]. constructor. by apply registry_of_same.
  - intros es w. apply (registryR_log []); [by apply frame_events..|]. constructor. by apply registry_of_same.
  - intros a k v w. apply (registryR_log [Wrote a k v]); [by apply frame_state..|]. intros _.
    apply reg_log_one; [done|]. change (GetContractStorePrefixKey a ++ k)
      with (GetContractStorePrefixKey (a ++ k)). rewrite registry_of_write. which_key.
Qed.

Lemma code_room_next w :
  code_room w -> 1 <= next_id KeyLastCodeID (w_store w) < two64 - 1 /\
  code_at (w_store w) (next_id KeyLastCodeID (w_store w)) = None.
Proof.
  intros ([H1 Hd] & Hf & Hr). pose proof (gm_finite_le _ Hf). split; [lia|].
  unfold code_at. destruct (kv_get (GetCodeKey _) (w_store w)) as [b|] eqn:Ek; [|done].
  destruct (Hd (next_id KeyLastCodeID (w_store w))) as [Hs _]; [apply next_id_u64|].
  rewrite Ek in Hs. assert (is_Some (Some b)) as Hb by eauto. apply Hs in Hb. lia.
Qed.

Lemma registryR_Create creator code src bld : sound registryR (Create creator code src bld).
Proof.
  apply sound_intro. intros w r w' H.
  pose proof (sound_Ret _ _ _ _ _ (contractsR_Create creator code src bld) H) as HA.
  pose proof (sound_Ret _ _ _ _ _ (codesR_Create creator code src bld) H) as HB.
  apply Create_Ret in H. destruct r as [id|err].
  - destruct H as (c & h & v & g & _ & _ & -> & Hu & _ & _ & ->).
    apply (registryR_log [Uploaded (NewCodeInfo h creator src bld)]); [done|done|].
    intros [_ Hroom]. destruct (code_room_next _ Hroom) as [Hn Hc]. apply reg_log_one; [done|].
    set (n := next_id KeyLastCodeID (w_store w)) in *.
    change (reg_apply (Uploaded (NewCodeInfo h creator src bld)) (registry_of w) ≡
      registry_of (set_store (kv_set (GetCodeKey n) (marshal_CodeInfo (NewCodeInfo h creator src bld))
        (w_store (set_store (kv_set KeyLastCodeID (Uint64ToBigEndian (u64 (n + 1))) (w_store w)) w)))
        (set_store (kv_set KeyLastCodeID (Uint64ToBigEndian (u64 (n + 1))) (w_store w)) w))).
    rewrite registry_of_write. which_key.
    + rewrite next_id_set by apply u64_range. rewrite u64_small; [done|]. unfold is_u64. lia.
    + by rewrite unmarshal_marshal_CodeInfo.
    + unfold code_at. by rewrite kv_get_set_ne by keys_differ.
    + by rewrite next_id_set_ne by keys_differ.
    + unfold contract_at. by rewrite kv_get_set_ne by keys_differ.
    + by rewrite kv_get_set_ne by keys_differ.
  - destruct H as (_ & (v & ->) & _). apply (registryR_log []); [done|done|].
    constructor. by apply registry_of_same.
Qed.

Lemma contract_id_u64 id n : contract_id (u64 id) n = contract_id id n.
Proof.
  unfold contract_id, u64. rewrite Z.mul_mod_idemp_l by (unfold two64; lia). done.
Qed.

Lemma GetCodeKey_u64 id : GetCodeKey (u64 id) = GetCodeKey id.
Proof. unfold GetCodeKey. by rewrite Uint64ToBigEndian_mod. Qed.

Lemma registryR_counted w w1 : counted w w1 -> registryR w w1.
Proof.
  intros H. apply (registryR_log [Numbered]); [by apply contractsR_counted|by apply codesR_counted|].
  intros _. destruct H as (g & _ & _ & ->). apply reg_log_one; [done|]. set (n := next_id _ (w_store w)).
  change (reg_apply Numbered (registry_of w) ≡
    registry_of (set_store (kv_set KeyLastInstanceID (Uint64ToBigEndian (u64 (n + 1))) (w_store w)) w)).
  rewrite registry_of_write. which_key. by rewrite Uint64ToBigEndian_spec by apply u64_range.
Qed.

#[export] Instance registryR_callframe : CallFrame registryR.
Proof.
  split; [apply _|apply registryR_Create|]. intros e ctx id creator msg cs [HI HX].
  assert (HeA : sound_entry contractsR e)
    by (split; intros; (eapply sound_mono; [|apply HI || apply HX]); by intros ?? []).
  assert (HeB : sound_entry codesR e)
    by (split; intros; (eapply sound_mono; [|apply HI || apply HX]); by intros ?? (_ & ? & _)).
  apply sound_intro. intros w r w' H.
  pose proof (sound_Ret _ _ _ _ _ (callframe_Instantiate (R:=contractsR) e ctx id creator msg cs HeA) H) as HA.
  pose proof (sound_Ret _ _ _ _ _ (callframe_Instantiate (R:=codesR) e ctx id creator msg cs HeB) H) as HB.
  destruct (Instantiate_frame registryR e ctx id creator msg cs w r w' registryR_Create (conj HI HX)
    registryR_counted H) as [HR|(w2 & w6 & Hn & H2 & H6 & Ha & [Hci Hk] & Hset)]; [done|].
  assert (H26 : registryR w w6) by by transitivity w2.
  set (n := next_id KeyLastInstanceID (w_store w)).
  set (info := NewContractInfo (u64 id) creator (string_of_bytes msg)).
  assert (Haddr : new_address id w = reg_address n info)
    by (unfold new_address, reg_address; simpl; by rewrite contract_id_u64).
  rewrite Haddr in *.
  split; [done|]. split; [done|]. intros Hw.
  destruct H26 as (_ & _ & Hlog). destruct (Hlog Hw) as [log Hl]. exists (log ++ [Registered n info]).
  eapply reg_log_app; [exact Hl|]. apply store_Set_Ret in Hset as (g & _ & _ & ->).
  apply reg_log_one.
  - destruct H2 as (_ & [_ H2c] & _), H6 as ([K6 _] & [_ C6] & _), Hw as [Hacc Hroom].
    destruct (H2c Hroom) as (Hroom2 & _). destruct (C6 Hroom2) as (_ & _ & Hcode).
    split; [|split; [apply u64_range|]].
    + simpl. unfold contract_at. destruct (K6 _ Ha) as [_ ->]. rewrite Hk.
      destruct (kv_get _ (w_store w)) as [b|] eqn:Eb; [|done].
      destruct (Hacc (reg_address n info)) as [acct Hs]; [by rewrite Eb|]. congruence.
    + simpl. unfold code_at in *. rewrite <- GetCodeKey_u64 in Hci. rewrite Hcode; [done|apply u64_range|].
      destruct (kv_get (GetCodeKey (u64 id)) (w_store w2)); [by eexists|by destruct Hci].
  - change (reg_apply (Registered n info) (registry_of w6) ≡
      registry_of (set_store (kv_set (GetContractAddressKey (reg_address n info))
        (marshal_ContractInfo (NewContractInfo id creator (string_of_bytes msg))) (w_store w6)) w6)).
    rewrite registry_of_write. which_key. by rewrite unmarshal_marshal_ContractInfo.
Qed.

End Refinement.

(** ** Chains *)

Section Chains.
Context {E : Env} {L : EnvLaws E}.

(** A block of the chain, as far as this module can tell: a message with a meter
    of its own, or anything other modules do. *)
Inductive chain_step : world -> world -> Prop :=
  | chain_message n ctx m limit w res w' :
      is_u64 limit -> next_id KeyLastCodeID (w_store w) + limit < two64 - 1 ->
      NewHandler (entry n) ctx m (set_gas (gm_NewGasMeter limit) w) = Ret res w' ->
      chain_step w w'
  | chain_other w w' : sdk_step w w' -> chain_step w w'.

Record chain_ok (w : world) : Prop := {
  ok_accounts : contracts_have_accounts w;
  ok_codes : codes_dense (w_store w);
  ok_typed : well_typed (w_store w);
  ok_registry : reg_sound (registry_of w) }.

Lemma sound_message (R : world -> world -> Prop) `{!CallFrame R} n ctx m w res w' :
  NewHandler (entry n) ctx m w = Ret res w' -> R w w'.
Proof.
  intros H. exact (sound_Ret R _ _ _ _ (sound_NewHandler R _ ctx m (entry_sound R n)) H).
Qed.

Lemma registryR_sound w w' :
  registryR w w' -> registry_ready w -> reg_sound (registry_of w) -> reg_sound (registry_of w').
Proof. intros (_ & _ & Hl) Hw Hs. destruct (Hl Hw) as [log H]. by eapply reg_log_sound. Qed.

Lemma chain_step_ok w w' : chain_step w w' -> chain_ok w -> chain_ok w'.
Proof.
  intros H [H1 H2 H3 H4]. destruct H as [n ctx m limit w res w' Hl Hroom H|w w' H].
  - assert (Hready : registry_ready (set_gas (gm_NewGasMeter limit) w)).
    { split; [done|]. split; [done|]. simpl.
      destruct (gm_New_limit limit Hl) as (-> & -> & Hf). split; [done|]. lia. }
    pose proof (sound_message registryR _ _ _ _ _ _ H) as HR.
    pose proof (sound_message typedR _ _ _ _ _ _ H) as HT.
    pose proof (registry_ready_next _ _ HR Hready) as [? (? & _)].
    split; [done|done|by apply HT|]. by eapply registryR_sound.
  - destruct H as (Hs & _ & _ & Ha). split; rewrite ?Hs; try done.
    + intros a Hk. rewrite Hs in Hk. auto.
    + eapply reg_sound_equiv; [|done]. by apply registry_of_same.
Qed.

Lemma chain_reachable_ok w0 w : rtc chain_step w0 w -> chain_ok w0 -> chain_ok w.
Proof. induction 1; eauto using chain_step_ok. Qed.

Lemma empty_chain_ok w : (forall k, kv_get k (w_store w) = None) -> chain_ok w.
Proof.
  intros He. split.
  - intros a [b Hb]. by rewrite He in Hb.
  - split; unfold next_id; rewrite He; [done|]. intros id _. rewrite He. split; [by intros []|lia].
  - by split; intros *; rewrite He.
  - intros a info. simpl. unfold contract_at. by rewrite He.
Qed.

(** C3: the module refines the registry of the specification: from a state with
    sound counters and accounts, every message, with everything that contracts do
    in its course, is a log of allowed events, which leads from the registry
    before to the registry after; code records, contract records and the counters
    hold exactly what the log says, and no more. *)
Theorem NewHandler_refines n ctx m w res w' :
  registry_ready w -> NewHandler (entry n) ctx m w = Ret res w' ->
  registry_ready w' /\
  exists log, reg_log log (registry_of w) (registry_of w') /\
    reg_next_code (registry_of w') = reg_next_code (registry_of w) + uploads log.
Proof.
  intros Hw H. pose proof (sound_message registryR _ _ _ _ _ _ H) as HR.
  split; [by eapply registry_ready_next|]. destruct HR as (_ & _ & Hl), (Hl Hw) as [log Hlog].
  exists log. split; [done|]. by apply reg_log_uploads.
Qed.

(** On every chain that starts with an empty module, after any blocks, code
    ids are dense, all records decode, and every contract has an account, an
    address of the right length and the code it names. *)
Theorem reachable_chain_sound w0 w :
  (forall k, kv_get k (w_store w0) = None) -> rtc chain_step w0 w ->
  codes_dense (w_store w) /\ well_typed (w_store w) /\
  forall a info, contract_at (w_store w) a = Some info ->
    is_Some (account_at (w_sdk w) a) /\ length a = AddrLen /\
    is_Some (code_at (w_store w) (CodeID info)).
Proof.
  intros He Hr. destruct (chain_reachable_ok _ _ Hr (empty_chain_ok _ He)) as [H1 H2 H3 H4].
  split; [done|]. split; [done|]. intros a info Hi. destruct (H4 _ _ Hi) as (_ & Hc & n & Ha).
  split; [|split; [rewrite Ha; apply contract_address_length|done]].
  apply H1. unfold contract_at in Hi. destruct (kv_get _ _); [by eexists|done].
Qed.

(** The second lookup of [contractInstance] never fails on such a chain: a
    contract that has a record is found, and its code with it; [ErrNotFound] means
    that there is no contract at the address. *)
Theorem contract_found_with_code w0 w a r w' :
  (forall k, kv_get k (w_store w0) = None) -> rtc chain_step w0 w ->
  contractInstance a w = Ret r w' ->
  match r with
  | Ok (ci, pre) => exists info, contract_at (w_store w) a = Some info /\
      code_at (w_store w) (CodeID info) = Some ci /\ pre = GetContractStorePrefixKey a
  | Err e => root_of e = ErrNotFound /\ kv_get (GetContractAddressKey a) (w_store w) = None
  end.
Proof.
  intros He Hr (_ & _ & H)%contractInstance_Ret. destruct r as [[ci pre]|e]; [done|].
  destruct H as [Hroot H]. split; [done|]. destruct H as [H|(i & Hi & Hk)]; [done|].
  destruct (chain_reachable_ok _ _ Hr (empty_chain_ok _ He)) as [_ _ _ H4].
  destruct (H4 _ _ Hi) as (_ & [c Hc] & _). simpl in Hc. unfold code_at in Hc. by rewrite Hk in Hc.
Qed.

End Chains.

(** ** Witnesses *)

#[local] Existing Instances demo_scripts RefEnv RefEnvLaws.

Lemma demo_empty_ready : registry_ready demo_empty.
Proof.
  split; [|exact demo_empty_room]. intros a Ha. rewrite demo_empty_get in Ha. by destruct Ha.
Qed.

Lemma demo_ready_ready : registry_ready demo_ready.
Proof. exact (registry_ready_next _ _ (demo_ready_related registryR) demo_empty_ready). Qed.

Lemma NewHandler_refines_witness :
  exists log, reg_log log (registry_of demo_ready) (registry_of demo_handled) /\ uploads log = 0.
Proof.
  destruct (NewHandler_refines 4 ref_ctx call_msg demo_ready _ demo_handled demo_ready_ready ltac:(by_run))
    as (_ & log & Hlog & Hn).
  exists log. split; [exact Hlog|].
  assert (H : reg_next_code (registry_of demo_ready) = 2) by (vm_compute; reflexivity).
  assert (H' : reg_next_code (registry_of demo_handled) = 2) by (vm_compute; reflexivity).
  rewrite H, H' in Hn. lia.
Defined.

Definition first_msg : sdk_msg :=
  WasmMsg false (WStoreCode
    {| sc_Sender := alice; sc_WASMByteCode := demo_code; sc_Source := ""; sc_Builder := "" |}).

Definition second_msg : sdk_msg :=
  WasmMsg false (WInstantiate
    {| ic_Sender := alice; ic_Code := 1; ic_InitMsg := bytes_of_string "init"; ic_InitFunds := gold 100 |}).

Definition new_block : world -> world := set_gas (gm_NewGasMeter 200000).

Definition chain_one : world := final (NewHandler (entry 1) ref_ctx first_msg) (new_block demo_empty).
Definition chain_two : world := final (NewHandler (entry 3) ref_ctx second_msg) (new_block chain_one).

Lemma chain_two_reachable : rtc chain_step demo_empty chain_two.
Proof.
  apply rtc_l with chain_one; [|apply rtc_once].
  - eapply (chain_message 1 ref_ctx first_msg 200000); [unfold is_u64, two64; lia|vm_compute; done|by_run].
  - eapply (chain_message 3 ref_ctx second_msg 200000); [unfold is_u64, two64; lia|vm_compute; done|by_run].
Qed.

Lemma reachable_chain_sound_witness :
  length demo_contract = AddrLen /\ is_Some (code_at (w_store chain_two) 1).
Proof.
  destruct (reachable_chain_sound demo_empty chain_two demo_empty_get chain_two_reachable) as (_ & _ & H).
  destruct (H demo_contract (NewContractInfo 1 alice "init") ltac:(vm_compute; reflexivity)) as (_ & Hl & Hc).
  split; [exact Hl|exact Hc].
Defined.

Lemma contract_found_with_code_witness :
  returned (contractInstance demo_contract chain_two) =
    Some (Ok (NewCodeInfo demo_code alice "" "", GetContractStorePrefixKey demo_contract)) /\
  code_at (w_store chain_two) 1 = Some (NewCodeInfo demo_code alice "" "").
Proof.
  destruct (contract_found_with_code demo_empty chain_two demo_contract
    (Ok (NewCodeInfo demo_code alice "" "", GetContractStorePrefixKey demo_contract))
    (final (contractInstance demo_contract) chain_two) demo_empty_get chain_two_reachable
    ltac:(by_run)) as (info & Hi & Hc & _).
  split; [vm_compute; reflexivity|]. revert Hc.
  replace info with (NewContractInfo 1 alice "init"); [done|].
  vm_compute in Hi. by injection Hi.
Defined.
