(* ===== verification/Genesis.v ===== *)
(** * Genesis (genesis.go)

    Import and export of the module's state: what is exported, that importing it
    into an empty store gives back every code, contract and state entry, and what
    is lost on the way. *)

From S2P Require Import Prelude GoStd SdkTypes Types Sdk Ref Gas Store Code Keeper Demo Runs Nesting.
From S2P Require Import Invariants Registry.

Section Genesis.
Context {E : Env}.

(** One turn of the first loop of [InitGenesis]. *)
Definition import_code (code : Types.Code) : M world unit :=
  let! r := Create (code_Creator (code_CodeInfo code)) (CodesBytes code)
              (Source (code_CodeInfo code)) (Builder (code_CodeInfo code)) in
  match r with
  | Err _ => gpanic PanicErr
  | Ok newId =>
      let! newInfo := GetCodeInfo newId in
      match newInfo with
      | None => gpanic PanicNilDeref
      | Some newInfo =>
          if negb (bytes_Equal (CodeHash (code_CodeInfo code)) (CodeHash newInfo))
          then gpanic (PanicMsg "code hashes not same")
          else gret tt
      end
  end.

Definition import_contract (contract : Contract) : M world unit :=
  do! setContractInfo (ContractAddress contract) (contract_Info contract) in
  setContractState (ContractAddress contract) (ContractState contract).

Definition InitGenesis (data : GenesisState) : M world unit :=
  do! for_each (Codes data) import_code in
  for_each (Contracts data) import_contract.

(** The loop [for i := 1; i < maxCodeID; i++] is over the list of ids. *)
Fixpoint export_codes (ids : list Z) (acc : list Types.Code) : M world (list Types.Code) :=
  match ids with
  | [] => gret acc
  | i :: ids =>
      let! r := GetByteCode i in
      match r with
      | Err _ => gpanic PanicErr
      | Ok bytecode =>
          let! info := GetCodeInfo i in
          match info with
          | None => gpanic PanicNilDeref
          | Some info =>
              export_codes ids
                (acc ++ [{| code_CodeInfo := info; CodesBytes := default [] bytecode |}])
          end
      end
  end.

(** The callback given to [ListContractInfo]. *)
Definition export_contract (acc : list Contract) (addr : bytes) (contract : ContractInfo)
    : M world (bool * list Contract) :=
  let! state := GetContractState addr append_model [] in
  gret (false, acc ++ [{| ContractAddress := addr; contract_Info := contract;
                          ContractState := state |}]).

Definition ExportGenesis : M world GenesisState :=
  let! maxCodeID := GetNextCodeID in
  let! codes := export_codes (seqZ 1 (maxCodeID - 1)) [] in
  let! contracts := ListContractInfo export_contract [] in
  gret {| Codes := codes; Contracts := contracts |}.

(** ** What an export holds *)

Definition exported_code (w : world) (id : Z) : Types.Code :=
  let info := default (NewCodeInfo [] [] "" "") (code_at (w_store w) id) in
  {| code_CodeInfo := info;
     CodesBytes := match wasmer_GetCode (CodeHash info) (w_vm w) with Ok c => c | Err _ => [] end |}.

Definition exported_model (kv : bytes * bytes) : Model :=
  {| Key := string_of_bytes kv.1; Value := string_of_bytes kv.2 |}.

Definition exported_contract (s : kv) (r : bytes * bytes) : Contract :=
  {| ContractAddress := r.1;
     contract_Info := default (NewContractInfo 0 [] "") (unmarshal_ContractInfo r.2);
     ContractState := map exported_model (kv_iter (GetContractStorePrefixKey r.1) s) |}.

Definition exported (w : world) : GenesisState :=
  {| Codes := map (exported_code w) (seqZ 1 (next_id KeyLastCodeID (w_store w) - 1));
     Contracts := map (exported_contract (w_store w)) (kv_iter ContractKeyPrefix (w_store w)) |}.

(** The virtual machine has the code of every record, under its hash. *)
Definition code_loaded (info : CodeInfo) (w : world) : Prop :=
  exists code v, wasmer_GetCode (CodeHash info) (w_vm w) = Ok code /\
    fst (wasmer_Create code v) = Ok (CodeHash info).

Definition codes_loaded (w : world) : Prop :=
  forall id info, is_u64 id -> code_at (w_store w) id = Some info -> code_loaded info w.

(** A state that can be exported: its records are well formed, its code ids
    dense, and their code is there. *)
Record readable (w : world) : Prop := {
  rd_typed : well_typed (w_store w);
  rd_dense : codes_dense (w_store w);
  rd_loaded : codes_loaded w }.

(** A state that can be exported and imported: its records are well formed, its
    code ids dense, and the code of every record can be read back, is not an
    archive, and hashes to what the record says. *)
Definition code_readable (w : world) (info : CodeInfo) : Prop :=
  exists code v, wasmer_GetCode (CodeHash info) (w_vm w) = Ok code /\
    uncompress code = (code, None) /\ fst (wasmer_Create code v) = Ok (CodeHash info).

Record exportable (w : world) : Prop := {
  ex_typed : well_typed (w_store w);
  ex_dense : codes_dense (w_store w);
  ex_readable id info : is_u64 id -> code_at (w_store w) id = Some info -> code_readable w info }.

End Genesis.

(** ** Export *)

Section Exporting.
Context {E : Env} {L : EnvLaws E}.

Lemma exportable_readable w : exportable w -> readable w.
Proof.
  intros [H1 H2 H3]. split; [done|done|]. intros id info Hu Hi.
  destruct (H3 _ _ Hu Hi) as (code & v & Hc & _ & Hh). by exists code, v.
Qed.

Lemma readable_code w id :
  readable w -> 1 <= id < next_id KeyLastCodeID (w_store w) ->
  is_u64 id /\ exists info, code_at (w_store w) id = Some info.
Proof.
  intros [Ht [_ Hd] _] Hi.
  assert (Hu : is_u64 id) by (pose proof (next_id_u64 KeyLastCodeID (w_store w)); unfold is_u64 in *; lia).
  split; [done|]. destruct (proj2 (Hd id Hu) Hi) as [bz Hbz].
  destruct (wt_code _ Ht _ _ Hbz) as [info Hinfo]. exists info. unfold code_at. by rewrite Hbz.
Qed.

Lemma wpg_GetNextCodeID w :
  well_typed (w_store w) ->
  wpg GetNextCodeID (fun n w' => n = next_id KeyLastCodeID (w_store w) /\ gas_step w w') w.
Proof.
  intros Hw. apply wpg_bind, wpg_store_Get. intros g Hg. apply wpg_intro; [|auto with sound|].
  - apply ogp_read_id. intros b Hb. by apply (wt_code_counter _ Hw).
  - intros n w' (-> & _ & ->)%read_id_Ret. split; [done|by exists g].
Qed.

Lemma wpg_GetByteCode id info code w :
  code_at (w_store w) id = Some info -> wasmer_GetCode (CodeHash info) (w_vm w) = Ok code ->
  wpg (GetByteCode id) (fun r w' => r = Ok (Some code) /\ gas_step w w') w.
Proof.
  unfold code_at. intros Hi Hc. apply wpg_bind, wpg_store_Get. intros g Hg.
  destruct (kv_get (GetCodeKey id) (w_store w)) as [bz|]; [|done]. simpl in Hi. rewrite Hi.
  unfold wpg, gbind, must, gget, gret. simpl. rewrite Hc. split; [done|by exists g].
Qed.

Lemma wpg_GetCodeInfo id info w :
  code_at (w_store w) id = Some info ->
  wpg (GetCodeInfo id) (fun r w' => r = Some info /\ gas_step w w') w.
Proof.
  unfold code_at. intros Hi. apply wpg_bind, wpg_store_Get. intros g Hg.
  destruct (kv_get (GetCodeKey id) (w_store w)) as [bz|]; [|done]. simpl in Hi. rewrite Hi.
  split; [done|by exists g].
Qed.

Lemma exported_code_gas w w' id : gas_step w w' -> exported_code w' id = exported_code w id.
Proof. by intros (g & -> & _). Qed.

Lemma wpg_export_codes ids acc w w0 :
  readable w -> gas_step w w0 ->
  (forall id, In id ids -> is_u64 id /\ is_Some (code_at (w_store w) id)) ->
  wpg (export_codes ids acc)
    (fun r w' => r = acc ++ map (exported_code w) ids /\ gas_step w w') w0.
Proof.
  intros Hex. revert acc w0. induction ids as [|id ids IH]; intros acc w0 Hg Hids; simpl.
  { apply wpg_gret. split; [by rewrite app_nil_r|done]. }
  destruct (Hids id ltac:(by left)) as [Hu [info Hi]].
  destruct (rd_loaded _ Hex _ _ Hu Hi) as (code & v & Hc & _).
  apply wpg_bind. pose proof Hg as (g0 & -> & Hg0).
  eapply wpg_mono; [|by apply (wpg_GetByteCode id info code)]. intros r w1 [-> (g1 & -> & Hg1)].
  apply wpg_bind. eapply wpg_mono; [|by apply (wpg_GetCodeInfo id info)].
  intros r w2 [-> (g2 & -> & Hg2)]. simpl in *.
  eapply wpg_mono; [|apply IH].
  - intros r w' [-> Hw']. split; [|done]. rewrite <- app_assoc. simpl.
    unfold exported_code at 2. rewrite Hi. simpl. by rewrite Hc.
  - exists g2. split; [done|]. transitivity g0; [done|by transitivity g1].
  - intros j Hj. apply Hids. by right.
Qed.

Lemma fold_append_models l acc :
  fold_left (fun acc (kv : bytes * bytes) => acc ++ [{| Key := string_of_bytes kv.1;
                                                      Value := string_of_bytes kv.2 |}]) l acc
  = acc ++ map exported_model l.
Proof.
  revert acc. induction l as [|kv l IH]; intros acc; simpl; [by rewrite app_nil_r|].
  by rewrite IH, <- app_assoc.
Qed.

Lemma wpg_GetContractState a w :
  wpg (GetContractState a append_model [])
    (fun r w' => r = map exported_model (kv_iter (GetContractStorePrefixKey a) (w_store w)) /\
                 gas_step w w') w.
Proof.
  unfold GetContractState, prefix_Iterate. apply wpg_bind. unfold wpg at 1, gget.
  eapply wpg_mono; [|eapply (wpg_iterate _ append_model
    (fun acc k v => acc ++ [{| Key := string_of_bytes k; Value := string_of_bytes v |}]))].
  - intros r w' [-> Hw']. split; [|done]. by rewrite (fold_append_models _ []).
  - intros acc k v w' _ Hw'. apply wpg_gret. split; [done|reflexivity].
Qed.

Lemma fold_append_contracts s l acc :
  fold_left (fun acc (kv : bytes * bytes) => acc ++ [exported_contract s (kv.1, kv.2)]) l acc
  = acc ++ map (exported_contract s) l.
Proof.
  revert acc. induction l as [|[k v] l IH]; intros acc; simpl; [by rewrite app_nil_r|].
  by rewrite IH, <- app_assoc.
Qed.

Lemma wpg_ListContractInfo w :
  well_typed (w_store w) ->
  wpg (ListContractInfo export_contract [])
    (fun r w' => r = map (exported_contract (w_store w)) (kv_iter ContractKeyPrefix (w_store w)) /\
                 gas_step w w') w.
Proof.
  intros Hw. unfold ListContractInfo, prefix_Iterate. apply wpg_bind. unfold wpg at 1, gget.
  eapply wpg_mono; [|eapply (wpg_iterate _ _
    (fun acc k v => acc ++ [exported_contract (w_store w) (k, v)]))].
  - intros r w' [-> Hw']. split; [|done]. by rewrite (fold_append_contracts _ _ []).
  - intros acc k v w' Hin Hw'. apply kv_iter_spec in Hin.
    destruct (wt_contract _ Hw k v Hin) as [i Hi].
    apply wpg_bind, wpg_intro; [by apply ogp_must|auto with sound|].
    intros i' w'' [Hi' ->]%must_Ret. unfold export_contract. apply wpg_bind.
    eapply wpg_mono; [|apply wpg_GetContractState]. intros r w2 [-> Hw2]. apply wpg_gret.
    split; [|done]. unfold exported_contract. simpl. rewrite Hi'. simpl.
    by destruct Hw' as (g & -> & _).
Qed.

(** The export of a readable state is [exported], or gas runs out. *)
Lemma wpg_ExportGenesis w :
  readable w -> wpg ExportGenesis (fun r w' => r = exported w /\ gas_step w w') w.
Proof.
  intros Hex. apply wpg_bind. eapply wpg_mono; [|by apply wpg_GetNextCodeID, rd_typed].
  intros n w1 [-> Hg1]. apply wpg_bind.
  eapply wpg_mono; [|apply (wpg_export_codes _ [] w w1 Hex Hg1)].
  - intros codes w2 [-> Hg2]. apply wpg_bind.
    eapply wpg_mono; [|apply wpg_ListContractInfo]; destruct Hg2 as (g & -> & Hg2); [|apply Hex].
    intros cs w3 [-> (g' & -> & Hg3)]. apply wpg_gret. split; [done|]. exists g'.
    split; [done|]. by transitivity g.
  - intros id Hid%list_elem_of_In%elem_of_seqZ. apply readable_code; [done|lia].
Qed.

End Exporting.

(** ** Import *)

Section Importing.
Context {E : Env} {L : EnvLaws E} (w : world) (Hex : exportable w).

(** After the codes below [i] were imported into an empty store. *)
Definition codes_imported (i : Z) (w' : world) : Prop :=
  next_id KeyLastCodeID (w_store w') = i /\
  (forall bz, kv_get KeyLastCodeID (w_store w') = Some bz -> length bz = 8%nat) /\
  (forall j, is_u64 j -> 1 <= j < i -> code_at (w_store w') j = code_at (w_store w) j) /\
  (forall k, classify k = KContract \/ classify k = KState \/ k = KeyLastInstanceID ->
     kv_get k (w_store w') = None) /\
  codes_dense (w_store w').

Lemma ogp_Create creator code src bld w' :
  (forall bz, kv_get KeyLastCodeID (w_store w') = Some bz -> length bz = 8%nat) ->
  only_gas_panics w' (Create creator code src bld).
Proof.
  intros Hc. unfold Create. destruct (uncompress code) as [c [err|]]; [apply ogp_gret|].
  apply ogp_gbind. { intros p. unfold compile. by destruct (wasmer_Create c (w_vm w')). }
  intros r w1 (v & _ & ->)%compile_Ret. destruct r as [h|err]; [|apply ogp_gret].
  apply ogp_gbind; [by apply ogp_autoIncrementID|]. intros id w2 _.
  apply ogp_gbind; [apply ogp_store_Set|]. intros. apply ogp_gret.
Qed.

Lemma exported_info i :
  1 <= i < next_id KeyLastCodeID (w_store w) ->
  is_u64 i /\ exists info code, code_at (w_store w) i = Some info /\
    exported_code w i = {| code_CodeInfo := info; CodesBytes := code |} /\
    uncompress code = (code, None) /\
    forall v, fst (wasmer_Create code v) = Ok (CodeHash info).
Proof.
  intros Hi. destruct (readable_code _ _ (exportable_readable _ Hex) Hi) as [Hu [info Hc]].
  split; [done|].
  destruct (ex_readable _ Hex _ _ Hu Hc) as (code & v & Hget & Hunc & Hhash).
  exists info, code. unfold exported_code. rewrite Hc. simpl. rewrite Hget.
  do 3 (split; [done|]). intros v'. destruct (wasmer_Create code v) as [r v2] eqn:Ev. simpl in Hhash. subst r.
  by eapply Create_hash.
Qed.

Lemma wpg_import_code i w' :
  1 <= i < next_id KeyLastCodeID (w_store w) -> codes_imported i w' ->
  wpg (import_code (exported_code w i)) (fun _ => codes_imported (i + 1)) w'.
Proof.
  intros Hi (Hn & Hlen & Hcodes & Hrest & Hdense).
  destruct (exported_info i Hi) as (Hu & info & code & Hinfo & -> & Hunc & Hhash).
  pose proof (next_id_u64 KeyLastCodeID (w_store w)) as Hnu. unfold is_u64 in Hnu.
  apply wpg_bind, wpg_intro; [by apply ogp_Create|auto with sound|]. simpl.
  intros r w1 H1. pose proof H1 as HC%Create_Ret. destruct r as [id|err].
  2: { exfalso. destruct HC as (_ & _ & [[e He]|(c & t & Hc & Ht)]); rewrite Hunc in *; [done|].
       injection Hc as <-. by rewrite Hhash in Ht. }
  destruct (Create_dense _ _ _ _ _ _ _ Hdense ltac:(unfold two64 in *; lia) H1) as [Hdense' _].
  destruct HC as (c & h & v & g & Hc & Hh & -> & _ & _ & _ & ->). rewrite Hunc in Hc. injection Hc as <-.
  pose proof (Hhash (w_vm w')) as Hh'. rewrite Hh in Hh'. injection Hh' as ->. rewrite Hn.
  apply wpg_bind. eapply wpg_mono; [|apply wpg_GetCodeInfo; simpl; apply code_at_set_eq].
  intros r w2 [-> (g2 & -> & _)]. simpl.
  rewrite (proj2 (bytes_Equal_true (CodeHash info) (CodeHash info)) eq_refl). apply wpg_gret.
  split; [|split; [|split; [|split; [|by rewrite Hn in Hdense']]]]; simpl.
  - rewrite next_id_set_ne by keys_differ. rewrite next_id_set by apply u64_range.
    apply u64_small. unfold is_u64. lia.
  - intros bz. rewrite kv_get_set_ne by keys_differ. rewrite kv_get_set_eq. intros [= <-].
    apply Uint64ToBigEndian_length.
  - intros j Hj Hji. destruct (decide (j = i)) as [->|Hne].
    + rewrite code_at_set_eq, Hinfo. by destruct info.
    + rewrite !code_at_set_ne; [apply Hcodes; [done|lia]|keys_differ|].
      intros Heq. by apply Hne, eq_sym, GetCodeKey_inj.
  - intros k Hk. rewrite !kv_get_set_ne; [by apply Hrest| |].
    + destruct Hk as [Hk|[Hk| ->]]; [..|keys_differ];
        apply classify_ne; rewrite Hk; autorewrite with classify; done.
    + destruct Hk as [Hk|[Hk| ->]]; [..|keys_differ];
        apply classify_ne; rewrite Hk; autorewrite with classify; done.
Qed.

Lemma wpg_import_codes m i w' :
  1 <= i -> 0 <= m -> i + m <= next_id KeyLastCodeID (w_store w) -> codes_imported i w' ->
  wpg (for_each (map (exported_code w) (seqZ i m)) import_code) (fun _ => codes_imported (i + m)) w'.
Proof.
  intros Hi Hm. revert i w' Hi. pattern m. apply natlike_ind; [| |done].
  - intros i w' _ _ Hc. simpl. apply wpg_gret. by rewrite Z.add_0_r.
  - clear m Hm. intros m Hm IH i w' Hi Hle Hc. rewrite seqZ_cons by lia. simpl. apply wpg_bind.
    eapply wpg_mono; [|apply wpg_import_code; [lia|done]]. intros u w1 Hc1.
    replace (Z.pred (Z.succ m)) with m by lia. replace (i + Z.succ m) with (Z.succ i + m) by lia.
    apply IH; [lia|lia|]. by replace (Z.succ i) with (i + 1) by lia.
Qed.

(** Contracts: the store only takes on entries of the exported one, and has all
    of the contracts that were imported. *)
Definition within (s : kv) : Prop :=
  (forall a i, contract_at s a = Some i -> contract_at (w_store w) a = Some i) /\
  (forall k v, classify k = KState -> kv_get k s = Some v -> kv_get k (w_store w) = Some v).

Definition has_state (s : kv) (a k : bytes) : Prop :=
  forall v, kv_get (GetContractStorePrefixKey a ++ k) (w_store w) = Some v ->
    kv_get (GetContractStorePrefixKey a ++ k) s = Some v.

(** [s'] has what [s] has of the exported store. *)
Definition grows (s s' : kv) : Prop :=
  (forall a i, contract_at (w_store w) a = Some i -> contract_at s a = Some i -> contract_at s' a = Some i) /\
  (forall a k, has_state s a k -> has_state s' a k) /\
  (forall k, classify k <> KContract -> classify k <> KState -> kv_get k s' = kv_get k s).

#[local] Instance grows_preorder : PreOrder grows.
Proof.
  split; unfold grows.
  - by intros s.
  - intros s1 s2 s3 (A1 & B1 & C1) (A2 & B2 & C2). split; [eauto|]. split; [eauto|].
    intros k H1 H2. by rewrite C2, C1.
Qed.

Lemma grows_contract s a i :
  contract_at (w_store w) a = Some i -> within s ->
  let s' := kv_set (GetContractAddressKey a) (marshal_ContractInfo i) s in
  within s' /\ grows s s' /\ contract_at s' a = Some i.
Proof.
  intros Hi [W1 W2] s'.
  assert (Ha : contract_at s' a = Some i).
  { unfold contract_at, s'. rewrite kv_get_set_eq. simpl. rewrite unmarshal_marshal_ContractInfo.
    unfold contract_at in Hi. apply bind_Some in Hi as (b & _ & Hb).
    rewrite u64_small by (by eapply unmarshal_ContractInfo_u64). by destruct i. }
  assert (Hne : forall b, b <> a -> contract_at s' b = contract_at s b).
  { intros b Hb. apply contract_at_set_ne. intros Heq%GetContractAddressKey_inj. congruence. }
  split; [split|split; [|done]].
  - intros b j. destruct (decide (b = a)) as [->|Hb]; [|rewrite Hne by done; apply W1].
    rewrite Ha. by intros [= <-].
  - intros k v Hk. unfold s'. rewrite kv_get_set_ne; [by apply W2|].
    apply classify_ne. rewrite Hk. autorewrite with classify. done.
  - split; [|split].
    + intros b j Hj Hsj. destruct (decide (b = a)) as [->|Hb]; [congruence|by rewrite Hne].
    + intros b k Hs v Hv. unfold s'. rewrite kv_get_set_ne by keys_differ. by apply Hs.
    + intros k Hk _. unfold s'. apply kv_get_set_ne. intros <-. by apply Hk.
Qed.

Lemma grows_state s a k v :
  kv_get (GetContractStorePrefixKey a ++ k) (w_store w) = Some v -> within s ->
  let s' := kv_set (GetContractStorePrefixKey a ++ k) v s in
  within s' /\ grows s s' /\ has_state s' a k.
Proof.
  intros Hv [W1 W2] s'.
  assert (Hc : forall b, contract_at s' b = contract_at s b) by (intros; apply contract_at_set_ne; keys_differ).
  assert (Hs : forall b k', has_state s b k' -> has_state s' b k').
  { intros b k' Hs v' Hv'. unfold s'.
    destruct (decide (GetContractStorePrefixKey a ++ k = GetContractStorePrefixKey b ++ k')) as [Heq|Hne].
    - rewrite <- Heq, kv_get_set_eq. congruence.
    - rewrite kv_get_set_ne by done. by apply Hs. }
  split; [split|split].
  - intros b i. rewrite Hc. apply W1.
  - intros k' v' Hk. unfold s'. destruct (decide (GetContractStorePrefixKey a ++ k = k')) as [<-|Hne].
    + rewrite kv_get_set_eq. congruence.
    + rewrite kv_get_set_ne by done. by apply W2.
  - split; [intros b i _; by rewrite Hc|]. split; [done|].
    intros k' _ Hk. unfold s'. apply kv_get_set_ne. intros <-. by apply Hk.
  - intros v' Hv'. unfold s'. rewrite kv_get_set_eq. congruence.
Qed.

Lemma wpg_setContractState a l w' :
  (forall k v, In (k, v) l -> kv_get (GetContractStorePrefixKey a ++ k) (w_store w) = Some v) ->
  within (w_store w') ->
  wpg (setContractState a (map exported_model l))
    (fun _ w'' => within (w_store w'') /\ grows (w_store w') (w_store w'') /\
       forall k v, In (k, v) l -> has_state (w_store w'') a k) w'.
Proof.
  unfold setContractState. revert w'. induction l as [|[k v] l IH]; intros w' Hl Hw.
  { apply wpg_gret. split; [done|]. by split. }
  simpl. rewrite !bytes_of_string_of_bytes. apply wpg_bind, wpg_store_Set. intros g _.
  destruct (grows_state (w_store w') a k v (Hl k v ltac:(by left)) Hw) as (Hw1 & Hg1 & Hs1).
  eapply wpg_mono; [|apply IH; [intros; apply Hl; by right|exact Hw1]].
  intros u w2 (Hw2 & Hg2 & Hs2). split; [done|]. simpl in Hg2.
  split; [by etransitivity|]. intros k' v' [[= <- <-]|Hin]; [by apply Hg2|by eapply Hs2].
Qed.

(** The state of [a] is all there. *)
Definition complete (s : kv) (a : bytes) : Prop :=
  is_Some (contract_at s a) /\ forall k, has_state s a k.

Lemma complete_grows s s' a : within s -> grows s s' -> complete s a -> complete s' a.
Proof.
  intros [W1 _] (G1 & G2 & _) [[i Hi] Hk]. split; [|auto].
  exists i. apply G1; auto.
Qed.

Lemma wpg_import_contract r w' :
  In r (kv_iter ContractKeyPrefix (w_store w)) -> within (w_store w') ->
  wpg (import_contract (exported_contract (w_store w) r))
    (fun _ w'' => within (w_store w'') /\ grows (w_store w') (w_store w'') /\
                  complete (w_store w'') r.1) w'.
Proof.
  destruct r as [a bz]. intros Hin%kv_iter_spec Hw. simpl.
  destruct (wt_contract _ (ex_typed _ Hex) a bz Hin) as [i Hi].
  assert (Hc : contract_at (w_store w) a = Some i)
    by (unfold contract_at, GetContractAddressKey; rewrite Hin; exact Hi).
  unfold import_contract, exported_contract. simpl. rewrite Hi. simpl.
  destruct (grows_contract (w_store w') a i Hc Hw) as (Hw1 & Hg1 & Ha).
  apply wpg_bind, wpg_store_Set. intros g _.
  eapply wpg_mono; [|apply wpg_setContractState; [intros k v; apply kv_iter_spec|exact Hw1]].
  intros u w2 (Hw2 & Hg2 & Hs2). split; [done|]. simpl in Hg2. split; [by etransitivity|].
  split; [exists i; by apply Hg2|]. intros k v Hv. apply (Hs2 k v); [|done]. by apply kv_iter_spec.
Qed.

Lemma wpg_import_contracts l w' :
  (forall r, In r l -> In r (kv_iter ContractKeyPrefix (w_store w))) -> within (w_store w') ->
  wpg (for_each (map (exported_contract (w_store w)) l) import_contract)
    (fun _ w'' => within (w_store w'') /\ grows (w_store w') (w_store w'') /\
       forall r, In r l -> complete (w_store w'') r.1) w'.
Proof.
  revert w'. induction l as [|r l IH]; intros w' Hl Hw; simpl.
  { apply wpg_gret. split; [done|]. by split. }
  apply wpg_bind. eapply wpg_mono; [|apply wpg_import_contract; [apply Hl; by left|done]].
  intros u w1 (Hw1 & Hg1 & Hc1).
  eapply wpg_mono; [|apply IH; [intros; apply Hl; by right|done]].
  intros u' w2 (Hw2 & Hg2 & Hc2). split; [done|]. split; [by transitivity (w_store w1)|].
  intros r' [<-|Hin]; [exact (complete_grows _ _ _ Hw1 Hg2 Hc1)|auto].
Qed.

(** What the import of an export leaves in an empty store. *)
Definition restored (w' : world) : Prop :=
  next_id KeyLastCodeID (w_store w') = next_id KeyLastCodeID (w_store w) /\
  (forall id, 1 <= id < next_id KeyLastCodeID (w_store w) ->
     code_at (w_store w') id = code_at (w_store w) id) /\
  (forall a, contract_at (w_store w') a = contract_at (w_store w) a) /\
  (forall a k, is_Some (contract_at (w_store w) a) ->
     kv_get (GetContractStorePrefixKey a ++ k) (w_store w')
     = kv_get (GetContractStorePrefixKey a ++ k) (w_store w)) /\
  kv_get KeyLastInstanceID (w_store w') = None /\ codes_dense (w_store w').

Lemma wpg_InitGenesis w0 :
  (forall k, kv_get k (w_store w0) = None) -> wpg (InitGenesis (exported w)) (fun _ => restored) w0.
Proof.
  intros H0. destruct (ex_dense _ Hex) as [Hn _]. apply wpg_bind. simpl.
  eapply wpg_mono; [|apply wpg_import_codes; [lia|lia|lia|]].
  2: { split; [unfold next_id; by rewrite H0|]. split; [intros bz; by rewrite H0|].
       split; [lia|]. split; [intros; apply H0|]. split; [unfold next_id; by rewrite H0|].
       intros id _. unfold next_id. rewrite !H0. split; [by intros []|lia]. }
  replace (1 + (next_id KeyLastCodeID (w_store w) - 1)) with (next_id KeyLastCodeID (w_store w)) by lia.
  intros u w1 (Hnext & _ & Hcodes & Hrest & Hdense).
  eapply wpg_mono; [|apply wpg_import_contracts; [done|]].
  2: { split; intros *; [|intros Hk; by rewrite Hrest by auto].
       unfold contract_at. rewrite Hrest; [done|]. left. apply classify_contract. }
  intros u' w2 ([W1 W2] & (_ & _ & Hkeep) & Hall). split; [|split; [|split; [|split; [|split]]]].
  - unfold next_id. rewrite Hkeep by (autorewrite with classify; done). exact Hnext.
  - intros id Hid. pose proof (next_id_u64 KeyLastCodeID (w_store w)) as Hu. unfold code_at.
    rewrite Hkeep by (rewrite classify_code; done). apply Hcodes; [unfold is_u64 in *; lia|done].
  - intros a. destruct (contract_at (w_store w) a) as [i|] eqn:Ea.
    + pose proof Ea as Ea'. unfold contract_at in Ea'. apply bind_Some in Ea' as (bz & Hbz & _).
      destruct (Hall (a, bz)) as [[j Hj] _]; [by apply kv_iter_spec|]. simpl in Hj.
      rewrite Hj. rewrite (W1 _ _ Hj) in Ea. done.
    + destruct (contract_at (w_store w2) a) as [j|] eqn:Ej; [|done]. apply W1 in Ej. congruence.
  - intros a k [i Ei]. unfold contract_at in Ei. apply bind_Some in Ei as (bz & Hbz & _).
    destruct (Hall (a, bz)) as [_ Hst]; [by apply kv_iter_spec|]. specialize (Hst k). simpl in Hst.
    destruct (kv_get (GetContractStorePrefixKey a ++ k) (w_store w)) as [v|] eqn:Ev; [by apply Hst|].
    destruct (kv_get (GetContractStorePrefixKey a ++ k) (w_store w2)) as [v|] eqn:Ev'; [|done].
    apply W2 in Ev'; [congruence|apply classify_state].
  - rewrite Hkeep by (autorewrite with classify; done). apply Hrest. auto.
  - destruct Hdense as [Hn1 Hd]. unfold codes_dense, next_id.
    rewrite Hkeep by (autorewrite with classify; done). split; [exact Hn1|]. intros id Hid.
    rewrite Hkeep by (rewrite classify_code; done). by apply Hd.
Qed.

End Importing.

Section Counters.
Context {E : Env} {L : EnvLaws E}.

(** A relation that the steps of an import respect. *)
Lemma sound_InitGenesis (R : world -> world -> Prop) `{!PreOrder R} data :
  (forall w w', gas_step w w' -> R w w') ->
  (forall c d s b, sound R (Create c d s b)) ->
  (forall a i, sound R (setContractInfo a i)) ->
  (forall a k v, sound R (prefix_Set (GetContractStorePrefixKey a) k v)) ->
  sound R (InitGenesis data).
Proof.
  intros Hg HC HS HM.
  assert (HI : forall id, sound R (GetCodeInfo id))
    by (intros; apply sound_intro; intros w r w' [_ H]%GetCodeInfo_Ret; auto).
  unfold InitGenesis, import_code, import_contract, setContractState. solve_sound.
Qed.

Definition same_instances (w w' : world) : Prop :=
  kv_get KeyLastInstanceID (w_store w') = kv_get KeyLastInstanceID (w_store w).

#[local] Instance same_instances_preorder : PreOrder same_instances.
Proof. split; unfold same_instances; [done|]. congruence. Qed.

Lemma same_instances_Set k v : k <> KeyLastInstanceID -> sound same_instances (store_Set k v).
Proof.
  intros Hk. apply sound_intro. intros w r w' (g & _ & _ & ->)%store_Set_Ret.
  unfold same_instances. simpl. by rewrite kv_get_set_ne.
Qed.

Lemma InitGenesis_keeps_instances data : sound same_instances (InitGenesis data).
Proof.
  apply sound_InitGenesis.
  - apply _.
  - by intros w w' (g & -> & _).
  - intros. apply sound_intro. intros w r w' H%Create_Ret. unfold same_instances. destruct r as [id|err].
    + destruct H as (? & h & v & g & _ & _ & _ & _ & _ & _ & ->). simpl.
      rewrite !kv_get_set_ne; [done|keys_differ..].
    + by destruct H as (_ & (v & ->) & _).
  - intros. apply same_instances_Set. keys_differ.
  - intros. apply same_instances_Set. keys_differ.
Qed.

Lemma chain_keeps_accounts w w' a :
  rtc chain_step w w' -> is_Some (account_at (w_sdk w) a) -> is_Some (account_at (w_sdk w') a).
Proof.
  induction 1 as [|w1 w2 w3 H _ IH]; [done|]. intros Ha. apply IH.
  destruct H as [n ctx m limit w1 res w2 _ _ H|w1 w2 (_ & _ & _ & H)]; [|by apply H].
  destruct (sound_message contractsR _ _ _ _ _ _ H) as [Hk _]. by apply Hk.
Qed.

(** The accounts an import finds are the ones it leaves. *)
Lemma InitGenesis_keeps_sdk data : sound (fun w w' => w_sdk w' = w_sdk w) (InitGenesis data).
Proof.
  apply sound_InitGenesis.
  - split; [done|]. intros w1 w2 w3 H1 H2. by rewrite H2.
  - by intros w w' (g & -> & _).
  - intros. apply sound_intro. intros w r w' H%Create_Ret. destruct r as [id|err].
    + by destruct H as (? & h & v & g & _ & _ & _ & _ & _ & _ & ->).
    + by destruct H as (_ & (v & ->) & _).
  - intros. apply sound_intro. by intros w r w' (g & _ & _ & ->)%store_Set_Ret.
  - intros. apply sound_intro. by intros w r w' (g & _ & _ & ->)%store_Set_Ret.
Qed.

End Counters.

(** ** Imports of other data

    What an import into an empty store does when the data is not, or not quite,
    what some chain exported. *)

Section AnyImport.
Context {E : Env} {L : EnvLaws E}.

Definition counter_ok (w : world) : Prop :=
  forall bz, kv_get KeyLastCodeID (w_store w) = Some bz -> length bz = 8%nat.

(** The code is no archive, and compiles to the hash the record has. *)
Definition importable_code (c : Types.Code) : Prop :=
  uncompress (CodesBytes c) = (CodesBytes c, None) /\
  forall v, fst (wasmer_Create (CodesBytes c) v) = Ok (CodeHash (code_CodeInfo c)).

Lemma wpg_import_importable c w :
  importable_code c -> counter_ok w -> wpg (import_code c) (fun _ => counter_ok) w.
Proof.
  intros [Hunc Hhash] Hlen. apply wpg_bind, wpg_intro; [by apply ogp_Create|auto with sound|].
  intros r w1 HC%Create_Ret. destruct r as [id|err].
  2: { exfalso. destruct HC as (_ & _ & [[e He]|(x & t & Hx & Ht)]); rewrite Hunc in *; [done|].
       injection Hx as <-. by rewrite Hhash in Ht. }
  destruct HC as (x & h & v & g & Hx & Hh & -> & _ & _ & _ & ->). rewrite Hunc in Hx. injection Hx as <-.
  pose proof (Hhash (w_vm w)) as Hh'. rewrite Hh in Hh'. injection Hh' as ->.
  apply wpg_bind. eapply wpg_mono; [|apply wpg_GetCodeInfo; simpl; apply code_at_set_eq].
  intros r w2 [-> (g2 & -> & _)]. simpl.
  rewrite (proj2 (bytes_Equal_true _ _) eq_refl). apply wpg_gret.
  intros bz. simpl. rewrite kv_get_set_ne by keys_differ. rewrite kv_get_set_eq. intros [= <-].
  apply Uint64ToBigEndian_length.
Qed.

Lemma InitGenesis_importable data w :
  (forall c, In c (Codes data) -> importable_code c) -> counter_ok w -> only_gas_panics w (InitGenesis data).
Proof.
  intros Hc Hw. eapply (wpg_elim _ (fun _ _ => True)), wpg_bind, wpg_mono;
    [|apply (wpg_for_each _ _ (fun l w => (forall c, In c l -> importable_code c) /\ counter_ok w)); [|done]].
  - intros u w1 _. apply (wpg_mono _ (fun _ _ => True)); [done|].
    apply (wpg_for_each _ _ (fun _ _ => True)); [|done]. intros c l w2 _.
    apply wpg_bind, wpg_store_Set. intros g _. apply (wpg_mono _ (fun _ _ => True)); [done|].
    apply (wpg_for_each _ _ (fun _ _ => True)); [|done]. intros m l' w3 _. by apply wpg_store_Set.
  - intros c l w1 [Hl Hw1]. eapply wpg_mono; [|apply wpg_import_importable; [apply Hl; by left|done]].
    intros u w2 Hw2. split; [|done]. intros c' Hc'. apply Hl. by right.
Qed.

(** Codes: the ids are handed out in order, and no contract appears. *)
Lemma import_codes_Ret l w u w' :
  for_each l import_code w = Ret u w' ->
  codes_dense (w_store w) -> next_id KeyLastCodeID (w_store w) + Z.of_nat (length l) < two64 ->
  next_id KeyLastCodeID (w_store w') = next_id KeyLastCodeID (w_store w) + Z.of_nat (length l) /\
  codes_dense (w_store w') /\
  forall a, contract_at (w_store w') a = contract_at (w_store w) a.
Proof.
  revert w. induction l as [|c l IH]; intros w H Hd Hn.
  { injection H as _ <-. split; [simpl; lia|done]. }
  cbn [for_each] in H. apply gbind_Ret_inv in H as (u1 & w1 & H1 & H). unfold import_code in H1. minv H1.
  destruct r as [id|err]; [|done]. cbn [length] in Hn.
  destruct (Create_dense _ _ _ _ _ _ _ Hd ltac:(unfold two64 in *; lia) E0) as [Hd2 _].
  apply Create_Ret in E0 as (x & h & v & g & _ & _ & -> & _ & _ & _ & ->).
  minv H1. apply GetCodeInfo_Ret in E0 as [_ (g2 & -> & _)]. destruct r as [newInfo|]; [|done].
  destruct (negb _); [done|]. injection H1 as _ <-.
  set (n := next_id KeyLastCodeID (w_store w)) in *.
  destruct (IH _ H) as (J1 & J2 & J3); [exact Hd2| |].
  all: cbn [w_store set_store set_gas set_vm] in *.
  all: assert (Hnext : forall bz s, next_id KeyLastCodeID
         (kv_set (GetCodeKey n) bz (kv_set KeyLastCodeID (Uint64ToBigEndian (u64 (n + 1))) s)) = n + 1)
       by (intros bz s; rewrite next_id_set_ne by keys_differ; rewrite next_id_set by apply u64_range;
           apply u64_small; unfold is_u64; destruct Hd as [Hd1 _]; fold n in Hd1; lia).
  - rewrite Hnext. lia.
  - rewrite Hnext in J1. split; [rewrite J1; cbn [length]; lia|]. split; [done|].
    intros a. rewrite J3. by rewrite !contract_at_set_ne by keys_differ.
Qed.

(** Contracts: every record is one of the data. *)
Lemma import_contract_Ret c w u w' :
  import_contract c w = Ret u w' ->
  (forall k, classify k <> KContract -> classify k <> KState -> kv_get k (w_store w') = kv_get k (w_store w)) /\
  forall a, contract_at (w_store w') a =
    if decide (a = ContractAddress c)
    then unmarshal_ContractInfo (marshal_ContractInfo (contract_Info c)) else contract_at (w_store w) a.
Proof.
  intros H. unfold import_contract in H. apply gbind_Ret_inv in H as (u1 & w1 & H1 & H).
  apply store_Set_Ret in H1 as (g & _ & _ & ->).
  set (R := fun w w' : world =>
    (forall k, classify k <> KState -> kv_get k (w_store w') = kv_get k (w_store w))).
  assert (HR : PreOrder R) by (split; [by intros ?|intros x y z H1 H2 k Hk; by rewrite H2, H1]).
  assert (HS : sound R (setContractState (ContractAddress c) (ContractState c))).
  { apply sound_for_each; [done|]. intros m. apply sound_intro. intros w1 r w2 (g' & _ & _ & ->)%store_Set_Ret k Hk.
    simpl. apply kv_get_set_ne. intros <-. by apply Hk. }
  pose proof (sound_Ret R _ _ _ _ HS H) as HK. unfold R in HK. simpl in HK. split.
  - intros k H1 H2. rewrite HK by done. apply kv_get_set_ne. intros <-. by apply H1.
  - intros a. unfold contract_at. rewrite HK by (rewrite classify_contract; done). case_decide as Ha.
    + subst a. by rewrite kv_get_set_eq.
    + rewrite kv_get_set_ne; [done|]. intros Heq%GetContractAddressKey_inj. congruence.
Qed.

Lemma import_contracts_Ret l w u w' :
  for_each l import_contract w = Ret u w' ->
  (forall k, classify k <> KContract -> classify k <> KState -> kv_get k (w_store w') = kv_get k (w_store w)) /\
  forall a i, contract_at (w_store w') a = Some i ->
    contract_at (w_store w) a = Some i \/
    exists c, In c l /\ ContractAddress c = a /\
      unmarshal_ContractInfo (marshal_ContractInfo (contract_Info c)) = Some i.
Proof.
  revert w. induction l as [|c l IH]; intros w H.
  { injection H as _ <-. split; [done|]. by left. }
  cbn [for_each] in H. apply gbind_Ret_inv in H as (u1 & w1 & [K1 C1]%import_contract_Ret & H).
  destruct (IH _ H) as [K2 C2]. split; [intros k H1 H2; by rewrite K2, K1|].
  intros a i Hi. destruct (C2 a i Hi) as [Hi'|(c' & Hin & Ha & Hu)].
  - rewrite C1 in Hi'. case_decide as Ha; [|by left]. right. exists c. split; [by left|by split].
  - right. exists c'. split; [by right|by split].
Qed.

(** An import that returns: as many codes as the data has, under dense ids, and
    no contract that the data does not have. *)
Lemma InitGenesis_Ret data w u w' :
  InitGenesis data w = Ret u w' -> (forall k, kv_get k (w_store w) = None) ->
  1 + Z.of_nat (length (Codes data)) < two64 ->
  next_id KeyLastCodeID (w_store w') = 1 + Z.of_nat (length (Codes data)) /\
  codes_dense (w_store w') /\
  forall a i, contract_at (w_store w') a = Some i ->
    exists c, In c (Contracts data) /\ ContractAddress c = a /\
      unmarshal_ContractInfo (marshal_ContractInfo (contract_Info c)) = Some i.
Proof.
  intros H H0 Hn. unfold InitGenesis in H. apply gbind_Ret_inv in H as (u1 & w1 & H1 & H).
  assert (Hfirst : next_id KeyLastCodeID (w_store w) = 1) by (unfold next_id; by rewrite H0).
  apply import_codes_Ret in H1 as (N1 & [D1 D2] & C1).
  - rewrite Hfirst in N1. apply import_contracts_Ret in H as [K2 C2].
    assert (HN : next_id KeyLastCodeID (w_store w') = next_id KeyLastCodeID (w_store w1))
      by (unfold next_id; rewrite K2 by (autorewrite with classify; done); done).
    split; [by rewrite HN|]. split.
    + unfold codes_dense. rewrite HN. split; [done|]. intros id Hid.
      rewrite K2 by (rewrite classify_code; done). by apply D2.
    + intros a i [Hi|Hi]%C2; [|done]. rewrite C1 in Hi. unfold contract_at in Hi. by rewrite H0 in Hi.
  - split; [lia|]. intros id _. rewrite Hfirst, H0. split; [by intros []|lia].
  - lia.
Qed.

End AnyImport.

(** ** Properties *)

Section GenesisProperties.
Context {E : Env} {L : EnvLaws E}.

(** C13: genesis export and import are inverse on codes, contracts and state.
    From an exportable state, the export only spends gas; importing it into an
    empty store, with whatever virtual machine, panics over gas or not at all
    (every upload is accepted, every hash agrees), and afterwards every code
    record, the counter of codes, every contract record and every state entry of
    a contract are what they were. What does not come back is the counter of
    instances, which is not part of the export. *)
Theorem genesis_roundtrip w w0 :
  exportable w -> (forall k, kv_get k (w_store w0) = None) ->
  only_gas_panics w ExportGenesis /\
  forall data w1, ExportGenesis w = Ret data w1 ->
    gas_step w w1 /\ only_gas_panics w0 (InitGenesis data) /\
    forall w2, InitGenesis data w0 = Ret tt w2 ->
      next_id KeyLastCodeID (w_store w2) = next_id KeyLastCodeID (w_store w) /\
      (forall id, 1 <= id < next_id KeyLastCodeID (w_store w) ->
         code_at (w_store w2) id = code_at (w_store w) id) /\
      (forall a, contract_at (w_store w2) a = contract_at (w_store w) a) /\
      (forall a k, is_Some (contract_at (w_store w) a) ->
         kv_get (GetContractStorePrefixKey a ++ k) (w_store w2)
         = kv_get (GetContractStorePrefixKey a ++ k) (w_store w)) /\
      next_id KeyLastInstanceID (w_store w2) = 1.
Proof.
  intros Hex H0. destruct (wpg_elim _ _ _ (wpg_ExportGenesis w (exportable_readable _ Hex))) as [Hp HX].
  split; [done|]. intros data w1 [-> Hg]%HX. split; [done|].
  destruct (wpg_elim _ _ _ (wpg_InitGenesis w Hex w0 H0)) as [Hp' HI]. split; [done|].
  intros w2 (R1 & R2 & R3 & R4 & R5 & _)%HI. do 4 (split; [done|]). unfold next_id. by rewrite R5.
Qed.

(** C23: an import hands the instance numbers out again. Whatever the genesis
    data, the import leaves the counter of instances at its start; and in any
    later state of the chain, when the counter shows a number under which the
    code had an instance whose account was there at the import (contracts'
    accounts are exported with the others), instantiating the code fails with
    [ErrAccountExists]. *)
Theorem import_reuses_instance_numbers data w0 w2 :
  kv_get KeyLastInstanceID (w_store w0) = None -> InitGenesis data w0 = Ret tt w2 ->
  next_id KeyLastInstanceID (w_store w2) = 1 /\
  forall w3 codeID n e ctx creator msg cs r w4,
    rtc chain_step w2 w3 -> next_id KeyLastInstanceID (w_store w3) = n ->
    is_Some (account_at (w_sdk w0) (contract_address (contract_id codeID n))) ->
    Instantiate e ctx codeID creator msg cs w3 = Ret r w4 ->
    exists err, r = ([], Some err) /\ root_of err = ErrAccountExists.
Proof.
  intros H0 HI. pose proof (sound_Ret _ _ _ _ _ (InitGenesis_keeps_sdk data) HI) as Hs.
  apply (sound_Ret same_instances) in HI; [|apply InitGenesis_keeps_instances].
  split; [unfold next_id; by rewrite HI, H0|]. intros w3 codeID n e ctx creator msg cs r w4 Hc <- Ha.
  rewrite <- Hs in Ha. destruct (chain_keeps_accounts _ _ _ Hc Ha) as [acct Hacct].
  intros H. apply Instantiate_Ret in H. change (account_at (w_sdk w3) (new_address codeID w3) = Some acct) in Hacct.
  destruct H as [acct' w1 Ha' Hc'|? ? ? Hno|? ? ? Hno|? ? ? ? ? ? ? Hno|? ? ? ? ? ? ? ? ? ? ? ? Hno];
    [by eexists|congruence..].
Qed.

End GenesisProperties.

(** ** Witnesses *)

#[local] Existing Instances demo_scripts RefEnv RefEnvLaws.

Lemma demo_ready_exportable : exportable demo_ready.
Proof.
  destruct (demo_ready_related codesR) as [_ Hroom].
  destruct (Hroom demo_empty_room) as (((Hn & Hd) & _) & _).
  split; [exact (demo_ready_related typedR demo_empty_well_typed)|by split|].
  intros id info Hu Hi. assert (Hs : 1 <= id < next_id KeyLastCodeID (w_store demo_ready)).
  { apply Hd; [done|]. unfold code_at in Hi. apply bind_Some in Hi as (bz & -> & _). by eexists. }
  replace (next_id KeyLastCodeID (w_store demo_ready)) with 2 in Hs by (vm_compute; reflexivity).
  assert (id = 1) as -> by lia.
  assert (Heq : code_at (w_store demo_ready) 1 = Some (NewCodeInfo demo_code alice "" ""))
    by (vm_compute; reflexivity).
  rewrite Heq in Hi. injection Hi as <-.
  exists demo_code, (w_vm demo_ready). split; [vm_compute; reflexivity|].
  split; vm_compute; reflexivity.
Qed.

(** A chain that starts from the accounts of the old one. *)
Definition fresh_world : world := ref_world 1000000 {[ alice := gold 900; demo_contract := gold 100 ]}.

Lemma genesis_roundtrip_witness :
  exists data, returned (ExportGenesis demo_ready) = Some data /\
    contract_at (w_store (final (InitGenesis data) fresh_world)) demo_contract
      = contract_at (w_store demo_ready) demo_contract /\
    next_id KeyLastInstanceID (w_store (final (InitGenesis data) fresh_world)) = 1 /\
    next_id KeyLastInstanceID (w_store demo_ready) = 2.
Proof.
  destruct (genesis_roundtrip demo_ready fresh_world demo_ready_exportable
    (fun k => lookup_empty (M:=gmap bytes) k)) as [_ H].
  destruct (H _ _ ltac:(by_run)) as (_ & _ & H2). eexists. split; [vm_compute; reflexivity|].
  destruct (H2 _ ltac:(by_run)) as (_ & _ & H3 & _ & H4).
  split; [exact (H3 demo_contract)|]. split; [exact H4|vm_compute; reflexivity].
Defined.

Lemma import_reuses_instance_numbers_witness :
  exists data err, returned (ExportGenesis demo_ready) = Some data /\
    next_id KeyLastInstanceID (w_store (final (InitGenesis data) fresh_world)) = 1 /\
    returned (Instantiate (entry 3) ref_ctx 1 alice [] [] (final (InitGenesis data) fresh_world))
      = Some ([], Some err) /\ root_of err = ErrAccountExists.
Proof.
  do 2 eexists. split; [vm_compute; reflexivity|].
  match goal with |- next_id _ (w_store (final (InitGenesis ?d) _)) = _ /\ _ => set (data := d) end.
  destruct (import_reuses_instance_numbers data fresh_world (final (InitGenesis data) fresh_world)
    ltac:(vm_compute; reflexivity) ltac:(by_run)) as [H1 H].
  split; [exact H1|]. split; [vm_compute; reflexivity|].
  match goal with |- root_of ?e = _ => set (err := e) end.
  destruct (H _ 1 1 (entry 3) ref_ctx alice [] [] ([], Some err) _ (rtc_refl _ _) H1
    ltac:(vm_compute; by eexists) ltac:(by_run)) as (err' & He & Hr).
  injection He as ->. exact Hr.
Defined.
