(* ===== verification/Querier.v ===== *)
(** * Queries (querier.go)

    The dispatch of a query path, the five kinds of query and their JSON answers,
    and the adaptation of errors. *)

From S2P Require Import Prelude GoStd Base64 Json SdkTypes Types Sdk Ref Gas.
From S2P Require Import Store Code Keeper Demo Runs Nesting Invariants Genesis.

Definition QueryListContracts : string := "list-contracts".
Definition QueryGetContract : string := "contract-info".
Definition QueryGetContractState : string := "contract-state".
Definition QueryGetCode : string := "code".
Definition QueryListCode : string := "list-code".

Definition QueryMethodContractStateSmart : string := "smart".
Definition QueryMethodContractStateAll : string := "all".
Definition QueryMethodContractStateRaw : string := "raw".

Definition debug : bool := false.

(** [abci.RequestQuery], of which the module reads the data; [None] is [nil]. *)
Record RequestQuery := { req_Data : option bytes }.

Section Querier.
Context {E : Env}.

(** The keeper's [queryGasLimit]. *)
Variable queryGasLimit : Z.

(** ** JSON of the answers *)

Definition json_AccAddress (a : bytes) : Json.json := Json.JStr (AccAddress_String a).

Definition json_ContractInfo (info : option ContractInfo) : Json.json :=
  match info with
  | None => Json.JNull
  | Some i => Json.JObj [("code_id"%string, Json.JNum (CodeID i));
                         ("creator"%string, json_AccAddress (Creator i));
                         ("init_msg"%string, Json.JStr (InitMsg i))]
  end.

Definition json_Model (m : Model) : Json.json :=
  Json.JObj [("key"%string, Json.JStr (Key m)); ("val"%string, Json.JStr (Value m))].

(** A [[]byte] is base64 text, a [nil] one is [null]. *)
Record GetCodeResponse := { resp_Code : option bytes }.

Definition json_GetCodeResponse (r : GetCodeResponse) : Json.json :=
  Json.JObj [("code"%string, match resp_Code r with
                             | None => Json.JNull
                             | Some c => Json.JStr (Base64.EncodeToString c)
                             end)].

Record ListCodeResponse := { lc_ID : Z; lc_Creator : bytes; lc_CodeHash : bytes }.

Definition json_ListCodeResponse (r : ListCodeResponse) : Json.json :=
  Json.JObj [("id"%string, Json.JNum (lc_ID r)); ("creator"%string, json_AccAddress (lc_Creator r));
             ("code_hash"%string, Json.JStr (HexBytes_String (lc_CodeHash r)))].

(** A slice built by [append] from a [nil] one. *)
Definition json_slice (l : list Json.json) : Json.json :=
  match l with [] => Json.JNull | _ => Json.JArr l end.

(** ** The queries *)

Definition queryContractInfo (bech : string) : M world (result error bytes) :=
  match AccAddressFromBech32 bech with
  | Err err => gret (Err (ErrSdk CodeUnknownRequest err))
  | Ok addr =>
      let! info := GetContractInfo addr in
      gret (Ok (Json.MarshalIndent (json_ContractInfo info)))
  end.

Definition queryContractList : M world (result error bytes) :=
  let! addrs :=
    ListContractInfo (fun addrs addr _ => gret (false, addrs ++ [AccAddress_String addr])) [] in
  gret (Ok (Json.MarshalIndent (json_slice (map Json.JStr addrs)))).

Definition queryContractState (bech queryMethod : string) (req : RequestQuery)
    : M world (result error bytes) :=
  match AccAddressFromBech32 bech with
  | Err _ => gret (Err (Wrap (ErrSdkRoot ErrInvalidAddress) bech))
  | Ok contractAddr =>
      if bool_decide (queryMethod = QueryMethodContractStateAll) then
        let! resultData := GetContractState contractAddr append_model [] in
        gret (Ok (Json.MarshalIndent (Json.JArr (map json_Model resultData))))
      else if bool_decide (queryMethod = QueryMethodContractStateRaw) then
        let! resultData := QueryRaw contractAddr (req_Data req) in
        gret (Ok (Json.MarshalIndent (Json.JArr (map json_Model resultData))))
      else if bool_decide (queryMethod = QueryMethodContractStateSmart) then
        QuerySmart queryGasLimit contractAddr (default [] (req_Data req))
      else gret (Err (Wrap (ErrSdkRoot ErrUnknownRequest) queryMethod))
  end.

(** The text of the error of [strconv.ParseUint]. *)
Definition NumError_Error (s : string) (e : Strconv.num_error) : string :=
  String.append "strconv.ParseUint: parsing "
    (String.append (Quote s)
       (match e with
        | Strconv.ErrSyntax => ": invalid syntax"
        | Strconv.ErrRange => ": value out of range"
        end)).

Definition queryCode (codeIDstr : string) : M world (result error bytes) :=
  match Strconv.ParseUint codeIDstr with
  | Err err =>
      gret (Err (Wrap (ErrSdkRoot ErrUnknownRequest)
                   (String.append "invalid codeID: " (NumError_Error codeIDstr err))))
  | Ok codeID =>
      let! r := GetByteCode codeID in
      match r with
      | Err err => gret (Err (Wrap err "loading wasm code"))
      | Ok code => gret (Ok (Json.MarshalIndent (json_GetCodeResponse {| resp_Code := code |})))
      end
  end.

(** [for true { i++; ... }]: [fuel] bounds the turns. *)
Fixpoint list_codes (fuel : nat) (i : Z) (info : list ListCodeResponse)
    : M world (list ListCodeResponse) :=
  match fuel with
  | O => fun _ => NoFuel
  | S fuel =>
      let i := u64 (i + 1) in
      let! res := GetCodeInfo i in
      match res with
      | None => gret info
      | Some res =>
          list_codes fuel i
            (info ++ [{| lc_ID := i; lc_Creator := code_Creator res; lc_CodeHash := CodeHash res |}])
      end
  end.

Definition queryCodeList (fuel : nat) : M world (result error bytes) :=
  let! info := list_codes fuel 0 [] in
  gret (Ok (Json.MarshalIndent (json_slice (map json_ListCodeResponse info)))).

(** [path[i]], which panics past the end. *)
Definition path_at (path : list string) (i : nat) : M world string :=
  match path !! i with Some s => gret s | None => gpanic PanicIndex end.

Definition newQuerier (fuel : nat) (path : list string) (req : RequestQuery)
    : M world (result error bytes) :=
  let! p0 := path_at path 0 in
  if bool_decide (p0 = QueryGetContract) then
    let! p1 := path_at path 1 in queryContractInfo p1
  else if bool_decide (p0 = QueryListContracts) then queryContractList
  else if bool_decide (p0 = QueryGetContractState) then
    if (length path <? 3)%nat
    then gret (Err (Wrap (ErrSdkRoot ErrUnknownRequest) "unknown data query endpoint"))
    else
      let! p1 := path_at path 1 in
      let! p2 := path_at path 2 in
      queryContractState p1 p2 req
  else if bool_decide (p0 = QueryGetCode) then
    let! p1 := path_at path 1 in queryCode p1
  else if bool_decide (p0 = QueryListCode) then queryCodeList fuel
  else gret (Err (Wrap (ErrSdkRoot ErrUnknownRequest) "unknown data query endpoint")).

(** [sdk.NewError(codespace, code, log)] *)
Record sdk_Error := { se_Codespace : string; se_Code : Z; se_Log : string }.

Definition NewQuerier (fuel : nat) (path : list string) (req : RequestQuery)
    : M world (result sdk_Error bytes) :=
  let! r := newQuerier fuel path req in
  match r with
  | Err err =>
      match ABCIInfo err debug with
      | (space, code, log) => gret (Err {| se_Codespace := space; se_Code := code; se_Log := log |})
      end
  | Ok res => gret (Ok res)
  end.

End Querier.

(** ** Lemmas *)

Section QuerierLemmas.
Context {E : Env} {L : EnvLaws E}.

(** A query other than a smart one leaves the state as it is, but for the gas. *)
Lemma path_at_Ret path i w s w' : path_at path i w = Ret s w' -> path !! i = Some s /\ w' = w.
Proof. unfold path_at. destruct (path !! i); [|done]. by intros [= <- <-]. Qed.

Lemma gas_only_GetContractInfo a : sound gas_step (GetContractInfo a).
Proof. apply sound_intro. by intros w r w' [_ H]%GetContractInfo_Ret. Qed.

Lemma gas_only_GetCodeInfo id : sound gas_step (GetCodeInfo id).
Proof. apply sound_intro. by intros w r w' [_ H]%GetCodeInfo_Ret. Qed.

Lemma gas_only_store_Get k : sound gas_step (store_Get k).
Proof. apply sound_intro. by intros w r w' (_ & H & _)%store_Get_Ret. Qed.

Lemma gas_only_must {A} (o : option A) : sound gas_step (must o).
Proof. apply sound_intro. intros w r w' [_ ->]%must_Ret. reflexivity. Qed.

Lemma gas_only_iterate {A} l (body : A -> bytes -> bytes -> M world (bool * A)) acc :
  (forall acc k v, sound gas_step (body acc k v)) -> sound gas_step (iterate l body acc).
Proof.
  intros Hb. assert (Hp : sound gas_step (pay (charge_iter l))).
  { apply sound_intro. intros w r w' (g & Hg & ->)%pay_Ret. exists g. split; [done|].
    by eapply charge_iter_Ok. }
  revert acc Hp. induction l as [|[k v] l IH]; intros acc Hp; simpl.
  - apply sound_gbind; [apply _|done|]. intros. apply sound_gret. apply _.
  - apply sound_gbind; [apply _|done|]. intros _. apply sound_gbind; [apply _|apply Hb|].
    intros [[] acc']; [apply sound_gret; apply _|]. apply IH.
    apply sound_intro. intros w r w' (g & Hg & ->)%pay_Ret. exists g. split; [done|].
    by eapply charge_iter_Ok.
Qed.

Lemma gas_only_list_codes fuel i info : sound gas_step (list_codes fuel i info).
Proof.
  revert i info. induction fuel as [|fuel IH]; intros i info; [by intros w|]. simpl.
  apply sound_gbind; [apply _|apply gas_only_GetCodeInfo|]. intros [res|]; [apply IH|].
  apply sound_gret. apply _.
Qed.

Lemma gas_only_path_at path i : sound gas_step (path_at path i).
Proof. apply sound_intro. intros w r w' [_ ->]%path_at_Ret. reflexivity. Qed.

Lemma gas_only_GetByteCode id : sound gas_step (GetByteCode id).
Proof.
  pose proof gas_only_store_Get. pose proof @gas_only_must. unfold GetByteCode. solve_sound.
Qed.

Lemma gas_only_append_model acc k v : sound gas_step (append_model acc k v).
Proof. apply sound_gret. apply _. Qed.

Lemma gas_only_GetContractState a : sound gas_step (GetContractState a append_model []).
Proof.
  unfold GetContractState, prefix_Iterate. apply sound_gbind; [apply _|apply sound_gget; apply _|].
  intros l. apply gas_only_iterate. apply gas_only_append_model.
Qed.

Lemma gas_only_QueryRaw a k : sound gas_step (QueryRaw a k).
Proof. pose proof gas_only_store_Get. unfold QueryRaw, prefix_Get. solve_sound. Qed.

Lemma gas_only_queryContractList : sound gas_step queryContractList.
Proof.
  pose proof @gas_only_must. unfold queryContractList, ListContractInfo, prefix_Iterate.
  apply sound_gbind; [apply _| |solve_sound].
  apply sound_gbind; [apply _|apply sound_gget; apply _|]. intros l. apply gas_only_iterate. solve_sound.
Qed.

(** The query for a code whose record and code are there. *)
Lemma code_answer limit fuel id info c w req r w2 :
  is_u64 id -> code_at (w_store w) id = Some info -> wasmer_GetCode (CodeHash info) (w_vm w) = Ok c ->
  newQuerier limit fuel [QueryGetCode; Strconv.FormatUint id] req w = Ret r w2 ->
  r = Ok (Json.MarshalIndent (json_GetCodeResponse {| resp_Code := Some c |})).
Proof.
  intros Hu Hi Hc H. unfold newQuerier in H. minv H. apply path_at_Ret in E0 as [[= <-] ->]. simpl in H.
  minv H. apply path_at_Ret in E0 as [[= <-] ->].
  unfold queryCode in H. rewrite ParseUint_FormatUint in H by done. minv H.
  destruct (proj2 (wpg_elim _ _ _ (wpg_GetByteCode id info c _ Hi Hc)) _ _ E0) as [-> _].
  by injection H as <- _.
Qed.

Lemma uploaded_code_answer limit fuel creator code src bld w id w1 req r w2 :
  Create creator code src bld w = Ret (Ok id) w1 ->
  newQuerier limit fuel [QueryGetCode; Strconv.FormatUint id] req w1 = Ret r w2 ->
  exists c, uncompress code = (c, None) /\
    r = Ok (Json.MarshalIndent (json_GetCodeResponse {| resp_Code := Some c |})).
Proof.
  intros (c & h & v & g & Hc & Hh & Hid & Hu & _ & _ & ->)%Create_Ret H.
  exists c. split; [done|]. eapply code_answer in H; [done|done|apply code_at_set_eq|].
  simpl. by eapply GetCode_Create.
Qed.

End QuerierLemmas.
#[export] Hint Resolve gas_only_path_at gas_only_GetByteCode gas_only_GetContractState gas_only_QueryRaw
  gas_only_queryContractList : sound.
#[export] Hint Resolve gas_only_GetContractInfo gas_only_GetCodeInfo gas_only_store_Get
  gas_only_must gas_only_list_codes : sound.

(** ** Entries by key *)

Section Entries.

(** In a sorted list of entries, a key has at most one. *)
Lemma filter_entry (l : list (bytes * bytes)) k v :
  StronglySorted bytes_lt (map fst l) ->
  filter (fun kv => kv.1 = k) l = [(k, v)] <-> In (k, v) l.
Proof.
  intros Hs. split.
  - intros Hf. assert (Hin : (k, v) ∈ filter (fun kv : bytes * bytes => kv.1 = k) l)
      by (rewrite Hf; left).
    apply list_elem_of_filter in Hin as [_ Hin]. by apply list_elem_of_In.
  - induction l as [|[k' v'] l IH]; [done|]. apply StronglySorted_inv in Hs as [Hs Hall].
    assert (Hno : forall v2, In (k', v2) l -> False).
    { intros v2 Hin. rewrite List.Forall_forall in Hall.
      eapply bytes_lt_irrefl, Hall, in_map_iff. by exists (k', v2). }
    intros [[= -> ->]|Hin].
    + rewrite filter_cons_True by done. f_equal.
      destruct (filter _ l) as [|[k2 v2] l2] eqn:Ef; [done|]. exfalso.
      assert (Hin : (k2, v2) ∈ filter (fun kv : bytes * bytes => kv.1 = k) l) by (rewrite Ef; left).
      apply list_elem_of_filter in Hin as [Hk Hin]. simpl in Hk. subst k2.
      by eapply Hno, list_elem_of_In.
    + rewrite filter_cons_False by (simpl; intros ->; by eapply Hno). by apply IH.
Qed.

Lemma filter_key (l : list (bytes * bytes)) k :
  filter (fun m => Key m = string_of_bytes k) (map exported_model l)
  = map exported_model (filter (fun kv => kv.1 = k) l).
Proof.
  induction l as [|[k' v'] l IH]; [done|]. simpl. destruct (decide (k' = k)) as [->|Hne].
  - rewrite !filter_cons_True by done. simpl. by rewrite IH.
  - rewrite !filter_cons_False; [done|done|]. simpl. by intros ?%string_of_bytes_inj.
Qed.

End Entries.

(** ** The loop of the code list *)

Section CodeList.
Context {E : Env} {L : EnvLaws E}.

Definition code_response (s : kv) (id : Z) : ListCodeResponse :=
  let info := default (NewCodeInfo [] [] "" "") (code_at s id) in
  {| lc_ID := id; lc_Creator := code_Creator info; lc_CodeHash := CodeHash info |}.

Lemma code_at_dense s id :
  well_typed s -> codes_dense s -> is_u64 id ->
  (is_Some (code_at s id) <-> 1 <= id < next_id KeyLastCodeID s).
Proof.
  intros Hw [_ Hd] Hu. rewrite <- Hd by done. unfold code_at.
  destruct (kv_get (GetCodeKey id) s) as [bz|] eqn:Ek; simpl.
  - split; [by eexists|]. intros _. by eapply wt_code.
  - by split; intros [? ?].
Qed.

Lemma wpg_GetCodeInfo_at id w :
  well_typed (w_store w) ->
  wpg (GetCodeInfo id) (fun r w' => r = code_at (w_store w) id /\ gas_step w w') w.
Proof.
  intros Hw. apply wpg_intro; [by apply ogp_GetCodeInfo|auto with sound|].
  intros r w'. apply GetCodeInfo_Ret.
Qed.

Lemma wpg_list_codes w m i w0 info :
  well_typed (w_store w) -> codes_dense (w_store w) -> gas_step w w0 ->
  i + Z.of_nat m = next_id KeyLastCodeID (w_store w) - 1 -> 0 <= i ->
  forall fuel, (m < fuel)%nat ->
  wpg (list_codes fuel i info)
    (fun r w' => r = info ++ map (code_response (w_store w)) (seqZ (i + 1) (Z.of_nat m)) /\
                 gas_step w w') w0.
Proof.
  intros Hw Hd. revert i w0 info. induction m as [|m IH]; intros i w0 info Hg Hm Hi fuel Hf;
    (destruct fuel as [|fuel]; [lia|]); simpl list_codes;
    pose proof (next_id_u64 KeyLastCodeID (w_store w)) as Hu; unfold is_u64 in Hu;
    pose proof Hg as (g & -> & Hg0).
  - rewrite u64_small by (unfold is_u64; lia). apply wpg_bind.
    eapply wpg_mono; [|by apply wpg_GetCodeInfo_at]. intros r w1 [-> (g1 & -> & Hg1)]. simpl.
    destruct (code_at (w_store w) (i + 1)) eqn:Ec.
    + exfalso. assert (1 <= i + 1 < next_id KeyLastCodeID (w_store w)); [|lia].
      apply code_at_dense; [done|done|unfold is_u64; lia|by eexists].
    + apply wpg_gret. rewrite app_nil_r. split; [done|]. exists g1. split; [done|]. by transitivity g.
  - rewrite u64_small by (unfold is_u64; lia). apply wpg_bind.
    eapply wpg_mono; [|by apply wpg_GetCodeInfo_at]. intros r w1 [-> (g1 & -> & Hg1)]. simpl.
    assert (is_Some (code_at (w_store w) (i + 1))) as [ci Hci]
      by (apply code_at_dense; [done|done|unfold is_u64; lia|lia]).
    rewrite Hci. eapply wpg_mono; [|apply (IH (i + 1)); [|lia|lia|lia]].
    + intros r w' [-> Hw']. split; [|done]. rewrite <- app_assoc. f_equal.
      rewrite (seqZ_cons (i + 1) (Z.of_nat (S m))) by lia. simpl.
      unfold code_response at 2. rewrite Hci. simpl. do 3 f_equal; lia.
    + exists g1. split; [done|]. by transitivity g.
Qed.

(** Every turn of the loop costs gas. *)
Lemma list_codes_ends fuel i info w :
  gm_finite (w_gas w) -> gas_left w < Z.of_nat fuel -> list_codes fuel i info w <> NoFuel.
Proof.
  revert i info w. induction fuel as [|fuel IH]; intros i info w Hw Hk.
  - pose proof (gm_finite_le _ Hw). unfold gas_left in Hk. lia.
  - simpl. unfold GetCodeInfo, gbind. destruct (store_Get _ w) as [bz w1|p|] eqn:Eg;
      [|done|by apply store_Get_total in Eg].
    apply store_Get_Ret in Eg as (_ & (g & -> & Hl & Hc & Hfin) & Hlt). destruct (Hfin Hw) as [Hw' _].
    destruct bz as [bz|]; [|done]. unfold must. destruct (unmarshal_CodeInfo bz); [|done]. simpl.
    apply IH; [done|]. unfold gas_left in *. simpl in *. lia.
Qed.

End CodeList.

(** ** Properties *)

Section QuerierProperties.
Context {E : Env} {L : EnvLaws E}.

(** C26: queries read. Whatever the path and the request, the accounts, the code on
    disk and the events are what they were, and so is the store, unless the query
    is a smart one: then keys of the queried contract's own store may differ, and
    the caller's meter was not charged. *)
Theorem query_is_read_only limit fuel path req w r w' :
  newQuerier limit fuel path req w = Ret r w' ->
  gas_step w w' \/
  exists bech a, path !! 1%nat = Some bech /\ path !! 2%nat = Some QueryMethodContractStateSmart /\
    AccAddressFromBech32 bech = Ok a /\ w_gas w' = w_gas w /\ w_sdk w' = w_sdk w /\
    w_vm w' = w_vm w /\ w_events w' = w_events w /\
    forall k, (forall k', k <> GetContractStorePrefixKey a ++ k') ->
      kv_get k (w_store w') = kv_get k (w_store w).
Proof.
  unfold newQuerier. intros H. minv H. apply path_at_Ret in E0 as [Hp0 ->].
  case_bool_decide; [left; refine (sound_Ret gas_step _ _ _ _ _ H); unfold queryContractInfo; solve_sound|].
  case_bool_decide; [left; refine (sound_Ret gas_step _ _ _ _ _ H); solve_sound|].
  case_bool_decide; cycle 1.
  { left. refine (sound_Ret gas_step _ _ _ _ _ H). unfold queryCode, queryCodeList. solve_sound. }
  destruct (length path <? 3)%nat; [injection H as <- <-; left; reflexivity|].
  minv H. apply path_at_Ret in E0 as [Hp1 ->]. minv H. apply path_at_Ret in E0 as [Hp2 ->].
  unfold queryContractState in H. destruct (AccAddressFromBech32 r1) as [a|] eqn:Ea;
    [|injection H as <- <-; left; reflexivity].
  case_bool_decide; [left; refine (sound_Ret gas_step _ _ _ _ _ H); solve_sound|].
  case_bool_decide; [left; refine (sound_Ret gas_step _ _ _ _ _ H); solve_sound|].
  case_bool_decide as Hs; [subst r2|injection H as <- <-; left; reflexivity].
  right. exists r1, a. do 3 (split; [done|]). apply QuerySmart_frame in H as (? & ? & ? & ? & ? & _). done.
Qed.

(** The code list is complete: on well-formed records with dense ids, given a
    turn of the loop per id, the query panics over gas or answers with every code
    id in use, in order, each with its creator and its hash, and no other. *)
Theorem code_list_complete w fuel :
  well_typed (w_store w) -> codes_dense (w_store w) ->
  next_id KeyLastCodeID (w_store w) <= Z.of_nat fuel ->
  only_gas_panics w (queryCodeList fuel) /\ queryCodeList fuel w <> NoFuel /\
  forall r w', queryCodeList fuel w = Ret r w' ->
    r = Ok (Json.MarshalIndent (json_slice (map json_ListCodeResponse
          (map (fun id =>
             let info := default (NewCodeInfo [] [] "" "") (code_at (w_store w) id) in
             {| lc_ID := id; lc_Creator := code_Creator info; lc_CodeHash := CodeHash info |})
          (seqZ 1 (next_id KeyLastCodeID (w_store w) - 1)))))).
Proof.
  intros Hw Hd Hf. set (n := next_id KeyLastCodeID (w_store w)) in *.
  assert (Hn : 1 <= n) by exact (proj1 Hd).
  assert (HQ : wpg (queryCodeList fuel) (fun r w' => r = Ok (Json.MarshalIndent (json_slice
    (map json_ListCodeResponse (map (code_response (w_store w)) (seqZ 1 (n - 1)))))) /\ gas_step w w') w).
  { apply wpg_bind. eapply wpg_mono;
      [|apply (wpg_list_codes w (Z.to_nat (n - 1)) 0 w []); [done|done|reflexivity|lia|lia|lia]].
    intros r w' [-> Hw']. apply wpg_gret. split; [|done]. simpl. by rewrite Z2Nat.id by lia. }
  split; [exact (proj1 (wpg_elim _ _ _ HQ))|]. split.
  - intros Hno. unfold wpg in HQ. by rewrite Hno in HQ.
  - intros r w' H. exact (proj1 (proj2 (wpg_elim _ _ _ HQ) _ _ H)).
Qed.

(** The loop of the code list ends on any store, whatever its records: every
    turn reads, so on a metered query gas stops it. *)
Theorem code_list_ends fuel w :
  gm_finite (w_gas w) -> gm_Limit (w_gas w) - gm_GasConsumed (w_gas w) < Z.of_nat fuel ->
  queryCodeList fuel w <> NoFuel.
Proof.
  intros Hw Hk. unfold queryCodeList, gbind.
  pose proof (list_codes_ends fuel 0 [] w Hw Hk). by destruct (list_codes fuel 0 [] w).
Qed.

(** The answer to "all" lists every entry of the contract's store, in ascending
    order of keys, each once, and a "raw" query of a key answers with the entries
    of that list that have the key: one, or none. *)
Theorem state_queries_agree a k w models w1 raw w2 :
  GetContractState a append_model [] w = Ret models w1 ->
  QueryRaw a (Some k) w = Ret raw w2 ->
  (exists l, StronglySorted bytes_lt (map fst l) /\
     (forall k v, In (k, v) l <-> kv_get (GetContractStorePrefixKey a ++ k) (w_store w) = Some v) /\
     models = map exported_model l) /\
  raw = filter (fun m => Key m = string_of_bytes k) models.
Proof.
  intros HA HR. pose proof (proj2 (wpg_elim _ _ _ (wpg_GetContractState a w)) _ _ HA) as [-> _].
  pose proof (kv_iter_sorted (GetContractStorePrefixKey a) (w_store w)) as Hsort.
  split. { eexists. split; [exact Hsort|]. split; [apply kv_iter_spec|done]. }
  unfold QueryRaw in HR. minv HR. apply store_Get_Ret in E0 as (-> & _ & _).
  assert (raw = match kv_get (GetContractStorePrefixKey a ++ k) (w_store w) with
                | Some v => [exported_model (k, v)] | None => [] end) as ->
    by (destruct (kv_get _ _); by injection HR as <- _).
  rewrite (filter_key (kv_iter (GetContractStorePrefixKey a) (w_store w)) k).
  destruct (kv_get _ _) as [v|] eqn:Ek.
  - apply kv_iter_spec in Ek. by rewrite (proj2 (filter_entry _ k v Hsort) Ek).
  - destruct (filter _ _) as [|[k' v'] l] eqn:Ef; [done|].
    assert (Hin : (k', v') ∈ filter (fun kv => kv.1 = k) (kv_iter (GetContractStorePrefixKey a) (w_store w)))
      by (rewrite Ef; left).
    apply list_elem_of_filter in Hin as [Hk Hin]. simpl in Hk. subst k'.
    apply list_elem_of_In, kv_iter_spec in Hin. congruence.
Qed.

(** Uploaded code is served back: after a successful upload, the query for the
    new id answers with the uncompressed code, base64 encoded. *)
Theorem uploaded_code_is_served limit fuel creator code src bld w id w1 req r w2 :
  Create creator code src bld w = Ret (Ok id) w1 ->
  newQuerier limit fuel [QueryGetCode; Strconv.FormatUint id] req w1 = Ret r w2 ->
  exists c text, uncompress code = (c, None) /\ Base64.DecodeString text = Ok c /\
    r = Ok (Json.MarshalIndent (Json.JObj [("code"%string, Json.JStr text)])).
Proof.
  intros HC HQ. destruct (uploaded_code_answer _ _ _ _ _ _ _ _ _ _ _ _ HC HQ) as (c & Hc & ->).
  exists c, (Base64.EncodeToString c). split; [done|]. split; [|done].
  apply Base64.DecodeString_EncodeToString.
Qed.

(** A path with its argument left out makes the querier panic instead of
    answering with an error, for the three queries that do not check its length:
    the empty path, "contract-info" and "code". *)
Theorem short_path_panics limit fuel req w :
  newQuerier limit fuel [] req w = Panic PanicIndex /\
  newQuerier limit fuel [QueryGetContract] req w = Panic PanicIndex /\
  newQuerier limit fuel [QueryGetCode] req w = Panic PanicIndex /\
  (forall bech, exists err, newQuerier limit fuel [QueryGetContractState; bech] req w = Ret (Err err) w).
Proof. do 3 (split; [done|]). intros bech. by eexists. Qed.

(** The state queries lose information: two different entries, whose values
    differ in bytes that are not UTF-8, give the same answer. *)
Theorem state_query_lossy :
  exists m m' : Model, m <> m' /\
    Json.MarshalIndent (json_Model m) = Json.MarshalIndent (json_Model m').
Proof.
  exists {| Key := "k"; Value := string_of_bytes [xff] |}, {| Key := "k"; Value := string_of_bytes [xfe] |}.
  split; [by vm_compute|vm_compute; reflexivity].
Qed.

End QuerierProperties.

(** ** Witnesses *)

#[local] Existing Instances demo_scripts RefEnv RefEnvLaws.

Definition no_request : RequestQuery := {| req_Data := None |}.
Definition demo_path : list string :=
  [QueryGetContractState; string_of_bytes demo_contract; QueryMethodContractStateAll].

Lemma query_is_read_only_witness :
  w_sdk (final (newQuerier 3000000 9 demo_path no_request) demo_ready) = w_sdk demo_ready.
Proof.
  destruct (query_is_read_only 3000000 9 demo_path no_request demo_ready _ _ ltac:(by_run))
    as [(g & -> & _)|(bech & a & _ & Hp & _)]; [reflexivity|discriminate Hp].
Defined.

Lemma code_list_complete_witness :
  next_id KeyLastCodeID (w_store demo_ready) = 2 /\
  returned (queryCodeList 9 demo_ready)
  = Some (Ok (Json.MarshalIndent (Json.JArr [json_ListCodeResponse
      {| lc_ID := 1; lc_Creator := alice; lc_CodeHash := demo_code |}]))).
Proof.
  split; [vm_compute; reflexivity|].
  destruct (code_list_complete demo_ready 9 (ex_typed _ demo_ready_exportable)
    (ex_dense _ demo_ready_exportable) ltac:(vm_compute; discriminate)) as (_ & _ & H).
  assert (Hr : queryCodeList 9 demo_ready = Ret _ (final (queryCodeList 9) demo_ready)) by by_run.
  rewrite Hr. simpl. rewrite (H _ _ Hr). vm_compute. reflexivity.
Defined.

Lemma code_list_ends_witness : queryCodeList (Z.to_nat 84000) demo_ready <> NoFuel.
Proof.
  apply code_list_ends.
  - vm_compute. split; [reflexivity|]. intros H. discriminate H.
  - vm_compute. reflexivity.
Defined.

Lemma state_queries_agree_witness :
  exists models, returned (GetContractState demo_contract append_model [] demo_ready) = Some models /\
    returned (QueryRaw demo_contract (Some (bytes_of_string "state")) demo_ready)
    = Some (filter (fun m => Key m = "state"%string) models).
Proof.
  eexists. split; [vm_compute; reflexivity|].
  destruct (state_queries_agree demo_contract (bytes_of_string "state") demo_ready _ _ _ _
    ltac:(by_run) ltac:(by_run)) as [_ H].
  etransitivity; [vm_compute; reflexivity|exact (f_equal Some H)].
Defined.

Lemma uploaded_code_is_served_witness :
  exists c text, uncompress demo_code = (c, None) /\ Base64.DecodeString text = Ok c /\
    returned (newQuerier 3000000 9 [QueryGetCode; "1"] no_request demo_uploaded)
    = Some (Ok (Json.MarshalIndent (Json.JObj [("code"%string, Json.JStr text)]))).
Proof.
  destruct (uploaded_code_is_served 3000000 9 alice demo_code "" "" demo_empty 1 demo_uploaded
    no_request _ _ ltac:(by_run) ltac:(by_run)) as (c & text & H1 & H2 & H3).
  exists c, text. split; [exact H1|]. split; [exact H2|].
  rewrite <- H3. vm_compute. reflexivity.
Defined.
