(* ===== verification/Module.v ===== *)
(** * The application module (module.go)

    What the module manager of the application calls: genesis data as JSON, the
    handler and the querier, and the blockers. The amino codec's JSON of a genesis
    state is a parameter: it coerces texts to valid UTF-8, as [encoding/json] does,
    and refuses addresses that are neither empty nor of the SDK's length. *)

From S2P Require Import Prelude GoStd Base64 Json JsonText SdkTypes Types Sdk Ref Gas.
From S2P Require Import Store Code Keeper Demo Runs Nesting Invariants Genesis Querier.

(** ** What the JSON of a genesis state can hold *)

(** Nothing in the text would be replaced by the JSON encoder. *)
Definition text_ok (s : string) : bool := Valid (bytes_of_string s).

Definition genesis_texts (g : GenesisState) : list string :=
  concat (map (fun c => [Source (code_CodeInfo c); Builder (code_CodeInfo c)]) (Codes g)) ++
  concat (map (fun c => InitMsg (contract_Info c) ::
                        concat (map (fun m => [Key m; Value m]) (ContractState c))) (Contracts g)).

Definition texts_ok (g : GenesisState) : bool := forallb text_ok (genesis_texts g).

(** [sdk.VerifyAddressFormat], or the empty text, which stands for no address. *)
Definition address_ok (a : bytes) : bool := bool_decide (length a = 0%nat) || bool_decide (length a = AddrLen).

Definition genesis_addresses (g : GenesisState) : list bytes :=
  map (fun c => code_Creator (code_CodeInfo c)) (Codes g) ++
  concat (map (fun c => [ContractAddress c; Creator (contract_Info c)]) (Contracts g)).

Definition addresses_ok (g : GenesisState) : bool := forallb address_ok (genesis_addresses g).

(** The ids are [uint64], as the type of the field says. *)
Definition ids_u64 (g : GenesisState) : Prop :=
  forall c, In c (Contracts g) -> is_u64 (CodeID (contract_Info c)).

(** Invalid UTF-8 in texts comes back as replacement characters. *)
Definition clean_text (s : string) : string := string_of_bytes (sanitize (bytes_of_string s)).

Definition clean_code (c : Types.Code) : Types.Code :=
  let i := code_CodeInfo c in
  {| code_CodeInfo := NewCodeInfo (CodeHash i) (code_Creator i) (clean_text (Source i)) (clean_text (Builder i));
     CodesBytes := CodesBytes c |}.

Definition clean_contract (c : Contract) : Contract :=
  let i := contract_Info c in
  {| ContractAddress := ContractAddress c;
     contract_Info := NewContractInfo (CodeID i) (Creator i) (clean_text (InitMsg i));
     ContractState := map (fun m => {| Key := clean_text (Key m); Value := clean_text (Value m) |})
                        (ContractState c) |}.

Definition clean_genesis (g : GenesisState) : GenesisState :=
  {| Codes := map clean_code (Codes g); Contracts := map clean_contract (Contracts g) |}.

Lemma clean_text_ok s : text_ok s = true -> clean_text s = s.
Proof.
  unfold text_ok, Valid, clean_text. intros ->%bool_decide_eq_true. apply string_of_bytes_of_string.
Qed.

Lemma map_same {A} (f : A -> A) l : (forall x, In x l -> f x = x) -> map f l = l.
Proof. intros H. rewrite <- (map_id l) at 2. by apply map_ext_in. Qed.

Lemma clean_genesis_ok g : texts_ok g = true -> clean_genesis g = g.
Proof.
  unfold texts_ok, genesis_texts. rewrite forallb_app, andb_true_iff, !forallb_forall. intros [Hc Hd].
  destruct g as [cs ds]. unfold clean_genesis. simpl in *. f_equal; apply map_same.
  - intros [[h cr src bld] b] Hin. unfold clean_code. simpl.
    rewrite !clean_text_ok; [done|apply Hc, in_concat; eexists; (split; [by apply in_map|]); simpl; auto..].
  - intros [a [id cr im] ms] Hin. unfold clean_contract. simpl.
    assert (Hi : forall t, In t (im :: concat (map (fun m => [Key m; Value m]) ms)) -> clean_text t = t).
    { intros t Ht. apply clean_text_ok, Hd, in_concat. eexists. split; [by apply in_map|done]. }
    rewrite (Hi im) by (by left). f_equal. apply map_same. intros [k v] Hm. simpl.
    rewrite !Hi; [done|right; apply in_concat; exists [k; v]; (split; [|simpl; auto])..];
      apply in_map_iff; by exists {| Key := k; Value := v |}.
Qed.

(** [ModuleCdc], as far as the module uses it on genesis states. *)
Class ModuleCodec := {
  MarshalJSON_Genesis : GenesisState -> bytes;
  UnmarshalJSON_Genesis : bytes -> result string GenesisState }.

Class ModuleCodecLaws `{ModuleCodec} : Prop := {
  Unmarshal_Marshal_Genesis g :
    ids_u64 g -> addresses_ok g = true ->
    UnmarshalJSON_Genesis (MarshalJSON_Genesis g) = Ok (clean_genesis g);
  Unmarshal_bad_address g :
    ids_u64 g -> addresses_ok g = false ->
    exists err, UnmarshalJSON_Genesis (MarshalJSON_Genesis g) = Err err }.

(** ** AppModuleBasic and AppModule *)

Section AppModule.
Context {E : Env} `{ModuleCodec}.

Definition AppModuleBasic_Name : string := ModuleName.

Definition AppModuleBasic_DefaultGenesis : bytes :=
  MarshalJSON_Genesis {| Codes := []; Contracts := [] |}.

Definition AppModuleBasic_ValidateGenesis (bz : bytes) : option error :=
  match UnmarshalJSON_Genesis bz with
  | Err err => Some (ErrForeign err)
  | Ok data => ValidateGenesis data
  end.

Definition AppModule_Name : string := ModuleName.

(** No invariant is added to the registry. *)
Definition AppModule_RegisterInvariants {InvariantRegistry : Type} (ir : InvariantRegistry) : InvariantRegistry := ir.

Definition AppModule_Route : string := RouterKey.
Definition AppModule_QuerierRoute : string := Types.QuerierRoute.

(** [n]: the nesting of calls the model allows. *)
Definition AppModule_NewHandler (n : nat) : Ctx -> sdk_msg -> M world Result := NewHandler (entry n).

Definition AppModule_NewQuerierHandler (queryGasLimit : Z) (fuel : nat) (path : list string)
    (req : RequestQuery) : M world (result sdk_Error bytes) := NewQuerier queryGasLimit fuel path req.

(** No validator updates are returned. *)
Definition AppModule_InitGenesis (data : bytes) : M world unit :=
  match UnmarshalJSON_Genesis data with
  | Err _ => gpanic PanicCodec
  | Ok genesisState => InitGenesis genesisState
  end.

Definition AppModule_ExportGenesis : M world bytes :=
  let! gs := ExportGenesis in
  gret (MarshalJSON_Genesis gs).

Definition AppModule_BeginBlock : M world unit := gret tt.
Definition AppModule_EndBlock : M world unit := gret tt.

End AppModule.

(** ** Properties *)

Section ModuleProperties.
Context {E : Env} {L : EnvLaws E} {MC : ModuleCodec} {ML : ModuleCodecLaws}.

(** What the codec does to the codes does not matter to their import. *)
Lemma exported_importable w :
  exportable w -> forall c, In c (Codes (clean_genesis (exported w))) -> importable_code c.
Proof.
  intros Hex c Hc. simpl in Hc. rewrite map_map in Hc. apply in_map_iff in Hc as (id & <- & Hid).
  apply list_elem_of_In, elem_of_seqZ in Hid.
  destruct (exported_info w Hex id ltac:(lia)) as (_ & info & code & _ & -> & Hunc & Hhash). by split.
Qed.

Lemma exported_ids_u64 w : readable w -> ids_u64 (exported w).
Proof.
  intros Hw c Hc. simpl in Hc. apply in_map_iff in Hc as ([a bz] & <- & Hin%kv_iter_spec). simpl.
  destruct (wt_contract _ (rd_typed _ Hw) a bz Hin) as [i Hi]. rewrite Hi. simpl.
  by eapply unmarshal_ContractInfo_u64.
Qed.

Lemma wpg_AppModule_ExportGenesis w :
  readable w ->
  wpg AppModule_ExportGenesis (fun bz w' => bz = MarshalJSON_Genesis (exported w) /\ gas_step w w') w.
Proof.
  intros Hw. apply wpg_bind. eapply wpg_mono; [|by apply wpg_ExportGenesis].
  intros gs w1 [-> Hg]. by apply wpg_gret.
Qed.

(** C37: the genesis file round trip. What an exportable state exports as JSON is
    refused again, by the validation and by a panic of the import, if an address
    in it (of a creator or a contract) has a length other than the SDK's and is
    not empty. Otherwise it is valid, and importing it into an empty store panics
    over gas or not at all; and if all texts in it (keys and values of contract
    states, init messages, sources, builders) are valid UTF-8, which is what JSON
    can hold, the import restores every code, contract and state entry. *)
Theorem module_genesis_roundtrip w w0 data w1 :
  exportable w -> (forall k, kv_get k (w_store w0) = None) ->
  ExportGenesis w = Ret data w1 ->
  exists bz, AppModule_ExportGenesis w = Ret bz w1 /\
  if addresses_ok data then
    AppModuleBasic_ValidateGenesis bz = None /\ only_gas_panics w0 (AppModule_InitGenesis bz) /\
    forall w2, AppModule_InitGenesis bz w0 = Ret tt w2 -> texts_ok data = true ->
      next_id KeyLastCodeID (w_store w2) = next_id KeyLastCodeID (w_store w) /\
      (forall id, 1 <= id < next_id KeyLastCodeID (w_store w) ->
         code_at (w_store w2) id = code_at (w_store w) id) /\
      (forall a, contract_at (w_store w2) a = contract_at (w_store w) a) /\
      (forall a k, is_Some (contract_at (w_store w) a) ->
         kv_get (GetContractStorePrefixKey a ++ k) (w_store w2)
         = kv_get (GetContractStorePrefixKey a ++ k) (w_store w))
  else is_Some (AppModuleBasic_ValidateGenesis bz) /\ AppModule_InitGenesis bz w0 = Panic PanicCodec.
Proof.
  intros Hex H0 HE. exists (MarshalJSON_Genesis data).
  split; [unfold AppModule_ExportGenesis, gbind; by rewrite HE|].
  pose proof (exportable_readable _ Hex) as Hrd.
  destruct (proj2 (wpg_elim _ _ _ (wpg_ExportGenesis w Hrd)) _ _ HE) as [-> _].
  pose proof (exported_ids_u64 w Hrd) as Hids. unfold AppModuleBasic_ValidateGenesis, AppModule_InitGenesis.
  destruct (addresses_ok (exported w)) eqn:Ha.
  - rewrite Unmarshal_Marshal_Genesis by done. split; [done|]. split.
    + apply InitGenesis_importable; [|intros bz; by rewrite H0]. by apply exported_importable.
    + intros w2 HI Ht. rewrite clean_genesis_ok in HI by done.
      destruct (wpg_elim _ _ _ (wpg_InitGenesis w Hex w0 H0)) as [_ HX].
      by apply HX in HI as (R1 & R2 & R3 & R4 & _).
  - destruct (Unmarshal_bad_address (exported w) Hids Ha) as [err ->]. by split; [eexists|].
Qed.

(** The default genesis is valid, and importing it into an empty store leaves
    the store empty. *)
Theorem default_genesis w0 :
  AppModuleBasic_ValidateGenesis AppModuleBasic_DefaultGenesis = None /\
  AppModule_InitGenesis AppModuleBasic_DefaultGenesis w0 = Ret tt w0.
Proof.
  unfold AppModuleBasic_ValidateGenesis, AppModule_InitGenesis, AppModuleBasic_DefaultGenesis.
  by rewrite Unmarshal_Marshal_Genesis by done.
Qed.

End ModuleProperties.

(** ** Witnesses *)

#[local] Existing Instances demo_scripts RefEnv RefEnvLaws.

#[local] Program Instance Model_countable : Countable Model :=
  inj_countable' (fun m => (Key m, Value m)) (fun '(k, v) => {| Key := k; Value := v |}) _.
Next Obligation. by intros []. Qed.

#[local] Program Instance genesis_CodeInfo_countable : Countable CodeInfo :=
  inj_countable' (fun i => (CodeHash i, code_Creator i, Source i, Builder i))
    (fun '(h, c, s, b) => NewCodeInfo h c s b) _.
Next Obligation. by intros []. Qed.

#[local] Program Instance genesis_ContractInfo_countable : Countable ContractInfo :=
  inj_countable' (fun i => (CodeID i, Creator i, InitMsg i)) (fun '(a, b, c) => NewContractInfo a b c) _.
Next Obligation. by intros []. Qed.

Definition genesis_rep (g : GenesisState) :
    list (CodeInfo * bytes) * list (bytes * ContractInfo * list Model) :=
  (map (fun c => (code_CodeInfo c, CodesBytes c)) (Codes g),
   map (fun c => (ContractAddress c, contract_Info c, ContractState c)) (Contracts g)).

Definition genesis_of (r : list (CodeInfo * bytes) * list (bytes * ContractInfo * list Model))
    : GenesisState :=
  {| Codes := map (fun '(i, b) => {| code_CodeInfo := i; CodesBytes := b |}) r.1;
     Contracts := map (fun '(a, i, s) => {| ContractAddress := a; contract_Info := i;
                                            ContractState := s |}) r.2 |}.

Lemma genesis_of_rep g : genesis_of (genesis_rep g) = g.
Proof.
  destruct g as [cs ds]. unfold genesis_of, genesis_rep. simpl. rewrite !map_map. f_equal;
    (etransitivity; [|apply map_id]); apply map_ext; by intros [].
Qed.

#[local] Instance demo_ModuleCodec : ModuleCodec := {|
  MarshalJSON_Genesis g := ref_marshal (genesis_rep (clean_genesis g));
  UnmarshalJSON_Genesis b := match ref_unmarshal b with
                             | Some r => if addresses_ok (genesis_of r) then Ok (genesis_of r)
                                         else Err "Incorrect address length"%string
                             | None => Err "invalid json"%string
                             end |}.

Lemma clean_genesis_addresses g : genesis_addresses (clean_genesis g) = genesis_addresses g.
Proof. unfold genesis_addresses. simpl. by rewrite !map_map. Qed.

#[local] Instance demo_ModuleCodecLaws : ModuleCodecLaws.
Proof.
  split; intros g _ Ha; simpl; rewrite ref_unmarshal_marshal, genesis_of_rep; unfold addresses_ok in *;
    rewrite clean_genesis_addresses, Ha; [done|by eexists].
Qed.

Definition demo_exported : GenesisState :=
  default {| Codes := []; Contracts := [] |} (returned (ExportGenesis demo_ready)).

Lemma module_genesis_roundtrip_witness :
  exists bz, returned (AppModule_ExportGenesis demo_ready) = Some bz /\
    AppModuleBasic_ValidateGenesis bz = None /\
    contract_at (w_store (final (AppModule_InitGenesis bz) fresh_world)) demo_contract
      = Some (NewContractInfo 1 alice "init").
Proof.
  destruct (module_genesis_roundtrip demo_ready fresh_world demo_exported _ demo_ready_exportable
    (fun k => lookup_empty (M:=gmap bytes) k) ltac:(by_run)) as (bz & HX & H).
  assert (Ha : addresses_ok demo_exported = true) by (vm_compute; reflexivity). rewrite Ha in H.
  destruct H as (H1 & _ & H2). exists bz. unfold returned at 1. rewrite HX. split; [done|].
  split; [exact H1|].
  assert (Hbz : bz = MarshalJSON_Genesis demo_exported)
    by (apply (f_equal returned) in HX; vm_compute in HX; injection HX as <-; vm_compute; reflexivity).
  subst bz. destruct (H2 _ ltac:(by_run) ltac:(vm_compute; reflexivity)) as (_ & _ & H3 & _).
  rewrite (H3 demo_contract). vm_compute. reflexivity.
Defined.
