(* ===== verification/Restart.v ===== *)
(** * Chains that are exported and started again

    The life of a chain: blocks, and restarts from the genesis file the module
    exported. What is proved of chains that start empty ([Registry.v]) survives
    restarts, such a chain can always be exported, and what may stand in the way
    of importing it again is said. *)

From S2P Require Import Prelude GoStd SdkTypes Types Sdk Ref Gas Store Code Keeper Demo Runs Nesting.
From S2P Require Import Invariants Safety Registry Genesis Querier Module.

(** ** The code behind the records *)

Section Loaded.
Context {E : Env}.

Definition loadedR (w w' : world) : Prop := codes_loaded w -> codes_loaded w'.

(** No uploaded code is itself an archive: [uncompress] leaves it as it is. *)
Definition no_archives (w : world) : Prop :=
  forall id info code, is_u64 id -> code_at (w_store w) id = Some info ->
    wasmer_GetCode (CodeHash info) (w_vm w) = Ok code -> uncompress code = (code, None).

(** Every creator has an address that the JSON of genesis states can hold. *)
Definition creators_ok (w : world) : Prop :=
  (forall id info, is_u64 id -> code_at (w_store w) id = Some info -> address_ok (code_Creator info) = true) /\
  (forall a info, contract_at (w_store w) a = Some info -> address_ok (Creator info) = true).

End Loaded.

Section LoadedLemmas.
Context {E : Env} {L : EnvLaws E}.

#[export] Instance loadedR_preorder : PreOrder loadedR.
Proof. split; unfold loadedR; [by intros w|]. intros w1 w2 w3. auto. Qed.

Lemma loadedR_same w w' :
  (forall id, code_at (w_store w') id = code_at (w_store w) id) -> w_vm w' = w_vm w -> loadedR w w'.
Proof. intros Hc Hv Hw id info. rewrite Hc. unfold code_loaded. rewrite Hv. apply Hw. Qed.

Lemma code_loaded_compiled info c w r v :
  wasmer_Create c (w_vm w) = (r, v) -> code_loaded info w -> code_loaded info (set_vm v w).
Proof. intros Hc (code & v' & Hg & Hh). exists code, v'. split; [by eapply GetCode_kept|done]. Qed.

Lemma loadedR_Set k v w g :
  (forall id, k <> GetCodeKey id) -> loadedR w (set_store (kv_set k v (w_store w)) (set_gas g w)).
Proof. intros Hk. apply loadedR_same; [|done]. intros id. by apply code_at_set_ne. Qed.

#[export] Instance loadedR_frame : Frame loadedR.
Proof.
  split; [apply _|..].
  - intros w w' (Hs & Hv & _). apply loadedR_same; [by rewrite Hs|done].
  - intros c w r v Hc Hw id info Hu Hi. eapply code_loaded_compiled; [done|by eapply Hw].
  - intros. by apply loadedR_same.
  - intros a k v w. apply (loadedR_Set _ v w (w_gas w)). intros. keys_differ.
Qed.

Lemma loadedR_Create creator code src bld : sound loadedR (Create creator code src bld).
Proof.
  apply sound_intro. intros w r w' H. unfold Create in H.
  destruct (uncompress code) as [c [err|]]; [by injection H as <- <-|]. minv H.
  apply compile_Ret in E0 as (v & Hv & ->). pose proof (frame_vm (R:=loadedR) _ _ _ _ Hv) as HR.
  destruct r0 as [h|err]; [|by injection H as <- <-]. minv H.
  apply autoIncrementID_Ret in E0 as (-> & _ & g & _ & _ & ->). minv H.
  apply store_Set_Ret in E0 as (g' & _ & _ & ->). injection H as <- <-. intros Hw id info Hu. simpl.
  set (n := next_id KeyLastCodeID (w_store w)). destruct (decide (id = n)) as [->|Hne].
  - rewrite code_at_set_eq. intros [= <-]. exists c, (w_vm w). simpl. rewrite Hv.
    split; [by eapply GetCode_Create|done].
  - rewrite !code_at_set_ne; [apply HR; [done|done]|keys_differ|].
    intros Heq%GetCodeKey_inj; [done|apply next_id_u64|done].
Qed.

Lemma loadedR_counted w w1 : counted w w1 -> loadedR w w1.
Proof. intros (g & _ & _ & ->). apply loadedR_Set. intros. keys_differ. Qed.

#[export] Instance loadedR_callframe : CallFrame loadedR.
Proof.
  apply callframe_record; [apply _|apply loadedR_Create|apply loadedR_counted|].
  intros. apply loadedR_Set. intros. keys_differ.
Qed.

(** ** What an import keeps *)

(** The accounts, the form of the records, and that code is loaded. *)
Definition importR (w w' : world) : Prop :=
  w_sdk w' = w_sdk w /\ typedR w w' /\ loadedR w w'.

#[export] Instance importR_preorder : PreOrder importR.
Proof.
  split; [intros w; split; [done|split; reflexivity]|]. intros w1 w2 w3 (H1 & H2 & H3) (J1 & J2 & J3).
  split; [congruence|]. split; [by transitivity w2|by transitivity w2].
Qed.

Lemma importR_Set k v :
  (forall s, well_typed s -> well_typed (kv_set k v s)) -> (forall id, k <> GetCodeKey id) ->
  sound importR (store_Set k v).
Proof.
  intros Ht Hk. apply sound_intro. intros w r w' (g & _ & _ & ->)%store_Set_Ret.
  split; [done|]. split; [exact (Ht (w_store w))|by apply loadedR_Set].
Qed.

Lemma importR_InitGenesis data : sound importR (InitGenesis data).
Proof.
  apply sound_InitGenesis.
  - apply _.
  - intros w w' Hg. pose proof (frame_gas typedR w w' Hg). pose proof (frame_gas loadedR w w' Hg).
    destruct Hg as (g & -> & _). done.
  - intros. apply sound_intro. intros w r w' H.
    split; [|split; eapply sound_Ret; [apply typedR_Create|done|apply loadedR_Create|done]].
    apply Create_Ret in H. destruct r as [id|err].
    + by destruct H as (? & h & v & g & _ & _ & _ & _ & _ & _ & ->).
    + by destruct H as (_ & (v & ->) & _).
  - intros. apply importR_Set; [intros; by apply well_typed_contract|intros; keys_differ].
  - intros. apply importR_Set; [intros; by apply well_typed_state|intros; keys_differ].
Qed.

End LoadedLemmas.

(** ** The life of a chain *)

Section Life.
Context {E : Env} {L : EnvLaws E} {MC : ModuleCodec} {ML : ModuleCodecLaws}.

(** A block, or a restart: the module exports its genesis file, on whatever
    meter, and imports it into an empty store, next to the accounts there were and
    with whatever virtual machine. *)
Inductive life_step : world -> world -> Prop :=
  | life_block w w' : chain_step w w' -> life_step w w'
  | life_restart w g bz w1 w0 w' :
      AppModule_ExportGenesis (set_gas g w) = Ret bz w1 ->
      (forall k, kv_get k (w_store w0) = None) ->
      (forall a, is_Some (account_at (w_sdk w) a) -> is_Some (account_at (w_sdk w0) a)) ->
      AppModule_InitGenesis bz w0 = Ret tt w' -> life_step w w'.

Definition life_ok (w : world) : Prop := chain_ok w /\ codes_loaded w.

Lemma life_readable w : life_ok w -> readable w.
Proof. by intros [[_ Hd Ht _] Hl]. Qed.

Lemma life_gas g w : life_ok w -> life_ok (set_gas g w).
Proof. by intros [[H1 H2 H3 H4] H5]. Qed.

Lemma life_exportable w : life_ok w -> no_archives w -> exportable w.
Proof.
  intros [[_ Hd Ht _] Hl] Ha. split; [done|done|]. intros id info Hu Hi.
  destruct (Hl _ _ Hu Hi) as (code & v & Hg & Hh). exists code, v. split; [done|].
  split; [by eapply Ha|done].
Qed.

Lemma chain_step_loaded w w' : chain_step w w' -> loadedR w w'.
Proof.
  intros [n ctx m limit w1 res w2 _ _ H|w1 w2 H]; [|by apply frame_sdk].
  exact (sound_message loadedR _ _ _ _ _ _ H).
Qed.

Lemma empty_loaded w : (forall k, kv_get k (w_store w) = None) -> codes_loaded w.
Proof. intros He id info _. unfold code_at. by rewrite He. Qed.

Lemma code_below s id :
  well_typed s -> codes_dense s -> is_u64 id ->
  (is_Some (code_at s id) <-> 1 <= id < next_id KeyLastCodeID s).
Proof.
  intros Ht [_ Hd] Hu. rewrite <- (Hd id Hu). unfold code_at. destruct (kv_get (GetCodeKey id) s) as [b|] eqn:Eb.
  - split; [by eexists|]. intros _. simpl. by eapply wt_code.
  - by split; intros [].
Qed.

Lemma contract_record w a : is_Some (contract_at (w_store w) a) -> is_Some (kv_get (GetContractAddressKey a) (w_store w)).
Proof. unfold contract_at. destruct (kv_get _ _); [by eexists|by intros []]. Qed.

(** What the module exports, in the terms of [Genesis.v]. *)
Lemma life_export w g bz w1 :
  life_ok w -> AppModule_ExportGenesis (set_gas g w) = Ret bz w1 ->
  bz = MarshalJSON_Genesis (exported w) /\ ids_u64 (exported w).
Proof.
  intros Hok HX. pose proof (life_readable _ (life_gas g _ Hok)) as Hr.
  destruct (proj2 (wpg_elim _ _ _ (wpg_AppModule_ExportGenesis _ Hr)) _ _ HX) as [-> _].
  split; [done|]. exact (exported_ids_u64 _ Hr).
Qed.

(** The contracts of a cleaned export are those of the chain. *)
Lemma clean_exported_contract w c i :
  well_typed (w_store w) -> In c (Contracts (clean_genesis (exported w))) ->
  unmarshal_ContractInfo (marshal_ContractInfo (contract_Info c)) = Some i ->
  exists info, contract_at (w_store w) (ContractAddress c) = Some info /\ CodeID i = CodeID info.
Proof.
  intros Ht Hin Hi. simpl in Hin. rewrite map_map in Hin.
  apply in_map_iff in Hin as ([a bz] & <- & Hbz%kv_iter_spec).
  destruct (wt_contract _ Ht a bz Hbz) as [info Hinfo]. simpl in Hi |- *. rewrite Hinfo in Hi. simpl in Hi.
  exists info. split; [unfold contract_at, GetContractAddressKey; by rewrite Hbz|].
  rewrite unmarshal_marshal_ContractInfo in Hi. injection Hi as <-. simpl. apply u64_small.
  by eapply unmarshal_ContractInfo_u64.
Qed.

Lemma clean_exported_length w :
  codes_dense (w_store w) ->
  1 + Z.of_nat (length (Codes (clean_genesis (exported w)))) = next_id KeyLastCodeID (w_store w).
Proof.
  intros [H1 _]. simpl. rewrite !length_map, length_seqZ. lia.
Qed.

Lemma restart_ok w g bz w1 w0 w' :
  life_ok w -> AppModule_ExportGenesis (set_gas g w) = Ret bz w1 ->
  (forall k, kv_get k (w_store w0) = None) ->
  (forall a, is_Some (account_at (w_sdk w) a) -> is_Some (account_at (w_sdk w0) a)) ->
  AppModule_InitGenesis bz w0 = Ret tt w' -> life_ok w'.
Proof.
  intros Hok HX He Hacc HI. destruct (life_export _ _ _ _ Hok HX) as [-> Hids].
  unfold AppModule_InitGenesis in HI. destruct (addresses_ok (exported w)) eqn:Ha.
  2: { destruct (Unmarshal_bad_address _ Hids Ha) as [err Herr]. by rewrite Herr in HI. }
  rewrite Unmarshal_Marshal_Genesis in HI by done.
  destruct (sound_Ret _ _ _ _ _ (importR_InitGenesis _) HI) as (Hs & Ht & Hl).
  pose proof (empty_chain_ok w0 He) as [_ _ Ht0 _]. apply Ht in Ht0.
  destruct Hok as [[H1 H2 H3 H4] H5]. pose proof (clean_exported_length w H2) as Hlen.
  pose proof (next_id_u64 KeyLastCodeID (w_store w)) as Hu64. unfold is_u64 in Hu64.
  destruct (InitGenesis_Ret _ _ _ _ HI He ltac:(lia)) as (Hn & Hd & Hcon). rewrite Hlen in Hn.
  assert (Hold : forall a i, contract_at (w_store w') a = Some i ->
    exists info, contract_at (w_store w) a = Some info /\ CodeID i = CodeID info).
  { intros a i (c & Hc & <- & Hi)%Hcon. by eapply clean_exported_contract. }
  split; [split|]; [|done|done| |by apply Hl, empty_loaded].
  - intros a [b Hb]. rewrite Hs. apply Hacc, H1, contract_record.
    destruct (wt_contract _ Ht0 a b Hb) as [i Hi]. destruct (Hold a i) as (info & Hinfo & _); [|by eexists].
    unfold contract_at. by rewrite Hb.
  - intros a i. simpl. intros (info & Hinfo & Hid)%Hold. destruct (H4 a info Hinfo) as (Hu & Hc & n & Hx).
    rewrite Hid. split; [done|]. split; [|exists n; unfold reg_address; by rewrite Hid].
    apply (code_below _ _ Ht0 Hd Hu). rewrite Hn. by apply (code_below _ _ H3 H2 Hu).
Qed.

Lemma life_reachable_ok w0 w : rtc life_step w0 w -> life_ok w0 -> life_ok w.
Proof.
  induction 1 as [|w1 w2 w3 H _ IH]; [done|]. intros Hok. apply IH.
  destruct H as [w1 w2 H|w1 g bz w2 w4 w5 HX He Hacc HI].
  - destruct Hok as [H1 H2]. split; [by eapply chain_step_ok|by eapply chain_step_loaded].
  - by eapply restart_ok.
Qed.

Lemma empty_life_ok w : (forall k, kv_get k (w_store w) = None) -> life_ok w.
Proof. intros He. split; [by apply empty_chain_ok|by apply empty_loaded]. Qed.

(** On a chain, contract addresses are fit for JSON, so only creators matter. *)
Lemma life_addresses_ok w : life_ok w -> creators_ok w -> addresses_ok (exported w) = true.
Proof.
  intros Hok [HC HD]. pose proof (life_readable _ Hok) as Hr. destruct Hok as [[_ _ H3 H4] _].
  unfold addresses_ok, genesis_addresses. rewrite forallb_app, andb_true_iff, !forallb_forall. simpl.
  rewrite !map_map. split.
  - intros a (id & <- & Hid)%in_map_iff. apply list_elem_of_In, elem_of_seqZ in Hid.
    destruct (readable_code w id Hr ltac:(lia)) as [Hu [info Hi]]. unfold exported_code. rewrite Hi. by eapply HC.
  - intros a ([|x [|y []]] & Hl & Ha)%in_concat; try done;
      apply in_map_iff in Hl as ([b bz] & [= <- <-] & Hbz%kv_iter_spec).
    destruct (wt_contract _ H3 b bz Hbz) as [info Hi].
    assert (Hb : contract_at (w_store w) b = Some info)
      by (unfold contract_at, GetContractAddressKey; by rewrite Hbz).
    simpl in Ha. rewrite Hi in Ha. destruct Ha as [<-|[<-|[]]]; [|by eapply HD].
    destruct (H4 b info Hb) as (_ & _ & n & ->). unfold address_ok, reg_address.
    rewrite contract_address_length. by vm_compute.
Qed.

(** C8: through any blocks and restarts of a chain that started empty: code ids are
    dense and records decode; every contract has an account, an address of the
    right length and the code it names, and the virtual machine has that code. The
    genesis file can always be exported: the module panics over gas or not at all.
    And if no uploaded code is itself an archive, which the import would unpack
    once more, and no creator has an address that the JSON cannot hold, importing
    the file into an empty store panics over gas or not at all. *)
Theorem chain_life_sound w0 w :
  (forall k, kv_get k (w_store w0) = None) -> rtc life_step w0 w ->
  codes_dense (w_store w) /\ well_typed (w_store w) /\
  (forall a info, contract_at (w_store w) a = Some info ->
    is_Some (account_at (w_sdk w) a) /\ length a = AddrLen /\
    exists ci code, code_at (w_store w) (CodeID info) = Some ci /\
      wasmer_GetCode (CodeHash ci) (w_vm w) = Ok code) /\
  (forall g, only_gas_panics (set_gas g w) AppModule_ExportGenesis) /\
  (no_archives w -> creators_ok w -> forall g bz w1 v,
    AppModule_ExportGenesis (set_gas g w) = Ret bz w1 -> (forall k, kv_get k (w_store v) = None) ->
    only_gas_panics v (AppModule_InitGenesis bz)).
Proof.
  intros He Hr. pose proof (life_reachable_ok _ _ Hr (empty_life_ok _ He)) as Hok.
  pose proof Hok as [[H1 H2 H3 H4] H5]. split; [done|]. split; [done|]. split; [|split].
  - intros a info Hi. destruct (H4 _ _ Hi) as (Hu & [ci Hci] & n & Ha).
    split; [by apply H1, contract_record; rewrite Hi|].
    split; [rewrite Ha; apply contract_address_length|].
    destruct (H5 _ _ Hu Hci) as (code & _ & Hg & _). by exists ci, code.
  - intros g. exact (proj1 (wpg_elim _ _ _ (wpg_AppModule_ExportGenesis _ (life_readable _ (life_gas g _ Hok))))).
  - intros Hna Hcr g bz w1 v HX Hv. destruct (life_export _ _ _ _ Hok HX) as [-> Hids].
    unfold AppModule_InitGenesis. rewrite Unmarshal_Marshal_Genesis; [|done|by apply life_addresses_ok].
    apply InitGenesis_importable; [|intros bz; by rewrite Hv].
    apply exported_importable, life_exportable; done.
Qed.

(** On such a chain a message can only panic for gas, for a contract's empty
    message, or inside another module. *)
Theorem chain_life_safe w0 w n ctx m g p :
  (forall k, kv_get k (w_store w0) = None) -> rtc life_step w0 w ->
  NewHandler (entry n) ctx m (set_gas g w) = Panic p -> allowed_panic p.
Proof.
  intros He Hr. pose proof (life_reachable_ok _ _ Hr (empty_life_ok _ He)) as [[H1 _ H3 _] _].
  apply (safe_NewHandler (entry n) (safe_entry_n n)). by split.
Qed.

End Life.

(** ** Witnesses *)

#[local] Existing Instances demo_scripts RefEnv RefEnvLaws demo_ModuleCodec demo_ModuleCodecLaws.

Lemma chain_two_life : rtc life_step demo_empty chain_two.
Proof.
  refine (rtc_congruence id _ _ _ _ chain_two_reachable).
  intros. by apply life_block.
Qed.

(** The chain after an upload, an instantiation and a restart. *)
Definition chain_two_file : bytes := default [] (returned (AppModule_ExportGenesis chain_two)).

(** The accounts are kept, the module's store and the virtual machine are new. *)
Definition restart_world : world := ref_world 1000000 (w_sdk chain_two).
Definition chain_restarted : world := final (AppModule_InitGenesis chain_two_file) restart_world.

Lemma chain_restarted_life : rtc life_step demo_empty chain_restarted.
Proof.
  apply rtc_r with chain_two; [exact chain_two_life|].
  eapply (life_restart chain_two (w_gas chain_two) chain_two_file _ restart_world); [by_run| |done|by_run].
  intros k. exact (lookup_empty k).
Qed.

Lemma chain_life_sound_witness :
  length demo_contract = AddrLen /\
  exists ci code, code_at (w_store chain_restarted) 1 = Some ci /\
    wasmer_GetCode (CodeHash ci) (w_vm chain_restarted) = Ok code.
Proof.
  destruct (chain_life_sound demo_empty chain_restarted demo_empty_get chain_restarted_life) as (_ & _ & H & _).
  destruct (H demo_contract (NewContractInfo 1 alice "init") ltac:(vm_compute; reflexivity)) as (_ & Hl & Hc).
  split; [exact Hl|exact Hc].
Defined.

Lemma chain_life_safe_witness :
  panicked (NewHandler (entry 60) ref_ctx loop_msg (set_gas (gm_NewGasMeter 200000) chain_restarted))
    = Some PanicOutOfGas /\ allowed_panic PanicOutOfGas.
Proof.
  assert (Hp : panicked (NewHandler (entry 60) ref_ctx loop_msg (set_gas (gm_NewGasMeter 200000) chain_restarted))
    = Some PanicOutOfGas) by (vm_compute; reflexivity).
  split; [exact Hp|].
  exact (chain_life_safe demo_empty chain_restarted 60 ref_ctx loop_msg _ _ demo_empty_get
    chain_restarted_life (panicked_Panic _ _ Hp)).
Defined.
