(* ===== verification/Funds.v ===== *)
(** * Whose coins a message can take

    The module moves coins with [SendCoins] and lets contracts send any message of
    the application. This file shows that this is safe for the holders of accounts:
    however deeply a message nests, it takes coins from its own sender, at most the
    funds it names, and from contracts that send messages, which may be restricted to
    the calls of their owners. It is the claim
    behind the signature check of [handleSdkMessage], and it needs the whole
    recursion: a contract signs what it dispatches, a called contract is paid by
    the contract that calls it, and a contract that is being instantiated already
    sends messages while it has no record. What one message takes adds up over runs
    of messages, to this module and to the others ([tx_run]). *)

From S2P Require Import Prelude GoStd SdkTypes Types Sdk Ref Gas Store Code Keeper Demo Runs Dispatch Nesting Invariants Registry.

(** ** Balances *)

(** The coins of one denomination in a list. *)
Definition amount_of (d : string) (cs : Coins) : Z :=
  foldr (fun c n => (if decide (coin_Denom c = d) then coin_Amount c else 0) + n) 0 cs.

Section Balances.
Context {E : Env}.

Definition balance (w : world) (a : bytes) (d : string) : Z :=
  match account_at (w_sdk w) a with
  | Some acct => amount_of d (acc_Coins acct)
  | None => 0
  end.

(** What account [c] pays when [p] pays [cs]. *)
Definition owes (p : bytes) (cs : Coins) (c : bytes) (d : string) : Z :=
  if decide (c = p) then amount_of d cs else 0.

(** The funds a message of the module names, taken from its sender. *)
Definition named_funds (m : sdk_msg) (c : bytes) (d : string) : Z :=
  match m with
  | WasmMsg _ (WInstantiate m) => owes (ic_Sender m) (ic_InitFunds m) c d
  | WasmMsg _ (WExecute m) => owes (ec_Sender m) (ec_SentFunds m) c d
  | _ => 0
  end.

(** Every answer a program can give, whatever it reads. *)
Fixpoint every_answer {A} (P : A -> Prop) (p : host_prog A) : Prop :=
  match p with
  | HDone (Ok a) => P a
  | HDone (Err _) => True
  | HGet _ f => forall v, every_answer P (f v)
  | HSet _ _ p => every_answer P p
  | HHumanAddress _ f => forall r, every_answer P (f r)
  | HCanonicalAddress _ f => forall r, every_answer P (f r)
  end.

Definition no_contract (w : world) (a : bytes) : Prop := contract_at (w_store w) a = None.

(** Code that, run for the contract at [a], sends messages only when one of its
    [owners] calls. *)
Definition obeys (owners : bytes -> Prop) (hash a : bytes) : Prop :=
  forall v params msg gas,
    wasmTypes.Address (wasmTypes.Contract params) = a ->
    ~ owners (wasmTypes.Signer (wasmTypes.Message params)) ->
    every_answer (fun res => wasmTypes.Messages res = []) (wasmer_Instantiate v hash params msg gas) /\
    every_answer (fun res => wasmTypes.Messages res = []) (wasmer_Execute v hash params msg gas).

(** There is no contract at [a], or one with such code. *)
Definition guarded (owners : bytes -> Prop) (w : world) (a : bytes) : Prop :=
  forall info ci, contract_at (w_store w) a = Some info ->
    code_at (w_store w) (CodeID info) = Some ci -> obeys owners (CodeHash ci) a.

End Balances.

(** ** What the other modules promise

    A transfer takes the amount from its sender and nothing from anybody else. A
    handler of another module takes coins from the signers of the message, and from
    the accounts of modules (a delegator's rewards, say, are paid by the account of
    the distribution module): [module_account]. *)
Class Treasury := { module_account : bytes -> Prop }.

Class TreasuryLaws {E : Env} {T : Treasury} : Prop := {
  SendCoins_takes ctx a b cs w w' c d :
    SendCoins ctx a b cs w = Ret None w' ->
    balance w c d - owes a cs c d <= balance w' c d;
  other_handler_takes r h ctx m w res w' c d :
    other_handler r = Some h -> h ctx m w = Ret res w' -> IsOK res = true ->
    c ∉ msg_GetSigners m -> ~ module_account c ->
    balance w c d <= balance w' c d }.

(** ** The relation *)

Section Pays.
Context {E : Env} {L : EnvLaws E} {T : Treasury} {TL : TreasuryLaws}.
Context (owners : bytes -> Prop).

(** The owners do not act, and have no contract. *)
Definition absent (act : bytes -> Prop) (w : world) : Prop := forall o, owners o -> ~ act o /\ no_contract w o.

(** Between [w] and [w'], while only the accounts in [act] act and the owners are
    absent, an account pays at most its [debt]; contracts that serve others than the
    owners, modules, and the accounts in [free] may pay anything. *)
Definition paysR (free act : bytes -> Prop) (debt : bytes -> string -> Z) (w w' : world) : Prop :=
  registryR w w' /\
  (registry_ready w -> absent act w' ->
     forall c d, ~ free c -> ~ module_account c -> guarded owners w' c ->
       balance w c d - debt c d <= balance w' c d).

Definition nobody : bytes -> Prop := fun _ => False.
Definition nothing : bytes -> string -> Z := fun _ _ => 0.

(** Records stay, so what is guarded, or absent, in the end was so before. *)
Lemma guarded_back w w' c :
  registryR w w' -> registry_ready w -> guarded owners w' c -> guarded owners w c.
Proof.
  intros (_ & _ & Hl) Hw Hq info ci Hi Hc. destruct (Hl Hw) as [log Hlog].
  destruct (reg_log_keeps _ _ _ Hlog) as [Kc Ki]. apply (Hq info ci); [by apply Ki|].
  apply Kc; [|done]. unfold contract_at in Hi. apply bind_Some in Hi as (bz & _ & Hi).
  by eapply unmarshal_ContractInfo_u64.
Qed.

Lemma no_contract_back w w' o :
  registryR w w' -> registry_ready w -> no_contract w' o -> no_contract w o.
Proof.
  intros (_ & _ & Hl) Hw Hn. destruct (Hl Hw) as [log Hlog]. unfold no_contract in *.
  destruct (contract_at (w_store w) o) as [i|] eqn:Ei; [|done].
  apply reg_log_keeps in Hlog as [_ Ki]. specialize (Ki o i Ei). simpl in Ki. congruence.
Qed.

Lemma absent_back act w w' : registryR w w' -> registry_ready w -> absent act w' -> absent act w.
Proof. intros HR Hw Ha o Ho. destruct (Ha o Ho). split; [done|]. by eapply no_contract_back. Qed.

Lemma run_host_answers {A} (P : A -> Prop) pre api p w a w' :
  run_host pre api p w = Ret (Ok a) w' -> every_answer P p -> P a.
Proof.
  revert w. induction p as [[a'|err]|k f IH|k v p IH|c f IH|h f IH]; simpl; intros w H Hp.
  - by injection H as -> _.
  - done.
  - minv H. eauto.
  - minv H. eauto.
  - eauto.
  - eauto.
Qed.

Lemma paysR_trans free act d1 d2 w1 w2 w3 :
  paysR free act d1 w1 w2 -> paysR free act d2 w2 w3 -> paysR free act (fun c d => d1 c d + d2 c d) w1 w3.
Proof.
  intros [R1 P1] [R2 P2]. split; [by transitivity w2|]. intros Hw Ha c d Hf Hm Hn.
  pose proof (registry_ready_next _ _ R1 Hw) as Hw2. specialize (P2 Hw2 Ha c d Hf Hm Hn).
  specialize (P1 Hw (absent_back _ _ _ R2 Hw2 Ha) c d Hf Hm (guarded_back _ _ _ R2 Hw2 Hn)). lia.
Qed.

Lemma paysR_weaken (free free' act act' : bytes -> Prop) (debt debt' : bytes -> string -> Z) w w' :
  (forall c, free c -> free' c) -> (forall o, act o -> act' o) ->
  (forall c d, ~ free' c -> debt c d <= debt' c d) ->
  paysR free act debt w w' -> paysR free' act' debt' w w'.
Proof.
  intros Hf Hact Hd [R P]. split; [done|]. intros Hw Ha c d Hc Hm Hn.
  assert (Ha' : absent act w') by (intros o Ho; destruct (Ha o Ho); auto).
  specialize (P Hw Ha' c d (fun H => Hc (Hf c H)) Hm Hn). specialize (Hd c d Hc). lia.
Qed.

(** Steps that pay nothing, before and after. *)
Lemma paysR_before free act debt w w1 w' :
  paysR free act nothing w w1 -> paysR free act debt w1 w' -> paysR free act debt w w'.
Proof.
  intros H1 H2. eapply paysR_weaken, (paysR_trans _ _ _ _ _ _ _ H1 H2); [done|done|]. unfold nothing. lia.
Qed.

Lemma paysR_after free act debt w w1 w' :
  paysR free act debt w w1 -> paysR free act nothing w1 w' -> paysR free act debt w w'.
Proof.
  intros H1 H2. eapply paysR_weaken, (paysR_trans _ _ _ _ _ _ _ H1 H2); [done|done|]. unfold nothing. lia.
Qed.

(** Steps that leave the accounts alone. *)
Lemma paysR_same free act w w' : registryR w w' -> w_sdk w' = w_sdk w -> paysR free act nothing w w'.
Proof. intros HR Hs. split; [done|]. unfold balance, nothing. rewrite Hs. intros. lia. Qed.

Lemma paysR_refl free act w : paysR free act nothing w w.
Proof. apply paysR_same; [by apply (reflexivity (R:=registryR))|done]. Qed.

Lemma paysR_gas free act w w' : gas_step w w' -> paysR free act nothing w w'.
Proof.
  intros H. apply paysR_same; [exact (frame_gas registryR _ _ H)|]. by destruct H as (g & -> & _).
Qed.

Lemma paysR_charged free act used w w' : charged used w w' -> paysR free act nothing w w'.
Proof. intros [H _]. by apply paysR_gas. Qed.

Lemma paysR_counted free act w w' : counted w w' -> paysR free act nothing w w'.
Proof.
  intros H. apply paysR_same; [by apply registryR_counted|]. by destruct H as (g & _ & _ & ->).
Qed.

Lemma paysR_ran {A} free act a (prog : vm -> host_prog A) w r w' :
  ran a prog w r w' -> paysR free act nothing w w'.
Proof.
  intros H. apply paysR_same.
  - exact (sound_Ret registryR _ _ _ _ (sound_run_host registryR a cosmwasmAPI (prog (w_vm w))) H).
  - by apply ran_under in H as (_ & Hs & _).
Qed.

Lemma paysR_SendCoins act ctx a b cs w w' :
  SendCoins ctx a b cs w = Ret None w' -> paysR nobody act (owes a cs) w w'.
Proof.
  intros H. split; [|intros; by eapply SendCoins_takes]. by eapply frame_sdk, SendCoins_step.
Qed.

(** A successful call pays with the caller's coins. *)
Definition pays_entry (e : Entry) : Prop :=
  (forall ctx id creator msg cs w a w',
     e_Instantiate e ctx id creator msg cs w = Ret (a, None) w' ->
     paysR nobody (eq creator) (owes creator cs) w w') /\
  (forall ctx a caller msg cs w r w',
     e_Execute e ctx a caller msg cs w = Ret (Ok r) w' ->
     paysR nobody (eq caller) (owes caller cs) w w').

Lemma paysR_set_events free act debt es es' w w' :
  paysR free act debt (set_events es w) w' -> paysR free act debt w (set_events es' w').
Proof.
  intros H. eapply paysR_before, paysR_after, paysR_same; [apply paysR_same|exact H|..]; try done;
    apply (frame_events (R:=registryR)).
Qed.

(** *** The messages of the module *)

Lemma NewHandler_pays e ctx m w res w' :
  pays_entry e -> NewHandler e ctx m w = Ret res w' -> IsOK res = true ->
  paysR nobody (fun a => a ∈ msg_GetSigners m) (named_funds m) w w'.
Proof.
  intros [HI HX] (w1 & -> & H)%NewHandler_Ret Hok. apply (paysR_set_events _ _ _ []).
  assert (Hbad : forall err, Ret (ResultFromError err) (set_events [] w) <> Ret res w1).
  { intros err [= <- _]. by rewrite ResultFromError_not_ok in Hok. }
  destruct m as [ptr [m|m|m]|m|m]; [..|by destruct (Hbad _ H)|by destruct (Hbad _ H)].
  - apply paysR_same.
    + unfold handleStoreCode in H. pose proof registryR_Create as HC.
      refine (sound_Ret registryR _ _ _ _ _ H). solve_sound.
    + unfold handleStoreCode in H. destruct (MsgStoreCode_ValidateBasic m); [by injection H as _ <-|].
      minv H. apply Create_Ret in E0. destruct r as [id|err].
      * destruct E0 as (c & h & v & g & _ & _ & _ & _ & _ & _ & ->). minv H. injection E0 as <- <-.
        minv H. injection E0 as <- <-. by injection H as <- <-.
      * injection H as <- <-. by rewrite ResultFromError_not_ok in Hok.
  - unfold handleInstantiate in H. minv H. destruct r as [a [err|]].
    { injection H as <- <-. by rewrite ResultFromError_not_ok in Hok. }
    apply HI in E0. minv H. injection E1 as <- <-. minv H. injection E1 as <- <-. injection H as <- <-.
    eapply paysR_after; [eapply paysR_weaken, E0; [done|by intros o <-; apply elem_of_cons; left|]|].
    { intros c d _. apply Z.le_refl. }
    apply paysR_same; [|done]. apply (frame_events (R:=registryR)).
  - unfold handleExecute in H. minv H. destruct r as [x|err].
    2: { injection H as <- <-. by rewrite ResultFromError_not_ok in Hok. }
    apply HX in E0. minv H. injection E1 as <- <-. minv H. injection E1 as <- <-. injection H as <- <-.
    eapply paysR_after; [eapply paysR_weaken, E0; [done|by intros o <-; apply elem_of_cons; left|]|].
    { intros c d _. apply Z.le_refl. }
    apply paysR_same; [|done]. apply (frame_events (R:=registryR)).
Qed.

Lemma owes_other p cs c d : c <> p -> owes p cs c d = 0.
Proof. intros H. unfold owes. by rewrite decide_False. Qed.

(** The funds a message names are a signer's. *)
Lemma named_funds_signer m c d : c ∉ msg_GetSigners m -> named_funds m c d = 0.
Proof.
  intros H. destruct m as [ptr [m|m|m]|m|m]; try done; simpl in *; apply owes_other; intros ->;
    apply H, elem_of_cons; by left.
Qed.

(** *** The messages of a contract *)

(** What a contract dispatches, it signs: it alone pays. *)
Lemma handleSdkMessage_pays e ctx a m w w' :
  pays_entry e -> handleSdkMessage e ctx a m w = Ret None w' -> sound_entry registryR e ->
  paysR (eq a) (eq a) nothing w w'.
Proof.
  intros He H Hs.
  destruct m as [m|]; [|done].
  destruct (handleSdkMessage_cases e ctx a m w) as [Hsig|Hf]; [|by rewrite Hf in H].
  assert (Hnot : forall c, a <> c -> c ∉ msg_GetSigners m).
  { intros c Hc Hin. rewrite list.Forall_forall in Hsig. by apply Hc, Hsig. }
  pose proof (sound_Ret registryR _ _ _ _ (sound_handleSdkMessage registryR e ctx a (Some m) Hs) H) as HR.
  unfold handleSdkMessage in H. destruct (negb _); [done|].
  destruct (router_Route e (msg_Route m)) as [h|] eqn:Er; [|done]. minv H.
  destruct (IsOK r) eqn:Hok; simpl in H; [|done]. injection H as <-.
  unfold router_Route in Er. case_bool_decide.
  - injection Er as <-. apply NewHandler_pays in E0; [|done..].
    eapply paysR_weaken; [| | |exact E0]; [done| |].
    + intros o Ho. destruct (decide (a = o)) as [|Hne]; [done|]. by apply Hnot in Ho.
    + intros c d Hc. rewrite named_funds_signer by auto. done.
  - split; [done|]. intros _ _ c d Hc Hm _. unfold nothing.
    pose proof (other_handler_takes _ _ _ _ _ _ _ c d Er E0 Hok (Hnot c Hc) Hm). lia.
Qed.

Lemma sendTokens_pays e ctx a from to ts w w' :
  pays_entry e -> sound_entry registryR e -> sendTokens e ctx a from to ts w = Ret None w' ->
  paysR (eq a) (eq a) nothing w w'.
Proof.
  intros He Hs H. unfold sendTokens in H. destruct ts; [injection H as <-; apply paysR_refl|].
  destruct (convertCosmosSendMsg _ _ _); [|done]. by eapply handleSdkMessage_pays.
Qed.

Lemma dispatchMessage_pays e ctx acct msg w w' :
  pays_entry e -> sound_entry registryR e ->
  dispatchMessage e ctx (Some acct) msg w = Ret None w' ->
  paysR (eq (acc_Address acct)) (eq (acc_Address acct)) nothing w w'.
Proof.
  intros He Hs H. unfold dispatchMessage in H.
  destruct (wasmTypes.MsgSend msg) as [send|]; [by eapply sendTokens_pays|].
  destruct (wasmTypes.MsgContract msg) as [call|].
  - destruct (AccAddressFromBech32 _) as [target|]; [|done]. minv H.
    destruct r as [err|]; [done|]. apply sendTokens_pays in E0; [|done..].
    eapply paysR_before; [exact E0|]. minv H. destruct r as [res|err]; [|done]. injection H as <-.
    apply He in E1. eapply paysR_weaken; [| | |exact E1]; [done|done|].
    intros c d Hc. by rewrite owes_other by congruence.
  - destruct (wasmTypes.MsgOpaque msg) as [op|]; [|done].
    destruct (ParseOpaqueMsg op); [|done]. by eapply handleSdkMessage_pays.
Qed.

Lemma dispatchMessages_pays e ctx acct msgs w w' :
  pays_entry e -> sound_entry registryR e ->
  dispatchMessages e ctx (Some acct) msgs w = Ret None w' ->
  paysR (eq (acc_Address acct)) (eq (acc_Address acct)) nothing w w'.
Proof.
  intros He Hs. unfold dispatchMessages. revert w.
  induction msgs as [|m msgs IH]; intros w H; [injection H as <-; apply paysR_refl|].
  simpl in H. minv H. destruct r; [done|]. eapply paysR_before; [|by apply IH].
  by eapply dispatchMessage_pays.
Qed.

(** *** The calls *)

(** A transfer to [a], the run of its code and the dispatch of its messages. *)
Lemma call_pays {A} e ctx a p cs (prog : vm -> host_prog A) w w1 w2 w3 w4 w5 w' acct r used msgs :
  pays_entry e -> sound_entry registryR e ->
  paysR nobody (eq p) nothing w w1 -> SendCoins ctx p a cs w1 = Ret None w2 -> gas_step w2 w3 ->
  account_at (w_sdk w2) a = Some acct -> ran a prog w3 r w4 -> charged used w4 w5 ->
  dispatchMessages e ctx (Some acct) msgs w5 = Ret None w' ->
  registryR w2 w' /\ paysR nobody (eq p) (owes p cs) w w5 /\
  paysR (eq a) (fun o => p = o \/ a = o) (owes p cs) w w'.
Proof.
  intros He Hs H1 H2%(paysR_SendCoins (eq p)) H3 Ha H4 H5 H6%dispatchMessages_pays; [|done..].
  assert (H25 : paysR nobody (eq p) nothing w2 w5).
  { eapply paysR_before; [by apply paysR_gas|].
    eapply paysR_before; [by eapply paysR_ran|by eapply paysR_charged]. }
  split; [transitivity w5; [apply H25|apply H6]|].
  rewrite (account_at_address _ _ _ Ha) in H6.
  assert (Hw5 : paysR nobody (eq p) (owes p cs) w w5).
  { eapply paysR_before; [exact H1|]. by eapply paysR_after. }
  split; [done|]. eapply paysR_after.
  - eapply paysR_weaken; [| | |exact Hw5]; [by intros ? []|by left|done].
  - eapply paysR_weaken; [| | |exact H6]; [done|by right|done].
Qed.

(** The callee pays nothing of its own when it is guarded; owners are not callees. *)
Lemma paysR_callee a p debt w w5 w6 w' :
  paysR nobody (eq p) debt w w5 -> paysR (eq a) (fun o => p = o \/ a = o) debt w w6 ->
  registryR w w' -> w_sdk w' = w_sdk w6 ->
  (registry_ready w -> absent (eq p) w' -> guarded owners w' a ->
     w6 = w5 /\ guarded owners w5 a) ->
  (registry_ready w -> ~ no_contract w' a) ->
  (forall c, a <> c -> guarded owners w' c -> guarded owners w6 c) ->
  (forall o, a <> o -> no_contract w' o -> no_contract w6 o) ->
  paysR nobody (eq p) debt w w'.
Proof.
  intros [_ P5] [_ P6] HR Hs Hq Hrec Hc Ho. split; [done|]. intros Hw Ha c d Hf Hm Hg.
  assert (Ha6 : absent (fun o => p = o \/ a = o) w6).
  { intros o Hown. destruct (Ha o Hown) as [Hp Hn].
    assert (a <> o) by (intros <-; by apply Hrec). split; [intuition|auto]. }
  unfold balance at 2. rewrite Hs. fold (balance w6 c d).
  destruct (decide (a = c)) as [->|Hne]; [|by apply P6; auto].
  destruct (Hq Hw Ha Hg) as [-> Hg5]. apply P5; try done.
  intros o Hown. destruct (Ha6 o Hown). auto.
Qed.

Lemma absent_caller p w : absent (eq p) w -> ~ owners p.
Proof. intros Ha Hp. by destruct (Ha p Hp). Qed.

Lemma Execute_pays e ctx a caller msg cs w r w' :
  pays_entry e -> sound_entry registryR e ->
  Execute e ctx a caller msg cs w = Ret (Ok r) w' -> paysR nobody (eq caller) (owes caller cs) w w'.
Proof.
  intros He Hs H.
  pose proof (sound_Ret registryR _ _ _ _ (sound_Execute registryR e ctx a caller msg cs Hs) H) as HR.
  apply Execute_Ret in H. inversion H as [| | |info ci w1 w2 w3 acct vmres w4 w5 derr w6 Hi Hci Hg Hsend Hg' Ha Hr Hch Hd].
  subst. destruct derr; [done|].
  destruct (call_pays e ctx a caller cs _ w w1 w2 w3 w4 w5 w' acct _ _ _ He Hs (paysR_gas _ _ _ _ Hg)
    Hsend Hg' Ha Hr Hch Hd) as (_ & P5 & P6).
  apply (paysR_callee a caller _ _ w5 w'); [done..| | |done|done].
  - intros Hw Habs%absent_caller Hq.
    pose proof (guarded_back _ _ _ HR Hw Hq info ci Hi Hci) as Hobeys.
    apply (run_host_answers (fun res => wasmTypes.Messages res = [])) in Hr.
    + rewrite Hr in Hd. by injection Hd as <-.
    + apply Hobeys; [by eapply account_at_address|done].
  - intros Hw Hn. apply (no_contract_back _ _ _ HR Hw) in Hn. unfold no_contract in Hn. congruence.
Qed.

(** A new contract has the code that ran, and had no record while it did. *)
Lemma new_contract_obeys id creator msg w w1 w2 w6 g ci :
  let a := new_address id w in
  let info := NewContractInfo id creator msg in
  account_at (w_sdk w) a = None -> counted w w1 -> sdk_step w1 w2 ->
  is_Some (account_at (w_sdk w2) a) -> code_at (w_store w2) id = Some ci -> registryR w2 w6 ->
  registry_ready w ->
  guarded owners (set_store (kv_set (GetContractAddressKey a) (marshal_ContractInfo info) (w_store w6))
                    (set_gas g w6)) a ->
  obeys owners (CodeHash ci) a /\ guarded owners w6 a.
Proof.
  intros a info Hn Hc H12 Ha Hci R26 Hw Hq.
  assert (Hready : registry_ready w2).
  { eapply registry_ready_next, Hw. transitivity w1; [by apply registryR_counted|].
    exact (frame_sdk (R:=registryR) _ _ H12). }
  assert (Hnone : kv_get (GetContractAddressKey a) (w_store w2) = None).
  { destruct H12 as (-> & _). destruct Hc as (g' & _ & _ & ->). simpl.
    rewrite kv_get_set_ne by keys_differ.
    destruct (kv_get (GetContractAddressKey a) (w_store w)) eqn:Ek; [|done].
    destruct Hw as [Hacc _]. destruct (Hacc a) as [x Hx]; [by rewrite Ek|]. congruence. }
  destruct R26 as ([K _] & _ & Hl). destruct (K a Ha) as [_ K6]. rewrite Hnone in K6. split.
  - apply (Hq (NewContractInfo (u64 id) creator msg) ci); unfold contract_at, code_at in *; simpl.
    + rewrite kv_get_set_eq. simpl. by rewrite unmarshal_marshal_ContractInfo.
    + rewrite kv_get_set_ne by keys_differ. destruct (Hl Hready) as [log Hlog].
      apply reg_log_keeps in Hlog as [Kc _]. apply (Kc (u64 id)); [apply u64_range|]. simpl.
      unfold code_at. by rewrite GetCodeKey_u64.
  - intros i c Hi. unfold contract_at in Hi. by rewrite K6 in Hi.
Qed.

Lemma Instantiate_pays e ctx id creator msg cs w a w' :
  pays_entry e -> sound_entry registryR e ->
  Instantiate e ctx id creator msg cs w = Ret (a, None) w' -> paysR nobody (eq creator) (owes creator cs) w w'.
Proof.
  intros He Hs H.
  pose proof (sound_Ret registryR _ _ _ _ (callframe_Instantiate e ctx id creator msg cs Hs) H) as HR.
  apply Instantiate_Ret in H.
  inversion H as [| | | |w1 w2 w3 ci acct vmres w4 w5 derr w6 r w7 Hn Hc Hsend Hg Ha Hci Hr Hch Hd Hend]. subst.
  destruct derr as [err|]; destruct Hend as [Hr' Hset]; [discriminate Hr'|]. injection Hr' as ->.
  destruct (call_pays e ctx _ creator cs _ w w1 w2 w3 w4 w5 w6 acct _ _ _ He Hs (paysR_counted _ _ _ _ Hc)
    Hsend Hg Ha Hr Hch Hd) as (R26 & P5 & P6).
  apply store_Set_Ret in Hset as (g & _ & _ & ->).
  set (na := new_address id w) in *.
  assert (Hkey : forall c, na <> c -> GetContractAddressKey na <> GetContractAddressKey c)
    by (by intros c Hne Hk%GetContractAddressKey_inj).
  apply (paysR_callee na creator _ _ w5 w6); [done..| | | |].
  - intros Hw Habs%absent_caller Hq. apply SendCoins_step in Hsend.
    destruct (new_contract_obeys id creator _ w w1 w2 w6 g ci Hn Hc Hsend ltac:(by eexists) Hci R26 Hw Hq) as [Hobeys Hq6].
    apply (run_host_answers (fun res => wasmTypes.Messages res = [])) in Hr.
    + rewrite Hr in Hd. by injection Hd as <-.
    + apply Hobeys; [by eapply account_at_address|done].
  - intros _. unfold no_contract, contract_at. simpl. rewrite kv_get_set_eq. simpl.
    by rewrite unmarshal_marshal_ContractInfo.
  - intros c Hne Hq i ci' Hi Hci'.
    apply (Hq i ci'); unfold contract_at, code_at in *; simpl; rewrite kv_get_set_ne; auto; keys_differ.
  - intros o Hne. unfold no_contract, contract_at. simpl. by rewrite kv_get_set_ne by auto.
Qed.

Lemma entry_pays n : pays_entry (entry n).
Proof.
  induction n as [|n IH]; [by split|]. pose proof (entry_sound registryR n).
  split; simpl; intros; [by eapply Instantiate_pays|by eapply Execute_pays].
Qed.

(** *** Runs of messages *)

(** The messages that succeed one after the other, each handled by the handler the
    application's router has for it, this module's or another one's, on a meter of
    its own. *)
Inductive tx_run : list sdk_msg -> world -> world -> Prop :=
  | tx_nil w : tx_run [] w w
  | tx_cons n ctx m limit h w res w1 ms w' :
      is_u64 limit -> next_id KeyLastCodeID (w_store w) + limit < two64 - 1 ->
      router_Route (entry n) (msg_Route m) = Some h ->
      h ctx m (set_gas (gm_NewGasMeter limit) w) = Ret res w1 -> IsOK res = true ->
      tx_run ms w1 w' -> tx_run (m :: ms) w w'.

(** The funds that [c] names in its own messages to the module. *)
Definition all_named (ms : list sdk_msg) (c : bytes) (d : string) : Z :=
  foldr (fun m n => named_funds m c d + n) 0 ms.

(** The owners sign nothing, and [c] nothing for other modules. *)
Definition bystands (c : bytes) (m : sdk_msg) : Prop :=
  (forall o, owners o -> o ∉ msg_GetSigners m) /\ (msg_Route m <> RouterKey -> c ∉ msg_GetSigners m).

(** What is asked of [c] at the end of a run. *)
Definition kept_by_owners (w : world) (c : bytes) : Prop :=
  guarded owners w c /\ forall o, owners o -> no_contract w o.

Lemma tx_pays n ctx m limit h w res w' c :
  is_u64 limit -> next_id KeyLastCodeID (w_store w) + limit < two64 - 1 ->
  router_Route (entry n) (msg_Route m) = Some h ->
  h ctx m (set_gas (gm_NewGasMeter limit) w) = Ret res w' -> IsOK res = true ->
  chain_ok w -> bystands c m -> ~ module_account c ->
  chain_ok w' /\
  (kept_by_owners w' c ->
     kept_by_owners w c /\ forall d, balance w c d - named_funds m c d <= balance w' c d).
Proof.
  intros Hl Hroom Hh H Hok Hw [Ho Hc] Hm. unfold router_Route in Hh. case_bool_decide as Hr.
  - injection Hh as <-. split; [eapply chain_step_ok, Hw; by eapply chain_message|]. intros [Hq Hn].
    destruct Hw as [Hacc Hcodes _ _].
    assert (Hready : registry_ready (set_gas (gm_NewGasMeter limit) w)).
    { split; [done|]. split; [done|]. simpl.
      destruct (gm_New_limit limit Hl) as (-> & -> & Hf). split; [done|]. lia. }
    apply NewHandler_pays in H as [HR P]; [|apply entry_pays|done].
    split; [split; [exact (guarded_back _ _ _ HR Hready Hq)|]|].
    + intros o Hown. exact (no_contract_back _ _ _ HR Hready (Hn o Hown)).
    + intros d. assert (Habs : absent (fun a => a ∈ msg_GetSigners m) w') by (split; auto).
      exact (P Hready Habs c d (fun f => f) Hm Hq).
  - pose proof (other_handler_step _ _ _ _ _ _ _ Hh H) as Hstep. split.
    + eapply chain_step_ok; [by apply chain_other|]. by destruct Hw.
    + intros [Hq Hn]. destruct Hstep as (Hs & _). unfold kept_by_owners, guarded, no_contract in *.
      rewrite Hs in Hq, Hn. split; [by split|]. intros d. rewrite named_funds_signer by auto.
      pose proof (other_handler_takes _ _ _ _ _ _ _ c d Hh H Hok (Hc Hr) Hm) as Hb.
      unfold balance in *. simpl in Hb. lia.
Qed.

Lemma tx_run_pays c ms w w' :
  tx_run ms w w' -> chain_ok w -> Forall (bystands c) ms -> ~ module_account c -> kept_by_owners w' c ->
  kept_by_owners w c /\ forall d, balance w c d - all_named ms c d <= balance w' c d.
Proof.
  intros H Hw Hms Hm Hq. induction H as [w|n ctx m limit h w res w1 ms w' Hl Hroom Hh H Hok _ IH].
  { split; [done|]. simpl. intros. lia. }
  apply list.Forall_cons in Hms as [Hb Hms].
  destruct (tx_pays _ _ _ _ _ _ _ _ c Hl Hroom Hh H Hok Hw Hb Hm) as [Hw1 P].
  destruct (IH Hw1 Hms Hq) as [Hq1 P1]. destruct (P Hq1) as [Hq0 P0]. split; [done|].
  intros d. specialize (P0 d). specialize (P1 d). simpl. lia.
Qed.

End Pays.

(** ** Properties *)

Section FundsProperties.
Context {E : Env} {L : EnvLaws E} {T : Treasury} {TL : TreasuryLaws}.

(** C4: a message takes at most the funds it names, from its sender. Whatever a
    successful message sets off, through any nesting of contract calls, sends and
    opaque messages, an account that has no contract and is not a module's has
    afterwards at least what it had, less the funds the message names when it is the
    sender's. The same holds of the account of a contract whose code sends messages
    only for its owners, as long as no owner signs the message and no owner is a
    contract. (What a message that fails has done is discarded by the application.) *)
Theorem message_takes_named_funds owners n ctx m w res w' c d :
  registry_ready w -> NewHandler (entry n) ctx m w = Ret res w' -> IsOK res = true ->
  (forall o, owners o -> (o ∉ msg_GetSigners m) /\ no_contract w' o) ->
  ~ module_account c -> guarded owners w' c ->
  balance w c d - named_funds m c d <= balance w' c d.
Proof.
  intros Hw H Hok Ho Hm Hq. apply (NewHandler_pays owners) in H as [_ P]; [|apply entry_pays|done].
  by apply P; [|by intros o Hown; apply Ho|intros []|..].
Qed.

(** C5: savings last. Over any run of messages that succeed, to this module and to
    the others of the application, by whomever they are signed, an account pays
    altogether at most the funds that it names in its own messages to this module,
    as long as it signs no message to another module, it is not a module's account,
    and it is no contract or one that sends messages for its owners only, who sign
    nothing and are no contracts: the coins of a contract that obeys its owners are
    safe for as long as they sign nothing, and those of a contract without owners
    for ever. (Messages only: the fees that the application takes before it handles
    them, and what other modules do between blocks, are not part of the run.) *)
Theorem savings_last owners w0 w ms w' c d :
  (forall k, kv_get k (w_store w0) = None) -> rtc chain_step w0 w ->
  tx_run ms w w' -> Forall (bystands owners c) ms -> ~ module_account c ->
  guarded owners w' c -> (forall o, owners o -> no_contract w' o) ->
  balance w c d - all_named ms c d <= balance w' c d.
Proof.
  intros He H0 H Hms Hm Hq Ho. pose proof (chain_reachable_ok _ _ H0 (empty_chain_ok _ He)) as Hok.
  by apply (tx_run_pays owners c ms w w' H Hok Hms Hm (conj Hq Ho)).
Qed.

End FundsProperties.

(** ** Witnesses *)

(** The bank of [Ref.v] keeps these promises. *)
Section RefTreasury.
Context `{Scripts}.

#[local] Existing Instances RefEnv RefEnvLaws.

#[local] Instance ref_Treasury : Treasury := {| module_account _ := False |}.

Lemma amount_of_add_coin d d' n cs :
  amount_of d (add_coin d' n cs) = amount_of d cs + (if decide (d' = d) then n else 0).
Proof.
  induction cs as [|c cs IH]; simpl; [lia|].
  destruct (decide (coin_Denom c = d')) as [<-|]; simpl; [|rewrite IH]; case_decide; lia.
Qed.

Lemma amount_of_add_coins d k new old :
  amount_of d (add_coins k new old) = amount_of d old + k * amount_of d new.
Proof.
  unfold add_coins. induction new as [|c new IH]; simpl; [lia|].
  rewrite amount_of_add_coin, IH. case_decide; lia.
Qed.

Lemma amount_of_positive d cs :
  existsb (fun c => coin_Amount c <=? 0) cs = false -> 0 <= amount_of d cs.
Proof.
  induction cs as [|c cs IH]; simpl; [done|]. intros [Hc Hcs]%orb_false_iff.
  specialize (IH Hcs). apply Z.leb_gt in Hc. case_decide; lia.
Qed.

Definition coins_of (s : gmap bytes Coins) (c : bytes) (d : string) : Z :=
  amount_of d (default [] (s !! c)).

Lemma ref_transfer_coins from to cs s s' c d :
  ref_transfer from to cs s = Ok s' -> coins_of s c d - owes from cs c d <= coins_of s' c d.
Proof.
  unfold ref_transfer. destruct (existsb _ cs) eqn:Ep; [done|]. apply (amount_of_positive d) in Ep.
  destruct (existsb _ _); [done|]. intros [= <-]. unfold coins_of, owes.
  destruct (decide (c = to)) as [->|Ht].
  - rewrite lookup_insert_eq. simpl. rewrite amount_of_add_coins.
    destruct (decide (to = from)) as [->|Hf].
    + rewrite lookup_insert_eq. simpl. rewrite amount_of_add_coins. lia.
    + rewrite lookup_insert_ne by done. lia.
  - rewrite lookup_insert_ne by done. case_decide as Hf.
    + subst. rewrite lookup_insert_eq. simpl. rewrite amount_of_add_coins. lia.
    + rewrite lookup_insert_ne by done. lia.
Qed.

Lemma balance_coins w c d : balance w c d = coins_of (w_sdk w) c d.
Proof.
  unfold balance, coins_of. change (account_at (w_sdk w) c)
    with ((fun cs => {| acc_Address := c; acc_Coins := cs |}) <$> ((w_sdk w : gmap bytes Coins) !! c)).
  by destruct ((w_sdk w : gmap bytes Coins) !! c).
Qed.

Lemma ref_SendCoins_takes ctx from to cs w r w' c d :
  ref_SendCoins ctx from to cs w = Ret r w' -> balance w c d - owes from cs c d <= balance w' c d
    \/ r <> None.
Proof.
  unfold ref_SendCoins. intros H0. minv H0. apply ref_pay_Ret in E as (g & -> & _).
  minv H0. injection E as <- <-. rewrite !balance_coins. simpl in H0.
  destruct (ref_transfer from to cs (w_sdk w)) as [s|e] eqn:Et.
  - injection H0 as <- <-. left. by eapply ref_transfer_coins.
  - injection H0 as <- <-. by right.
Qed.

#[local] Instance ref_TreasuryLaws : TreasuryLaws.
Proof.
  split; simpl.
  - intros ctx a b cs w w' c d Hs. by destruct (ref_SendCoins_takes _ _ _ _ _ _ _ c d Hs).
  - intros r h ctx m w res w' c d Hh Hr Hok Hc _. case_decide; [|done]. injection Hh as <-.
    destruct m as [|m|]; [injection Hr as <- <-; lia| |injection Hr as <- <-; lia].
    simpl in Hr. minv Hr. destruct (ref_SendCoins_takes _ _ _ _ _ _ _ c d E) as [Ht|Ht].
    + rewrite owes_other in Ht by (intros ->; apply Hc; simpl; apply elem_of_cons; by left).
      destruct r0; injection Hr as <- <-; lia.
    + destruct r0; [|done]. injection Hr as <- <-. discriminate Hok.
Qed.

End RefTreasury.

(** A chain with two codes: that of [Demo.v], which pays everybody who asks, and a
    vault, which does the same for alice only. *)
Definition vault_code : bytes := bytes_of_string "vault".

#[local] Instance vault_scripts : Scripts := {|
  script_instantiate hash params msg gas :=
    if decide (hash = vault_code /\ wasmTypes.Signer (wasmTypes.Message params) <> alice)
    then HDone (Ok (with_messages []))
    else @script_instantiate demo_scripts hash params msg gas;
  script_execute hash params msg gas :=
    if decide (hash = vault_code /\ wasmTypes.Signer (wasmTypes.Message params) <> alice)
    then HDone (Ok (with_messages []))
    else @script_execute demo_scripts hash params msg gas;
  script_query := @script_query demo_scripts |}.

#[local] Existing Instances RefEnv RefEnvLaws ref_Treasury ref_TreasuryLaws.

Definition bob : bytes := bytes_of_string "bob-----------------".

Definition funds_empty : world := ref_world 200000 {[ alice := gold 1000; bob := gold 50 ]}.

Definition funds_setup : list sdk_msg :=
  let store code := WasmMsg false (WStoreCode
    {| sc_Sender := alice; sc_WASMByteCode := code; sc_Source := ""; sc_Builder := "" |}) in
  let instantiate id := WasmMsg false (WInstantiate
    {| ic_Sender := alice; ic_Code := id; ic_InitMsg := bytes_of_string "init"; ic_InitFunds := gold 100 |}) in
  [store vault_code; store demo_code; instantiate 1; instantiate 2].

(** The state after a message with a meter of its own, and after several. *)
Definition with_gas (w : world) : world := set_gas (gm_NewGasMeter 200000) w.

Definition handled (m : sdk_msg) (w : world) : world := final (NewHandler (entry 3) ref_ctx m) (with_gas w).

Definition after (ms : list sdk_msg) (w : world) : world := foldl (fun w m => handled m w) w ms.

Definition funds_ready : world := after funds_setup funds_empty.

Definition vault : bytes := contract_address (contract_id 1 1).
Definition spender : bytes := contract_address (contract_id 2 2).

(** Bob calls the spender, which pays 7 back, with 5. *)
Definition bob_call : sdk_msg :=
  WasmMsg false (WExecute {| ec_Sender := bob; ec_Contract := spender; ec_Msg := bytes_of_string "pay";
                             ec_SentFunds := gold 5 |}).

Definition funds_after : world := handled bob_call funds_ready.

Example funds_moved :
  map (fun a => (balance funds_ready a "gold", balance funds_after a "gold")) [alice; bob; vault; spender]
  = [(800, 800); (50, 52); (100, 100); (100, 98)].
Proof. vm_compute. reflexivity. Qed.

(** Its owner can take coins from the vault, and nobody else. *)
Example vault_pays_alice :
  map (fun sender => balance (handled (WasmMsg false (WExecute
         {| ec_Sender := sender; ec_Contract := vault; ec_Msg := bytes_of_string "pay";
            ec_SentFunds := gold 5 |})) funds_ready) vault "gold") [alice; bob]
  = [98; 105].
Proof. vm_compute. reflexivity. Qed.

Definition succeeds (m : sdk_msg) (w : world) : bool :=
  match returned (NewHandler (entry 3) ref_ctx m (with_gas w)) with
  | Some res => IsOK res
  | None => false
  end && (next_id KeyLastCodeID (w_store w) <? 1000).

Lemma succeeds_run m w :
  succeeds m w = true ->
  next_id KeyLastCodeID (w_store w) + 200000 < two64 - 1 /\
  exists res, NewHandler (entry 3) ref_ctx m (with_gas w) = Ret res (handled m w) /\
    IsOK res = true.
Proof.
  unfold succeeds. intros [H Hn%Z.ltb_lt]%andb_prop. split; [unfold two64; lia|].
  destruct (returned _) as [res|] eqn:Er; [|done]. exists res. split; [|done]. by apply Ret_final.
Qed.

Lemma gas_is_u64 : is_u64 200000.
Proof. unfold is_u64, two64. lia. Qed.

Fixpoint all_succeed (ms : list sdk_msg) (w : world) : bool :=
  match ms with
  | [] => true
  | m :: ms => succeeds m w && all_succeed ms (handled m w)
  end.

Lemma after_chain ms w : all_succeed ms w = true -> rtc chain_step w (after ms w).
Proof.
  revert w. induction ms as [|m ms IH]; intros w; simpl; [intros _; apply rtc_refl|].
  intros [Hm Hms]%andb_prop. destruct (succeeds_run m w Hm) as (Hn & res & Hr & _).
  eapply rtc_l; [|exact (IH _ Hms)]. exact (chain_message _ _ _ _ _ _ _ gas_is_u64 Hn Hr).
Qed.

Lemma meter_ready w :
  next_id KeyLastCodeID (w_store w) + 200000 < two64 - 1 ->
  gm_finite (w_gas (with_gas w)) /\
  next_id KeyLastCodeID (w_store (with_gas w))
    + (gm_Limit (w_gas (with_gas w)) - gm_GasConsumed (w_gas (with_gas w))) < two64 - 1.
Proof.
  unfold with_gas. intros Hn. cbn [w_gas w_store set_gas].
  destruct (gm_New_limit 200000 gas_is_u64) as (-> & -> & Hf). split; [exact Hf|lia].
Qed.

Lemma funds_reachable : rtc chain_step funds_empty funds_ready.
Proof. apply after_chain. vm_compute. reflexivity. Qed.

Lemma funds_empty_get k : kv_get k (w_store funds_empty) = None.
Proof. exact (lookup_empty k). Qed.

Definition of_alice (a : bytes) : Prop := a = alice.

Lemma guarded_known owners w a info ci :
  contract_at (w_store w) a = Some info -> code_at (w_store w) (CodeID info) = Some ci ->
  obeys owners (CodeHash ci) a -> guarded owners w a.
Proof.
  intros Hi Hc Hq i c Hi' Hc'. rewrite Hi in Hi'. injection Hi' as <-.
  rewrite Hc in Hc'. by injection Hc' as <-.
Qed.

Lemma guarded_unknown owners w a : no_contract w a -> guarded owners w a.
Proof. intros Hn i c Hi. unfold no_contract in Hn. by rewrite Hn in Hi. Qed.

Lemma vault_obeys a : obeys of_alice vault_code a.
Proof.
  intros v params msg gas _ Hs. split; simpl; by rewrite decide_True by done.
Qed.

Lemma vault_is_guarded : guarded of_alice funds_after vault.
Proof.
  apply (guarded_known _ _ _ (NewContractInfo 1 alice "init") (NewCodeInfo vault_code alice "" ""));
    [vm_compute; reflexivity..|exact (vault_obeys vault)].
Qed.

Lemma bob_is_guarded : guarded of_alice funds_after bob.
Proof. apply guarded_unknown. vm_compute. reflexivity. Qed.

Lemma alice_is_absent o : of_alice o -> (o ∉ msg_GetSigners bob_call) /\ no_contract funds_after o.
Proof.
  intros ->. split; [|vm_compute; reflexivity].
  change (alice ∉ [bob]). rewrite list_elem_of_singleton. intros Hv. vm_compute in Hv. discriminate Hv.
Qed.

Lemma vault_signs_nothing : vault ∉ msg_GetSigners bob_call.
Proof.
  change (vault ∉ [bob]). rewrite list_elem_of_singleton. intros Hv. vm_compute in Hv. discriminate Hv.
Qed.

Lemma message_takes_named_funds_witness :
  named_funds bob_call bob "gold" = 5 /\ named_funds bob_call vault "gold" = 0 /\
  balance (with_gas funds_ready) bob "gold" - named_funds bob_call bob "gold"
  <= balance funds_after bob "gold" /\
  balance (with_gas funds_ready) vault "gold" - named_funds bob_call vault "gold"
  <= balance funds_after vault "gold".
Proof.
  destruct (succeeds_run bob_call funds_ready ltac:(vm_compute; reflexivity)) as (Hn & res & Hr & Hok).
  destruct (chain_reachable_ok _ _ funds_reachable (empty_chain_ok _ funds_empty_get)) as [Ha Hc _ _].
  assert (Hready : registry_ready (with_gas funds_ready)).
  { split; [exact Ha|]. split; [exact Hc|]. exact (meter_ready funds_ready Hn). }
  do 2 (split; [vm_compute; reflexivity|]). split.
  - exact (message_takes_named_funds of_alice 3 ref_ctx bob_call (with_gas funds_ready) res funds_after bob "gold"
      Hready Hr Hok alice_is_absent (fun f => f) bob_is_guarded).
  - exact (message_takes_named_funds of_alice 3 ref_ctx bob_call (with_gas funds_ready) res funds_after vault "gold"
      Hready Hr Hok alice_is_absent (fun f => f) vault_is_guarded).
Defined.

(** After his call, Bob sends alice 3 by the bank. *)
Definition bob_send : sdk_msg :=
  BankSend {| FromAddress := bob; ToAddress := alice; Amount := gold 3 |}.

(** What becomes of a message: the state after it, if it succeeds. *)
Definition routed (m : sdk_msg) (w : world) : option world :=
  match router_Route (entry 3) (msg_Route m) with
  | Some h =>
      match h ref_ctx m (with_gas w) with
      | Ret res w' => if IsOK res && (next_id KeyLastCodeID (w_store w) <? 1000) then Some w' else None
      | _ => None
      end
  | None => None
  end.

Fixpoint all_routed (ms : list sdk_msg) (w : world) : option world :=
  match ms with
  | [] => Some w
  | m :: ms => match routed m w with Some w' => all_routed ms w' | None => None end
  end.

Lemma all_routed_run ms w w' : all_routed ms w = Some w' -> tx_run ms w w'.
Proof.
  revert w. induction ms as [|m ms IH]; intros w; simpl; [intros [= ->]; exact (tx_nil w')|].
  unfold routed. destruct (router_Route (entry 3) (msg_Route m)) as [h|] eqn:Hh; [|done].
  destruct (h ref_ctx m (with_gas w)) as [res w1|p|] eqn:Hr; [|done..].
  destruct (IsOK res && _) eqn:Hok; [|done]. apply andb_prop in Hok as [Hok Hn%Z.ltb_lt]. intros H%IH.
  refine (tx_cons 3 ref_ctx m 200000 h w res w1 ms w' gas_is_u64 _ Hh Hr Hok H). unfold two64. lia.
Qed.

Definition funds_sent : world := default funds_ready (all_routed [bob_call; bob_send] funds_ready).

Lemma bob_run : tx_run [bob_call; bob_send] funds_ready funds_sent.
Proof.
  apply all_routed_run. unfold funds_sent.
  assert (Hs : bool_decide (is_Some (all_routed [bob_call; bob_send] funds_ready)) = true) by (vm_compute; reflexivity).
  apply bool_decide_eq_true in Hs as [w' Hw']. by rewrite Hw'.
Qed.

Lemma bob_alone (o : bytes) : o <> bob -> Forall (fun m => o ∉ msg_GetSigners m) [bob_call; bob_send].
Proof.
  intros Ho. repeat constructor; [change (o ∉ [bob])|change (o ∉ [bob])]; by rewrite list_elem_of_singleton.
Qed.

Lemma savings_last_witness :
  balance funds_ready vault "gold" - 0 <= balance funds_sent vault "gold".
Proof.
  refine (savings_last of_alice funds_empty funds_ready [bob_call; bob_send] funds_sent vault "gold" funds_empty_get
    funds_reachable bob_run _ (fun f => f) _ _).
  - assert (Ha : alice <> bob) by (intros H; vm_compute in H; discriminate H).
    assert (Hv : vault <> bob) by (intros H; vm_compute in H; discriminate H).
    pose proof (bob_alone _ Ha) as HA. pose proof (bob_alone _ Hv) as HV.
    rewrite list.Forall_forall in HA, HV. apply list.Forall_forall. intros m Hin.
    split; [intros o ->; by apply HA|intros _; by apply HV].
  - apply (guarded_known _ _ _ (NewContractInfo 1 alice "init") (NewCodeInfo vault_code alice "" ""));
      [vm_compute; reflexivity..|exact (vault_obeys vault)].
  - intros o ->. vm_compute. reflexivity.
Defined.
