(* ===== verification/QuerySafety.v ===== *)
(** * Which panics a query can cause (querier.go)

    On well-formed records a query panics over gas, or because its path ends before
    the argument; a query to a chain that started empty is of this kind. *)

From S2P Require Import Prelude GoStd Base64 Json SdkTypes Types Sdk Ref Gas Store Code Keeper Demo.
From S2P Require Import Runs Nesting Invariants Safety Registry Genesis Querier Module Restart.

Section QueryPanics.
Context {E : Env} {L : EnvLaws E}.

(** A step that only spends gas keeps the records as they are. *)
Lemma ogp_gas_then {A B} (m : M world A) (f : A -> M world B) w :
  well_typed (w_store w) -> only_gas_panics w m -> sound gas_step m ->
  (forall a w', m w = Ret a w' -> well_typed (w_store w') -> only_gas_panics w' (f a)) ->
  only_gas_panics w (gbind m f).
Proof.
  intros Hw Hm Hs Hf. apply ogp_gbind; [done|]. intros a w' Em. apply Hf; [done|].
  by destruct (sound_Ret _ _ _ _ _ Hs Em) as (g & -> & _).
Qed.

(** An iteration panics over gas if its body does, on each of the entries. *)
Lemma ogp_iterate {A} (l : list (bytes * bytes)) (body : A -> bytes -> bytes -> M world (bool * A)) acc w :
  well_typed (w_store w) -> (forall acc k v, sound gas_step (body acc k v)) ->
  (forall acc k v w', In (k, v) l -> well_typed (w_store w') -> only_gas_panics w' (body acc k v)) ->
  only_gas_panics w (iterate l body acc).
Proof.
  intros Hw Hs. revert acc w Hw. induction l as [|[k v] l IH]; intros acc w Hw Hb; simpl.
  - apply ogp_gbind; [|intros; apply ogp_gret]. intros p. unfold pay.
    destruct (charge_iter [] (w_gas w)) eqn:Ec; [done|]. intros [= <-]. exists (w_gas w). eauto 6.
  - apply ogp_gas_then; [done| | |].
    + intros p. unfold pay. destruct (charge_iter _ (w_gas w)) eqn:Ec; [done|]. intros [= <-].
      exists (w_gas w). eauto 6.
    + apply sound_intro. intros w1 r w' (g & Hg & ->)%pay_Ret. exists g. split; [done|].
      by eapply charge_iter_Ok.
    + intros _ w1 _ Hw1. apply ogp_gas_then; [done|apply Hb; [by left|done]|apply Hs|].
      intros [[] acc'] w2 _ Hw2; [apply ogp_gret|]. apply IH; [done|]. intros. apply Hb; [by right|done].
Qed.

Lemma ogp_with_meter {A} g (m : M world A) w :
  only_gas_panics (set_gas g w) m -> only_gas_panics w (with_meter g m).
Proof.
  intros Hm p. unfold with_meter. destruct (m (set_gas g w)) as [a w'|q|] eqn:Em; [done| |done].
  intros [= <-]. by apply Hm.
Qed.

Lemma ogp_QuerySmart limit a req w : well_typed (w_store w) -> only_gas_panics w (QuerySmart limit a req).
Proof.
  intros Hw. apply ogp_with_meter, ogp_gbind; [by apply ogp_contractInstance|].
  intros [[ci pre]|err] w1 _; [|apply ogp_gret].
  apply ogp_gbind; [by intros p; rewrite gasForContract_Ret|]. intros gas w2 _.
  apply ogp_gbind; [apply ogp_gbind; [by intros p|intros; apply ogp_run_host]|].
  intros [[res used]|err] w3 _; [|apply ogp_gret].
  apply ogp_gbind; [apply ogp_consumeGas|]. intros. apply ogp_gret.
Qed.

Lemma ogp_GetContractState a w : well_typed (w_store w) -> only_gas_panics w (GetContractState a append_model []).
Proof.
  intros Hw. apply ogp_gbind; [by intros p|]. intros l w' [= _ <-].
  apply ogp_iterate; [done|apply gas_only_append_model|]. intros. apply ogp_gret.
Qed.

Lemma ogp_QueryRaw a k w : only_gas_panics w (QueryRaw a k).
Proof.
  unfold QueryRaw. destruct k; [|apply ogp_gret]. apply ogp_gbind; [apply ogp_store_Get|].
  intros [v|] w' _; apply ogp_gret.
Qed.

Lemma ogp_queryContractList w : well_typed (w_store w) -> only_gas_panics w queryContractList.
Proof.
  intros Hw. apply ogp_gbind; [|intros; apply ogp_gret]. apply ogp_gbind; [by intros p|].
  intros l w' [= <- <-]. assert (Hl : forall k v, In (k, v) (kv_iter ContractKeyPrefix (w_store w)) ->
    is_Some (unmarshal_ContractInfo v)) by (intros k v Hin%kv_iter_spec; by eapply wt_contract).
  revert Hl. generalize (kv_iter ContractKeyPrefix (w_store w)). intros l Hl.
  pose proof @gas_only_must. apply ogp_iterate; [done|intros; solve_sound|].
  intros acc k v w' Hin Hw'. apply ogp_must_then; [by eapply Hl|]. intros. apply ogp_gret.
Qed.

Lemma ogp_GetByteCode id w : well_typed (w_store w) -> only_gas_panics w (GetByteCode id).
Proof.
  intros Hw. apply ogp_read. intros g. destruct (kv_get _ _) as [bz|] eqn:Ek; [|apply ogp_gret].
  apply ogp_must_then; [by eapply wt_code|]. intros info _. apply ogp_gbind; [by intros p|].
  intros r w' _. destruct r; apply ogp_gret.
Qed.

Lemma ogp_list_codes fuel i info w : well_typed (w_store w) -> only_gas_panics w (list_codes fuel i info).
Proof.
  revert i info w. induction fuel as [|fuel IH]; intros i info w Hw; [by intros p|]. simpl.
  apply ogp_gas_then; [done|by apply ogp_GetCodeInfo|apply gas_only_GetCodeInfo|].
  intros [res|] w' _ Hw'; [by apply IH|apply ogp_gret].
Qed.

Lemma path_at_found path i s w (f : string -> M world (result error bytes)) :
  path !! i = Some s -> only_gas_panics w (f s) -> only_gas_panics w (gbind (path_at path i) f).
Proof. intros Hi Hf p. unfold gbind, path_at. rewrite Hi. apply Hf. Qed.

(** A query with its arguments. *)
Lemma ogp_newQuerier limit fuel path req w :
  well_typed (w_store w) -> path <> [] -> path <> [QueryGetContract] -> path <> [QueryGetCode] ->
  only_gas_panics w (newQuerier limit fuel path req).
Proof.
  intros Hw H0 H1 H2. destruct path as [|q rest]; [done|]. unfold newQuerier. eapply path_at_found; [done|].
  assert (Harg : forall f : string -> M world (result error bytes), [q] = [QueryGetContract] \/ [q] = [QueryGetCode] ->
    (forall x, only_gas_panics w (f x)) -> only_gas_panics w (gbind (path_at (q :: rest) 1) f)).
  { intros f Hq Hf. destruct rest as [|x rest]; [by destruct Hq as [Hq|Hq]; rewrite Hq in *|].
    by eapply path_at_found. }
  case_bool_decide as Hq.
  { subst q. apply Harg; [by left|]. intros x. unfold queryContractInfo.
    destruct (AccAddressFromBech32 x); [|apply ogp_gret].
    apply ogp_gbind; [by apply ogp_GetContractInfo|]. intros. apply ogp_gret. }
  case_bool_decide; [by apply ogp_queryContractList|]. case_bool_decide.
  { destruct (Nat.ltb_spec (length (q :: rest)) 3) as [|Hl]; [apply ogp_gret|].
    destruct rest as [|x [|y rest]]; simpl in Hl; try lia.
    eapply path_at_found; [done|]. eapply path_at_found; [done|]. unfold queryContractState.
    destruct (AccAddressFromBech32 x); [|apply ogp_gret].
    case_bool_decide; [apply ogp_gbind; [by apply ogp_GetContractState|intros; apply ogp_gret]|].
    case_bool_decide; [apply ogp_gbind; [apply ogp_QueryRaw|intros; apply ogp_gret]|].
    case_bool_decide; [by apply ogp_QuerySmart|apply ogp_gret]. }
  case_bool_decide as Hq'.
  { subst q. apply Harg; [by right|]. intros x. unfold queryCode.
    destruct (Strconv.ParseUint x); [|apply ogp_gret].
    apply ogp_gbind; [by apply ogp_GetByteCode|]. intros [] w' _; apply ogp_gret. }
  case_bool_decide; [|apply ogp_gret]. apply ogp_gbind; [by apply ogp_list_codes|]. intros. apply ogp_gret.
Qed.

Section OnChains.
Context {MC : ModuleCodec} {ML : ModuleCodecLaws}.

(** C19: on a chain that started empty, through any blocks and restarts, a query panics
    over gas, and otherwise exactly when its path is empty or names one contract or
    one code without saying which: never from a record that does not decode. *)
Theorem query_panics w0 w limit fuel path req p :
  (forall k, kv_get k (w_store w0) = None) -> rtc life_step w0 w ->
  (newQuerier limit fuel path req w = Panic p ->
     gas_panic p \/ (p = PanicIndex /\ (path = [] \/ path = [QueryGetContract] \/ path = [QueryGetCode]))) /\
  (path = [] \/ path = [QueryGetContract] \/ path = [QueryGetCode] ->
     newQuerier limit fuel path req w = Panic PanicIndex).
Proof.
  intros He Hr. pose proof (life_reachable_ok _ _ Hr (empty_life_ok _ He)) as [[_ _ Hw _] _].
  assert (Hshort : path = [] \/ path = [QueryGetContract] \/ path = [QueryGetCode] ->
    newQuerier limit fuel path req w = Panic PanicIndex) by (by intros [->|[->| ->]]).
  split; [|exact Hshort]. intros Hp.
  destruct (decide (path = [])) as [H0|H0]; [|destruct (decide (path = [QueryGetContract])) as [H1|H1];
    [|destruct (decide (path = [QueryGetCode])) as [H2|H2]]].
  1-3: right; rewrite Hshort in Hp by auto; injection Hp as <-; auto.
  left. by eapply ogp_newQuerier.
Qed.

End OnChains.
End QueryPanics.

(** ** Witness *)

#[local] Existing Instances demo_scripts RefEnv RefEnvLaws demo_ModuleCodec demo_ModuleCodecLaws.

Lemma query_panics_witness :
  newQuerier 3000000 9 [QueryGetCode] {| req_Data := None |} chain_restarted = Panic PanicIndex.
Proof.
  apply (query_panics demo_empty chain_restarted 3000000 9 [QueryGetCode] _ PanicIndex demo_empty_get
    chain_restarted_life). right. right. reflexivity.
Defined.
