(* ===== verification/Answers.v ===== *)
(** * What queries answer

    An abstract specification of the querier over the registry of [Registry.v]: a
    path asks for a contract, the contracts, a contract's state, one cell of it, a
    code or the codes ([asked]), and what the answer is as a JSON value
    ([answers]). On a chain that started empty the querier meets it: what it
    returns parses to the specified value ([querier_answers]). *)

From S2P Require Import Prelude GoStd Base64 Json Unmarshal JsonText SdkTypes Types Sdk Ref Gas Store Code Keeper.
From S2P Require Import Demo Runs Nesting Invariants Safety Registry Genesis Querier Module Restart QuerySafety.
Import Json Unmarshal.

(** ** The specification *)

Section Spec.
Context {E : Env}.

Inductive query :=
  | AskContract (a : bytes)
  | AskContracts
  | AskState (a : bytes)
  | AskCell (a : bytes) (key : option bytes)
  | AskCode (id : Z)
  | AskCodes.

(** What a path asks for: a query of the registry, a smart query, nothing that is
    known, or a query without its argument. *)
Inductive request :=
  | Ask (q : query)
  | Smart (a : bytes)
  | Refused
  | Missing.

Definition asked (path : list string) (data : option bytes) : request :=
  match path with
  | [] => Missing
  | p0 :: rest =>
      if bool_decide (p0 = QueryGetContract) then
        match rest with
        | [] => Missing
        | bech :: _ => match AccAddressFromBech32 bech with Ok a => Ask (AskContract a) | Err _ => Refused end
        end
      else if bool_decide (p0 = QueryListContracts) then Ask AskContracts
      else if bool_decide (p0 = QueryGetContractState) then
        match rest with
        | bech :: how :: _ =>
            match AccAddressFromBech32 bech with
            | Err _ => Refused
            | Ok a =>
                if bool_decide (how = QueryMethodContractStateAll) then Ask (AskState a)
                else if bool_decide (how = QueryMethodContractStateRaw) then Ask (AskCell a data)
                else if bool_decide (how = QueryMethodContractStateSmart) then Smart a
                else Refused
            end
        | _ => Refused
        end
      else if bool_decide (p0 = QueryGetCode) then
        match rest with
        | [] => Missing
        | id :: _ => match Strconv.ParseUint id with Ok id => Ask (AskCode id) | Err _ => Refused end
        end
      else if bool_decide (p0 = QueryListCode) then Ask AskCodes
      else Refused
  end.

Definition num (n : Z) : value := VNum (bytes_of_string (Strconv.FormatUint n)).
Definition obj (fields : list (string * value)) : value :=
  VObj (map (fun f => (bytes_of_string f.1, f.2)) fields).

Definition info_value (i : ContractInfo) : value :=
  obj [("code_id", num (CodeID i)); ("creator", text (AccAddress_String (Creator i)));
       ("init_msg", text (InitMsg i))]%string.

Definition cell_value (c : bytes * bytes) : value :=
  obj [("key", VStr (sanitize c.1)); ("val", VStr (sanitize c.2))]%string.

Definition code_value (id : Z) (info : CodeInfo) : value :=
  obj [("id", num id); ("creator", text (AccAddress_String (code_Creator info)));
       ("code_hash", text (HexBytes_String (CodeHash info)))]%string.

(** A list without elements is [null] where the code appends to a [nil] slice. *)
Definition slice_value (l : list value) : value := match l with [] => VNull | _ => VArr l end.

(** [stored]: the code the virtual machine keeps under a hash. *)
Definition answers (r : registry) (stored : bytes -> result string bytes) (q : query) (v : value) : Prop :=
  match q with
  | AskContract a => v = match reg_contracts r a with Some i => info_value i | None => VNull end
  | AskContracts =>
      exists addrs, StronglySorted bytes_lt addrs /\ (forall a, a ∈ addrs <-> is_Some (reg_contracts r a)) /\
        v = slice_value (map (fun a => text (AccAddress_String a)) addrs)
  | AskState a =>
      exists cells, StronglySorted bytes_lt (map fst cells) /\
        (forall k x, (k, x) ∈ cells <-> reg_cells r (a ++ k) = Some x) /\ v = VArr (map cell_value cells)
  | AskCell a None => v = VArr []
  | AskCell a (Some k) =>
      v = VArr match reg_cells r (a ++ k) with Some x => [cell_value (k, x)] | None => [] end
  | AskCode id =>
      match reg_codes r id with
      | None => v = obj [("code"%string, VNull)]
      | Some info => exists c, stored (CodeHash info) = Ok c /\ v = obj [("code"%string, VStr (Base64.Encode c))]
      end
  | AskCodes =>
      v = slice_value (map (fun id => code_value id (default (NewCodeInfo [] [] "" "") (reg_codes r id)))
                         (seqZ 1 (reg_next_code r - 1)))
  end.

End Spec.

(** ** Texts of the answers *)

Section Texts.
Context {E : Env}.

(** [json] is what is marshalled for the value [v]. *)
Definition shows (j : json) (v : value) : Prop := u64_numbers j /\ clean (to_value j) = v.

Lemma shows_parse j v : shows j v -> parse (MarshalIndent j) = Some v.
Proof. intros [Hu <-]. by apply parse_MarshalIndent. Qed.

Lemma sanitize_plain s : forallb plain s = true -> sanitize s = s.
Proof.
  induction s as [|c s IH]; [done|]. intros [Hc Hs]%andb_prop. change (c :: s) with ([c] ++ s).
  rewrite sanitize_rune; [by rewrite IH|]. constructor. apply plain_byte in Hc. lia.
Qed.

Lemma shows_num n : is_u64 n -> shows (JNum n) (num n).
Proof. by split. Qed.

Lemma shows_str s : shows (JStr s) (text s).
Proof. by split. Qed.

Lemma shows_null : shows JNull VNull.
Proof. by split. Qed.

Lemma shows_bytes b : shows (JStr (string_of_bytes b)) (VStr (sanitize b)).
Proof. split; [done|]. simpl. by rewrite bytes_of_string_of_bytes. Qed.

Lemma shows_base64 c : shows (JStr (Base64.EncodeToString c)) (VStr (Base64.Encode c)).
Proof.
  split; [done|]. simpl. unfold Base64.EncodeToString. rewrite bytes_of_string_of_bytes.
  f_equal. apply sanitize_plain, Encode_plain.
Qed.

Lemma shows_arr {A} (f : A -> json) (g : A -> value) l :
  (forall x, x ∈ l -> shows (f x) (g x)) -> shows (JArr (map f l)) (VArr (map g l)).
Proof.
  intros H. split.
  - simpl. apply foldr_and_Forall, Forall_fmap, list.Forall_forall. intros x Hx. by apply H.
  - simpl. f_equal. rewrite !map_map. apply map_ext_in. intros x Hx%list_elem_of_In. by apply H.
Qed.

(** The field names of the program are plain. *)
Lemma shows_obj (fields : list (string * json)) (vs : list (string * value)) :
  Forall2 (fun f v => f.1 = v.1 /\ forallb plain (bytes_of_string f.1) = true /\ shows f.2 v.2) fields vs ->
  shows (JObj fields) (obj vs).
Proof.
  intros H. split.
  - simpl. apply foldr_and_Forall. induction H as [|f v fs vs (_ & _ & Hs) _ IH]; constructor; [apply Hs|done].
  - unfold obj. simpl. f_equal. rewrite map_map. simpl.
    induction H as [|[k j] [k' v] fs vs (Hk & Hp & Hs) _ IH]; [done|]. simpl in *. subst k'.
    rewrite sanitize_plain, IH by done. by destruct Hs as [_ ->].
Qed.

(** The fields of an object, one by one. *)
Ltac show_fields tac :=
  apply shows_obj; repeat (apply List.Forall2_cons; [split; [reflexivity|split; [reflexivity|tac]]|]);
  apply List.Forall2_nil.

Lemma shows_slice {A} (f : A -> json) (g : A -> value) l :
  (forall x, x ∈ l -> shows (f x) (g x)) -> shows (json_slice (map f l)) (slice_value (map g l)).
Proof. intros H. destruct l as [|x l]; [apply shows_null|]. exact (shows_arr f g (x :: l) H). Qed.

Lemma shows_info i : is_u64 (CodeID i) -> shows (json_ContractInfo (Some i)) (info_value i).
Proof. intros Hu. show_fields ltac:(first [apply shows_num; exact Hu|apply shows_str]). Qed.

Lemma shows_model kv : shows (json_Model (exported_model kv)) (cell_value kv).
Proof. show_fields ltac:(apply shows_bytes). Qed.

Lemma shows_code id info :
  is_u64 id ->
  shows (json_ListCodeResponse {| lc_ID := id; lc_Creator := code_Creator info; lc_CodeHash := CodeHash info |})
    (code_value id info).
Proof. intros Hu. show_fields ltac:(first [apply shows_num; exact Hu|apply shows_str]). Qed.

Lemma shows_code_response c :
  shows (json_GetCodeResponse {| resp_Code := c |})
    (obj [("code"%string, match c with None => VNull | Some c => VStr (Base64.Encode c) end)]).
Proof.
  show_fields ltac:(destruct c; [apply shows_base64|apply shows_null]).
Qed.

End Texts.

(** ** The refinement *)

Section Refinement.
Context {E : Env} {L : EnvLaws E}.

(** The outcome of a query of the registry: it panics over gas, or it spends gas only
    and returns a text that a reader takes for the specified value. *)
Definition answered (q : query) (w : world) (r : result error bytes) (w' : world) : Prop :=
  gas_step w w' /\
  exists txt v, r = Ok txt /\ parse txt = Some v /\
    answers (registry_of w) (fun h => wasmer_GetCode h (w_vm w)) q v.

Lemma answered_shows q w j v w' :
  gas_step w w' -> shows j v -> answers (registry_of w) (fun h => wasmer_GetCode h (w_vm w)) q v ->
  answered q w (Ok (MarshalIndent j)) w'.
Proof. intros Hg Hs Ha. split; [done|]. exists (MarshalIndent j), v. eauto using shows_parse. Qed.

Lemma code_id_u64 w a i :
  chain_ok w -> contract_at (w_store w) a = Some i -> is_u64 (CodeID i).
Proof. intros Hok Hi. by destruct (ok_registry _ Hok a i Hi). Qed.

Lemma wpg_contract_info bech a w :
  chain_ok w -> AccAddressFromBech32 bech = Ok a ->
  wpg (queryContractInfo bech) (answered (AskContract a) w) w.
Proof.
  intros Hok Ha. unfold queryContractInfo. rewrite Ha. apply wpg_bind.
  apply wpg_intro; [apply ogp_GetContractInfo, Hok|unfold GetContractInfo; solve_sound|].
  intros i w' Hi. apply GetContractInfo_Ret in Hi as [-> Hg]. apply wpg_gret.
  eapply answered_shows; [done| |reflexivity]. simpl.
  destruct (contract_at (w_store w) a) as [i|] eqn:Ei; [|apply shows_null].
  apply shows_info. by eapply code_id_u64.
Qed.

(** The entries under the prefix of contract records are the contracts. *)
Lemma contract_entries w a :
  well_typed (w_store w) ->
  a ∈ map fst (kv_iter ContractKeyPrefix (w_store w)) <-> is_Some (contract_at (w_store w) a).
Proof.
  intros Hw. rewrite list_elem_of_In, in_map_iff. unfold contract_at. split.
  - intros ([k v] & <- & Hin%kv_iter_spec). simpl. change (ContractKeyPrefix ++ k) with (GetContractAddressKey k) in Hin.
    rewrite Hin. by eapply wt_contract.
  - intros (i & (bz & Hbz & _)%bind_Some). exists (a, bz). split; [done|]. by apply kv_iter_spec.
Qed.

Lemma fold_addresses l (acc : list string) :
  fold_left (fun acc (kv : bytes * bytes) => acc ++ [AccAddress_String kv.1]) l acc
  = acc ++ map AccAddress_String (map fst l).
Proof.
  revert acc. induction l as [|kv l IH]; intros acc; simpl; [by rewrite app_nil_r|].
  by rewrite IH, <- app_assoc.
Qed.

Lemma wpg_contract_list w :
  chain_ok w -> wpg queryContractList (answered AskContracts w) w.
Proof.
  intros Hok. pose proof (ok_typed _ Hok) as Hw. unfold queryContractList, ListContractInfo, prefix_Iterate.
  apply wpg_bind, wpg_bind. unfold wpg at 1, gget.
  eapply wpg_mono; [|eapply (wpg_iterate _ _ (fun acc k v => acc ++ [AccAddress_String k]))].
  - intros addrs w' [-> Hg]. apply wpg_gret. rewrite fold_addresses, map_map.
    eapply answered_shows; [done|apply shows_slice; intros; apply shows_str|].
    exists (map fst (kv_iter ContractKeyPrefix (w_store w))).
    split; [apply kv_iter_sorted|]. split; [by intros a; apply contract_entries|].
    cbn [app]. by rewrite !map_map.
  - intros acc k v w' Hin _. apply kv_iter_spec in Hin. destruct (wt_contract _ Hw k v Hin) as [i Hi].
    apply wpg_bind, wpg_intro; [by apply ogp_must|auto with sound|].
    intros i' w'' [_ ->]%must_Ret. by apply wpg_gret.
Qed.

Lemma cell_key a k : GetContractStorePrefixKey (a ++ k) = GetContractStorePrefixKey a ++ k.
Proof. unfold GetContractStorePrefixKey. by rewrite app_assoc. Qed.

Lemma wpg_contract_state limit bech a req w :
  AccAddressFromBech32 bech = Ok a ->
  wpg (queryContractState limit bech QueryMethodContractStateAll req) (answered (AskState a) w) w.
Proof.
  intros Ha. unfold queryContractState. rewrite Ha, bool_decide_eq_true_2 by done. apply wpg_bind.
  eapply wpg_mono; [|apply wpg_GetContractState]. intros models w' [-> Hg]. apply wpg_gret.
  rewrite map_map. eapply answered_shows; [done|apply shows_arr; intros; apply shows_model|].
  exists (kv_iter (GetContractStorePrefixKey a) (w_store w)). split; [apply kv_iter_sorted|]. split; [|done].
  intros k x. rewrite list_elem_of_In, kv_iter_spec. simpl. by rewrite cell_key.
Qed.

Lemma wpg_contract_cell limit bech a req w :
  AccAddressFromBech32 bech = Ok a ->
  wpg (queryContractState limit bech QueryMethodContractStateRaw req) (answered (AskCell a (req_Data req)) w) w.
Proof.
  intros Ha. unfold queryContractState. rewrite Ha.
  rewrite bool_decide_eq_false_2 by done. rewrite bool_decide_eq_true_2 by done.
  assert (Hempty : shows (JArr (map json_Model [])) (VArr [])) by done.
  apply wpg_bind. unfold QueryRaw. destruct (req_Data req) as [k|].
  - unfold prefix_Get. apply wpg_bind, wpg_store_Get. intros g Hg.
    assert (Hcell : reg_cells (registry_of w) (a ++ k) = kv_get (GetContractStorePrefixKey a ++ k) (w_store w))
      by (simpl; by rewrite cell_key).
    destruct (kv_get (GetContractStorePrefixKey a ++ k) (w_store w)) as [x|]; apply wpg_gret, wpg_gret;
      (eapply answered_shows; [by exists g| |simpl in Hcell |- *; by rewrite Hcell]); [|exact Hempty].
    apply (shows_arr json_Model (fun _ => cell_value (k, x)) [exported_model (k, x)]).
    intros m [->|[]%not_elem_of_nil]%elem_of_cons. apply shows_model.
  - apply wpg_gret, wpg_gret. eapply answered_shows; [reflexivity|exact Hempty|reflexivity].
Qed.

Lemma wpg_GetByteCode_none id w :
  is_u64 id -> well_typed (w_store w) -> code_at (w_store w) id = None ->
  wpg (GetByteCode id) (fun r w' => r = Ok None /\ gas_step w w') w.
Proof.
  intros Hu Hw Hn. apply wpg_bind, wpg_store_Get. intros g Hg.
  destruct (kv_get (GetCodeKey id) (w_store w)) as [bz|] eqn:Ek.
  - destruct (wt_code _ Hw id bz Ek) as [i Hi]. unfold code_at in Hn. rewrite Ek in Hn. simpl in Hn. congruence.
  - apply wpg_gret. split; [done|by exists g].
Qed.

Lemma wpg_code text id w :
  chain_ok w -> codes_loaded w -> Strconv.ParseUint text = Ok id ->
  wpg (queryCode text) (answered (AskCode id) w) w.
Proof.
  intros Hok Hl Hp. pose proof (ParseUint_range _ _ Hp) as Hu. unfold queryCode. rewrite Hp. apply wpg_bind.
  destruct (code_at (w_store w) id) as [info|] eqn:Ei.
  - destruct (Hl id info Hu Ei) as (c & v & Hc & _). eapply wpg_mono; [|by eapply wpg_GetByteCode].
    intros r w' [-> Hg]. apply wpg_gret. eapply answered_shows; [done|apply shows_code_response|].
    simpl. rewrite Ei. by exists c.
  - eapply wpg_mono; [|by apply wpg_GetByteCode_none; [|apply Hok|]].
    intros r w' [-> Hg]. apply wpg_gret. eapply answered_shows; [done|apply shows_code_response|].
    simpl. by rewrite Ei.
Qed.

Lemma wpg_code_list w fuel :
  chain_ok w -> next_id KeyLastCodeID (w_store w) <= Z.of_nat fuel ->
  wpg (queryCodeList fuel) (answered AskCodes w) w.
Proof.
  intros Hok Hf. pose proof (ok_codes _ Hok) as Hd. set (n := next_id KeyLastCodeID (w_store w)) in *.
  assert (Hn : 1 <= n) by exact (proj1 Hd). assert (Hu := next_id_u64 KeyLastCodeID (w_store w)).
  apply wpg_bind. eapply wpg_mono;
    [|apply (wpg_list_codes w (Z.to_nat (n - 1)) 0 w []); [apply Hok|done|reflexivity|fold n; lia|lia|lia]].
  intros r w' [-> Hg]. apply wpg_gret. rewrite Z2Nat.id by lia. cbn [app].
  rewrite map_map. eapply answered_shows; [done| |reflexivity]. apply shows_slice.
  intros id Hid%elem_of_seqZ. apply shows_code. unfold is_u64 in *. simpl in Hid. fold n in Hid, Hu. lia.
Qed.

Lemma wpg_path_at path i x (f : string -> M world (result error bytes)) Q w :
  path !! i = Some x -> wpg (f x) Q w -> wpg (gbind (path_at path i) f) Q w.
Proof. intros Hi Hf. apply wpg_bind. unfold path_at. rewrite Hi. by apply wpg_gret. Qed.

(** Every path is treated as the specification treats it. *)
Lemma wpg_asked limit fuel path req q w :
  chain_ok w -> codes_loaded w -> next_id KeyLastCodeID (w_store w) <= Z.of_nat fuel ->
  asked path (req_Data req) = Ask q -> wpg (newQuerier limit fuel path req) (answered q w) w.
Proof.
  intros Hok Hl Hf Hq. destruct path as [|p0 rest]; [done|]. unfold newQuerier. simpl in Hq.
  eapply wpg_path_at; [done|].
  destruct (bool_decide (p0 = QueryGetContract)).
  { destruct rest as [|bech rest]; [done|]. destruct (AccAddressFromBech32 bech) as [a|] eqn:Ea; [|done].
    injection Hq as <-. eapply wpg_path_at; [done|]. by apply wpg_contract_info. }
  destruct (bool_decide (p0 = QueryListContracts)).
  { injection Hq as <-. by apply wpg_contract_list. }
  destruct (bool_decide (p0 = QueryGetContractState)).
  { destruct rest as [|bech [|how rest]]; [done..|].
    destruct (AccAddressFromBech32 bech) as [a|] eqn:Ea; [|done]. simpl length. simpl Nat.ltb. cbv iota.
    eapply wpg_path_at; [done|]. eapply wpg_path_at; [done|].
    destruct (bool_decide_reflect (how = QueryMethodContractStateAll)) as [->|_].
    { injection Hq as <-. by apply wpg_contract_state. }
    destruct (bool_decide_reflect (how = QueryMethodContractStateRaw)) as [->|_].
    { injection Hq as <-. by apply wpg_contract_cell. }
    by destruct (bool_decide (how = QueryMethodContractStateSmart)). }
  destruct (bool_decide (p0 = QueryGetCode)).
  { destruct rest as [|txt rest]; [done|]. destruct (Strconv.ParseUint txt) as [id|] eqn:Ei; [|done].
    injection Hq as <-. eapply wpg_path_at; [done|]. by apply wpg_code. }
  destruct (bool_decide (p0 = QueryListCode)); [|done]. injection Hq as <-. by apply wpg_code_list.
Qed.

(** The dispatch, on a path that has a first element. *)
Lemma newQuerier_cons limit fuel p0 rest req w :
  newQuerier limit fuel (p0 :: rest) req w =
  (if bool_decide (p0 = QueryGetContract) then
     match rest with [] => gpanic PanicIndex | bech :: _ => queryContractInfo bech end
   else if bool_decide (p0 = QueryListContracts) then queryContractList
   else if bool_decide (p0 = QueryGetContractState) then
     match rest with
     | bech :: how :: _ => queryContractState limit bech how req
     | _ => gret (Err (Wrap (ErrSdkRoot ErrUnknownRequest) "unknown data query endpoint"))
     end
   else if bool_decide (p0 = QueryGetCode) then
     match rest with [] => gpanic PanicIndex | id :: _ => queryCode id end
   else if bool_decide (p0 = QueryListCode) then queryCodeList fuel
   else gret (Err (Wrap (ErrSdkRoot ErrUnknownRequest) "unknown data query endpoint"))) w.
Proof.
  unfold newQuerier, gbind at 1. change (path_at (p0 :: rest) 0 w) with (@Ret world _ p0 w). cbv iota beta.
  do 5 (match goal with |- context [bool_decide ?P] => destruct (bool_decide P) end;
    [by destruct rest as [|? [|? ?]]|]).
  done.
Qed.

Lemma refused_path limit fuel path req w :
  asked path (req_Data req) = Refused -> exists e, newQuerier limit fuel path req w = Ret (Err e) w.
Proof.
  intros Hq. destruct path as [|p0 rest]; [done|]. simpl in Hq. rewrite newQuerier_cons.
  destruct (bool_decide (p0 = QueryGetContract)).
  { destruct rest as [|bech rest]; [done|]. unfold queryContractInfo.
    destruct (AccAddressFromBech32 bech); [done|by eexists]. }
  destruct (bool_decide (p0 = QueryListContracts)); [done|].
  destruct (bool_decide (p0 = QueryGetContractState)).
  { destruct rest as [|bech [|how rest]]; [by eexists..|]. unfold queryContractState.
    destruct (AccAddressFromBech32 bech) as [a|]; [|by eexists].
    repeat (destruct (bool_decide (how = _)); [done|]). by eexists. }
  destruct (bool_decide (p0 = QueryGetCode)).
  { destruct rest as [|txt rest]; [done|]. unfold queryCode. destruct (Strconv.ParseUint txt); [done|by eexists]. }
  destruct (bool_decide (p0 = QueryListCode)); [done|by eexists].
Qed.

Lemma smart_path limit fuel path req w a :
  asked path (req_Data req) = Smart a ->
  newQuerier limit fuel path req w = QuerySmart limit a (default [] (req_Data req)) w.
Proof.
  intros Hq. destruct path as [|p0 rest]; [done|]. simpl in Hq. rewrite newQuerier_cons.
  destruct (bool_decide (p0 = QueryGetContract)).
  { destruct rest as [|bech rest]; [done|]. by destruct (AccAddressFromBech32 bech). }
  destruct (bool_decide (p0 = QueryListContracts)); [done|].
  destruct (bool_decide (p0 = QueryGetContractState)).
  { destruct rest as [|bech [|how rest]]; [done..|]. unfold queryContractState.
    destruct (AccAddressFromBech32 bech) as [b|]; [|done].
    do 2 (destruct (bool_decide (how = _)); [done|]).
    destruct (bool_decide (how = QueryMethodContractStateSmart)); [|done]. by injection Hq as ->. }
  destruct (bool_decide (p0 = QueryGetCode)).
  { destruct rest as [|txt rest]; [done|]. by destruct (Strconv.ParseUint txt). }
  by destruct (bool_decide (p0 = QueryListCode)).
Qed.

Lemma missing_path limit fuel path req w :
  asked path (req_Data req) = Missing -> newQuerier limit fuel path req w = Panic PanicIndex.
Proof.
  intros Hq. destruct path as [|p0 rest]; [done|]. simpl in Hq. rewrite newQuerier_cons.
  destruct (bool_decide (p0 = QueryGetContract)).
  { destruct rest as [|bech rest]; [done|]. by destruct (AccAddressFromBech32 bech). }
  destruct (bool_decide (p0 = QueryListContracts)); [done|].
  destruct (bool_decide (p0 = QueryGetContractState)).
  { destruct rest as [|bech [|how rest]]; [done..|]. destruct (AccAddressFromBech32 bech); [|done].
    by repeat (destruct (bool_decide (how = _)); [done|]). }
  destruct (bool_decide (p0 = QueryGetCode)).
  { destruct rest as [|txt rest]; [done|]. by destruct (Strconv.ParseUint txt). }
  by destruct (bool_decide (p0 = QueryListCode)).
Qed.

Section OnChains.
Context {MC : ModuleCodec} {ML : ModuleCodecLaws}.

(** C6: the querier answers for the registry. On a chain that started empty, through any
    blocks and restarts, a path that asks for something of the registry panics over
    gas or spends gas only and returns a JSON text that a reader takes for exactly
    what the registry holds, strings up to bytes that are no valid text: the record
    of the contract, all contracts in ascending order of addresses, all cells of a
    contract in ascending order of keys, one cell, the code under an id, or all
    codes by id. Paths that ask for nothing known get an error. *)
Theorem querier_answers w0 w limit fuel path req :
  (forall k, kv_get k (w_store w0) = None) -> rtc life_step w0 w ->
  next_id KeyLastCodeID (w_store w) <= Z.of_nat fuel ->
  match asked path (req_Data req) with
  | Ask q =>
      only_gas_panics w (newQuerier limit fuel path req) /\
      forall r w', newQuerier limit fuel path req w = Ret r w' -> answered q w r w'
  | Refused => exists e, newQuerier limit fuel path req w = Ret (Err e) w
  | Missing => newQuerier limit fuel path req w = Panic PanicIndex
  | Smart a => newQuerier limit fuel path req w = QuerySmart limit a (default [] (req_Data req)) w
  end.
Proof.
  intros He Hr Hf. destruct (life_reachable_ok _ _ Hr (empty_life_ok _ He)) as [Hok Hl].
  destruct (asked path (req_Data req)) as [q|a| |] eqn:Hq.
  - apply wpg_elim. by apply wpg_asked.
  - by apply smart_path.
  - by apply refused_path.
  - by apply missing_path.
Qed.

End OnChains.
End Refinement.

#[local] Existing Instances demo_scripts RefEnv RefEnvLaws demo_ModuleCodec demo_ModuleCodecLaws.

Lemma querier_answers_witness :
  only_gas_panics chain_restarted (newQuerier 3000000 9 [QueryListCode] {| req_Data := None |}) /\
  (forall r w', newQuerier 3000000 9 [QueryListCode] {| req_Data := None |} chain_restarted = Ret r w' ->
     answered AskCodes chain_restarted r w').
Proof.
  refine (querier_answers demo_empty chain_restarted 3000000 9 [QueryListCode] {| req_Data := None |}
    demo_empty_get chain_restarted_life _).
  apply Z.leb_le. vm_compute. reflexivity.
Defined.
