(* ===== verification/Client.v ===== *)
(** * The command line client (x/wasm/client/utils, x/wasm/client/cli)

    What the commands make of their arguments: the message a transaction command
    broadcasts, the route and data a query command sends, and the decoding of
    query arguments. Cobra has checked the number of arguments. *)

From S2P Require Import Prelude GoStd Base64 Json Unmarshal SdkTypes Types Sdk Ref Gas.
From S2P Require Import Store Code Keeper Demo Runs Nesting Invariants Genesis Querier.

(** ** encoding/hex *)

Module Hex.

Inductive hex_error := InvalidByteError (b : byte) | ErrLength.

Fixpoint Decode (src : bytes) : result hex_error bytes :=
  match src with
  | [] => Ok []
  | [a] => match hex_val a with None => Err (InvalidByteError a) | Some _ => Err ErrLength end
  | a :: b :: src =>
      match hex_val a, hex_val b with
      | None, _ => Err (InvalidByteError a)
      | Some _, None => Err (InvalidByteError b)
      | Some x, Some y =>
          match Decode src with
          | Err e => Err e
          | Ok l => Ok (byte_of_Z (Z.lor (Z.shiftl x 4) y) :: l)
          end
      end
  end.

Definition DecodeString (s : string) : result hex_error bytes := Decode (bytes_of_string s).

(** [hex.EncodeToString], for the round trip. *)
Fixpoint Encode (src : bytes) : bytes :=
  match src with
  | [] => []
  | b :: src => Json.hex_digit (byte_val b / 16) :: Json.hex_digit (byte_val b mod 16) :: Encode src
  end.

End Hex.

(** ** utils.go *)

(** A slice: its elements, and those of the array behind it up to its capacity. *)
Record slice := { sl_data : bytes; sl_spare : bytes }.

(** [input[:n]]: an index up to the capacity is in range. *)
Definition prefix_slice (n : nat) (s : slice) : result panic bytes :=
  if (n <=? length (sl_data s ++ sl_spare s))%nat
  then Ok (take n (sl_data s ++ sl_spare s)) else Err PanicIndex.

Definition wasmIdent : bytes := [x00; x61; x73; x6d].

Definition IsGzip (input : slice) : result panic bool :=
  match prefix_slice 3 input with Ok b => Ok (bytes_Equal b gzipIdent) | Err p => Err p end.

Definition IsWasm (input : slice) : result panic bool :=
  match prefix_slice 4 input with Ok b => Ok (bytes_Equal b wasmIdent) | Err p => Err p end.

Definition GzipIt `{Gzip} (input : bytes) : result string bytes := gzip_write input.

(** ** Errors and effects of a command *)

Inductive cli_error :=
  | EForeign (text : string)
  | ENum (e : Strconv.num_error)
  | EHex (e : Hex.hex_error)
  | EValidate (e : error)
  | EMultipleFlags
  | EInvalidFile
  | EEmptyKey
  | EDecodeQuery (e : cli_error)
  | EJson (e : Unmarshal.json_error)
  | EContractNotFound.

(** What a command does when it does not fail: broadcast messages, print, or write
    a file. *)
Inductive cli_action {E : Env} :=
  | Broadcast (msgs : list sdk_msg)
  | Println (line : string)
  | WriteFile (name : string) (data : bytes).

(** What the commands ask of their environment: files, the sender's address, the
    coins of a flag, and the node. *)
Class CliContext := {
  ReadFile : string -> result string slice;
  GetFromAddress : bytes;
  ParseCoins : string -> result string Coins;
  QueryWithData : string -> option bytes -> result string bytes }.

(** ** cli/tx.go *)

Section Cli.
Context {E : Env} `{CliContext}.

(** A run of a command: it can panic, fail, or do something. *)
Definition command : Type := result panic (result cli_error cli_action).

Definition fail (e : cli_error) : command := Ok (Err e).

(** The code a file becomes: wasm is compressed, gzip is taken as it is. *)
Definition StoreCodeCmd (file source builder : string) : command :=
  match ReadFile file with
  | Err err => fail (EForeign err)
  | Ok wasm =>
      let send (code : bytes) : command :=
        let msg := {| sc_Sender := GetFromAddress; sc_WASMByteCode := code;
                      sc_Source := source; sc_Builder := builder |} in
        match MsgStoreCode_ValidateBasic msg with
        | Some err => fail (EValidate err)
        | None => Ok (Ok (Broadcast [WasmMsg false (WStoreCode msg)]))
        end in
      match IsWasm wasm with
      | Err p => Err p
      | Ok true =>
          match GzipIt (sl_data wasm) with
          | Err err => fail (EForeign err)
          | Ok code => send code
          end
      | Ok false =>
          match IsGzip wasm with
          | Err p => Err p
          | Ok false => fail EInvalidFile
          | Ok true => send (sl_data wasm)
          end
      end
  end.

Definition InstantiateContractCmd (code_id initMsg amountStr : string) : command :=
  match Strconv.ParseUint code_id with
  | Err err => fail (ENum err)
  | Ok codeID =>
      match ParseCoins amountStr with
      | Err err => fail (EForeign err)
      | Ok amount =>
          let msg := {| ic_Sender := GetFromAddress; ic_Code := codeID;
                        ic_InitMsg := bytes_of_string initMsg; ic_InitFunds := amount |} in
          Ok (Ok (Broadcast [WasmMsg false (WInstantiate msg)]))
      end
  end.

Definition ExecuteContractCmd (addr execMsg amountStr : string) : command :=
  match AccAddressFromBech32 addr with
  | Err err => fail (EForeign err)
  | Ok contractAddr =>
      match ParseCoins amountStr with
      | Err err => fail (EForeign err)
      | Ok amount =>
          let msg := {| ec_Sender := GetFromAddress; ec_Contract := contractAddr;
                        ec_Msg := bytes_of_string execMsg; ec_SentFunds := amount |} in
          Ok (Ok (Broadcast [WasmMsg false (WExecute msg)]))
      end
  end.

(** ** cli/query.go *)

(** [fmt.Sprintf("custom/%s/...", ...)] *)
Definition route_of (parts : list string) : string := String.concat "/" ("custom"%string :: parts).

(** A command that sends one query and prints the answer. *)
Definition query_and_print (route : string) (data : option bytes) : command :=
  match QueryWithData route data with
  | Err err => fail (EForeign err)
  | Ok res => Ok (Ok (Println (string_of_bytes res)))
  end.

Definition GetCmdListCode : command :=
  query_and_print (route_of [Types.QuerierRoute; QueryListCode]) None.

Definition code_route (codeID : Z) : string :=
  route_of [Types.QuerierRoute; QueryGetCode; Strconv.FormatUint codeID].

(** [json.Unmarshal] of an answer into a [GetCodeResponse] *)
Definition Unmarshal_GetCodeResponse (res : bytes) : result Unmarshal.json_error GetCodeResponse :=
  match Unmarshal.Unmarshal_field "code" res with
  | Err e => Err e
  | Ok code => Ok {| resp_Code := code |}
  end.

Definition GetCmdQueryCode (code_id file : string) : command :=
  match Strconv.ParseUint code_id with
  | Err err => fail (ENum err)
  | Ok codeID =>
      match QueryWithData (code_route codeID) None with
      | Err err => fail (EForeign err)
      | Ok res =>
          if len res =? 0 then fail EContractNotFound
          else
            match Unmarshal_GetCodeResponse res with
            | Err err => fail (EJson err)
            | Ok code =>
                let bz := default [] (resp_Code code) in
                if len bz =? 0 then fail EContractNotFound
                else Ok (Ok (WriteFile file bz))
            end
      end
  end.

Definition GetCmdListContracts : command :=
  query_and_print (route_of [Types.QuerierRoute; QueryListContracts]) None.

Definition GetCmdGetContractInfo (addr : string) : command :=
  match AccAddressFromBech32 addr with
  | Err err => fail (EForeign err)
  | Ok addr =>
      query_and_print (route_of [Types.QuerierRoute; QueryGetContract; AccAddress_String addr]) None
  end.

Definition state_route (addr : bytes) (queryMethod : string) : string :=
  route_of [Types.QuerierRoute; QueryGetContractState; AccAddress_String addr; queryMethod].

Definition GetCmdGetContractStateAll (addr : string) : command :=
  match AccAddressFromBech32 addr with
  | Err err => fail (EForeign err)
  | Ok addr => query_and_print (state_route addr QueryMethodContractStateAll) None
  end.

(** *** argumentDecoder *)

Record argumentDecoder := {
  dec : string -> result cli_error bytes; asciiF : bool; hexF : bool; b64F : bool }.

Definition asciiDecodeString (s : string) : result cli_error bytes := Ok (bytes_of_string s).
Definition hexDecodeString (s : string) : result cli_error bytes := result_map_err EHex (Hex.DecodeString s).
Definition b64DecodeString (s : string) : result cli_error bytes :=
  result_map_err EForeign (Base64.DecodeString s).

Definition newArgDecoder (def : string -> result cli_error bytes) (ascii hex b64 : bool) : argumentDecoder :=
  {| dec := def; asciiF := ascii; hexF := hex; b64F := b64 |}.

(** The loop over the flags: the index of the one that is set, -1 for none. *)
Fixpoint find_flag (i found : Z) (flags : list bool) : result cli_error Z :=
  match flags with
  | [] => Ok found
  | v :: flags =>
      if negb v then find_flag (i + 1) found flags
      else if negb (found =? -1) then Err EMultipleFlags
      else find_flag (i + 1) i flags
  end.

Definition argumentDecoder_DecodeString (a : argumentDecoder) (s : string) : result cli_error bytes :=
  match find_flag 0 (-1) [asciiF a; hexF a; b64F a] with
  | Err e => Err e
  | Ok found =>
      if found =? 0 then asciiDecodeString s
      else if found =? 1 then hexDecodeString s
      else if found =? 2 then b64DecodeString s
      else dec a s
  end.

Definition GetCmdGetContractStateRaw (ascii hex b64 : bool) (addr key : string) : command :=
  let decoder := newArgDecoder hexDecodeString ascii hex b64 in
  match AccAddressFromBech32 addr with
  | Err err => fail (EForeign err)
  | Ok addr =>
      match argumentDecoder_DecodeString decoder key with
      | Err err => fail err
      | Ok queryData => query_and_print (state_route addr QueryMethodContractStateRaw) (Some queryData)
      end
  end.

Definition GetCmdGetContractStateSmart (ascii hex b64 : bool) (addr key : string) : command :=
  let decoder := newArgDecoder asciiDecodeString ascii hex b64 in
  match AccAddressFromBech32 addr with
  | Err err => fail (EForeign err)
  | Ok addr =>
      if bool_decide (key = EmptyString) then fail EEmptyKey
      else
        match argumentDecoder_DecodeString decoder key with
        | Err err => fail (EDecodeQuery err)
        | Ok queryData => query_and_print (state_route addr QueryMethodContractStateSmart) (Some queryData)
        end
  end.

(** ** A node that answers queries

    The node splits the route at its slashes, drops [custom] and the module's
    name, and hands the rest to the module's querier; its errors come back as
    text. *)

Definition answers (limit : Z) (fuel : nat) (w : world) : Prop :=
  forall route data,
    QueryWithData route data =
    match newQuerier limit fuel (drop 2 (split_path EmptyString route)) {| req_Data := data |} w with
    | Ret (Ok bz) _ => Ok bz
    | _ => Err "query failed"%string
    end.

Definition no_slash (s : string) : Prop := ~ In slash (list_ascii_of_string s).

End Cli.

(** ** Lemmas *)

Section ClientLemmas.
Context {E : Env} {L : EnvLaws E}.

Lemma split_path_app acc s rest :
  no_slash s ->
  split_path acc (String.append s (String slash rest)) = String.append acc s :: split_path EmptyString rest.
Proof.
  revert acc. induction s as [|c s IH]; intros acc Hs; simpl; [by rewrite append_nil_r|].
  destruct (Ascii.eqb_spec c slash) as [->|Hne]; [exfalso; apply Hs; by left|].
  rewrite IH by (intros Hin; apply Hs; by right). by rewrite append_assoc.
Qed.

Lemma split_path_last acc s : no_slash s -> split_path acc s = [String.append acc s].
Proof.
  revert acc. induction s as [|c s IH]; intros acc Hs; simpl; [by rewrite append_nil_r|].
  destruct (Ascii.eqb_spec c slash) as [->|Hne]; [exfalso; apply Hs; by left|].
  rewrite IH by (intros Hin; apply Hs; by right). by rewrite append_assoc.
Qed.

Lemma split_concat p parts :
  Forall no_slash (p :: parts) -> split_path EmptyString (String.concat "/" (p :: parts)) = p :: parts.
Proof.
  revert p. induction parts as [|q parts IH]; intros p Hp; inversion Hp as [|? ? H1 H2]; subst.
  - simpl. by rewrite split_path_last.
  - change (String.concat "/" (p :: q :: parts))
      with (String.append p (String slash (String.concat "/" (q :: parts)))).
    rewrite split_path_app by done. simpl String.append at 1. f_equal. by apply IH.
Qed.

(** The path of a state query, as the querier gets it. *)
Lemma state_route_path a m :
  no_slash (AccAddress_String a) -> no_slash m ->
  drop 2 (split_path EmptyString (state_route a m)) = [QueryGetContractState; AccAddress_String a; m].
Proof.
  intros Ha Hm. unfold state_route, route_of. rewrite split_concat; [done|].
  repeat constructor; try done; intros Hin; simpl in Hin; vm_compute in Hin; intuition discriminate.
Qed.

Lemma digit_char_no_slash d : 0 <= d < 10 -> Strconv.digit_char d <> slash.
Proof.
  intros Hd. assert (H : forallb (fun d => negb (Ascii.eqb (Strconv.digit_char d) slash)) (seqZ 0 10) = true)
    by (vm_compute; reflexivity).
  rewrite forallb_forall in H. specialize (H d (proj1 (list_elem_of_In _ _) (proj2 (elem_of_seqZ _ _ _) Hd))).
  intros Heq. rewrite Heq in H. vm_compute in H. discriminate H.
Qed.

Lemma no_slash_append s c : no_slash s -> c <> slash -> no_slash (String.append s (String c EmptyString)).
Proof.
  unfold no_slash. intros Hs Hc. induction s as [|a s IH]; simpl; [by intros [?|[]]|].
  intros [->|Hin]; [apply Hs; by left|]. apply IH; [|done]. intros Hin'. apply Hs. by right.
Qed.

Lemma no_slash_format fuel n : 0 <= n -> no_slash (Strconv.format fuel n).
Proof.
  revert n. induction fuel as [|fuel IH]; intros n Hn; cbn [Strconv.format]; [by intros []|].
  destruct (Z.ltb_spec n 10).
  - intros [Hin|[]]. revert Hin. apply digit_char_no_slash. lia.
  - apply no_slash_append; [apply IH, Z.div_pos; lia|]. apply digit_char_no_slash, Z.mod_pos_bound. lia.
Qed.

(** The path of a code query, as the querier gets it. *)
Lemma code_route_path id :
  0 <= id -> drop 2 (split_path EmptyString (code_route id)) = [QueryGetCode; Strconv.FormatUint id].
Proof.
  intros Hi. unfold code_route, route_of. rewrite split_concat; [done|].
  repeat constructor; try (intros Hin; vm_compute in Hin; intuition discriminate).
  by apply no_slash_format.
Qed.

Lemma hex_digit_val n : 0 <= n < 16 -> hex_val (Json.hex_digit n) = Some n.
Proof.
  intros Hn.
  assert (Hall : Forall (fun d => hex_val (Json.hex_digit d) = Some d) (seqZ 0 16))
    by (vm_compute; repeat constructor).
  rewrite list.Forall_forall in Hall. apply Hall, elem_of_seqZ. lia.
Qed.

Lemma Hex_roundtrip b : Hex.Decode (Hex.Encode b) = Ok b.
Proof.
  induction b as [|x b IH]; [done|]. simpl. pose proof (byte_val_range x) as Hx.
  rewrite !hex_digit_val, IH;
    [|apply Z.mod_pos_bound; lia|split; [apply Z.div_pos; lia|apply Z.div_lt_upper_bound; lia]].
  do 2 f_equal. apply byte_val_inj.
  rewrite byte_val_of_Z, Base64.lor_shiftl_add by (try apply Z.mod_pos_bound; lia).
  change (2 ^ 4) with 16. rewrite Z.mul_comm, <- Z.div_mod by lia. by apply Z.mod_small.
Qed.

(** What [uncompress] makes of compressed data. *)
Lemma uncompress_gzip data z :
  gzip_write data = Ok z -> uncompress z = (first maxSize data, None).
Proof.
  intros Hz. assert (Hh : first 3 z = gzipIdent) by exact (gzip_write_header _ _ Hz).
  pose proof (proj2 (bytes_Equal_true gzipIdent (first 3 z)) (eq_sym Hh)) as Hi.
  pose proof (gzipIdent_len _ Hi) as Hl. unfold uncompress. rewrite Hi, (gzip_open_write _ _ Hz).
  by destruct (Z.ltb_spec (len z) 3); [lia|].
Qed.

(** The download of a code whose record and code are there. *)
Lemma download_found `{CliContext} limit fuel w id info c file :
  answers limit fuel w -> is_u64 id -> code_at (w_store w) id = Some info ->
  wasmer_GetCode (CodeHash info) (w_vm w) = Ok c ->
  GetCmdQueryCode (Strconv.FormatUint id) file =
  match QueryWithData (code_route id) None with
  | Err err => fail (EForeign err)
  | Ok _ => if len c =? 0 then fail EContractNotFound else Ok (Ok (WriteFile file c))
  end.
Proof.
  intros Hn Hu Hi Hc. unfold GetCmdQueryCode. rewrite ParseUint_FormatUint by done.
  destruct (QueryWithData (code_route id) None) as [res|err] eqn:Eq; [|done].
  rewrite Hn, code_route_path in Eq by (destruct Hu; done).
  destruct (newQuerier limit fuel _ _ w) as [[bz|e] w2| |] eqn:EQ; try done. injection Eq as ->.
  pose proof (code_answer _ _ _ _ _ _ _ _ _ Hu Hi Hc EQ) as Hr. injection Hr as ->.
  unfold Unmarshal_GetCodeResponse, json_GetCodeResponse. simpl resp_Code.
  pose proof (Unmarshal_MarshalIndent "code" (Some c) eq_refl) as Hj. cbv iota in Hj |- *. rewrite Hj.
  change (len (Json.MarshalIndent _) =? 0) with false. done.
Qed.

End ClientLemmas.

(** ** Properties *)

Section ClientProperties.
Context {E : Env} {L : EnvLaws E} `{CliContext}.

(** What the store command uploads. When it broadcasts, it is one message with
    the sender, source and builder, which passes the stateless checks; a gzip file
    is sent as it is, and a wasm file compressed, so that what the chain
    uncompresses is the file, up to its first 400 KiB: of a longer wasm file the
    rest is dropped on the chain without an error. *)
Theorem StoreCodeCmd_uploads file source builder msgs :
  StoreCodeCmd file source builder = Ok (Ok (Broadcast msgs)) ->
  exists wasm code,
    let msg := {| sc_Sender := GetFromAddress; sc_WASMByteCode := code;
                  sc_Source := source; sc_Builder := builder |} in
    ReadFile file = Ok wasm /\ msgs = [WasmMsg false (WStoreCode msg)] /\
    MsgStoreCode_ValidateBasic msg = None /\
    ((IsWasm wasm = Ok true /\ uncompress code = (first (400 * 1024) (sl_data wasm), None)) \/
     (IsWasm wasm = Ok false /\ IsGzip wasm = Ok true /\ code = sl_data wasm)).
Proof.
  unfold StoreCodeCmd. destruct (ReadFile file) as [wasm|]; [|done].
  destruct (IsWasm wasm) as [[]|] eqn:Ew; [| |done].
  - unfold GzipIt. destruct (gzip_write (sl_data wasm)) as [z|] eqn:Ez; [|done].
    destruct (MsgStoreCode_ValidateBasic _) eqn:Ev; [done|]. intros [= <-].
    exists wasm, z. do 3 (split; [done|]). left. split; [done|]. by apply uncompress_gzip.
  - destruct (IsGzip wasm) as [[]|] eqn:Eg; [|done|done].
    destruct (MsgStoreCode_ValidateBasic _) eqn:Ev; [done|]. intros [= <-].
    exists wasm, (sl_data wasm). do 3 (split; [done|]). by right.
Qed.

(** The format checks look at the first bytes of the file when it is long
    enough; a file shorter than the magic number is compared together with
    whatever lies behind it in its buffer, and panics when the buffer ends too. *)
Theorem format_checks s :
  (4 <= length (sl_data s) ->
     IsWasm s = Ok (bool_decide (take 4 (sl_data s) = wasmIdent)) /\
     IsGzip s = Ok (bool_decide (take 3 (sl_data s) = gzipIdent)))%nat /\
  (length (sl_data s ++ sl_spare s) < 4 -> IsWasm s = Err PanicIndex)%nat /\
  (length (sl_data s ++ sl_spare s) < 3 -> IsGzip s = Err PanicIndex)%nat.
Proof.
  unfold IsWasm, IsGzip, prefix_slice, bytes_Equal. split; [|split]; intros Hl.
  - rewrite length_app, !take_app_le by lia.
    rewrite !(proj2 (Nat.leb_le _ _)) by lia. done.
  - by rewrite (proj2 (Nat.leb_gt _ _)).
  - by rewrite (proj2 (Nat.leb_gt _ _)).
Qed.

(** The argument of a query is decoded by the flag that is set, by the
    command's default when none is, and refused when more than one is; hex and
    base64 text decode to the bytes they encode. *)
Theorem argument_decoder_spec def ascii hex b64 s b :
  let a := newArgDecoder def ascii hex b64 in
  (1 < Nat.b2n ascii + Nat.b2n hex + Nat.b2n b64 ->
     argumentDecoder_DecodeString a s = Err EMultipleFlags)%nat /\
  argumentDecoder_DecodeString (newArgDecoder def false false false) s = def s /\
  argumentDecoder_DecodeString (newArgDecoder def true false false) s = Ok (bytes_of_string s) /\
  argumentDecoder_DecodeString (newArgDecoder def false true false) (string_of_bytes (Hex.Encode b)) = Ok b /\
  argumentDecoder_DecodeString (newArgDecoder def false false true) (Base64.EncodeToString b) = Ok b.
Proof.
  intros a. split; [|split; [done|split; [done|split]]].
  - subst a. destruct ascii, hex, b64; simpl; intros Hc; first [done|lia].
  - change (hexDecodeString (string_of_bytes (Hex.Encode b)) = Ok b).
    unfold hexDecodeString, Hex.DecodeString. by rewrite bytes_of_string_of_bytes, Hex_roundtrip.
  - change (b64DecodeString (Base64.EncodeToString b) = Ok b).
    unfold b64DecodeString. by rewrite Base64.DecodeString_EncodeToString.
Qed.

(** C36: the smart query command, against a node that answers with the module's
    querier, prints exactly what [QuerySmart] returns for the contract and the
    bytes of the argument, and fails when it fails. *)
Theorem smart_query_end_to_end limit fuel w a key r w' :
  answers limit fuel w -> length a = AddrLen -> no_slash (AccAddress_String a) ->
  key <> EmptyString ->
  QuerySmart limit a (bytes_of_string key) w = Ret r w' ->
  GetCmdGetContractStateSmart false false false (AccAddress_String a) key =
  match r with
  | Ok res => Ok (Ok (Println (string_of_bytes res)))
  | Err _ => fail (EForeign "query failed")
  end.
Proof.
  intros Hn Hl Hs Hk HQ. unfold GetCmdGetContractStateSmart. rewrite FromBech32_String by done.
  rewrite bool_decide_eq_false_2 by done. unfold argumentDecoder_DecodeString. simpl.
  unfold query_and_print. rewrite Hn, state_route_path; [|done|].
  2: { intros Hin. vm_compute in Hin. intuition discriminate. }
  unfold newQuerier, gbind. simpl. unfold queryContractState. rewrite FromBech32_String by done. simpl.
  rewrite HQ. by destruct r.
Qed.

(** The download command gives back what was uploaded: against a node that
    answers from the state after an upload, it writes the uncompressed code to the
    file; code that is empty once uncompressed it reports as not found, and it
    fails otherwise only when the query does. *)
Theorem download_returns_upload limit fuel creator code src bld w id w1 file :
  Create creator code src bld w = Ret (Ok id) w1 -> answers limit fuel w1 ->
  exists c, uncompress code = (c, None) /\
    GetCmdQueryCode (Strconv.FormatUint id) file =
    match QueryWithData (code_route id) None with
    | Err err => fail (EForeign err)
    | Ok _ => if len c =? 0 then fail EContractNotFound else Ok (Ok (WriteFile file c))
    end.
Proof.
  intros (c & h & v & g & Hc & Hh & Hid & Hu & _ & _ & ->)%Create_Ret Hn. exists c. split; [done|].
  eapply download_found; [done|done|apply code_at_set_eq|]. simpl. by eapply GetCode_Create.
Qed.

(** The raw query command, against such a node, prints the entry of the
    contract's store under the key whose hex text was given. *)
Theorem raw_query_end_to_end limit fuel w a k raw w' :
  answers limit fuel w -> length a = AddrLen -> no_slash (AccAddress_String a) ->
  QueryRaw a (Some k) w = Ret raw w' ->
  GetCmdGetContractStateRaw false false false (AccAddress_String a) (string_of_bytes (Hex.Encode k))
  = Ok (Ok (Println (string_of_bytes (Json.MarshalIndent (Json.JArr (map json_Model raw)))))).
Proof.
  intros Hn Hl Hs HQ. unfold GetCmdGetContractStateRaw. rewrite FromBech32_String by done.
  change (argumentDecoder_DecodeString _ _) with (hexDecodeString (string_of_bytes (Hex.Encode k))).
  unfold hexDecodeString, Hex.DecodeString. rewrite bytes_of_string_of_bytes, Hex_roundtrip. simpl.
  unfold query_and_print. rewrite Hn, state_route_path; [|done|].
  2: { intros Hin. vm_compute in Hin. intuition discriminate. }
  unfold newQuerier, gbind. simpl. unfold queryContractState. rewrite FromBech32_String by done.
  rewrite (bool_decide_eq_false_2 (QueryMethodContractStateRaw = _)) by done.
  rewrite bool_decide_eq_true_2 by done. unfold gbind. change (req_Data _) with (Some k). by rewrite HQ.
Qed.

End ClientProperties.

(** ** Witnesses *)

#[local] Existing Instances demo_scripts RefEnv RefEnvLaws.

Definition demo_wasm : bytes := wasmIdent ++ [x01; x00; x00; x00].

(** A client with one wasm file, on a node that answers from the demo chain. *)
#[local] Instance demo_cli : CliContext := {|
  ReadFile f := if String.eqb f "contract.wasm"
                then Ok {| sl_data := demo_wasm; sl_spare := [] |}
                else Err "no such file"%string;
  GetFromAddress := alice;
  ParseCoins s := Ok [];
  QueryWithData route data :=
    match newQuerier 3000000 9 (drop 2 (split_path EmptyString route)) {| req_Data := data |} demo_ready with
    | Ret (Ok bz) _ => Ok bz
    | _ => Err "query failed"%string
    end |}.

Definition demo_upload : MsgStoreCode :=
  {| sc_Sender := alice;
     sc_WASMByteCode := [x1f; x8b; x08; x00; x00; x00; x00; x00; x00; x00] ++ demo_wasm;
     sc_Source := ""; sc_Builder := "" |}.

Definition demo_file : slice := {| sl_data := demo_wasm; sl_spare := [] |}.

Lemma store_demo_file (C : CliContext) :
  @ReadFile C "contract.wasm" = Ok demo_file -> @GetFromAddress C = alice ->
  @StoreCodeCmd _ C "contract.wasm" "" "" = Ok (Ok (Broadcast [WasmMsg false (WStoreCode demo_upload)])).
Proof.
  assert (Hv : MsgStoreCode_ValidateBasic demo_upload = None) by (vm_compute; reflexivity).
  intros Hf Ha. unfold StoreCodeCmd. rewrite Hf, Ha. cbv beta iota zeta.
  change (IsWasm demo_file) with (Ok (E:=panic) true). cbv beta iota zeta.
  change (GzipIt _) with (Ok (E:=string) (sc_WASMByteCode demo_upload)). cbv beta iota zeta.
  change {| sc_Sender := _; sc_WASMByteCode := _; sc_Source := _; sc_Builder := _ |} with demo_upload.
  by rewrite Hv.
Qed.

Lemma demo_store :
  StoreCodeCmd "contract.wasm" "" "" = Ok (Ok (Broadcast [WasmMsg false (WStoreCode demo_upload)])).
Proof. by apply store_demo_file. Qed.

Lemma StoreCodeCmd_uploads_witness :
  exists wasm code, ReadFile "contract.wasm" = Ok wasm /\
    ((IsWasm wasm = Ok true /\ uncompress code = (first (400 * 1024) (sl_data wasm), None)) \/
     (IsWasm wasm = Ok false /\ IsGzip wasm = Ok true /\ code = sl_data wasm)).
Proof.
  destruct (StoreCodeCmd_uploads "contract.wasm" "" "" _ demo_store) as (wasm & code & Hr & _ & _ & Hc).
  exists wasm, code. exact (conj Hr Hc).
Defined.

(** A node that answers from the state after the upload. *)
#[local] Instance uploaded_cli : CliContext | 100 := {|
  ReadFile _ := Err "no such file"%string;
  GetFromAddress := alice;
  ParseCoins _ := Ok [];
  QueryWithData route data :=
    match newQuerier 3000000 9 (drop 2 (split_path EmptyString route)) {| req_Data := data |} demo_uploaded with
    | Ret (Ok bz) _ => Ok bz
    | _ => Err "query failed"%string
    end |}.

Lemma uploaded_answer : exists res, @QueryWithData uploaded_cli (code_route 1) None = Ok res.
Proof. eexists. vm_compute. reflexivity. Qed.

Lemma download_returns_upload_witness :
  @GetCmdQueryCode _ uploaded_cli "1" "out.wasm" = Ok (Ok (WriteFile "out.wasm" demo_code)).
Proof.
  destruct (@download_returns_upload _ _ uploaded_cli 3000000 9 alice demo_code "" "" demo_empty 1
    demo_uploaded "out.wasm" ltac:(by_run) ltac:(intros route data; reflexivity)) as (c & Hc & H).
  destruct uploaded_answer as [res Hres]. rewrite Hres in H.
  assert (c = demo_code) as ->.
  { vm_compute in Hc. injection Hc as <-. vm_compute. reflexivity. }
  exact H.
Defined.

Lemma demo_contract_no_slash : no_slash (AccAddress_String demo_contract).
Proof. intros Hin. vm_compute in Hin. intuition discriminate. Qed.

Lemma demo_answers : answers 3000000 9 demo_ready.
Proof. intros route data. reflexivity. Qed.

Lemma smart_query_end_to_end_witness :
  GetCmdGetContractStateSmart false false false (AccAddress_String demo_contract) "state"
  = Ok (Ok (Println "init")).
Proof.
  exact (smart_query_end_to_end 3000000 9 demo_ready demo_contract "state" (Ok (bytes_of_string "init"))
    _ demo_answers eq_refl demo_contract_no_slash ltac:(discriminate) ltac:(by_run)).
Defined.

Lemma raw_query_end_to_end_witness :
  GetCmdGetContractStateRaw false false false (AccAddress_String demo_contract)
    (string_of_bytes (Hex.Encode (bytes_of_string "state")))
  = Ok (Ok (Println (string_of_bytes (Json.MarshalIndent
      (Json.JArr [json_Model {| Key := "state"; Value := "init" |}]))))).
Proof.
  exact (raw_query_end_to_end 3000000 9 demo_ready demo_contract (bytes_of_string "state") _ _
    demo_answers eq_refl demo_contract_no_slash ltac:(by_run)).
Defined.
