(* ===== verification/EndToEnd.v ===== *)
(** * From a file to a file

    The upload command, the chain and the download command together: what a user
    gets back, at any later time, of a file that was uploaded. *)

From S2P Require Import Prelude GoStd Base64 Json Unmarshal SdkTypes Types Sdk Ref Gas.
From S2P Require Import Store Code Keeper Demo Runs Dispatch Nesting Invariants Registry Genesis Querier Client.

(** ** The virtual machine keeps its code *)

Section Machine.
Context {E : Env} {L : EnvLaws E}.

Definition vmR (w w' : world) : Prop :=
  forall h c, wasmer_GetCode h (w_vm w) = Ok c -> wasmer_GetCode h (w_vm w') = Ok c.

#[export] Instance vmR_preorder : PreOrder vmR.
Proof. split; unfold vmR; [by intros w|]. intros w1 w2 w3. auto. Qed.

Lemma vmR_same w w' : w_vm w' = w_vm w -> vmR w w'.
Proof. intros Hv h c. by rewrite Hv. Qed.

#[export] Instance vmR_frame : Frame vmR.
Proof.
  split; [apply _|..].
  - intros w w' (_ & Hv & _). by apply vmR_same.
  - intros c w r v Hc h c' Hg. by eapply GetCode_kept.
  - intros. by apply vmR_same.
  - intros. by apply vmR_same.
Qed.

Lemma vmR_Create creator code src bld : sound vmR (Create creator code src bld).
Proof.
  apply sound_intro. intros w r w' H. unfold Create in H.
  destruct (uncompress code) as [c [err|]]; [by injection H as <- <-|]. minv H.
  apply compile_Ret in E0 as (v & Hv & ->). pose proof (frame_vm (R:=vmR) _ _ _ _ Hv) as HR.
  destruct r0 as [h|err]; [|by injection H as <- <-]. minv H.
  apply autoIncrementID_Ret in E0 as (-> & _ & g & _ & _ & ->). minv H.
  apply store_Set_Ret in E0 as (g' & _ & _ & ->). by injection H as <- <-.
Qed.

Lemma vmR_counted w w1 : counted w w1 -> vmR w w1.
Proof. intros (g & _ & _ & ->). by apply vmR_same. Qed.

#[export] Instance vmR_callframe : CallFrame vmR.
Proof.
  apply callframe_record; [apply _|apply vmR_Create|apply vmR_counted|]. intros. by apply vmR_same.
Qed.

(** A code of the chain: its record and, under the record's hash, its code. *)
Definition has_code (id : Z) (info : CodeInfo) (c : bytes) (w : world) : Prop :=
  code_at (w_store w) id = Some info /\ wasmer_GetCode (CodeHash info) (w_vm w) = Ok c.

Lemma chain_step_has_code id info c w w' :
  is_u64 id -> chain_step w w' -> chain_ok w -> has_code id info c w -> has_code id info c w'.
Proof.
  intros Hu H Hok [Hi Hc]. destruct H as [n ctx m limit w res w' Hl Hroom H|w w' (Hs & Hv & _)].
  2: { split; [by rewrite Hs|by rewrite Hv]. }
  split; [|exact (sound_message vmR _ _ _ _ _ _ H _ _ Hc)].
  destruct (sound_message codesR _ _ _ _ _ _ H) as [_ Hk].
  destruct Hk as (_ & _ & Hk).
  { split; [apply Hok|]. destruct (gm_New_limit limit Hl) as (H1 & H2 & Hf). simpl. rewrite H1, H2.
    split; [done|lia]. }
  unfold code_at in *. simpl in Hk. rewrite Hk; [done|done|]. destruct (kv_get _ _); [by eexists|done].
Qed.

Lemma chain_has_code id info c w w' :
  is_u64 id -> rtc chain_step w w' -> chain_ok w -> has_code id info c w -> has_code id info c w'.
Proof.
  intros Hu. induction 1 as [|w1 w2 w3 H _ IH]; [done|]. intros Hok Hc.
  apply IH; [by eapply chain_step_ok|by eapply chain_step_has_code].
Qed.

(** What a store message that succeeded did. *)
Lemma store_message_code e ctx ptr m w res w' :
  NewHandler e ctx (WasmMsg ptr (WStoreCode m)) w = Ret res w' -> IsOK res = true ->
  exists id info c, res_Data res = bytes_of_string (Strconv.FormatUint id) /\ is_u64 id /\
    uncompress (sc_WASMByteCode m) = (c, None) /\ has_code id info c w'.
Proof.
  intros (w1 & -> & H)%NewHandler_Ret Hok. unfold handleStoreCode in H.
  destruct (MsgStoreCode_ValidateBasic m) as [err|].
  { injection H as <- <-. by rewrite ResultFromError_not_ok in Hok. }
  minv H. apply Create_Ret in E0. destruct r as [id|err].
  - destruct E0 as (c & h & v & g & Hc & Hh & _ & Hu & _ & _ & ->). minv H. injection E0 as <- <-.
    minv H. injection E0 as <- <-. injection H as <- <-.
    exists id, (NewCodeInfo h (sc_Sender m) (sc_Source m) (sc_Builder m)), c.
    do 3 (split; [done|]). split; [apply code_at_set_eq|]. simpl. by eapply GetCode_Create.
  - injection H as <- <-. by rewrite ResultFromError_not_ok in Hok.
Qed.

End Machine.

(** ** Properties *)

Section EndToEnd.
Context {E : Env} {L : EnvLaws E} `{CliContext}.

(** C18: what the store command uploads is what the download command writes, at any
    later time. If the message of the command succeeded on a chain that started
    empty, then after any further blocks the download of the id that was reported,
    from a node at that point, writes the uncompressed code to the file it is given
    (of a wasm file: the file itself, up to its first 400 KiB); it fails only if the
    node's answer does, or if the code is empty. *)
Theorem upload_served_forever file source builder msg n ctx limit w0 w res w1 w2 qlimit fuel out :
  (forall k, kv_get k (w_store w0) = None) -> rtc chain_step w0 w ->
  StoreCodeCmd file source builder = Ok (Ok (Broadcast [msg])) ->
  is_u64 limit -> next_id KeyLastCodeID (w_store w) + limit < two64 - 1 ->
  NewHandler (entry n) ctx msg (set_gas (gm_NewGasMeter limit) w) = Ret res w1 -> IsOK res = true ->
  rtc chain_step w1 w2 -> answers qlimit fuel w2 ->
  exists wasm id c, ReadFile file = Ok wasm /\ is_u64 id /\ res_Data res = bytes_of_string (Strconv.FormatUint id) /\
    (IsWasm wasm = Ok true -> c = first (400 * 1024) (sl_data wasm)) /\
    (IsWasm wasm = Ok false -> uncompress (sl_data wasm) = (c, None)) /\
    GetCmdQueryCode (string_of_bytes (res_Data res)) out =
    match QueryWithData (code_route id) None with
    | Err err => fail (EForeign err)
    | Ok _ => if len c =? 0 then fail EContractNotFound else Ok (Ok (WriteFile out c))
    end.
Proof.
  intros He Hr Hcmd Hl Hroom HN Hok Hr2 Hn.
  assert (Hw1 : chain_ok w1).
  { eapply chain_step_ok; [by eapply chain_message|]. by eapply chain_reachable_ok, empty_chain_ok. }
  destruct (StoreCodeCmd_uploads _ _ _ _ Hcmd) as (wasm & code & Hf & [= ->] & _ & Hcode).
  destruct (store_message_code _ _ _ _ _ _ _ HN Hok) as (id & info & c & Hd & Hu & Hunc & Hc).
  simpl in Hunc. exists wasm, id, c. do 3 (split; [done|]).
  destruct (chain_has_code _ _ _ _ _ Hu Hr2 Hw1 Hc) as [Hi Hg].
  split; [|split].
  - intros Hw. destruct Hcode as [[_ Hcode]|[Hw' _]]; [|congruence]. congruence.
  - intros Hw. destruct Hcode as [[Hw' _]|(_ & _ & ->)]; [congruence|done].
  - rewrite Hd, string_of_bytes_of_string. by eapply download_found.
Qed.

End EndToEnd.

(** ** Witness *)

#[local] Existing Instances demo_scripts RefEnv RefEnvLaws.

Definition upload_msg : sdk_msg := WasmMsg false (WStoreCode demo_upload).

(** A block with the upload, and one with an instantiation of the code. *)
Definition chain_uploaded : world := final (NewHandler (entry 1) ref_ctx upload_msg) (new_block demo_empty).
Definition chain_later : world := final (NewHandler (entry 3) ref_ctx second_msg) (new_block chain_uploaded).

Lemma chain_later_reachable : rtc chain_step chain_uploaded chain_later.
Proof.
  apply rtc_once.
  eapply (chain_message 3 ref_ctx second_msg 200000); [unfold is_u64, two64; lia|vm_compute; done|by_run].
Qed.

(** A client with a wasm file, and a node at the later block. *)
#[local] Instance later_cli : CliContext := {|
  ReadFile _ := Ok demo_file; GetFromAddress := alice; ParseCoins _ := Ok [];
  QueryWithData route data :=
    match newQuerier 3000000 9 (drop 2 (split_path EmptyString route)) {| req_Data := data |} chain_later with
    | Ret (Ok bz) _ => Ok bz
    | _ => Err "query failed"%string
    end |}.

Lemma later_answers : answers 3000000 9 chain_later.
Proof. intros route data. reflexivity. Qed.

Lemma later_answer : exists res, QueryWithData (code_route 1) None = Ok res.
Proof. eexists. vm_compute. reflexivity. Qed.

Definition upload_result : Result :=
  default (ResultFromError (ErrForeign "")) (returned (NewHandler (entry 1) ref_ctx upload_msg (new_block demo_empty))).

Lemma upload_served_forever_witness :
  res_Data upload_result = bytes_of_string "1" /\
  GetCmdQueryCode (string_of_bytes (res_Data upload_result)) "out.wasm" = Ok (Ok (WriteFile "out.wasm" demo_wasm)).
Proof.
  assert (Hd : res_Data upload_result = bytes_of_string "1") by (vm_compute; reflexivity).
  split; [exact Hd|].
  destruct (upload_served_forever "contract.wasm" "" "" upload_msg 1 ref_ctx 200000 demo_empty demo_empty
    upload_result chain_uploaded chain_later 3000000 9 "out.wasm" demo_empty_get (rtc_refl _ _)
    (store_demo_file later_cli eq_refl eq_refl) ltac:(unfold is_u64, two64; lia) ltac:(vm_compute; reflexivity)
    ltac:(by_run) ltac:(vm_compute; reflexivity) chain_later_reachable later_answers)
    as (wasm & id & c & Hf & Hu & Hid & Hc & _ & H).
  injection Hf as <-. rewrite Hd in Hid.
  assert (id = 1) as ->.
  { pose proof (ParseUint_FormatUint id Hu) as Hp.
    rewrite <- (string_of_bytes_of_string (Strconv.FormatUint id)), <- Hid in Hp.
    vm_compute in Hp. injection Hp as <-. reflexivity. }
  destruct later_answer as [bz Hbz]. rewrite Hbz in H.
  assert (c = demo_wasm) as -> by (rewrite Hc by reflexivity; vm_compute; reflexivity).
  exact H.
Defined.
