(* ===== verification/Rest.v ===== *)
(** * The REST client (x/wasm/client/rest)

    What the handlers answer: the route they query and the text they return, the
    message a transaction request becomes, and the requests they refuse. The
    handlers of "smart" and "raw" queries are empty in the source. *)

From S2P Require Import Prelude GoStd Base64 Json Unmarshal SdkTypes Types Sdk Ref Gas.
From S2P Require Import Store Code Keeper Demo Runs Nesting Invariants Genesis Querier Client.

(** [rest.BaseReq] and its methods; [ValidateBasic] answers the request itself
    when it fails. *)
Class RestContext := {
  BaseReq : Type;
  br_From : BaseReq -> string;
  br_Sanitize : BaseReq -> BaseReq;
  br_ValidateBasic : BaseReq -> bool }.

Inductive rest_error :=
  | RForeign (text : string)
  | RSizeLimit
  | RInvalidFile
  | RValidate (e : error)
  | RNum (e : Strconv.num_error)
  | RJson (e : Unmarshal.json_error)
  | RContractNotFound.

(** What the client sees: an error, a text, a generated transaction, nothing at
    all, or what a helper of the SDK wrote. *)
Inductive rest_response {E : Env} `{RestContext} :=
  | WriteErrorResponse (status : Z) (e : rest_error)
  | PostProcessResponse (body : string)
  | WriteGenerateStdTxResponse (base : BaseReq) (msgs : list sdk_msg)
  | NoResponse
  | AnsweredByHelper.

Definition StatusBadRequest : Z := 400.
Definition StatusInternalServerError : Z := 500.

(** [mux.Vars(r)[name]]: the empty string when there is no such variable. *)
Definition mux_var (vars : gmap string string) (name : string) : string :=
  default EmptyString (vars !! name).

Section Rest.
Context {E : Env} `{CliContext} `{RestContext}.

(** ** query.go *)

Definition query_and_respond (route : string) : rest_response :=
  match QueryWithData route None with
  | Err err => WriteErrorResponse StatusInternalServerError (RForeign err)
  | Ok res => PostProcessResponse (string_of_bytes res)
  end.

Definition listCodesHandlerFn : rest_response :=
  query_and_respond (route_of [Types.QuerierRoute; QueryListCode]).

Definition queryCodeHandlerFn (vars : gmap string string) : rest_response :=
  match Strconv.ParseUint (mux_var vars "codeId") with
  | Err err => WriteErrorResponse StatusInternalServerError (RNum err)
  | Ok codeID =>
      match QueryWithData (code_route codeID) None with
      | Err err => WriteErrorResponse StatusInternalServerError (RForeign err)
      | Ok res =>
          if len res =? 0 then WriteErrorResponse StatusInternalServerError RContractNotFound
          else
            match Unmarshal_GetCodeResponse res with
            | Err err => WriteErrorResponse StatusInternalServerError (RJson err)
            | Ok code =>
                let bz := default [] (resp_Code code) in
                if len bz =? 0 then WriteErrorResponse StatusInternalServerError RContractNotFound
                else PostProcessResponse (string_of_bytes bz)
            end
      end
  end.

Definition listAllContractsHandlerFn : rest_response :=
  query_and_respond (route_of [Types.QuerierRoute; QueryListContracts]).

Definition queryContractHandlerFn (vars : gmap string string) : rest_response :=
  match AccAddressFromBech32 (mux_var vars "codeId") with
  | Err err => WriteErrorResponse StatusInternalServerError (RForeign err)
  | Ok addr =>
      query_and_respond (route_of [Types.QuerierRoute; QueryGetContract; AccAddress_String addr])
  end.

Definition queryContractStateAllHandlerFn (vars : gmap string string) : rest_response :=
  match AccAddressFromBech32 (mux_var vars "contractAddr") with
  | Err err => WriteErrorResponse StatusInternalServerError (RForeign err)
  | Ok addr => query_and_respond (state_route addr QueryMethodContractStateAll)
  end.

Definition queryContractStateSmartHandlerFn (vars : gmap string string) : rest_response := NoResponse.
Definition queryContractStateRawHandlerFn (vars : gmap string string) : rest_response := NoResponse.

(** ** tx.go *)

Definition rest_maxSize : Z := 400 * 1024.

Record storeCodeReq := { st_BaseReq : BaseReq; st_WasmBytes : slice }.
Record instantiateContractReq := { in_BaseReq : BaseReq; in_Deposit : Coins; in_InitMsg : bytes }.
Record executeContractReq := { ex_BaseReq : BaseReq; ex_ExecMsg : bytes; ex_Amount : Coins }.

(** The part of [storeCodeHandlerFn] after the code was compressed. *)
Definition store_code_tx (base : BaseReq) (wasm : bytes) : rest_response :=
  match AccAddressFromBech32 (br_From base) with
  | Err err => WriteErrorResponse StatusBadRequest (RForeign err)
  | Ok fromAddr =>
      let msg := {| sc_Sender := fromAddr; sc_WASMByteCode := wasm;
                    sc_Source := EmptyString; sc_Builder := EmptyString |} in
      match MsgStoreCode_ValidateBasic msg with
      | Some err => WriteErrorResponse StatusBadRequest (RValidate err)
      | None => WriteGenerateStdTxResponse base [WasmMsg false (WStoreCode msg)]
      end
  end.

(** [None]: [rest.ReadRESTReq] could not read the request, and answered. *)
Definition storeCodeHandlerFn (req : option storeCodeReq) : result panic rest_response :=
  match req with
  | None => Ok AnsweredByHelper
  | Some req =>
      let base := br_Sanitize (st_BaseReq req) in
      if negb (br_ValidateBasic base) then Ok AnsweredByHelper
      else
        let wasm := st_WasmBytes req in
        if rest_maxSize <? len (sl_data wasm)
        then Ok (WriteErrorResponse StatusBadRequest RSizeLimit)
        else
          match IsWasm wasm with
          | Err p => Err p
          | Ok true =>
              match GzipIt (sl_data wasm) with
              | Err err => Ok (WriteErrorResponse StatusBadRequest (RForeign err))
              | Ok code => Ok (store_code_tx base code)
              end
          | Ok false =>
              match IsGzip wasm with
              | Err p => Err p
              | Ok false => Ok (WriteErrorResponse StatusBadRequest RInvalidFile)
              | Ok true => Ok (store_code_tx base (sl_data wasm))
              end
          end
  end.

Definition instantiateContractHandlerFn (vars : gmap string string)
    (req : option instantiateContractReq) : rest_response :=
  match req with
  | None => AnsweredByHelper
  | Some req =>
      let codeId := mux_var vars "codeId" in
      let base := br_Sanitize (in_BaseReq req) in
      if negb (br_ValidateBasic base) then AnsweredByHelper
      else
        match Strconv.ParseUint codeId with
        | Err _ => NoResponse
        | Ok codeID =>
            let msg := {| ic_Sender := GetFromAddress; ic_Code := codeID;
                          ic_InitMsg := in_InitMsg req; ic_InitFunds := in_Deposit req |} in
            match MsgInstantiateContract_ValidateBasic msg with
            | Some err => WriteErrorResponse StatusBadRequest (RValidate err)
            | None => WriteGenerateStdTxResponse base [WasmMsg false (WInstantiate msg)]
            end
        end
  end.

Definition executeContractHandlerFn (vars : gmap string string) (req : option executeContractReq)
    : rest_response :=
  match req with
  | None => AnsweredByHelper
  | Some req =>
      let contractAddr := mux_var vars "contractAddr" in
      let base := br_Sanitize (ex_BaseReq req) in
      if negb (br_ValidateBasic base) then AnsweredByHelper
      else
        match AccAddressFromBech32 contractAddr with
        | Err _ => NoResponse
        | Ok contractAddress =>
            let msg := {| ec_Sender := GetFromAddress; ec_Contract := contractAddress;
                          ec_Msg := ex_ExecMsg req; ec_SentFunds := ex_Amount req |} in
            match MsgExecuteContract_ValidateBasic msg with
            | Some err => WriteErrorResponse StatusBadRequest (RValidate err)
            | None => WriteGenerateStdTxResponse base [WasmMsg false (WExecute msg)]
            end
        end
  end.

End Rest.

(** ** Properties *)

Section RestProperties.
Context {E : Env} {L : EnvLaws E} `{CliContext} `{RestContext}.

(** What the REST store request uploads. A transaction is generated only for
    code of at most 400 KiB, so that, unlike on the command line, what the chain
    uncompresses of a wasm file is all of it; the message passes the stateless
    checks, and its sender is the one of the request. *)
Theorem storeCodeHandlerFn_uploads req base msgs :
  storeCodeHandlerFn (Some req) = Ok (WriteGenerateStdTxResponse base msgs) ->
  exists msg, msgs = [WasmMsg false (WStoreCode msg)] /\ base = br_Sanitize (st_BaseReq req) /\
    AccAddressFromBech32 (br_From base) = Ok (sc_Sender msg) /\
    MsgStoreCode_ValidateBasic msg = None /\ len (sl_data (st_WasmBytes req)) <= 400 * 1024 /\
    (uncompress (sc_WASMByteCode msg) = (sl_data (st_WasmBytes req), None) \/
     (IsGzip (st_WasmBytes req) = Ok true /\ sc_WASMByteCode msg = sl_data (st_WasmBytes req))).
Proof.
  unfold storeCodeHandlerFn. set (b := br_Sanitize (st_BaseReq req)).
  destruct (negb (br_ValidateBasic b)); [done|].
  destruct (Z.ltb_spec rest_maxSize (len (sl_data (st_WasmBytes req)))) as [|Hl]; [done|].
  assert (Htx : forall code, store_code_tx b code = WriteGenerateStdTxResponse base msgs ->
    exists msg, msgs = [WasmMsg false (WStoreCode msg)] /\ base = b /\
      AccAddressFromBech32 (br_From base) = Ok (sc_Sender msg) /\
      MsgStoreCode_ValidateBasic msg = None /\ sc_WASMByteCode msg = code).
  { intros code. unfold store_code_tx. destruct (AccAddressFromBech32 (br_From b)) as [from|] eqn:Ef; [|done].
    destruct (MsgStoreCode_ValidateBasic _) eqn:Ev; [done|]. intros [= <- <-]. eauto 10. }
  destruct (IsWasm (st_WasmBytes req)) as [[]|]; [| |done].
  - unfold GzipIt. destruct (gzip_write (sl_data (st_WasmBytes req))) as [z|] eqn:Ez; [|done].
    intros [= Hs]. destruct (Htx _ Hs) as (msg & -> & -> & Hf & Hv & Hc).
    exists msg. do 5 (split; [done|]). left. rewrite Hc, (uncompress_gzip _ _ Ez).
    unfold first. rewrite take_ge; [done|]. unfold len, rest_maxSize, maxSize in *. lia.
  - destruct (IsGzip (st_WasmBytes req)) as [[]|] eqn:Eg; [|done|done].
    intros [= Hs]. destruct (Htx _ Hs) as (msg & -> & -> & Hf & Hv & Hc).
    exists msg. do 5 (split; [done|]). by right.
Qed.

(** The variables a route binds. *)
Lemma mux_var_unbound vars name route_var :
  dom vars = {[ route_var ]} -> name <> route_var -> mux_var vars name = EmptyString.
Proof.
  intros Hd Hne. unfold mux_var. replace (vars !! name) with (None (A:=string)); [done|].
  symmetry. apply not_elem_of_dom. rewrite Hd. by apply not_elem_of_singleton.
Qed.

(** The two REST queries for one thing do not look at the thing. The routes bind
    [contractAddr] and [codeID], the handlers read [codeId]: whatever contract the
    url names, the answer is the same, and every download of code fails, whatever
    the node would have answered. *)
Theorem single_queries_ignore_url vars vars' :
  (dom vars = {[ "contractAddr"%string ]} -> dom vars' = {[ "contractAddr"%string ]} ->
     queryContractHandlerFn vars = queryContractHandlerFn vars') /\
  (dom vars = {[ "codeID"%string ]} ->
     queryCodeHandlerFn vars = WriteErrorResponse StatusInternalServerError (RNum Strconv.ErrSyntax)).
Proof.
  split.
  - intros Hd Hd'. unfold queryContractHandlerFn.
    by rewrite (mux_var_unbound _ _ _ Hd), (mux_var_unbound _ _ _ Hd').
  - intros Hd. unfold queryCodeHandlerFn. by rewrite (mux_var_unbound _ _ _ Hd).
Qed.

(** A transaction request whose code id does not parse, or whose contract is
    not an address, is not answered at all: no error is written. *)
Theorem bad_request_unanswered vars (ireq : instantiateContractReq) (ereq : executeContractReq) :
  br_ValidateBasic (br_Sanitize (in_BaseReq ireq)) = true ->
  br_ValidateBasic (br_Sanitize (ex_BaseReq ereq)) = true ->
  ((exists e, Strconv.ParseUint (mux_var vars "codeId") = Err e) ->
     instantiateContractHandlerFn vars (Some ireq) = NoResponse) /\
  ((exists e, AccAddressFromBech32 (mux_var vars "contractAddr") = Err e) ->
     executeContractHandlerFn vars (Some ereq) = NoResponse).
Proof.
  intros Hi He. unfold instantiateContractHandlerFn, executeContractHandlerFn. rewrite Hi, He. simpl.
  split; intros [e ->]; done.
Qed.

End RestProperties.

(** ** Witnesses *)

#[local] Existing Instances demo_scripts RefEnv RefEnvLaws.

#[local] Instance rest_cli : CliContext := {|
  ReadFile _ := Err "no such file"%string;
  GetFromAddress := alice;
  ParseCoins s := Ok [];
  QueryWithData route _ := Ok (bytes_of_string route) |}.

#[local] Instance demo_rest : RestContext := {|
  BaseReq := string; br_From b := b; br_Sanitize b := b; br_ValidateBasic _ := true |}.

Definition rest_upload : storeCodeReq :=
  {| st_BaseReq := string_of_bytes alice;
     st_WasmBytes := {| sl_data := wasmIdent ++ [x01]; sl_spare := [] |} |}.

Definition rest_code : bytes :=
  [x1f; x8b; x08; x00; x00; x00; x00; x00; x00; x00] ++ wasmIdent ++ [x01].

Definition rest_msg : MsgStoreCode :=
  {| sc_Sender := alice; sc_WASMByteCode := rest_code; sc_Source := ""; sc_Builder := "" |}.

Lemma rest_store :
  storeCodeHandlerFn (Some rest_upload) =
  Ok (WriteGenerateStdTxResponse (string_of_bytes alice) [WasmMsg false (WStoreCode rest_msg)]).
Proof.
  assert (Hv : MsgStoreCode_ValidateBasic rest_msg = None) by (vm_compute; reflexivity).
  assert (Ha : AccAddressFromBech32 (string_of_bytes alice) = Ok alice) by (vm_compute; reflexivity).
  assert (Hl : (rest_maxSize <? len (sl_data (st_WasmBytes rest_upload))) = false) by (vm_compute; reflexivity).
  unfold storeCodeHandlerFn. rewrite Hl. change (negb _) with false.
  change (IsWasm _) with (Ok (E:=panic) true). change (GzipIt _) with (Ok (E:=string) rest_code).
  cbv beta iota zeta. unfold store_code_tx.
  change (br_From _) with (string_of_bytes alice). rewrite Ha.
  change {| sc_Sender := _; sc_WASMByteCode := _; sc_Source := _; sc_Builder := _ |} with rest_msg.
  by rewrite Hv.
Qed.

Lemma storeCodeHandlerFn_uploads_witness :
  exists msg, [WasmMsg false (WStoreCode rest_msg)] = [WasmMsg false (WStoreCode msg)] /\
    MsgStoreCode_ValidateBasic msg = None /\ len (sl_data (st_WasmBytes rest_upload)) <= 400 * 1024.
Proof.
  destruct (storeCodeHandlerFn_uploads _ _ _ rest_store) as (msg & H1 & _ & _ & H2 & H3 & _).
  exists msg. exact (conj H1 (conj H2 H3)).
Defined.

Lemma single_queries_ignore_url_witness :
  queryContractHandlerFn {[ "contractAddr"%string := string_of_bytes alice ]}
  = queryContractHandlerFn {[ "contractAddr"%string := string_of_bytes demo_contract ]} /\
  queryCodeHandlerFn {[ "codeID"%string := "1"%string ]}
  = WriteErrorResponse StatusInternalServerError (RNum Strconv.ErrSyntax).
Proof.
  split.
  - apply single_queries_ignore_url; by rewrite dom_singleton_L.
  - apply (single_queries_ignore_url _ ∅). by rewrite dom_singleton_L.
Defined.

Definition bad_instantiate : instantiateContractReq :=
  {| in_BaseReq := EmptyString; in_Deposit := []; in_InitMsg := [] |}.
Definition bad_execute : executeContractReq :=
  {| ex_BaseReq := EmptyString; ex_ExecMsg := []; ex_Amount := [] |}.

Lemma bad_request_unanswered_witness :
  instantiateContractHandlerFn {[ "codeId"%string := "x"%string ]} (Some bad_instantiate) = NoResponse.
Proof.
  apply (bad_request_unanswered _ bad_instantiate bad_execute eq_refl eq_refl).
  exists Strconv.ErrSyntax. vm_compute. reflexivity.
Defined.
