(* ===== verification/Routes.v ===== *)
(** * The routes of the REST client (x/wasm/client/rest)

    [RegisterRoutes]: which handler answers which request. Matching a path against
    a template is gorilla/mux's; its documented rule is the law of [Mux]. *)

From Stdlib Require Import Ascii.
From S2P Require Import Prelude GoStd Base64 Json Unmarshal SdkTypes Types Sdk Ref Gas.
From S2P Require Import Store Code Keeper Demo Runs Nesting Invariants Genesis Querier Client Rest.

(** ** gorilla/mux *)

(** The variable of a template's segment [{name}]. *)
Definition segment_var (seg : string) : option string :=
  match rev (String.list_ascii_of_string seg) with
  | "}"%char :: _ =>
      match seg with
      | String "{"%char rest => Some (String.substring 0 (String.length rest - 1) rest)
      | _ => None
      end
  | _ => None
  end.

(** A segment of the template is met by itself, or binds any segment but the empty
    one. *)
Fixpoint match_segments (tpl path : list string) (vars : gmap string string)
    : option (gmap string string) :=
  match tpl, path with
  | [], [] => Some vars
  | t :: tpl, p :: path =>
      match segment_var t with
      | Some x => if bool_decide (p = EmptyString) then None else match_segments tpl path (<[x := p]> vars)
      | None => if bool_decide (t = p) then match_segments tpl path vars else None
      end
  | _, _ => None
  end.

Class Mux := { mux_match : string -> string -> option (gmap string string) }.

Class MuxLaws `{Mux} : Prop := {
  mux_match_spec tpl path :
    mux_match tpl path = match_segments (split_path EmptyString tpl) (split_path EmptyString path) ∅ }.

(** A request's body, as [rest.ReadRESTReq] reads it for each kind of request. *)
Class RestBodies `{RestContext} := {
  http_body : Type;
  read_storeCode : http_body -> option storeCodeReq;
  read_instantiate : http_body -> option instantiateContractReq;
  read_execute : http_body -> option executeContractReq }.

(** ** rest.go *)

Section Routes.
Context {E : Env} `{CliContext} `{RestContext} `{!RestBodies} `{Mux}.

Record route := Route {
  rt_Template : string; rt_Method : string;
  rt_Handler : gmap string string -> http_body -> result panic rest_response }.

(** A handler that neither reads a body nor panics. *)
Definition answers (h : gmap string string -> rest_response) : gmap string string -> http_body -> result panic rest_response :=
  fun vars _ => Ok (h vars).

Definition registerQueryRoutes : list route :=
  [ Route "/wasm/code/" "GET" (answers (fun _ => listCodesHandlerFn));
    Route "/wasm/code/{codeID}" "GET" (answers queryCodeHandlerFn);
    Route "/wasm/contract/" "GET" (answers (fun _ => listAllContractsHandlerFn));
    Route "/wasm/contract/{contractAddr}" "GET" (answers queryContractHandlerFn);
    Route "/wasm/contract/{contractAddr}/state" "GET" (answers queryContractStateAllHandlerFn);
    Route "/wasm/contract/{contractAddr}/smart" "GET" (answers queryContractStateSmartHandlerFn);
    Route "/wasm/contract/{contractAddr}/raw" "GET" (answers queryContractStateRawHandlerFn) ].

Definition registerTxRoutes : list route :=
  [ Route "/wasm/code/" "POST" (fun _ body => storeCodeHandlerFn (read_storeCode body));
    Route "/wasm/code/{codeId}" "POST"
      (fun vars body => Ok (instantiateContractHandlerFn vars (read_instantiate body)));
    Route "/wasm/contract/{contractAddr}" "POST"
      (fun vars body => Ok (executeContractHandlerFn vars (read_execute body))) ].

Definition RegisterRoutes : list route := registerQueryRoutes ++ registerTxRoutes.

(** The first route whose template and method fit answers. *)
Fixpoint serve (routes : list route) (method path : string) (body : http_body)
    : option (result panic rest_response) :=
  match routes with
  | [] => None
  | r :: routes =>
      match mux_match (rt_Template r) path with
      | Some vars => if bool_decide (method = rt_Method r) then Some (rt_Handler r vars body)
                     else serve routes method path body
      | None => serve routes method path body
      end
  end.

(** ** module.go and cmd/wasmcli/main.go: the routes of the REST server *)

(** [RegisterRESTRoutes] of the module's basics registers nothing. *)
Definition AppModuleBasic_RegisterRESTRoutes (rtr : list route) : list route := rtr.

(** [registerRoutes]: the client's routes, those of transactions, and what each of
    the basics, in some order, registers. *)
Definition registerRoutes (client_routes tx_routes : list route) (basics : list (list route -> list route))
    : list route :=
  foldl (fun rtr RegisterRESTRoutes => RegisterRESTRoutes rtr) (client_routes ++ tx_routes) basics.

End Routes.

(** ** Properties *)

(** A literal segment has no slash. *)
Ltac literal_no_slash :=
  unfold no_slash; vm_compute; let H := fresh in intros H;
  repeat (destruct H as [H|H]; [discriminate H|]); exact H.


Section RouteProperties.
Context {E : Env} `{CliContext} `{RestContext} `{!RestBodies} `{Mux} {ML : MuxLaws}.

(** An url of the module. *)
Definition url (segments : list string) : string := String.concat "/" ("" :: "wasm" :: segments)%string.

Lemma match_url tpl segments :
  Forall no_slash segments ->
  mux_match tpl (url segments) = match_segments (split_path EmptyString tpl) ("" :: "wasm" :: segments)%string ∅.
Proof.
  intros Hs. rewrite mux_match_spec. unfold url. rewrite split_concat; [done|].
  constructor; [by intros []|]. constructor; [literal_no_slash|done].
Qed.

(** Serving an url comes down to its segments. *)
Fixpoint serve_segments (routes : list route) (method : string) (segments : list string) (body : http_body)
    : option (result panic rest_response) :=
  match routes with
  | [] => None
  | r :: routes =>
      match match_segments (split_path EmptyString (rt_Template r)) ("" :: "wasm" :: segments)%string ∅ with
      | Some vars => if bool_decide (method = rt_Method r) then Some (rt_Handler r vars body)
                     else serve_segments routes method segments body
      | None => serve_segments routes method segments body
      end
  end.

Lemma serve_url routes method segments body :
  Forall no_slash segments ->
  serve routes method (url segments) body = serve_segments routes method segments body.
Proof.
  intros Hs. induction routes as [|r routes IH]; simpl; [done|]. rewrite match_url by done.
  destruct (match_segments _ _ _); [|done]. case_bool_decide; [done|exact IH].
Qed.

Lemma mux_var_singleton (name v : string) : mux_var {[ name := v ]} name = v.
Proof. unfold mux_var. by rewrite lookup_singleton_eq. Qed.

(** C35: what answers an url, for any segment [x] without a slash. The state of a
    contract and the two transactions on one thing go to the thing that the url
    names. The queries for one contract and one code do not: their handlers read a
    variable that the routes do not bind, so that every contract gets the same
    answer and every download of code fails, whatever the node would have said;
    smart and raw queries get an empty answer; other methods none. *)
Theorem routes_dispatch x y body :
  x <> EmptyString -> no_slash x -> y <> EmptyString -> no_slash y ->
  let get path := serve RegisterRoutes "GET" (url path) body in
  let post path := serve RegisterRoutes "POST" (url path) body in
  get ["contract"; x; "state"]%string =
    Some (Ok match AccAddressFromBech32 x with
             | Err err => WriteErrorResponse StatusInternalServerError (RForeign err)
             | Ok addr => query_and_respond (state_route addr QueryMethodContractStateAll)
             end) /\
  post ["code"; x]%string = Some (Ok (instantiateContractHandlerFn {[ "codeId"%string := x ]} (read_instantiate body))) /\
  post ["contract"; x]%string =
    Some (Ok (executeContractHandlerFn {[ "contractAddr"%string := x ]} (read_execute body))) /\
  get ["contract"; x]%string = get ["contract"; y]%string /\
  get ["code"; x]%string = Some (Ok (WriteErrorResponse StatusInternalServerError (RNum Strconv.ErrSyntax))) /\
  get ["contract"; x; "smart"]%string = Some (Ok NoResponse) /\
  get ["contract"; x; "raw"]%string = Some (Ok NoResponse) /\
  serve RegisterRoutes "DELETE" (url ["contract"; x]%string) body = None.
Proof.
  intros Hx Hsx Hy Hsy.
  assert (Hlit : forall s, (s = "contract" \/ s = "state" \/ s = "code" \/ s = "smart" \/ s = "raw")%string -> no_slash s)
    by (intros s [->|[->|[->|[->| ->]]]]; literal_no_slash).
  cbv zeta. rewrite !serve_url by (repeat constructor; auto 6).
  unfold RegisterRoutes, registerQueryRoutes, registerTxRoutes. simpl.
  rewrite !(bool_decide_eq_false_2 (x = "")), !(bool_decide_eq_false_2 ("" = x)),
    !(bool_decide_eq_false_2 (y = "")), !(bool_decide_eq_false_2 ("" = y)) by done.
  unfold answers, queryContractHandlerFn, queryCodeHandlerFn, queryContractStateAllHandlerFn.
  rewrite !insert_empty, mux_var_singleton, !(mux_var_unbound _ "codeId" "contractAddr"),
    !(mux_var_unbound _ "codeId" "codeID") by (done || apply dom_singleton_L).
  repeat (split; [reflexivity|]). reflexivity.
Qed.

(** The REST server of wasmcli does not have the module's routes: as long as no
    other package has a route under [/wasm], no request to one is answered. *)
Theorem wasm_routes_not_mounted client_routes tx_routes others method segments body :
  (forall r, r ∈ client_routes ++ tx_routes ++ concat others -> mux_match (rt_Template r) (url segments) = None) ->
  serve (registerRoutes client_routes tx_routes
           (AppModuleBasic_RegisterRESTRoutes :: map (fun l rtr => rtr ++ l) others))
    method (url segments) body = None.
Proof.
  intros Hnone. assert (Hserve : forall l, (forall r, r ∈ l -> mux_match (rt_Template r) (url segments) = None) ->
    serve l method (url segments) body = None).
  { induction l as [|r l IH]; intros Hl; [done|]. simpl. rewrite Hl by set_solver.
    apply IH. intros r' Hr'. apply Hl. set_solver. }
  apply Hserve. intros r Hr. apply Hnone. unfold registerRoutes in Hr. cbn [foldl] in Hr.
  revert Hr. unfold AppModuleBasic_RegisterRESTRoutes. rewrite app_assoc.
  generalize (client_routes ++ tx_routes). clear. induction others as [|o others IH]; intros l; simpl.
  - rewrite app_nil_r. done.
  - intros Hr%IH. by rewrite app_assoc.
Qed.

End RouteProperties.

(** ** Witness *)

#[local] Existing Instances demo_scripts RefEnv RefEnvLaws.

#[local] Instance route_cli : CliContext := {|
  ReadFile _ := Err "no such file"%string;
  GetFromAddress := alice;
  ParseCoins s := Ok [];
  QueryWithData route _ := Ok (bytes_of_string route) |}.

#[local] Instance route_rest : RestContext := {|
  BaseReq := string; br_From b := b; br_Sanitize b := b; br_ValidateBasic _ := true |}.

#[local] Instance route_bodies : RestBodies := {|
  http_body := unit; read_storeCode _ := None; read_instantiate _ := None; read_execute _ := None |}.

#[local] Instance demo_mux : Mux := {|
  mux_match tpl path := match_segments (split_path EmptyString tpl) (split_path EmptyString path) ∅ |}.

#[local] Instance demo_mux_laws : MuxLaws.
Proof. by split. Qed.

Definition no_body : @http_body route_rest route_bodies := tt.

Lemma routes_dispatch_witness :
  serve RegisterRoutes "GET" (url ["code"; "1"]%string) no_body
    = Some (Ok (WriteErrorResponse StatusInternalServerError (RNum Strconv.ErrSyntax))).
Proof.
  apply (routes_dispatch "1" "2" no_body); first [discriminate|literal_no_slash].
Defined.
