(* ===== verification/Daemon.v ===== *)
(** * The daemon's commands (cmd/wasmd)

    [add-genesis-account]: how an account is made from its arguments and added to
    the genesis file. The account types are those of the auth module, the key
    base and the genesis file are parameters. *)

From S2P Require Import Prelude GoStd SdkTypes.

(** ** The auth module *)

Class AuthTypes := {
  BaseVestingAccount : Type;
  NewBaseVestingAccount : bytes -> Coins -> Coins -> Z -> result string BaseVestingAccount;
  Coins_Sort : Coins -> Coins;
  Coins_IsZero : Coins -> bool }.

Inductive GenesisAccount `{AuthTypes} :=
  | BaseAccount (addr : bytes) (coins : Coins)
  | ContinuousVestingAccount (base : BaseVestingAccount) (start : Z)
  | DelayedVestingAccount (base : BaseVestingAccount).

(** The genesis file holds the auth accounts next to everything else. *)
Class GenesisFile `{AuthTypes} := {
  account_Validate : GenesisAccount -> option string;
  Accounts_Contains : list GenesisAccount -> bytes -> bool;
  SanitizeGenesisAccounts : list GenesisAccount -> list GenesisAccount;
  gen_file : Type;
  GenesisStateFromGenFile : result string gen_file;
  auth_accounts : gen_file -> list GenesisAccount;
  MarshalJSON_auth : list GenesisAccount -> result string bytes;
  MarshalJSON_app : gen_file -> bytes -> result string bytes;
  ExportGenesisFile : gen_file -> bytes -> option string;
  keybase_Open : result string unit;
  keybase_Get : string -> result string bytes;
  gen_ParseCoins : string -> result string Coins }.

Inductive daemon_error :=
  | DForeign (text : string)
  | DKeybase (text : string)
  | DParseCoins (text : string)
  | DParseVesting (text : string)
  | DBaseVesting (text : string)
  | DVestingParameters
  | DValidate (text : string)
  | DGenesisState (text : string)
  | DExists (addr : string)
  | DMarshalAuth (text : string)
  | DMarshalApp (text : string).

Section Daemon.
Context `{Addresses} `{GenesisFile}.

(** The address of the first argument: a bech32 text, or a name in the key base. *)
Definition account_address (arg : string) : result daemon_error bytes :=
  match AccAddressFromBech32 arg with
  | Ok addr => Ok addr
  | Err _ =>
      match keybase_Open with
      | Err err => Err (DForeign err)
      | Ok _ =>
          match keybase_Get arg with
          | Err err => Err (DKeybase err)
          | Ok addr => Ok addr
          end
      end
  end.

(** The concrete account type chosen by the vesting parameters. *)
Definition make_account (addr : bytes) (coins vestingAmt : Coins) (vestingStart vestingEnd : Z)
    : result daemon_error GenesisAccount :=
  if Coins_IsZero vestingAmt then Ok (BaseAccount addr (Coins_Sort coins))
  else
    match NewBaseVestingAccount addr (Coins_Sort coins) (Coins_Sort vestingAmt) vestingEnd with
    | Err err => Err (DBaseVesting err)
    | Ok baseVestingAccount =>
        if negb (vestingStart =? 0) && negb (vestingEnd =? 0)
        then Ok (ContinuousVestingAccount baseVestingAccount vestingStart)
        else if negb (vestingEnd =? 0) then Ok (DelayedVestingAccount baseVestingAccount)
        else Err DVestingParameters
    end.

(** What is written to the genesis file: the new list of accounts, and its bytes. *)
Definition AddGenesisAccountCmd (arg0 arg1 amt : string) (vestingStart vestingEnd : Z)
    : result daemon_error (list GenesisAccount * bytes) :=
  match account_address arg0 with
  | Err e => Err e
  | Ok addr =>
      match gen_ParseCoins arg1 with
      | Err err => Err (DParseCoins err)
      | Ok coins =>
          match gen_ParseCoins amt with
          | Err err => Err (DParseVesting err)
          | Ok vestingAmt =>
              match make_account addr coins vestingAmt vestingStart vestingEnd with
              | Err e => Err e
              | Ok genAccount =>
                  match account_Validate genAccount with
                  | Some err => Err (DValidate err)
                  | None =>
                      match GenesisStateFromGenFile with
                      | Err err => Err (DGenesisState err)
                      | Ok file =>
                          if Accounts_Contains (auth_accounts file) addr
                          then Err (DExists (AccAddress_String addr))
                          else
                            let accounts := SanitizeGenesisAccounts (auth_accounts file ++ [genAccount]) in
                            match MarshalJSON_auth accounts with
                            | Err err => Err (DMarshalAuth err)
                            | Ok auth =>
                                match MarshalJSON_app file auth with
                                | Err err => Err (DMarshalApp err)
                                | Ok appStateJSON =>
                                    match ExportGenesisFile file appStateJSON with
                                    | Some err => Err (DForeign err)
                                    | None => Ok (accounts, appStateJSON)
                                    end
                                end
                            end
                      end
                  end
              end
          end
      end
  end.

End Daemon.

(** ** Properties *)

Section DaemonProperties.
Context `{Addresses} `{GenesisFile}.

(** The account that [make_account] makes, as a condition. *)
Lemma make_account_Ok addr coins vesting vs ve acct :
  make_account addr coins vesting vs ve = Ok acct <->
  match acct with
  | BaseAccount a cs => Coins_IsZero vesting = true /\ a = addr /\ cs = Coins_Sort coins
  | ContinuousVestingAccount base start =>
      Coins_IsZero vesting = false /\ start = vs /\ vs <> 0 /\ ve <> 0 /\
      NewBaseVestingAccount addr (Coins_Sort coins) (Coins_Sort vesting) ve = Ok base
  | DelayedVestingAccount base =>
      Coins_IsZero vesting = false /\ vs = 0 /\ ve <> 0 /\
      NewBaseVestingAccount addr (Coins_Sort coins) (Coins_Sort vesting) ve = Ok base
  end.
Proof.
  unfold make_account. destruct (Coins_IsZero vesting); [destruct acct; split; intuition congruence|].
  destruct (NewBaseVestingAccount _ _ _ _) as [base|err]; [|destruct acct; split; intuition congruence].
  destruct (Z.eqb_spec vs 0), (Z.eqb_spec ve 0), acct; simpl;
    split; intuition congruence.
Qed.

(** C39: adding a genesis account. The command succeeds exactly when the first
    argument is an address or a name of the key base, both amounts parse, the
    account that is made is valid, the file has no account of that address, and
    it can be written. The file then holds the accounts there were and the new one,
    sanitized: a base account with the coins when nothing vests, else a vesting
    account of the coins and the vesting ones, continuous if a start and an end
    were given, delayed if an end only; a vesting amount without an end is refused. *)
Theorem AddGenesisAccountCmd_spec arg0 arg1 amt vs ve accounts bz :
  AddGenesisAccountCmd arg0 arg1 amt vs ve = Ok (accounts, bz) <->
  exists addr coins vesting file acct auth,
    account_address arg0 = Ok addr /\ gen_ParseCoins arg1 = Ok coins /\ gen_ParseCoins amt = Ok vesting /\
    match acct with
    | BaseAccount a cs => Coins_IsZero vesting = true /\ a = addr /\ cs = Coins_Sort coins
    | ContinuousVestingAccount base start =>
        Coins_IsZero vesting = false /\ start = vs /\ vs <> 0 /\ ve <> 0 /\
        NewBaseVestingAccount addr (Coins_Sort coins) (Coins_Sort vesting) ve = Ok base
    | DelayedVestingAccount base =>
        Coins_IsZero vesting = false /\ vs = 0 /\ ve <> 0 /\
        NewBaseVestingAccount addr (Coins_Sort coins) (Coins_Sort vesting) ve = Ok base
    end /\
    account_Validate acct = None /\ GenesisStateFromGenFile = Ok file /\
    Accounts_Contains (auth_accounts file) addr = false /\
    accounts = SanitizeGenesisAccounts (auth_accounts file ++ [acct]) /\
    MarshalJSON_auth accounts = Ok auth /\ MarshalJSON_app file auth = Ok bz /\
    ExportGenesisFile file bz = None.
Proof.
  split.
  - unfold AddGenesisAccountCmd. destruct (account_address arg0) as [addr|]; [|done].
    destruct (gen_ParseCoins arg1) as [coins|]; [|done].
    destruct (gen_ParseCoins amt) as [vesting|]; [|done].
    destruct (make_account addr coins vesting vs ve) as [acct|] eqn:Ea; [|done].
    destruct (account_Validate acct) eqn:Ev; [done|].
    destruct GenesisStateFromGenFile as [file|]; [|done].
    destruct (Accounts_Contains _ _) eqn:Ec; [done|].
    destruct (MarshalJSON_auth _) as [auth|] eqn:Em; [|done].
    destruct (MarshalJSON_app _ _) as [app|] eqn:Ep; [|done].
    destruct (ExportGenesisFile _ _) eqn:Ex; [done|]. intros [= <- <-].
    apply make_account_Ok in Ea. exists addr, coins, vesting, file, acct, auth. by split_and!.
  - intros (addr & coins & vesting & file & acct & auth & Haddr & Hcoins & Hvest & Ha & Hv & Hf & Hc & -> & Hm & Hp & Hx).
    apply make_account_Ok in Ha. unfold AddGenesisAccountCmd.
    by rewrite Haddr, Hcoins, Hvest, Ha, Hv, Hf, Hc, Hm, Hp, Hx.
Qed.

End DaemonProperties.

(** ** Witness *)

#[local] Instance demo_addresses : Addresses := {|
  AccAddress_String := string_of_bytes;
  AccAddressFromBech32 s := if String.eqb s "alice" then Ok (bytes_of_string s) else Err "bad"%string;
  AccAddress_Equals := bytes_Equal; AddressHash b := b; Uint64ToBigEndian := BigEndian.PutUint64 |}.

#[local] Instance demo_auth : AuthTypes := {|
  BaseVestingAccount := bytes * Z; NewBaseVestingAccount a _ _ e := Ok (a, e);
  Coins_Sort cs := cs; Coins_IsZero cs := bool_decide (cs = []) |}.

#[local] Instance demo_file : GenesisFile := {|
  account_Validate _ := None; Accounts_Contains _ _ := false; SanitizeGenesisAccounts l := l;
  gen_file := unit; GenesisStateFromGenFile := Ok tt; auth_accounts _ := [];
  MarshalJSON_auth _ := Ok []; MarshalJSON_app _ b := Ok b; ExportGenesisFile _ _ := None;
  keybase_Open := Ok tt; keybase_Get _ := Err "no key"%string;
  gen_ParseCoins s := Ok (if String.eqb s "" then [] else [{| coin_Denom := s; coin_Amount := 5 |}]) |}.

Definition demo_vesting : BaseVestingAccount := (bytes_of_string "alice", 77).

Lemma AddGenesisAccountCmd_spec_witness :
  AddGenesisAccountCmd "alice" "stake" "stake" 0 77 = Ok ([DelayedVestingAccount demo_vesting], []) /\
    Accounts_Contains [] (bytes_of_string "alice") = false.
Proof.
  assert (Hr : AddGenesisAccountCmd "alice" "stake" "stake" 0 77
    = Ok ([DelayedVestingAccount demo_vesting], [])) by reflexivity.
  split; [exact Hr|].
  destruct (proj1 (AddGenesisAccountCmd_spec _ _ _ _ _ _ _) Hr)
    as (addr & cs & v & file & acct & auth & _ & _ & _ & _ & _ & _ & Hc & _).
  exact Hc.
Defined.
