(* ===== verification/App.v ===== *)
(** * Wiring of the module (app/app.go, NewKeeper of keeper.go)

    How the application builds the wasm keeper: the directory the virtual machine
    works in, the configuration, and the module accounts that cannot receive. *)

From S2P Require Import Prelude GoStd SdkTypes Types.

(** ** path/filepath on a Unix system *)

Module Filepath.

(** The stack of kept elements, innermost first. *)
Fixpoint clean_elems (rooted : bool) (stack elems : list string) : list string :=
  match elems with
  | [] => rev stack
  | e :: elems =>
      if bool_decide (e = EmptyString) || bool_decide (e = "."%string)
      then clean_elems rooted stack elems
      else if bool_decide (e = ".."%string) then
        match stack with
        | top :: rest =>
            if bool_decide (top = ".."%string) then clean_elems rooted (e :: stack) elems
            else clean_elems rooted rest elems
        | [] => clean_elems rooted (if rooted then [] else [e]) elems
        end
      else clean_elems rooted (e :: stack) elems
  end.

Definition rooted (path : string) : bool :=
  match path with String c _ => Ascii.eqb c slash | EmptyString => false end.

Definition Clean (path : string) : string :=
  let body := String.concat "/" (clean_elems (rooted path) [] (split_path EmptyString path)) in
  if rooted path then String slash body
  else if bool_decide (body = EmptyString) then "."%string else body.

Definition Join (elem : list string) : string :=
  match filter (fun e => e <> EmptyString) elem with
  | [] => EmptyString
  | elem => Clean (String.concat "/" elem)
  end.

End Filepath.

(** ** keeper.go *)

Section Wiring.
Context {StoreKey Codec AccountKeeper BankKeeper Router Wasmer : Type}.

(** [wasm.NewWasmer]: the directory, and the size of the cache. *)
Context (NewWasmer : string -> Z -> result string Wasmer).

Record Keeper := {
  k_storeKey : StoreKey; k_cdc : Codec; k_accountKeeper : AccountKeeper; k_bankKeeper : BankKeeper;
  k_router : Router; k_wasmer : Wasmer; k_queryGasLimit : Z }.

Definition NewKeeper (cdc : Codec) (storeKey : StoreKey) (accountKeeper : AccountKeeper)
    (bankKeeper : BankKeeper) (router : Router) (homeDir : string) (wasmConfig : WasmConfig)
    : result panic Keeper :=
  match NewWasmer (Filepath.Join [homeDir; "wasm"%string]) (CacheSize wasmConfig) with
  | Err err => Err PanicErr
  | Ok wasmer =>
      Ok {| k_storeKey := storeKey; k_cdc := cdc; k_wasmer := wasmer;
            k_accountKeeper := accountKeeper; k_bankKeeper := bankKeeper; k_router := router;
            k_queryGasLimit := SmartQueryGasLimit wasmConfig |}
  end.

(** The part of [NewWasmApp] that builds the keeper. [unmarshal] fills the
    configuration over its defaults; when it fails its error is printed only. *)
Definition app_wasmKeeper (homeDir : string) (unmarshal : WasmConfig -> WasmConfig)
    (cdc : Codec) (storeKey : StoreKey) (accountKeeper : AccountKeeper) (bankKeeper : BankKeeper)
    (wasmRouter : Router) : result panic Keeper :=
  let wasmDir := Filepath.Join [homeDir; "wasm"%string] in
  let wasmConfig := unmarshal DefaultWasmConfig in
  NewKeeper cdc storeKey accountKeeper bankKeeper wasmRouter wasmDir wasmConfig.

End Wiring.

(** ** app.go: module accounts *)

Section ModuleAccounts.

(** [maccPerms]: the permissions of each module account. *)
Context (maccPerms : gmap string (list string)) (NewModuleAddress : string -> bytes) `{Addresses}.

Definition ModuleAccountAddrs : gset string :=
  set_map (fun acc => AccAddress_String (NewModuleAddress acc)) (dom maccPerms).

Definition GetMaccPerms : gmap string (list string) :=
  map_fold (fun k v (modAccPerms : gmap string (list string)) => <[k := v]> modAccPerms) ∅ maccPerms.

End ModuleAccounts.

(** [maccPerms]: the names of the accounts and of the permissions are the SDK's. *)
Section MaccPerms.
Context (FeeCollectorName distr_ModuleName mint_ModuleName BondedPoolName NotBondedPoolName gov_ModuleName : string).
Context (Minter Burner Staking : string).

Definition maccPerms : gmap string (list string) :=
  list_to_map
    [ (FeeCollectorName, []);
      (distr_ModuleName, []);
      (mint_ModuleName, [Minter]);
      (BondedPoolName, [Burner; Staking]);
      (NotBondedPoolName, [Burner; Staking]);
      (gov_ModuleName, [Burner]) ].

End MaccPerms.

(** ** app.go: modules, their stores and their order *)

(** The packages the application is made of. *)
Inductive package :=
  | genutil | auth | bank | staking | mint | distr | gov | params | wasm | crisis | slashing
  | supply | evidence.

#[export] Instance package_eq_dec : EqDecision package.
Proof. solve_decision. Defined.

Definition ModuleBasics : list package :=
  [genutil; auth; bank; staking; mint; distr; gov; params; wasm; crisis; slashing; supply; evidence].

(** The keys that [sdk.NewKVStoreKeys] is called with; [None] is the main store. *)
Definition store_keys : list (option package) :=
  [None; Some auth; Some staking; Some supply; Some mint; Some distr; Some slashing; Some gov;
   Some params; Some evidence; Some wasm].

Definition transient_keys : list package := [staking; params].

(** Go passes a keeper by value, and then the receiver has the keeper as it was, or
    by reference, and then it sees what is changed later. The router of messages
    is a reference always. *)
Inductive handle := ByValue | ByRef.

Inductive object := KeeperOf (p : package) | MsgRouter.

#[export] Instance object_eq_dec : EqDecision object.
Proof. solve_decision. Defined.

(** A keeper: its store under [keys], its subspace of the parameters, and what it is
    handed (the governance keeper gets those of params and distr inside its router). *)
Record Wiring := {
  w_package : package; w_store : option package; w_subspace : option package;
  w_uses : list (object * handle) }.

Definition keeper (p : package) : object * handle := (KeeperOf p, ByValue).
Definition keeper_ref (p : package) : object * handle := (KeeperOf p, ByRef).

(** What [NewWasmApp] does, in its order: keepers are built, changed, and handed to
    modules; the invariants are registered with the crisis keeper, and the routes of
    the messages with the router; and the simulation manager's modules. *)
Inductive setup :=
  | Build (k : Wiring)
  | SetRouter (p : package)
  | SetHooks (p : package) (hooks : list (object * handle))
  | NewModule (m : package) (uses : list (object * handle))
  | RegisterInvariants (p : package)
  | RegisterRoutes
  | NewSimModule (m : package) (uses : list (object * handle)).

Definition build (p : package) (store subspace : option package) (uses : list (object * handle)) : setup :=
  Build {| w_package := p; w_store := store; w_subspace := subspace; w_uses := uses |}.

Definition keeper_steps : list setup :=
  [ build params (Some params) None [];
    build auth (Some auth) (Some auth) [];
    build bank None (Some bank) [keeper auth];
    build supply (Some supply) None [keeper auth; keeper bank];
    build staking (Some staking) (Some staking) [keeper supply];
    build mint (Some mint) (Some mint) [keeper_ref staking; keeper supply];
    build distr (Some distr) (Some distr) [keeper_ref staking; keeper supply];
    build slashing (Some slashing) (Some slashing) [keeper_ref staking];
    build crisis None (Some crisis) [keeper supply];
    build wasm (Some wasm) None [keeper auth; keeper bank; (MsgRouter, ByRef)];
    build evidence (Some evidence) (Some evidence) [];
    SetRouter evidence;
    build gov (Some gov) (Some gov) [keeper supply; keeper_ref staking; keeper params; keeper distr];
    SetHooks staking [keeper distr; keeper slashing] ].

Definition module_steps : list setup :=
  [ NewModule genutil [keeper auth; keeper staking];
    NewModule auth [keeper auth];
    NewModule bank [keeper bank; keeper auth];
    NewModule crisis [keeper_ref crisis];
    NewModule supply [keeper supply; keeper auth];
    NewModule distr [keeper distr; keeper supply];
    NewModule gov [keeper gov; keeper supply];
    NewModule mint [keeper mint];
    NewModule slashing [keeper slashing; keeper staking];
    NewModule staking [keeper staking; keeper auth; keeper supply];
    NewModule evidence [keeper evidence];
    NewModule wasm [keeper wasm] ].

Definition sim_steps : list setup :=
  [ NewSimModule auth [keeper auth];
    NewSimModule bank [keeper bank; keeper auth];
    NewSimModule supply [keeper supply; keeper auth];
    NewSimModule gov [keeper gov; keeper supply];
    NewSimModule mint [keeper mint];
    NewSimModule distr [keeper distr; keeper supply];
    NewSimModule staking [keeper staking; keeper auth; keeper supply];
    NewSimModule slashing [keeper slashing; keeper staking] ].

Definition app_steps : list setup :=
  keeper_steps ++ module_steps ++ [RegisterInvariants crisis; RegisterRoutes] ++ sim_steps.

Definition app_keepers : list Wiring :=
  omap (fun s => match s with Build k => Some k | _ => None end) app_steps.

Definition new_modules : list package :=
  omap (fun s => match s with NewModule m _ => Some m | _ => None end) app_steps.

(** The routes of [gov.NewRouter()], by the package that owns them. *)
Definition gov_routes : list package := [gov; params; distr].

(** [app.mm] and its orders. *)
Record Manager := {
  Modules : list package; OrderBeginBlockers : list package; OrderEndBlockers : list package;
  OrderInitGenesis : list package }.

Definition app_mm : Manager :=
  {| Modules := new_modules;
     OrderBeginBlockers := [mint; distr; slashing];
     OrderEndBlockers := [crisis; gov; staking];
     OrderInitGenesis := [distr; staking; auth; bank; slashing; gov; mint; supply; crisis; genutil;
                          evidence; wasm] |}.

Section Blocks.
Context {S Req Resp : Type}.

(** The manager's own code, and the codec. *)
Context (mm_BeginBlock mm_EndBlock : list package -> Req -> M S Resp).
Context (mm_InitGenesis : list package -> gmap string bytes -> M S Resp).
Context (UnmarshalJSON : bytes -> option (gmap string bytes)).

Definition BeginBlocker (req : Req) : M S Resp := mm_BeginBlock (OrderBeginBlockers app_mm) req.
Definition EndBlocker (req : Req) : M S Resp := mm_EndBlock (OrderEndBlockers app_mm) req.

Definition InitChainer (AppStateBytes : bytes) : M S Resp :=
  match UnmarshalJSON AppStateBytes with
  | None => gpanic PanicCodec
  | Some genesisState => mm_InitGenesis (OrderInitGenesis app_mm) genesisState
  end.

End Blocks.

(** [x] comes before [y], and both are there. *)
Definition before (x y : package) (l : list package) : bool :=
  match list_find (x =.) l, list_find (y =.) l with
  | Some (i, _), Some (j, _) => (i <? j)%nat
  | _, _ => false
  end.

(** What a step hands out, and what it changes. *)
Definition hands (s : setup) : list (object * handle) :=
  match s with
  | Build k => w_uses k
  | NewModule _ uses | NewSimModule _ uses | SetHooks _ uses => uses
  | _ => []
  end.

Definition changes (s : setup) : list object :=
  match s with
  | Build k => [KeeperOf (w_package k)]
  | SetRouter p | SetHooks p _ | RegisterInvariants p => [KeeperOf p]
  | RegisterRoutes => [MsgRouter]
  | NewModule _ _ | NewSimModule _ _ => []
  end.

(** Every step is handed what is there already. *)
Fixpoint built_in_order (built : list object) (l : list setup) : bool :=
  match l with
  | [] => true
  | s :: l => bool_decide (map fst (hands s) ⊆ built) && built_in_order (changes s ++ built) l
  end.

(** Nothing that was handed out by value is changed afterwards. *)
Fixpoint up_to_date (l : list setup) : bool :=
  match l with
  | [] => true
  | s :: l =>
      forallb (fun u => match u.2 with
                        | ByRef => true
                        | ByValue => negb (existsb (fun s' => bool_decide (u.1 ∈ changes s')) l)
                        end) (hands s)
      && up_to_date l
  end.

(** ** Properties *)

(** The set-up of the application is complete and in the order its comments ask for:
    the genesis of every module of the manager is imported exactly once, that of
    genutil after staking, and that of wasm after every other one, so that the
    accounts of contracts are there; at the begin of a block slashing comes after
    distribution; every module that runs in blocks belongs to the manager, every
    module of the manager to the basics; every keeper is built after those it uses,
    and has its store, mounted under its own key, and a subspace of its own. A
    keeper that is changed after it was handed out (the hooks of staking, the
    invariants of crisis, the routes of the messages) was handed out by reference,
    so that every module and keeper works with the final one. *)
Theorem app_set_up :
  OrderInitGenesis app_mm ≡ₚ Modules app_mm /\ NoDup (Modules app_mm) /\
  before staking genutil (OrderInitGenesis app_mm) = true /\
  list.last (OrderInitGenesis app_mm) = Some wasm /\
  before distr slashing (OrderBeginBlockers app_mm) = true /\
  OrderBeginBlockers app_mm ++ OrderEndBlockers app_mm ⊆ Modules app_mm /\
  Modules app_mm ⊆ ModuleBasics /\ NoDup store_keys /\
  built_in_order [MsgRouter] app_steps = true /\ up_to_date app_steps = true /\
  gov_routes ⊆ ModuleBasics /\
  Forall (fun k => w_store k = None \/ (w_store k = Some (w_package k) /\ w_store k ∈ store_keys)) app_keepers /\
  Forall (fun k => w_subspace k = None \/ w_subspace k = Some (w_package k)) app_keepers /\
  NoDup (map w_package app_keepers).
Proof.
  repeat match goal with |- _ /\ _ => split end; try reflexivity; apply (bool_decide_unpack _);
    vm_compute; exact I.
Qed.

(** The wasm directory is joined twice: by the application, and by the keeper. *)
Theorem wasm_directory {SK C A B R W : Type} (NewWasmer : string -> Z -> result string W)
    cfg (cdc : C) (sk : SK) (ak : A) (bk : B) (r : R) :
  app_wasmKeeper NewWasmer "/root/.wasmd" cfg cdc sk ak bk r
  = match NewWasmer "/root/.wasmd/wasm/wasm"%string (CacheSize (cfg DefaultWasmConfig)) with
    | Err _ => Err PanicErr
    | Ok wasmer =>
        Ok {| k_storeKey := sk; k_cdc := cdc; k_wasmer := wasmer; k_accountKeeper := ak;
              k_bankKeeper := bk; k_router := r;
              k_queryGasLimit := SmartQueryGasLimit (cfg DefaultWasmConfig) |}
    end.
Proof. reflexivity. Qed.

(** The copy that is handed out has the same permissions. *)
Theorem GetMaccPerms_same maccPerms : GetMaccPerms maccPerms = maccPerms.
Proof.
  unfold GetMaccPerms. apply (map_fold_weak_ind (fun b m => b = m)); [done|].
  by intros i x m r _ ->.
Qed.

(** Under different names, new coins come from the account of mint only, coins are
    destroyed by the accounts of staking and governance only, and contracts have no
    part in either: the address of every one of these accounts, and no other
    address, is refused as the receiver of a transfer. *)
Theorem maccPerms_spec `{Addresses} fees distrN mintN bonded notBonded govN minter burner staker
    (NewModuleAddress : string -> bytes) :
  NoDup [fees; distrN; mintN; bonded; notBonded; govN] -> NoDup [minter; burner; staker] ->
  let perms := maccPerms fees distrN mintN bonded notBonded govN minter burner staker in
  (forall name l, perms !! name = Some l -> minter ∈ l -> name = mintN) /\
  (forall name l, perms !! name = Some l -> burner ∈ l -> name ∈ [bonded; notBonded; govN]) /\
  (forall text, text ∈ ModuleAccountAddrs perms NewModuleAddress <->
     exists name, name ∈ [fees; distrN; mintN; bonded; notBonded; govN] /\
       text = AccAddress_String (NewModuleAddress name)).
Proof.
  intros Hn Hp perms.
  assert (Hin : forall name l, perms !! name = Some l -> (name, l) ∈ [(fees, []); (distrN, []); (mintN, [minter]);
    (bonded, [burner; staker]); (notBonded, [burner; staker]); (govN, [burner])])
    by (intros name l; apply elem_of_list_to_map_2).
  apply list.NoDup_cons in Hp as [Hm _].
  split; [|split].
  - intros name l Hl%Hin Hin'.
    repeat (apply elem_of_cons in Hl as [[= -> ->]|Hl]; [first [done|by apply not_elem_of_nil in Hin'
      |destruct Hm; revert Hin'; rewrite !elem_of_cons; tauto]|]). by apply not_elem_of_nil in Hl.
  - intros name l Hl%Hin Hin'. rewrite !elem_of_cons.
    repeat (apply elem_of_cons in Hl as [[= -> ->]|Hl];
      [first [by auto|by apply not_elem_of_nil in Hin'
       |exfalso; apply Hm; revert Hin'; rewrite !elem_of_cons, !elem_of_nil; intuition congruence]|]). by apply not_elem_of_nil in Hl.
  - intros text. unfold ModuleAccountAddrs. rewrite elem_of_map. unfold perms, maccPerms.
    rewrite dom_list_to_map_L. setoid_rewrite elem_of_list_to_set. simpl. split; intros (x & H1 & H2); by exists x.
Qed.
