(* ===== verification/NewApp.v ===== *)
(** * The application (app/app.go, app/genesis.go)

    The codec of the application, its default genesis state, and [NewWasmApp]: how
    it is put together from the parts of [App.v], and the ways in which that fails. *)

From S2P Require Import Prelude GoStd SdkTypes Types Sdk Ref SignBytes Module App.

(** ** The application's codec *)

Section Codec.
Context `{AminoJSON}.

(** module.go *)
Definition AppModuleBasic_RegisterCodec (cdc : codec) : result panic codec := RegisterCodec cdc.

(** The registrations of the other packages. *)
Context (other_RegisterCodec : package -> codec -> result panic codec).
Context (sdk_RegisterCodec RegisterEvidences authvesting_RegisterCodec : codec -> result panic codec).

Definition basic_RegisterCodec (p : package) : codec -> result panic codec :=
  if bool_decide (p = wasm) then AppModuleBasic_RegisterCodec else other_RegisterCodec p.

(** The basics are a Go map: they are visited in some order. *)
Fixpoint basics_RegisterCodec (order : list package) (cdc : codec) : result panic codec :=
  match order with
  | [] => Ok cdc
  | p :: order => res_bind (basic_RegisterCodec p cdc) (basics_RegisterCodec order)
  end.

Definition MakeCodec (order : list package) : result panic codec :=
  res_bind (basics_RegisterCodec order codec_New) (fun cdc =>
  res_bind (sdk_RegisterCodec cdc) (fun cdc =>
  res_bind (RegisterCrypto cdc) (fun cdc =>
  res_bind (RegisterEvidences cdc) (fun cdc =>
  res_bind (authvesting_RegisterCodec cdc) (fun cdc =>
  Ok (Seal cdc)))))).

End Codec.

(** ** genesis.go *)

Section Genesis.
Context `{ModuleCodec} (name : package -> string) (other_DefaultGenesis : package -> bytes).

Definition basic_DefaultGenesis (p : package) : bytes :=
  if bool_decide (p = wasm) then AppModuleBasic_DefaultGenesis else other_DefaultGenesis p.

Definition NewDefaultGenesisState : gmap string bytes :=
  list_to_map (map (fun p => (name p, basic_DefaultGenesis p)) ModuleBasics).

End Genesis.

(** ** NewWasmApp *)

(** A start that fails panics, or prints its error and exits. *)
Inductive start_error := StartPanic (p : panic) | StartExit (err : string).

(** The calls on the base application, in their order: the transaction decoder and
    the ante handler are the SDK's, the ante handler with two of the keepers. *)
Inductive base_call :=
  | NewBaseApp (appName : string)
  | SetCommitMultiStoreTracer
  | SetAppVersion
  | MountKVStores (keys : list (option package))
  | MountTransientStores (tKeys : list package)
  | SetInitChainer
  | SetBeginBlocker
  | SetAnteHandler (keepers : list package)
  | SetEndBlocker.

Definition appName : string := "WasmApp".

Section NewWasmApp.
Context `{AminoJSON} {StoreKey AccountKeeper BankKeeper Router Wasmer BaseAppOption : Type}.

(** What the program is handed, and the parts of the SDK it is built with: the codec
    made by [MakeCodec], the virtual machine, the configuration and home directory
    that viper has read, the keepers of the other modules, and the loading of the
    last version of the stores. *)
Context (MakeCodec : result panic codec) (NewWasmer : string -> Z -> result string Wasmer).
Context (homeDir : string) (unmarshal : WasmConfig -> WasmConfig).
Context (wasm_key : StoreKey) (accountKeeper : AccountKeeper) (bankKeeper : BankKeeper) (router : Router).
Context (LoadLatestVersion : option string).

Record WasmApp := {
  app_base : list base_call; app_cdc : codec; app_invCheckPeriod : Z; app_options : list BaseAppOption;
  app_keys : list (option package); app_tKeys : list package;
  app_Keeper : @App.Keeper StoreKey codec AccountKeeper BankKeeper Router Wasmer;
  app_manager : Manager; app_sm : list package; app_loaded : bool }.

Definition sim_modules : list package :=
  omap (fun s => match s with NewSimModule m _ => Some m | _ => None end) app_steps.

Definition NewWasmApp (loadLatest : bool) (invCheckPeriod : Z) (baseAppOptions : list BaseAppOption)
    : result start_error WasmApp :=
  match MakeCodec with
  | Err p => Err (StartPanic p)
  | Ok cdc =>
      match app_wasmKeeper NewWasmer homeDir unmarshal cdc wasm_key accountKeeper bankKeeper router with
      | Err p => Err (StartPanic p)
      | Ok wasmKeeper =>
          let app :=
            {| app_base := [NewBaseApp appName; SetCommitMultiStoreTracer; SetAppVersion; MountKVStores store_keys;
                            MountTransientStores transient_keys; SetInitChainer; SetBeginBlocker;
                            SetAnteHandler [auth; supply]; SetEndBlocker];
               app_cdc := cdc; app_invCheckPeriod := invCheckPeriod; app_options := baseAppOptions;
               app_keys := store_keys; app_tKeys := transient_keys; app_Keeper := wasmKeeper;
               app_manager := app_mm; app_sm := sim_modules; app_loaded := loadLatest |} in
          if loadLatest then
            match LoadLatestVersion with
            | Some err => Err (StartExit err)
            | None => Ok app
            end
          else Ok app
      end
  end.

(** [app.Codec()] *)
Definition WasmApp_Codec (app : WasmApp) : codec := app_cdc app.

(** app/utils.go: the application with two of its keys and the staking keeper. *)
Definition NewWasmAppUNSAFE (loadLatest : bool) (invCheckPeriod : Z) (baseAppOptions : list BaseAppOption)
    : result start_error (WasmApp * option package * option package * package) :=
  match NewWasmApp loadLatest invCheckPeriod baseAppOptions with
  | Err e => Err e
  | Ok gapp => Ok (gapp, None, Some staking, staking)
  end.

End NewWasmApp.

(** ** Properties *)

Section NewAppProperties.
Context {ad : Addresses} {am : Amounts} {aj : AminoJSON} {laws : AminoJSONLaws}.

(** A registration keeps what is registered. *)
Definition only_adds (f : codec -> result panic codec) : Prop :=
  forall c c' t name, f c = Ok c' -> registered c t = Some name -> registered c' t = Some name.

Lemma only_adds_concrete t name : only_adds (RegisterConcrete t name).
Proof.
  intros c c' t' name' Hr Hn. rewrite (RegisterConcrete_Ok _ _ _ _ t' Hr).
  case_bool_decide; [subst t'|done]. destruct (RegisterConcrete_again t name c) as (p & Hp); [by rewrite Hn|].
  congruence.
Qed.

Lemma only_adds_bind f g : only_adds f -> only_adds g -> only_adds (fun c => res_bind (f c) g).
Proof. intros Hf Hg c c' t name (c1 & H1 & H2)%res_bind_Ok Hn. eauto. Qed.

Lemma only_adds_RegisterCodec : only_adds RegisterCodec.
Proof.
  apply only_adds_bind; [apply only_adds_concrete|].
  apply only_adds_bind; apply only_adds_concrete.
Qed.

Context (other : package -> codec -> result panic codec).
Context (sdkR evidenceR vestingR : codec -> result panic codec).
Context (Hother : forall p, only_adds (other p)).
Context (Hsdk : only_adds sdkR) (Hev : only_adds evidenceR) (Hvest : only_adds vestingR).

Lemma wasm_names_added f c c' : only_adds f -> f c = Ok c' -> wasm_names c -> wasm_names c'.
Proof. intros Hf Hr (N1 & N2 & N3). repeat split; by eapply Hf. Qed.

Lemma only_adds_basic p : only_adds (basic_RegisterCodec other p).
Proof. unfold basic_RegisterCodec. case_bool_decide; [apply only_adds_RegisterCodec|apply Hother]. Qed.

Lemma basics_names order c c' :
  wasm ∈ order \/ wasm_names c -> basics_RegisterCodec other order c = Ok c' -> wasm_names c'.
Proof.
  revert c. induction order as [|p order IH]; intros c Hw Hr.
  - injection Hr as <-. by destruct Hw as [?%not_elem_of_nil|].
  - simpl in Hr. apply res_bind_Ok in Hr as (c1 & H1 & H2). eapply IH; [|exact H2].
    destruct Hw as [[<-|Hin]%elem_of_cons|Hn]; [right|by left|right].
    + unfold basic_RegisterCodec in H1. rewrite bool_decide_eq_true_2 in H1 by done.
      by apply (RegisterCodec_spec _ _ EmptyString) in H1 as (Hn & _).
    + eapply wasm_names_added; [apply only_adds_basic|exact H1|exact Hn].
Qed.

(** The application's codec knows the module's messages under the names the module's
    own codec signs them with, whatever the order the modules are visited in. *)
Theorem MakeCodec_names order cdc :
  order ≡ₚ ModuleBasics -> MakeCodec other sdkR evidenceR vestingR order = Ok cdc ->
  wasm_names cdc /\ sealed cdc = true /\
  forall own, init = Ok own -> forall m, registered cdc (go_type (message_struct m)) = registered own (go_type (message_struct m)).
Proof.
  intros Hp H. unfold MakeCodec in H.
  apply res_bind_Ok in H as (c1 & H1 & H). apply res_bind_Ok in H as (c2 & H2 & H).
  apply res_bind_Ok in H as (c3 & H3 & H). apply res_bind_Ok in H as (c4 & H4 & H).
  apply res_bind_Ok in H as (c5 & H5 & H). injection H as <-.
  assert (N1 : wasm_names c1).
  { eapply basics_names; [|exact H1]. left. rewrite Hp. by apply (bool_decide_unpack _). }
  assert (N2 : wasm_names c2) by (eapply (wasm_names_added sdkR); eauto).
  assert (Hcrypto : only_adds RegisterCrypto) by (intros c c' t name Hr Hn; by eapply RegisterCrypto_Ok).
  assert (N3 : wasm_names c3) by (eapply (wasm_names_added RegisterCrypto); eauto).
  assert (N4 : wasm_names c4) by (eapply (wasm_names_added evidenceR); eauto).
  assert (N5 : wasm_names c5) by (eapply (wasm_names_added vestingR); eauto).
  assert (N : wasm_names (Seal c5)) by (destruct N5 as (? & ? & ?); repeat split; by rewrite registered_Seal).
  split; [done|]. split; [apply sealed_Seal|]. intros own [No _]%init_names m.
  by rewrite !registered_message.
Qed.

End NewAppProperties.

(** The default state has every module's default genesis under its name, and nothing
    else; what it has for wasm is valid and starts the module empty. *)
Theorem NewDefaultGenesisState_spec {E : Env} {MC : ModuleCodec} {ML : ModuleCodecLaws}
    (name : package -> string) (other : package -> bytes) w0 :
  (forall p q, name p = name q -> p = q) -> name wasm = ModuleName ->
  let state := NewDefaultGenesisState name other in
  (forall p, state !! name p = Some (basic_DefaultGenesis other p)) /\
  (forall n, is_Some (state !! n) -> exists p, n = name p) /\
  exists bz, state !! ModuleName = Some bz /\ AppModuleBasic_ValidateGenesis bz = None /\
    AppModule_InitGenesis bz w0 = Ret tt w0.
Proof.
  intros Hinj Hw state.
  assert (Hp : forall p, state !! name p = Some (basic_DefaultGenesis other p)).
  { intros p. apply elem_of_list_to_map_1.
    - rewrite map_map. apply (NoDup_fmap_2_strong name); [intros; by apply Hinj|]. by apply (bool_decide_unpack _).
    - apply list_elem_of_fmap. exists p. split; [done|]. destruct p; by apply (bool_decide_unpack _). }
  split; [done|]. split.
  - intros n [bz (p & [= -> ->] & _)%elem_of_list_to_map_2%list_elem_of_fmap]. by exists p.
  - exists (basic_DefaultGenesis other wasm). rewrite <- Hw, Hp. split; [done|]. by apply default_genesis.
Qed.

Section NewWasmAppProperties.
Context `{AminoJSON} {StoreKey AccountKeeper BankKeeper Router Wasmer BaseAppOption : Type}.
Context (MakeCodec : result panic codec) (NewWasmer : string -> Z -> result string Wasmer).
Context (homeDir : string) (unmarshal : WasmConfig -> WasmConfig).
Context (wasm_key : StoreKey) (ak : AccountKeeper) (bk : BankKeeper) (router : Router).
Context (LoadLatestVersion : option string).

(** How a start ends: the application is there exactly when its codec could be made,
    the virtual machine could open its directory, and, if it is to load, the last
    version could be loaded. The wasm keeper then works with the application's own
    codec and router and the limits of the configuration. *)
Theorem NewWasmApp_spec loadLatest period (options : list BaseAppOption) :
  match NewWasmApp MakeCodec NewWasmer homeDir unmarshal wasm_key ak bk router LoadLatestVersion
          loadLatest period options with
  | Ok app =>
      MakeCodec = Ok (app_cdc app) /\ k_cdc (app_Keeper app) = app_cdc app /\
      k_router (app_Keeper app) = router /\
      k_queryGasLimit (app_Keeper app) = SmartQueryGasLimit (unmarshal DefaultWasmConfig) /\
      MountKVStores (app_keys app) ∈ app_base app /\ MountTransientStores (app_tKeys app) ∈ app_base app /\
      app_invCheckPeriod app = period /\ app_options app = options /\ app_loaded app = loadLatest /\
      (loadLatest = true -> LoadLatestVersion = None)
  | Err (StartExit err) => loadLatest = true /\ LoadLatestVersion = Some err
  | Err (StartPanic p) =>
      MakeCodec = Err p \/
      (p = PanicErr /\ exists err, NewWasmer (Filepath.Join [Filepath.Join [homeDir; "wasm"%string]; "wasm"%string])
                               (CacheSize (unmarshal DefaultWasmConfig)) = Err err)
  end.
Proof.
  unfold NewWasmApp, app_wasmKeeper, NewKeeper. destruct MakeCodec as [cdc|p]; [|by left].
  destruct (NewWasmer _ _) as [wasmer|err] eqn:E; [|right; split; [done|]; by exists err].
  destruct loadLatest; [destruct LoadLatestVersion; [done|]|]; cbn; repeat split; try done; set_solver.
Qed.

End NewWasmAppProperties.
