(* ===== verification/Cobra.v ===== *)
(** * Command lines: what the programs use of cobra and pflag

    A tree of commands, each with the number of arguments it takes, the flags it
    registers with their defaults, and what it runs; and how a line of words with
    the flags that are given finds the command and its arguments. Polymorphic in
    what a command runs: both programs use it. *)

From Stdlib Require Import Ascii.
From S2P Require Import Prelude GoStd.

(** ** Flags *)

Inductive flag_value :=
  | FlagString (s : string)
  | FlagInt (n : Z)
  | FlagBool (b : bool).

(** Flags by name, the first of equal names counts: those given on the line stand
    before the registered ones with their defaults. *)
Abbreviation flag_set := (list (string * flag_value)).

Fixpoint flag_lookup (name : string) (fs : flag_set) : option flag_value :=
  match fs with
  | [] => None
  | (name', v) :: fs => if bool_decide (name = name') then Some v else flag_lookup name fs
  end.

Definition GetString (fs : flag_set) (name : string) : string :=
  match flag_lookup name fs with Some (FlagString s) => s | _ => EmptyString end.

Definition GetInt (fs : flag_set) (name : string) : Z :=
  match flag_lookup name fs with Some (FlagInt n) => n | _ => 0 end.

Definition GetBool (fs : flag_set) (name : string) : bool :=
  match flag_lookup name fs with Some (FlagBool b) => b | _ => false end.

Definition same_kind (v w : flag_value) : bool :=
  match v, w with
  | FlagString _, FlagString _ | FlagInt _, FlagInt _ | FlagBool _, FlagBool _ => true
  | _, _ => false
  end.

(** Every flag that is given is registered, and its text is one of its type. *)
Definition flags_known (given registered : flag_set) : bool :=
  forallb (fun g => match flag_lookup g.1 registered with Some v => same_kind g.2 v | None => false end) given.

(** ** Commands *)

Section Cobra.
Context {A : Type}.

(** What a command with subcommands does itself, when no subcommand is named: it
    has nothing to run, or it runs [client.ValidateCmd] of the SDK on the words as
    they are ([DisableFlagParsing]). *)
#[warnings="-register-all"]
Inductive group_kind := NotRunnable | ValidateCmd.

(** A command that takes exactly so many arguments (any number, if none is
    stated), or has subcommands and flags for all of them, or belongs to the SDK;
    and an empty line of the help text. *)
#[warnings="-register-all"]
Inductive cmd :=
  | Leaf (use : string) (args : option nat) (flags : flag_set) (run : list string -> flag_set -> A)
  | Group (use : string) (aliases : list string) (kind : group_kind) (persistent : flag_set) (subs : list cmd)
  | Foreign (use : string)
  | LineBreak.

Definition cmd_Use (c : cmd) : string :=
  match c with Leaf use _ _ _ | Group use _ _ _ _ | Foreign use => use | LineBreak => EmptyString end.

Fixpoint first_word (s : string) : string :=
  match s with
  | EmptyString => EmptyString
  | String c s => if Ascii.eqb c " " then EmptyString else String c (first_word s)
  end.

Definition cmd_Name (c : cmd) : string := first_word (cmd_Use c).

Definition has_name (name : string) (c : cmd) : bool :=
  bool_decide (cmd_Name c = name) ||
  match c with Group _ aliases _ _ _ => bool_decide (name ∈ aliases) | _ => false end.

(** A line runs a command of the program or one of the SDK; or it is refused by
    cobra, or shows the help text, both before anything of the program runs; or
    it comes to [client.ValidateCmd], which refuses the word if there is one, and
    shows the help text otherwise. *)
Inductive outcome_of_line :=
  | Ran (a : A)
  | Elsewhere (use : string)
  | UsageError
  | HelpText
  | Validated (unknown : option string).

(** A command with subcommands, on words of which the first names none of them. *)
Definition run_group (kind : group_kind) (registered : flag_set) (words : list string) (given : flag_set)
    : outcome_of_line :=
  match kind with
  | NotRunnable => if flags_known given registered then HelpText else UsageError
  | ValidateCmd => Validated (head words)
  end.

(** The words, none of them empty, name subcommands as long as there are some, then
    the rest are the arguments. Of the commands with subcommands only the root
    refuses a word that names none ([legacyArgs]). *)
Fixpoint run_line (root : bool) (c : cmd) (inherited : flag_set) (words : list string) (given : flag_set)
    : outcome_of_line :=
  match c with
  | Leaf _ args flags run =>
      let registered := flags ++ inherited in
      if match args with None => true | Some n => bool_decide (length words = n) end
         && flags_known given registered
      then Ran (run words (given ++ registered))
      else UsageError
  | Foreign use => Elsewhere use
  | LineBreak => UsageError
  | Group _ _ kind persistent subs =>
      let registered := persistent ++ inherited in
      match words with
      | [] => run_group kind registered [] given
      | word :: rest =>
          (fix dispatch subs :=
             match subs with
             | [] => if root then UsageError else run_group kind registered words given
             | c :: subs =>
                 if has_name word c then run_line false c registered rest given else dispatch subs
             end) subs
      end
  end.

End Cobra.
Arguments cmd : clear implicits.
Arguments outcome_of_line : clear implicits.

(** cobra and pflag: what a command with the flags it inherits does on a line of
    words and the flags that are given. *)
Class Cobra := { Execute : forall {A}, cmd A -> flag_set -> list string -> flag_set -> outcome_of_line A }.

Class CobraLaws `{Cobra} : Prop := {
  Execute_spec {A} (c : cmd A) inherited words given :
    Execute c inherited words given = run_line true c inherited words given }.

Definition arg (n : nat) (args : list string) : string := nth n args EmptyString.

(** ** Lemmas *)

(** A flag that is not given has its default. *)
Lemma flag_lookup_app name given registered :
  flag_lookup name (given ++ registered)
  = match flag_lookup name given with Some v => Some v | None => flag_lookup name registered end.
Proof. induction given as [|[n v] given IH]; simpl; [done|]. by case_bool_decide. Qed.

Lemma find_app {A} (P : A -> bool) l k :
  List.find P (l ++ k) = match List.find P l with Some x => Some x | None => List.find P k end.
Proof. induction l as [|x l IH]; simpl; [done|]. by destruct (P x). Qed.

Lemma find_filter {A} (P keep : A -> bool) l x :
  List.find P l = Some x -> keep x = true -> List.find P (List.filter keep l) = Some x.
Proof.
  induction l as [|y l IH]; simpl; [done|]. destruct (P y) eqn:Ep.
  - intros [= ->] Hk. rewrite Hk. simpl. by rewrite Ep.
  - intros Hf Hk. destruct (keep y); simpl; [rewrite Ep|]; auto.
Qed.

Lemma find_filtered_out {A} (P keep : A -> bool) l :
  (forall x, In x l -> P x = true -> keep x = false) -> List.find P (List.filter keep l) = None.
Proof.
  intros H. destruct (List.find P _) as [x|] eqn:Ef; [|done]. apply find_some in Ef as [Hin Hp].
  apply filter_In in Hin as [Hin Hk]. rewrite (H x Hin Hp) in Hk. done.
Qed.

Section Lines.
Context {A : Type}.

(** One step down a group. *)
Lemma run_line_group root use aliases kind persistent (subs : list (cmd A)) inherited word words given :
  run_line root (Group use aliases kind persistent subs) inherited (word :: words) given
  = match List.find (has_name word) subs with
    | Some c => run_line false c (persistent ++ inherited) words given
    | None => if root then UsageError else run_group kind (persistent ++ inherited) (word :: words) given
    end.
Proof.
  simpl. induction subs as [|c subs IH]; [done|]. simpl. destruct (has_name word c); [done|exact IH].
Qed.

Lemma run_line_sub root use aliases kind persistent (subs : list (cmd A)) inherited word words given c :
  List.find (has_name word) subs = Some c ->
  run_line root (Group use aliases kind persistent subs) inherited (word :: words) given
  = run_line false c (persistent ++ inherited) words given.
Proof. intros H. by rewrite run_line_group, H. Qed.

(** No command has the name. *)
Lemma find_no_name word (subs : list (cmd A)) :
  Forall (fun c => cmd_Name c <> word /\ match c with Group _ l _ _ _ => word ∉ l | _ => True end) subs ->
  List.find (has_name word) subs = None.
Proof.
  induction 1 as [|c subs [Hn Ha] _ IH]; [done|]. simpl. unfold has_name at 1.
  rewrite bool_decide_eq_false_2 by done. destruct c; try exact IH. by rewrite bool_decide_eq_false_2.
Qed.

(** A command runs when its arguments and flags fit, and only then. *)
Lemma run_line_leaf root use args flags (run : list string -> flag_set -> A) inherited words given :
  match args with None => True | Some n => length words = n end ->
  flags_known given (flags ++ inherited) = true ->
  run_line root (Leaf use args flags run) inherited words given = Ran (run words (given ++ flags ++ inherited)).
Proof. intros Ha Hf. simpl. rewrite Hf. destruct args; [by rewrite bool_decide_eq_true_2|done]. Qed.

Lemma run_line_refused root use n flags (run : list string -> flag_set -> A) inherited words given :
  length words <> n \/ flags_known given (flags ++ inherited) <> true ->
  run_line root (Leaf use (Some n) flags run) inherited words given = UsageError.
Proof.
  intros H. simpl. destruct (bool_decide_reflect (length words = n)) as [Hn|]; [|done].
  destruct H as [H|H]; [done|]. by destruct (flags_known _ _).
Qed.

End Lines.

(** The specification is an implementation. *)
Section Concrete.

#[local] Instance demo_cobra : Cobra := {| Execute := fun A => run_line true |}.

#[local] Instance demo_cobra_laws : CobraLaws.
Proof. by split. Qed.

End Concrete.
