(* ===== verification/Commands.v ===== *)
(** * The command line program (x/wasm/client/cli, cmd/wasmcli/main.go)

    The wasm module's transaction and query commands as trees of [Cobra.v], with
    the flags they register, and the program they are mounted in; the commands
    and flags of the SDK are parameters. *)

From S2P Require Import Prelude GoStd SdkTypes Types Sdk Ref Demo App Client Cobra.

Section Commands.
Context {E : Env} `{CliContext}.

(** ** tx.go and query.go *)

Definition flagAmount : string := "amount".
Definition flagSource : string := "source".
Definition flagBuilder : string := "builder".

(** The flags that [client.PostCommands] and [client.GetCommands] add to theirs. *)
Context (post_flags get_flags : flag_set).

Definition store_flags : flag_set := [(flagSource, FlagString ""); (flagBuilder, FlagString "")].

Definition store_leaf : cmd command :=
  Leaf "store [wasm file] --source [source] --builder [builder]" (Some 1%nat) (store_flags ++ post_flags)
    (fun args f => StoreCodeCmd (arg 0 args) (GetString f flagSource) (GetString f flagBuilder)).

Definition amount_flags : flag_set := [(flagAmount, FlagString "")].

Definition instantiate_leaf : cmd command :=
  Leaf "instantiate [code_id_int64] [json_encoded_init_args]" (Some 2%nat) (amount_flags ++ post_flags)
    (fun args f => InstantiateContractCmd (arg 0 args) (arg 1 args) (GetString f flagAmount)).

Definition execute_leaf : cmd command :=
  Leaf "execute [contract_addr_bech32] [json_encoded_send_args]" (Some 2%nat) (amount_flags ++ post_flags)
    (fun args f => ExecuteContractCmd (arg 0 args) (arg 1 args) (GetString f flagAmount)).

Definition GetTxCmd : cmd command := Group ModuleName [] ValidateCmd [] [store_leaf; instantiate_leaf; execute_leaf].

(** [argumentDecoder.RegisterFlags] *)
Definition RegisterFlags : flag_set :=
  [("ascii", FlagBool false); ("hex", FlagBool false); ("b64", FlagBool false)]%string.

Definition GetCmdGetContractState : cmd command :=
  Group "contract-state" [] ValidateCmd []
    [ Leaf "all [bech32_address]" (Some 1%nat) get_flags (fun args _ => GetCmdGetContractStateAll (arg 0 args));
      Leaf "raw [bech32_address] [key]" (Some 2%nat) (RegisterFlags ++ get_flags) (fun args f =>
        GetCmdGetContractStateRaw (GetBool f "ascii") (GetBool f "hex") (GetBool f "b64")
          (arg 0 args) (arg 1 args));
      Leaf "smart [bech32_address] [query]" (Some 2%nat) (RegisterFlags ++ get_flags) (fun args f =>
        GetCmdGetContractStateSmart (GetBool f "ascii") (GetBool f "hex") (GetBool f "b64")
          (arg 0 args) (arg 1 args)) ].

Definition GetQueryCmd : cmd command :=
  Group ModuleName [] ValidateCmd []
    [ Leaf "list-code" (Some 0%nat) get_flags (fun _ _ => GetCmdListCode);
      Leaf "code [code_id] [output filename]" (Some 2%nat) get_flags
        (fun args _ => GetCmdQueryCode (arg 0 args) (arg 1 args));
      Leaf "list-contracts" (Some 0%nat) get_flags (fun _ _ => GetCmdListContracts);
      Leaf "contract [bech32_address]" (Some 1%nat) get_flags (fun args _ => GetCmdGetContractInfo (arg 0 args));
      GetCmdGetContractState ].

(** ** module.go: the commands of the module *)

Definition AppModuleBasic_GetTxCmd : cmd command := GetTxCmd.
Definition AppModuleBasic_GetQueryCmd : cmd command := GetQueryCmd.

(** ** cmd/wasmcli/main.go *)

(** The SDK's own commands under [query] and [tx], and the module commands that
    [ModuleBasics] adds, in some order; the names of the auth and bank modules. *)
Context (query_own tx_own root_before root_after query_modules tx_modules : list (cmd command)).
Context (auth_ModuleName bank_ModuleName : string).

Definition queryCmd : cmd command := Group "query" ["q"%string] NotRunnable [] (query_own ++ query_modules).

(** The commands whose usage line is the name of one of the two modules. *)
Definition to_remove (c : cmd command) : bool :=
  bool_decide (cmd_Use c = auth_ModuleName) || bool_decide (cmd_Use c = bank_ModuleName).

Definition txCmd : cmd command :=
  Group "tx" [] NotRunnable [] (List.filter (fun c => negb (to_remove c)) (tx_own ++ tx_modules)).

(** [client.FlagChainID] *)
Definition FlagChainID : string := "chain-id".

Definition rootCmd : cmd command :=
  Group "wasmcli" [] NotRunnable [(FlagChainID, FlagString "")] (root_before ++ [queryCmd; txCmd; LineBreak] ++ root_after).

End Commands.

(** *** initConfig

    viper and the file system: whether there is a file, reading it, and binding a
    name to a flag, which fails for a flag that does not exist. *)

Class ViperEnv := {
  Viper : Type;
  os_Stat : string -> M Viper (option string);
  SetConfigFile : string -> M Viper unit;
  ReadInConfig : M Viper (option string);
  BindPFlag : string -> option flag_value -> M Viper (option string);
  flag_undefined : string -> string }.

Section InitConfig.
Context `{ViperEnv} (HomeFlag EncodingFlag OutputFlag : string).

(** [if err := call; err != nil { return err }] *)
Definition or_return_err (call rest : M Viper (option string)) : M Viper (option string) :=
  let! err := call in
  match err with
  | Some err => gret (Some err)
  | None => rest
  end.

(** [cmd.PersistentFlags()] *)
Definition initConfig (persistent : flag_set) : M Viper (option string) :=
  match flag_lookup HomeFlag persistent with
  | Some (FlagString home) =>
      let cfgFile := Filepath.Join [home; "config"; "config.toml"]%string in
      let bind_all :=
        or_return_err (BindPFlag FlagChainID (flag_lookup FlagChainID persistent)) (
        or_return_err (BindPFlag EncodingFlag (flag_lookup EncodingFlag persistent)) (
        BindPFlag OutputFlag (flag_lookup OutputFlag persistent))) in
      let! stat := os_Stat cfgFile in
      match stat with
      | None => do! SetConfigFile cfgFile in or_return_err ReadInConfig bind_all
      | Some _ => bind_all
      end
  | _ => gret (Some (flag_undefined HomeFlag))
  end.

(** When the configuration is set up, a file that is there has been read, and the
    three flags are bound to what was given for them. A missing file is no error. *)
Theorem initConfig_success persistent v v' :
  initConfig persistent v = Ret None v' ->
  exists home v0 v1 v2 v3 stat,
    flag_lookup HomeFlag persistent = Some (FlagString home) /\
    os_Stat (Filepath.Join [home; "config"; "config.toml"]%string) v = Ret stat v0 /\
    match stat with
    | Some _ => v1 = v0
    | None => exists vs, SetConfigFile (Filepath.Join [home; "config"; "config.toml"]%string) v0 = Ret tt vs /\
                         ReadInConfig vs = Ret None v1
    end /\
    BindPFlag FlagChainID (flag_lookup FlagChainID persistent) v1 = Ret None v2 /\
    BindPFlag EncodingFlag (flag_lookup EncodingFlag persistent) v2 = Ret None v3 /\
    BindPFlag OutputFlag (flag_lookup OutputFlag persistent) v3 = Ret None v'.
Proof.
  assert (Hor : forall c k w w', or_return_err c k w = Ret None w' -> exists u, c w = Ret None u /\ k u = Ret None w').
  { intros c k w w' H0. unfold or_return_err in H0. apply gbind_Ret_inv in H0 as ([e|] & u & Hc & Hk); [done|eauto]. }
  unfold initConfig. destruct (flag_lookup HomeFlag persistent) as [[home| |]|]; try discriminate 1.
  intros (stat & v0 & Hstat & Hrest)%gbind_Ret_inv. exists home, v0.
  assert (Hbind : forall v1, or_return_err (BindPFlag FlagChainID (flag_lookup FlagChainID persistent)) (
        or_return_err (BindPFlag EncodingFlag (flag_lookup EncodingFlag persistent)) (
        BindPFlag OutputFlag (flag_lookup OutputFlag persistent))) v1 = Ret None v' ->
      exists v2 v3, BindPFlag FlagChainID (flag_lookup FlagChainID persistent) v1 = Ret None v2 /\
        BindPFlag EncodingFlag (flag_lookup EncodingFlag persistent) v2 = Ret None v3 /\
        BindPFlag OutputFlag (flag_lookup OutputFlag persistent) v3 = Ret None v').
  { intros v1 (v2 & H2 & (v3 & H3 & H4)%Hor)%Hor. eauto. }
  destruct stat as [e|].
  - destruct (Hbind v0 Hrest) as (v2 & v3 & ?). exists v0, v2, v3, (Some e). tauto.
  - apply gbind_Ret_inv in Hrest as ([] & vs & Hset & (v1 & Hread & Hb)%Hor).
    destruct (Hbind v1 Hb) as (v2 & v3 & H2 & H3 & H4). exists v1, v2, v3, None.
    repeat split; try done. by exists vs.
Qed.

End InitConfig.

(** ** Properties *)

Section CommandProperties.
Context {E : Env} `{CliContext} {co : Cobra} {cl : CobraLaws}.
Context (post_flags get_flags main_flags : flag_set).
Context (query_own tx_own root_before root_after query_modules tx_modules : list (cmd command)) (authN bankN : string).

Let root := rootCmd query_own tx_own root_before root_after query_modules tx_modules authN bankN.

(** [main_flags]: what [cli.PrepareMainCmd] adds to the root command. *)
Let run := Execute root main_flags.

(** The flags a command under the root accepts next to its own. *)
Let common : flag_set := (FlagChainID, FlagString "") :: main_flags.

(** The module's commands are among those that the basics add, and no command
    that comes before them has one of the names on their path. *)
Definition mounted : Prop :=
  List.find (has_name "tx") root_before = None /\ List.find (has_name "query") root_before = None /\
  List.find (has_name "q") root_before = None /\
  List.find (has_name "wasm") (tx_own ++ tx_modules) = Some (AppModuleBasic_GetTxCmd post_flags) /\
  List.find (has_name "wasm") (query_own ++ query_modules) = Some (AppModuleBasic_GetQueryCmd get_flags) /\
  authN <> ModuleName /\ bankN <> ModuleName.

Lemma run_root word words given c :
  List.find (has_name word) root_before = None ->
  List.find (has_name word) [queryCmd query_own query_modules; txCmd tx_own tx_modules authN bankN; LineBreak] = Some c ->
  run (word :: words) given = run_line false c common words given.
Proof.
  intros Hn Hf. unfold run, root. rewrite Execute_spec. apply run_line_sub. rewrite find_app, Hn.
  change (?a :: ?b :: ?d :: root_after) with ([a; b; d] ++ root_after). by rewrite find_app, Hf.
Qed.

Lemma run_tx words given :
  mounted -> run ("tx" :: "wasm" :: words)%string given
             = run_line false (GetTxCmd post_flags) common words given.
Proof.
  intros (Ht & _ & _ & Htx & _ & Ha & Hb).
  rewrite (run_root _ _ _ (txCmd tx_own tx_modules authN bankN)) by done.
  apply run_line_sub. apply find_filter; [done|]. unfold to_remove. simpl.
  by rewrite !bool_decide_eq_false_2 by done.
Qed.

Lemma run_query word words given :
  mounted -> word ∈ ["q"; "query"]%string ->
  run (word :: "wasm" :: words)%string given = run_line false (GetQueryCmd get_flags) common words given.
Proof.
  intros (_ & Hq & Hq' & _ & Hqu & _) Hw.
  rewrite (run_root _ _ _ (queryCmd query_own query_modules)).
  - by apply run_line_sub.
  - repeat (apply elem_of_cons in Hw as [->|Hw]; [done|]). by apply not_elem_of_nil in Hw.
  - repeat (apply elem_of_cons in Hw as [->|Hw]; [done|]). by apply not_elem_of_nil in Hw.
Qed.

(** *** The lines of the module

    The commands of the module: the words behind [tx wasm] and [query wasm], the
    number of arguments, the flags a command registers, and what it runs on the
    arguments and the flags that were given. *)
Record line := { line_words : list string; line_args : nat; line_flags : flag_set;
                 line_run : list string -> flag_set -> command }.

Definition tx_lines : list line :=
  [ {| line_words := ["store"]; line_args := 1; line_flags := store_flags ++ post_flags;
       line_run := fun args given => StoreCodeCmd (arg 0 args) (GetString given "source") (GetString given "builder") |};
    {| line_words := ["instantiate"]; line_args := 2; line_flags := amount_flags ++ post_flags;
       line_run := fun args given => InstantiateContractCmd (arg 0 args) (arg 1 args) (GetString given "amount") |};
    {| line_words := ["execute"]; line_args := 2; line_flags := amount_flags ++ post_flags;
       line_run := fun args given => ExecuteContractCmd (arg 0 args) (arg 1 args) (GetString given "amount") |} ]%string.

Definition query_lines : list line :=
  [ {| line_words := ["list-code"]; line_args := 0; line_flags := get_flags; line_run := fun _ _ => GetCmdListCode |};
    {| line_words := ["code"]; line_args := 2; line_flags := get_flags;
       line_run := fun args _ => GetCmdQueryCode (arg 0 args) (arg 1 args) |};
    {| line_words := ["list-contracts"]; line_args := 0; line_flags := get_flags;
       line_run := fun _ _ => GetCmdListContracts |};
    {| line_words := ["contract"]; line_args := 1; line_flags := get_flags;
       line_run := fun args _ => GetCmdGetContractInfo (arg 0 args) |};
    {| line_words := ["contract-state"; "all"]; line_args := 1; line_flags := get_flags;
       line_run := fun args _ => GetCmdGetContractStateAll (arg 0 args) |};
    {| line_words := ["contract-state"; "raw"]; line_args := 2; line_flags := RegisterFlags ++ get_flags;
       line_run := fun args given => GetCmdGetContractStateRaw (GetBool given "ascii") (GetBool given "hex")
                                       (GetBool given "b64") (arg 0 args) (arg 1 args) |};
    {| line_words := ["contract-state"; "smart"]; line_args := 2; line_flags := RegisterFlags ++ get_flags;
       line_run := fun args given => GetCmdGetContractStateSmart (GetBool given "ascii") (GetBool given "hex")
                                       (GetBool given "b64") (arg 0 args) (arg 1 args) |} ]%string.

(** A line runs its command on the arguments behind its words, if their number is
    right and all flags are known, and is refused otherwise. *)
Definition line_runs (c : cmd command) (given : flag_set) (l : line) : Prop :=
  forall args, run_line false c common (line_words l ++ args) given =
    if bool_decide (length args = line_args l) && flags_known given (line_flags l ++ common)
    then Ran (line_run l args given) else UsageError.

(** The value of a flag that is registered with an empty default. *)
Lemma GetString_default given rest name :
  flag_lookup name rest = Some (FlagString "") -> GetString (given ++ rest) name = GetString given name.
Proof. intros Hr. unfold GetString. rewrite flag_lookup_app, Hr. by destruct (flag_lookup name given) as [[]|]. Qed.

Lemma GetBool_default given rest name :
  flag_lookup name rest = Some (FlagBool false) -> GetBool (given ++ rest) name = GetBool given name.
Proof. intros Hr. unfold GetBool. rewrite flag_lookup_app, Hr. by destruct (flag_lookup name given) as [[]|]. Qed.

(** A leaf that stands for a line. *)
Lemma leaf_line use n flags (f : list string -> flag_set -> command) run' given :
  (forall args, f args (given ++ flags ++ common) = run' args given) -> forall args,
  run_line false (Leaf use (Some n) flags f) common args given =
  if bool_decide (length args = n) && flags_known given (flags ++ common) then Ran (run' args given) else UsageError.
Proof. intros Hf args. simpl. by rewrite Hf. Qed.

Lemma tx_lines_run given l : In l tx_lines -> line_runs (GetTxCmd post_flags) given l.
Proof.
  intros Hl args. unfold GetTxCmd. repeat (destruct Hl as [<-|Hl]; [|]); [..|destruct Hl];
    cbn [line_words line_args line_flags app]; (erewrite run_line_sub by reflexivity); cbn [app];
    apply leaf_line; intros; cbn [line_run]; by rewrite !GetString_default by done.
Qed.

Lemma query_lines_run given l : In l query_lines -> line_runs (GetQueryCmd get_flags) given l.
Proof.
  intros Hl args. unfold GetQueryCmd. repeat (destruct Hl as [<-|Hl]; [|]); [..|destruct Hl];
    cbn [line_words line_args line_flags app]; (erewrite run_line_sub by reflexivity); cbn [app];
    try (unfold GetCmdGetContractState; erewrite run_line_sub by reflexivity; cbn [app]);
    apply leaf_line; intros; cbn [line_run]; by rewrite ?GetBool_default by done.
Qed.

(** C32: what the words of a line run. With the module's commands among those that
    the basics add, each of the module's ten lines, three under [tx wasm] and seven
    under [query wasm] ([tx_lines], [query_lines]), runs the command it names on its
    arguments and on the flags that were given, if the number of arguments is that
    of the command and the flags are among those it registers, and is refused
    otherwise; [q] stands for [query]. Another word under [tx wasm] or [query wasm]
    is refused by [client.ValidateCmd], which shows the help text if there is none.
    The commands of the auth and bank modules, which the program mounts directly
    under [tx], cannot be reached under their modules' names: such a line shows
    the help text of [tx]. *)
Theorem wasmcli_lines given :
  mounted ->
  (forall name c, name = authN \/ name = bankN -> In c (tx_own ++ tx_modules) ->
     has_name name c = true -> cmd_Use c = name) ->
  (forall l args, In l tx_lines ->
     run ("tx" :: "wasm" :: line_words l ++ args)%string given =
     if bool_decide (length args = line_args l) && flags_known given (line_flags l ++ common)
     then Ran (line_run l args given) else UsageError) /\
  (forall q l args, q ∈ ["q"; "query"]%string -> In l query_lines ->
     run (q :: "wasm" :: line_words l ++ args)%string given =
     if bool_decide (length args = line_args l) && flags_known given (line_flags l ++ common)
     then Ran (line_run l args given) else UsageError) /\
  (forall words, head words ∉ map (fun l => head (line_words l)) tx_lines ->
     run ("tx" :: "wasm" :: words)%string given = Validated (head words)) /\
  (forall q words, q ∈ ["q"; "query"]%string -> head words ∉ map (fun l => head (line_words l)) query_lines ->
     run (q :: "wasm" :: words)%string given = Validated (head words)) /\
  (forall name words, name = authN \/ name = bankN ->
     run ("tx" :: name :: words)%string given = if flags_known given common then HelpText else UsageError).
Proof.
  intros Hm Hbank. split; [|split; [|split; [|split]]].
  - intros l args Hl. rewrite run_tx by done. by apply tx_lines_run.
  - intros q l args Hq Hl. rewrite run_query by done. by apply query_lines_run.
  - intros [|word words] Hw; rewrite run_tx by done; [done|]. unfold GetTxCmd. rewrite run_line_group.
    rewrite find_no_name; [done|]. repeat constructor; intros <-; apply Hw, list_elem_of_In; simpl; tauto.
  - intros q [|word words] Hq Hw; rewrite run_query by done; [done|]. unfold GetQueryCmd. rewrite run_line_group.
    rewrite find_no_name; [done|]. repeat constructor; try apply not_elem_of_nil; intros <-; apply Hw, list_elem_of_In; simpl; tauto.
  - intros name words Hn. destruct Hm as (Ht & _).
    rewrite (run_root _ _ _ (txCmd tx_own tx_modules authN bankN)) by done.
    unfold txCmd. rewrite run_line_group, find_filtered_out; [done|]. intros c Hin Hname.
    unfold to_remove. rewrite (Hbank _ _ Hn Hin Hname). destruct Hn as [->| ->].
    + by rewrite (bool_decide_eq_true_2 (authN = authN)).
    + rewrite (bool_decide_eq_true_2 (bankN = bankN)) by done. by rewrite orb_true_r.
Qed.

End CommandProperties.

(** ** Witness *)

#[local] Existing Instances demo_scripts RefEnv RefEnvLaws demo_cobra demo_cobra_laws.

#[local] Instance line_cli : CliContext := {|
  ReadFile _ := Err "no such file"%string; GetFromAddress := []; ParseCoins _ := Ok [];
  QueryWithData route _ := Ok (bytes_of_string route) |}.

Definition demo_post_flags : flag_set := [("from", FlagString "")]%string.

(** A program with the bank's [send] next to the modules' commands. *)
Definition demo_root : cmd command :=
  rootCmd [Foreign "account [address]"; LineBreak] [Foreign "send [from] [to]"; LineBreak]
    [Foreign "status"; Foreign "config <key> [value]"] [Foreign "rest-server"]
    [Foreign "staking"; GetQueryCmd []] [Foreign "bank"; GetTxCmd demo_post_flags; Foreign "auth"] "auth" "bank".

Lemma wasmcli_lines_witness :
  Execute demo_root [] ["tx"; "wasm"; "store"; "a.wasm"]%string
    [("source", FlagString "https://a.b"); ("from", FlagString "me")]%string
    = Ran (StoreCodeCmd "a.wasm" "https://a.b" "") /\
  Execute demo_root [] ["q"; "wasm"; "contract-state"; "all"; "me"; "you"]%string [] = UsageError /\
  Execute demo_root [] ["tx"; "bank"; "send"]%string [] = HelpText.
Proof.
  pose proof (fun given => wasmcli_lines demo_post_flags [] [] [Foreign "account [address]"; LineBreak]
    [Foreign "send [from] [to]"; LineBreak]
    [Foreign "status"; Foreign "config <key> [value]"] [Foreign "rest-server"]
    [Foreign "staking"; GetQueryCmd []] [Foreign "bank"; GetTxCmd demo_post_flags; Foreign "auth"] "auth" "bank" given) as H.
  assert (Hm : mounted demo_post_flags [] [Foreign "account [address]"; LineBreak] [Foreign "send [from] [to]"; LineBreak]
    [Foreign "status"; Foreign "config <key> [value]"] [Foreign "staking"; GetQueryCmd []]
    [Foreign "bank"; GetTxCmd demo_post_flags; Foreign "auth"] "auth" "bank")
    by (unfold mounted; repeat split; try reflexivity; discriminate).
  assert (Hb : forall name c, name = "auth"%string \/ name = "bank"%string ->
    In c ([Foreign "send [from] [to]"; LineBreak] ++ [Foreign "bank"; GetTxCmd demo_post_flags; Foreign "auth"]) ->
    has_name name c = true -> cmd_Use c = name).
  { intros name c Hn Hin Hc. repeat (destruct Hin as [<-|Hin]; [destruct Hn; subst name; try discriminate Hc; reflexivity|]).
    destruct Hin. }
  split; [|split].
  - destruct (H [("source", FlagString "https://a.b"); ("from", FlagString "me")]%string Hm Hb) as (H1 & _).
    exact (H1 _ ["a.wasm"]%string (or_introl eq_refl)).
  - destruct (H [] Hm Hb) as (_ & H2 & _).
    refine (H2 "q"%string (nth 4 (query_lines []) {| line_words := []; line_args := 0; line_flags := [];
      line_run := fun _ _ => GetCmdListCode |}) ["me"; "you"]%string _ _).
    + apply elem_of_cons. by left.
    + simpl. tauto.
  - destruct (H [] Hm Hb) as (_ & _ & _ & _ & H5). exact (H5 "bank"%string ["send"]%string (or_intror eq_refl)).
Defined.
