(* ===== verification/NetIP.v ===== *)
(** * net: IP addresses

    [net.ParseIP], [IP.To4] and [IP.String] for IPv4, as cmd/wasmd/testnet.go uses
    them (the parsers of Go 1.13, which accept leading zeros), and that a dotted
    quad is read back as it was printed. *)

From S2P Require Import Prelude GoStd.

Module NetIP.

Definition dot : byte := x2e.
Definition colon : byte := x3a.

(** Bigger than needed, not too big to worry about overflow. *)
Definition big : Z := 0xffffff.

Definition dec_val (c : byte) : option Z := if in_range 48 57 c then Some (byte_val c - 48) else None.

(** [dtoi], [xtoi]: the number at the start of a text, and the rest of the text. *)
Fixpoint digits (base : Z) (val : byte -> option Z) (n : Z) (s : bytes) : option (Z * bytes) :=
  match s with
  | [] => Some (n, [])
  | c :: s' =>
      match val c with
      | None => Some (n, s)
      | Some d =>
          let n := n * base + d in
          if big <=? n then None else digits base val n s'
      end
  end.

Definition number (base : Z) (val : byte -> option Z) (s : bytes) : option (Z * bytes) :=
  match s with
  | c :: _ => match val c with Some _ => digits base val 0 s | None => None end
  | [] => None
  end.

Definition dtoi : bytes -> option (Z * bytes) := number 10 dec_val.
Definition xtoi : bytes -> option (Z * bytes) := number 16 hex_val.

(** [k] more numbers; all but the first follow a dot. *)
Fixpoint quad (k : nat) (first : bool) (s : bytes) : option (bytes * bytes) :=
  match k with
  | O => Some ([], s)
  | S k =>
      match (if first then Some s
             else match s with c :: s => if bool_decide (c = dot) then Some s else None | [] => None end) with
      | None => None
      | Some s =>
          match dtoi s with
          | None => None
          | Some (n, s) =>
              if 255 <? n then None
              else
                match quad k false s with
                | Some (p, s) => Some (byte_of_Z n :: p, s)
                | None => None
                end
          end
      end
  end.

(** The four bytes of an IPv4 address. *)
Definition parseIPv4 (s : bytes) : option bytes :=
  match quad 4 true s with Some (p, []) => Some p | _ => None end.

Definition v4_prefix : bytes := replicate 10 x00 ++ [xff; xff].

(** The groups of an IPv6 address: what was read, where the ellipsis is, and the
    rest of the text; [k] groups fit. *)
Fixpoint groups (k : nat) (ip : bytes) (ellipsis : option nat) (s : bytes)
    : option (bytes * option nat * bytes) :=
  match k with
  | O => Some (ip, ellipsis, s)
  | S k' =>
      match xtoi s with
      | None => None
      | Some (n, rest) =>
          if 65535 <? n then None
          else if match rest with c :: _ => bool_decide (c = dot) | [] => false end then
            if match ellipsis with None => negb (bool_decide (length ip = 12%nat)) | Some _ => false end
            then None
            else if (16 <? length ip + 4)%nat then None
            else
              match parseIPv4 s with
              | Some ip4 => Some (ip ++ ip4, ellipsis, [])
              | None => None
              end
          else
            let ip := ip ++ [byte_of_Z (Z.shiftr n 8); byte_of_Z n] in
            match rest with
            | [] => Some (ip, ellipsis, [])
            | [c] => None
            | c :: d :: rest =>
                if negb (bool_decide (c = colon)) then None
                else if bool_decide (d = colon) then
                  match ellipsis with
                  | Some _ => None
                  | None =>
                      match rest with
                      | [] => Some (ip, Some (length ip), [])
                      | _ => groups k' ip (Some (length ip)) rest
                      end
                  end
                else groups k' ip ellipsis (d :: rest)
            end
      end
  end.

Definition parseIPv6 (s : bytes) : option bytes :=
  let finish (o : option (bytes * option nat * bytes)) :=
    match o with
    | Some (ip, ellipsis, []) =>
        match ellipsis with
        | None => if bool_decide (length ip = 16%nat) then Some ip else None
        | Some e =>
            if (length ip <? 16)%nat
            then Some (take e ip ++ replicate (16 - length ip) x00 ++ drop e ip) else None
        end
    | _ => None
    end in
  match s with
  | c :: d :: rest =>
      if bool_decide (c = colon) && bool_decide (d = colon) then
        match rest with
        | [] => Some (replicate 16 x00)
        | _ => finish (groups 8 [] (Some 0%nat) rest)
        end
      else finish (groups 8 [] None s)
  | _ => finish (groups 8 [] None s)
  end.

(** Whether the text has a dot or a colon first decides its family. *)
Fixpoint family (s : bytes) : option bool :=
  match s with
  | [] => None
  | c :: s => if bool_decide (c = dot) then Some true
              else if bool_decide (c = colon) then Some false else family s
  end.

(** [None] is a [nil] IP. *)
Definition ParseIP (s : string) : option bytes :=
  let s := bytes_of_string s in
  match family s with
  | Some true => app v4_prefix <$> parseIPv4 s
  | Some false => parseIPv6 s
  | None => None
  end.

Definition To4 (ip : option bytes) : option bytes :=
  match ip with
  | None => None
  | Some ip =>
      if bool_decide (length ip = 4%nat) then Some ip
      else if bool_decide (length ip = 16%nat /\ take 12 ip = v4_prefix) then Some (drop 12 ip)
      else None
  end.

(** [IP.String] of four bytes. *)
Definition String4 (ip : bytes) : string :=
  String.concat "." (map (fun b => Strconv.FormatUint (byte_val b)) ip).

End NetIP.
Import NetIP.

(** ** Examples *)

Example parse_quad : To4 (ParseIP "192.168.010.2") = Some [xc0; xa8; x0a; x02].
Proof. vm_compute. reflexivity. Qed.
Example parse_mapped : To4 (ParseIP "::ffff:10.0.0.1") = Some [x0a; x00; x00; x01].
Proof. vm_compute. reflexivity. Qed.
Example parse_mapped_hex : To4 (ParseIP "0:0::FFFF:a00:1") = Some [x0a; x00; x00; x01].
Proof. vm_compute. reflexivity. Qed.
Example parse_v6 : To4 (ParseIP "2001:db8::1") = None /\ is_Some (ParseIP "2001:db8::1").
Proof. split; [vm_compute; reflexivity|vm_compute; by eexists]. Qed.
Example parse_bad : ParseIP "1.2.3.256" = None /\ ParseIP "1.2.3" = None /\ ParseIP "1:2" = None
  /\ ParseIP "localhost" = None /\ ParseIP "1::2::3" = None.
Proof. by vm_compute. Qed.
Example parse_ends : ParseIP "1::" = Some ([x00; x01] ++ replicate 14 x00) /\ ParseIP "::" = Some (replicate 16 x00).
Proof. by vm_compute. Qed.

(** ** Round trip *)

Definition dec_text (b : byte) : bytes := bytes_of_string (Strconv.FormatUint (byte_val b)).

Lemma dtoi_dot b s : dtoi (dec_text b ++ dot :: s) = Some (byte_val b, dot :: s).
Proof. destruct b; reflexivity. Qed.

Lemma dtoi_last b : dtoi (dec_text b) = Some (byte_val b, []).
Proof. destruct b; reflexivity. Qed.

Lemma family_quad b s : family (dec_text b ++ dot :: s) = Some true.
Proof. destruct b; reflexivity. Qed.

Lemma String4_bytes a b c d :
  bytes_of_string (String4 [a; b; c; d])
  = dec_text a ++ dot :: dec_text b ++ dot :: dec_text c ++ dot :: dec_text d.
Proof.
  unfold String4, dec_text. simpl map. simpl String.concat.
  rewrite !bytes_of_string_append. done.
Qed.

Lemma quad_step k b s :
  quad (S k) true (dec_text b ++ dot :: s)
  = match quad k false (dot :: s) with Some (p, s) => Some (b :: p, s) | None => None end.
Proof.
  cbn [quad]. rewrite dtoi_dot. destruct (Z.ltb_spec 255 (byte_val b)).
  { pose proof (byte_val_range b). lia. }
  by rewrite byte_of_Z_val.
Qed.

Lemma quad_dot k s : quad (S k) false (dot :: s) = quad (S k) true s.
Proof. reflexivity. Qed.

Lemma quad_last b : quad 1 true (dec_text b) = Some ([b], []).
Proof.
  cbn [quad]. rewrite dtoi_last. destruct (Z.ltb_spec 255 (byte_val b)).
  { pose proof (byte_val_range b). lia. }
  by rewrite byte_of_Z_val.
Qed.

Lemma ParseIP_String4 a b c d : To4 (ParseIP (String4 [a; b; c; d])) = Some [a; b; c; d].
Proof.
  unfold ParseIP. rewrite String4_bytes, family_quad. unfold parseIPv4.
  rewrite quad_step, quad_dot, quad_step, quad_dot, quad_step, quad_dot, quad_last. reflexivity.
Qed.
