(* ===== verification/Testnet.v ===== *)
(** * The daemon's testnet command (cmd/wasmd/testnet.go)

    The files of a test network: a loop over the validators that creates their
    directories, keys, accounts and genesis transactions, one genesis file for
    each, and the collection of the genesis transactions. The SDK, Tendermint and
    the disk are the operations of [TestnetEnv]. *)

From S2P Require Import Prelude GoStd Json SdkTypes Daemon App NetIP.

(** ** Data *)

(** The part of Tendermint's configuration the command sets. *)
Record tm_config := { cfg_RootDir : string; cfg_ListenAddress : string; cfg_Moniker : string }.

Definition SetRoot (root : string) (c : tm_config) : tm_config :=
  {| cfg_RootDir := root; cfg_ListenAddress := cfg_ListenAddress c; cfg_Moniker := cfg_Moniker c |}.
Definition set_listen (a : string) (c : tm_config) : tm_config :=
  {| cfg_RootDir := cfg_RootDir c; cfg_ListenAddress := a; cfg_Moniker := cfg_Moniker c |}.
Definition set_moniker (m : string) (c : tm_config) : tm_config :=
  {| cfg_RootDir := cfg_RootDir c; cfg_ListenAddress := cfg_ListenAddress c; cfg_Moniker := m |}.

(** The message of a genesis transaction: no commission, a minimum of one. *)
Record MsgCreateValidator {PubKey : Type} := {
  cv_ValidatorAddress : bytes; cv_PubKey : option PubKey; cv_Value : Coin; cv_Moniker : string;
  cv_MinSelfDelegation : Z }.
Arguments MsgCreateValidator : clear implicits.

Record GenesisDoc {Validator : Type} := {
  doc_ChainID : string; doc_AppState : bytes; doc_Validators : list Validator }.
Arguments GenesisDoc : clear implicits.

Record InitConfig {PubKey : Type} := {
  init_ChainID : string; init_GenTxsDir : string; init_Name : string; init_NodeID : string;
  init_ValPubKey : option PubKey }.
Arguments InitConfig : clear implicits.

Class TestnetEnv := {
  Files : Type;
  PubKey : Type;
  GenesisValidator : Type;
  Keyring : Type;
  SignedTx : Type;
  AuthParams : Type;
  Time : Type;
  testnet_auth :: AuthTypes;
  GenesisFile_of : tm_config -> string;
  RandStr6 : M Files string;
  MkdirAll : string -> M Files (option string);
  RemoveAll : string -> M Files unit;
  EnsureDir : string -> M Files (option string);
  cmn_WriteFile : string -> bytes -> M Files (option string);
  ExternalIP : M Files (result string string);
  InitializeNodeValidatorFiles : tm_config -> M Files (result string (string * PubKey));
  NewKeyringFromDir : string -> M Files (result string Keyring);
  GenerateSaveCoinKey : Keyring -> string -> M Files (result string (bytes * string));
  TokensFromConsensusPower : Z -> Z;
  coin_valid : string -> Z -> bool;
  DefaultBondDenom : string;
  SignStdTx : Keyring -> string -> string -> string -> MsgCreateValidator PubKey ->
    M Files (result string SignedTx);
  MarshalJSON_tx : SignedTx -> result string bytes;
  WriteConfigFile : string -> string -> M Files unit;
  DefaultGenesis : gmap string bytes;
  UnmarshalJSON_auth : bytes -> option (AuthParams * list GenesisAccount);
  MarshalJSON_authState : AuthParams * list GenesisAccount -> option bytes;
  MarshalJSONIndent_app : gmap string bytes -> result string bytes;
  SaveAs : GenesisDoc GenesisValidator -> string -> M Files (option string);
  Now : M Files Time;
  GenesisDocFromFile : string -> M Files (result string (GenesisDoc GenesisValidator));
  GenAppStateFromConfig : tm_config -> InitConfig PubKey -> GenesisDoc GenesisValidator -> M Files (result string (option bytes));
  ExportGenesisFileWithTime : string -> string -> option bytes -> Time -> M Files (option string) }.

Section Testnet.
Context `{TestnetEnv}.

(** ** calculateIP, getIP *)

(** [for j := 0; j < i; j++ { ipv4[3]++ }]: the last byte wraps around. *)
Definition increment_last (ipv4 : bytes) : bytes :=
  take 3 ipv4 ++ map (fun b => byte_of_Z (byte_val b + 1)) (drop 3 ipv4).

Definition calculateIP (ip : string) (i : Z) : result string string :=
  match NetIP.To4 (NetIP.ParseIP ip) with
  | None => Err (String.append ip ": non ipv4 address")
  | Some ipv4 => Ok (NetIP.String4 (Nat.iter (Z.to_nat i) increment_last ipv4))
  end.

Definition getIP (i : Z) (startingIPAddr : string) : M Files (result string string) :=
  if bool_decide (startingIPAddr = EmptyString) then ExternalIP
  else gret (calculateIP startingIPAddr i).

(** ** writeFile *)

Definition writeFile (name dir : string) (contents : bytes) : M Files (option string) :=
  let writePath := Filepath.Join [dir] in
  let file := Filepath.Join [writePath; name] in
  let! err := EnsureDir writePath in
  match err with
  | Some err => gret (Some err)
  | None => cmn_WriteFile file contents
  end.

(** ** InitTestnet: the loop *)

Record testnet_state := {
  ts_config : tm_config;
  ts_monikers : list string;
  ts_nodeIDs : list string;
  ts_valPubKeys : list (option PubKey);
  ts_genAccounts : list GenesisAccount;
  ts_genFiles : list string }.

(** [_ = os.RemoveAll(outputDir); return err] *)
Definition remove_and_fail {A} (outputDir err : string) : M Files (result string A) :=
  do! RemoveAll outputDir in gret (Err err).

(** [sdk.NewCoin] *)
Definition NewCoin (denom : string) (amount : Z) : M Files Coin :=
  if coin_valid denom amount then gret {| coin_Denom := denom; coin_Amount := amount |}
  else gpanic PanicErr.

(** [json.Marshal(map[string]string{"secret": secret})] *)
Definition secret_json (secret : string) : bytes :=
  [x7b] ++ Json.quote "secret" ++ [x3a] ++ Json.quote secret ++ [x7d].

Definition node_name (nodeDirPrefix : string) (i : Z) : string :=
  String.append nodeDirPrefix (Strconv.FormatUint i).

(** The coins of a validator's account. *)
Definition account_coins (nodeDirName : string) : M Files Coins :=
  let accTokens := TokensFromConsensusPower 1000 in
  let accStakingTokens := TokensFromConsensusPower 500 in
  let! c1 := NewCoin (String.append nodeDirName "token") accTokens in
  let! c2 := NewCoin DefaultBondDenom accStakingTokens in
  gret [c1; c2].

Definition gentx_memo (nodeID ip : string) : string :=
  String.append nodeID (String.append "@" (String.append ip ":26656")).

Definition create_validator (i : Z) (outputDir chainID minGasPrices nodeDirPrefix nodeDaemonHome
    nodeCLIHome startingIPAddress : string) (st : testnet_state) : M Files (result string testnet_state) :=
  let nodeDirName := node_name nodeDirPrefix i in
  let nodeDir := Filepath.Join [outputDir; nodeDirName; nodeDaemonHome] in
  let clientDir := Filepath.Join [outputDir; nodeDirName; nodeCLIHome] in
  let gentxsDir := Filepath.Join [outputDir; "gentxs"%string] in
  let config := set_listen "tcp://0.0.0.0:26657" (SetRoot nodeDir (ts_config st)) in
  let! err := MkdirAll (Filepath.Join [nodeDir; "config"%string]) in
  match err with
  | Some err => remove_and_fail outputDir err
  | None =>
  let! err := MkdirAll clientDir in
  match err with
  | Some err => remove_and_fail outputDir err
  | None =>
  let monikers := ts_monikers st ++ [nodeDirName] in
  let config := set_moniker nodeDirName config in
  let! r := getIP i startingIPAddress in
  match r with
  | Err err => remove_and_fail outputDir err
  | Ok ip =>
  let! r := InitializeNodeValidatorFiles config in
  match r with
  | Err err => remove_and_fail outputDir err
  | Ok (nodeID, valPubKey) =>
  let nodeIDs := <[Z.to_nat i := nodeID]> (ts_nodeIDs st) in
  let valPubKeys := <[Z.to_nat i := Some valPubKey]> (ts_valPubKeys st) in
  let memo := gentx_memo nodeID ip in
  let genFiles := ts_genFiles st ++ [GenesisFile_of config] in
  try! kb := NewKeyringFromDir clientDir in
  let! r := GenerateSaveCoinKey kb nodeDirName in
  match r with
  | Err err => remove_and_fail outputDir err
  | Ok (addr, secret) =>
  check! writeFile "key_seed.json" clientDir (secret_json secret) in
  let! coins := account_coins nodeDirName in
  let genAccounts := ts_genAccounts st ++ [BaseAccount addr (Coins_Sort coins)] in
  let valTokens := TokensFromConsensusPower 100 in
  let! value := NewCoin DefaultBondDenom valTokens in
  let msg := {| cv_ValidatorAddress := addr; cv_PubKey := Some valPubKey; cv_Value := value;
                cv_Moniker := nodeDirName; cv_MinSelfDelegation := 1 |} in
  let! r := SignStdTx kb chainID memo nodeDirName msg in
  match r with
  | Err err => remove_and_fail outputDir err
  | Ok signedTx =>
  match MarshalJSON_tx signedTx with
  | Err err => remove_and_fail outputDir err
  | Ok txBytes =>
  let! err := writeFile (String.append nodeDirName ".json") gentxsDir txBytes in
  match err with
  | Some err => remove_and_fail outputDir err
  | None =>
  let wasmConfigFilePath := Filepath.Join [nodeDir; "config/wasmd.toml"%string] in
  do! WriteConfigFile wasmConfigFilePath minGasPrices in
  gret (Ok {| ts_config := config; ts_monikers := monikers; ts_nodeIDs := nodeIDs;
              ts_valPubKeys := valPubKeys; ts_genAccounts := genAccounts; ts_genFiles := genFiles |})
  end end end end end end end end.

(** ** initGenFiles *)

Definition index {A} (l : list A) (i : Z) : M Files A :=
  match l !! Z.to_nat i with Some x => gret x | None => gpanic PanicIndex end.

Definition must_ {A} (o : option A) : M Files A :=
  match o with Some a => gret a | None => gpanic PanicCodec end.

Definition initGenFiles (chainID : string) (genAccounts : list GenesisAccount) (genFiles : list string)
    (numValidators : Z) : M Files (option string) :=
  let appGenState := DefaultGenesis in
  let authDataBz := default [] (appGenState !! "auth"%string) in
  let! authGenState := must_ (UnmarshalJSON_auth authDataBz) in
  let! authBz := must_ (MarshalJSON_authState (authGenState.1, genAccounts)) in
  let appGenState := <["auth"%string := authBz]> appGenState in
  match MarshalJSONIndent_app appGenState with
  | Err err => gret (Some err)
  | Ok appGenStateJSON =>
      let genDoc := {| doc_ChainID := chainID; doc_AppState := appGenStateJSON; doc_Validators := [] |} in
      for_range (seqZ 0 numValidators) (fun i =>
        let! file := index genFiles i in
        SaveAs genDoc file)
  end.

(** ** collectGenFiles *)

(** One turn: the canonical state so far, and the configuration. *)
Definition collect_one (chainID : string) (monikers nodeIDs : list string) (valPubKeys : list (option PubKey))
    (outputDir nodeDirPrefix nodeDaemonHome : string) (genTime : Time) (i : Z)
    (st : tm_config * option bytes) : M Files (result string (tm_config * option bytes)) :=
  let (config, appState) := st in
  let nodeDirName := node_name nodeDirPrefix i in
  let nodeDir := Filepath.Join [outputDir; nodeDirName; nodeDaemonHome] in
  let gentxsDir := Filepath.Join [outputDir; "gentxs"%string] in
  let! moniker := index monikers i in
  let config := SetRoot nodeDir (set_moniker nodeDirName config) in
  let! nodeID := index nodeIDs i in
  let! valPubKey := index valPubKeys i in
  let initCfg := {| init_ChainID := chainID; init_GenTxsDir := gentxsDir; init_Name := moniker;
                    init_NodeID := nodeID; init_ValPubKey := valPubKey |} in
  try! genDoc := GenesisDocFromFile (GenesisFile_of config) in
  try! nodeAppState := GenAppStateFromConfig config initCfg genDoc in
  let appState := match appState with None => nodeAppState | Some _ => appState end in
  let genFile := GenesisFile_of config in
  check! ExportGenesisFileWithTime genFile chainID appState genTime in
  gret (Ok (config, appState)).

Fixpoint collect (indices : list Z)
    (body : Z -> tm_config * option bytes -> M Files (result string (tm_config * option bytes)))
    (st : tm_config * option bytes) : M Files (option string) :=
  match indices with
  | [] => gret None
  | i :: indices =>
      let! r := body i st in
      match r with
      | Err err => gret (Some err)
      | Ok st => collect indices body st
      end
  end.

Definition collectGenFiles (config : tm_config) (chainID : string) (monikers nodeIDs : list string)
    (valPubKeys : list (option PubKey)) (numValidators : Z)
    (outputDir nodeDirPrefix nodeDaemonHome : string) : M Files (option string) :=
  let! genTime := Now in
  collect (seqZ 0 numValidators)
    (collect_one chainID monikers nodeIDs valPubKeys outputDir nodeDirPrefix nodeDaemonHome genTime)
    (config, None).

(** ** InitTestnet *)

(** [make([]T, n)] *)
Definition make {A} (zero : A) (n : Z) : M Files (list A) :=
  if n <? 0 then gpanic PanicErr else gret (replicate (Z.to_nat n) zero).

Definition InitTestnet (config : tm_config) (outputDir chainID minGasPrices nodeDirPrefix nodeDaemonHome
    nodeCLIHome startingIPAddress : string) (numValidators : Z) : M Files (option string) :=
  let! chainID :=
    if bool_decide (chainID = EmptyString)
    then let! r := RandStr6 in gret (String.append "chain-" r)
    else gret chainID in
  let! monikers := make EmptyString numValidators in
  let! nodeIDs := make EmptyString numValidators in
  let! valPubKeys := make None numValidators in
  let! r := for_fold (seqZ 0 numValidators)
    (fun i => create_validator i outputDir chainID minGasPrices nodeDirPrefix nodeDaemonHome
                nodeCLIHome startingIPAddress)
    {| ts_config := config; ts_monikers := monikers; ts_nodeIDs := nodeIDs;
       ts_valPubKeys := valPubKeys; ts_genAccounts := []; ts_genFiles := [] |} in
  match r with
  | Err err => gret (Some err)
  | Ok st =>
      let! err := initGenFiles chainID (ts_genAccounts st) (ts_genFiles st) numValidators in
      match err with
      | Some err => gret (Some err)
      | None =>
          collectGenFiles (ts_config st) chainID (ts_monikers st) (ts_nodeIDs st) (ts_valPubKeys st)
            numValidators outputDir nodeDirPrefix nodeDaemonHome
      end
  end.

End Testnet.

(** ** Lemmas *)

Section TestnetLemmas.
Context `{TestnetEnv}.

(** Settings of the configuration for one validator. *)
Definition node_config (nodeDir name : string) : tm_config :=
  {| cfg_RootDir := nodeDir; cfg_ListenAddress := "tcp://0.0.0.0:26657"; cfg_Moniker := name |}.

Definition node_dir (outputDir nodeDirPrefix nodeDaemonHome : string) (i : Z) : string :=
  Filepath.Join [outputDir; node_name nodeDirPrefix i; nodeDaemonHome].

(** The coins of the account of validator [i]. *)
Definition genesis_coins (name : string) : Coins :=
  [{| coin_Denom := String.append name "token"; coin_Amount := TokensFromConsensusPower 1000 |};
   {| coin_Denom := DefaultBondDenom; coin_Amount := TokensFromConsensusPower 500 |}].

Lemma NewCoin_Ret d a f c f' :
  NewCoin d a f = Ret c f' -> c = {| coin_Denom := d; coin_Amount := a |} /\ f' = f.
Proof. unfold NewCoin. destruct (coin_valid d a); [|done]. by intros [= <- <-]. Qed.

Lemma account_coins_Ret name f cs f' : account_coins name f = Ret cs f' -> cs = genesis_coins name.
Proof.
  unfold account_coins. intros H0. minv H0. apply NewCoin_Ret in E as [-> ->].
  minv H0. apply NewCoin_Ret in E as [-> ->]. by injection H0 as <- _.
Qed.

Lemma account_coins_same name f cs f' : account_coins name f = Ret cs f' -> f' = f.
Proof.
  unfold account_coins. intros H0. minv H0. apply NewCoin_Ret in E as [_ ->].
  minv H0. apply NewCoin_Ret in E as [_ ->]. by injection H0 as _ <-.
Qed.

Lemma remove_and_fail_Ok {A} o e f (a : A) f' : remove_and_fail o e f <> Ret (Ok a) f'.
Proof. unfold remove_and_fail, gbind. by destruct (RemoveAll o f). Qed.

(** [next_ok H]: run the next call, which did not fail. *)
Ltac next_ok H0 :=
  minv H0;
  match type of H0 with
  | (match ?x with _ => _ end) _ = _ =>
      destruct x eqn:?; try (by destruct (remove_and_fail_Ok _ _ _ _ _ H0)); try discriminate H0
  end.

(** What the tools of the command made for one node. *)
Record node := { nd_ip : string; nd_id : string; nd_key : PubKey; nd_addr : bytes; nd_secret : string }.

(** The account of a node's operator, with its tokens and its stake. *)
Definition node_account (pre : string) (i : Z) (nd : node) : GenesisAccount :=
  BaseAccount (nd_addr nd) (Coins_Sort (genesis_coins (node_name pre i))).

Definition node_genesis_file (out pre dhome : string) (i : Z) : string :=
  GenesisFile_of (node_config (node_dir out pre dhome i) (node_name pre i)).

(** The node's genesis transaction: its operator stakes for its key. *)
Definition node_message (pre : string) (i : Z) (nd : node) : MsgCreateValidator PubKey :=
  {| cv_ValidatorAddress := nd_addr nd; cv_PubKey := Some (nd_key nd);
     cv_Value := {| coin_Denom := DefaultBondDenom; coin_Amount := TokensFromConsensusPower 100 |};
     cv_Moniker := node_name pre i; cv_MinSelfDelegation := 1 |}.

(** The steps that set up node [i], one after the other: directories, address, node
    id and validator key, operator key, seed words, genesis transaction, settings. *)
Definition node_setup (out chain mgp pre dhome chome ip : string) (i : Z) (nd : node) (f f' : Files) : Prop :=
  let name := node_name pre i in
  let dir := node_dir out pre dhome i in
  let clientDir := Filepath.Join [out; name; chome] in
  exists kb tx txBytes f1 f2 f3 f4 f5 f6 f7 f8 f9,
    MkdirAll (Filepath.Join [dir; "config"%string]) f = Ret None f1 /\
    MkdirAll clientDir f1 = Ret None f2 /\
    getIP i ip f2 = Ret (Ok (nd_ip nd)) f3 /\
    InitializeNodeValidatorFiles (node_config dir name) f3 = Ret (Ok (nd_id nd, nd_key nd)) f4 /\
    NewKeyringFromDir clientDir f4 = Ret (Ok kb) f5 /\
    GenerateSaveCoinKey kb name f5 = Ret (Ok (nd_addr nd, nd_secret nd)) f6 /\
    writeFile "key_seed.json" clientDir (secret_json (nd_secret nd)) f6 = Ret None f7 /\
    SignStdTx kb chain (gentx_memo (nd_id nd) (nd_ip nd)) name (node_message pre i nd) f7 = Ret (Ok tx) f8 /\
    MarshalJSON_tx tx = Ok txBytes /\
    writeFile (String.append name ".json") (Filepath.Join [out; "gentxs"%string]) txBytes f8 = Ret None f9 /\
    WriteConfigFile (Filepath.Join [dir; "config/wasmd.toml"%string]) mgp f9 = Ret tt f'.

(** The nodes set up in order. *)
Inductive nodes_setup (out chain mgp pre dhome chome ip : string) : list node -> Files -> Files -> Prop :=
  | setup_none f : nodes_setup out chain mgp pre dhome chome ip [] f f
  | setup_next nds nd f f1 f' :
      nodes_setup out chain mgp pre dhome chome ip nds f f1 ->
      node_setup out chain mgp pre dhome chome ip (Z.of_nat (length nds)) nd f1 f' ->
      nodes_setup out chain mgp pre dhome chome ip (nds ++ [nd]) f f'.

(** What a turn does, and what it adds. *)
Lemma create_validator_Ret i out chain mgp pre dhome chome ip st f st' f' :
  create_validator i out chain mgp pre dhome chome ip st f = Ret (Ok st') f' ->
  exists nd, node_setup out chain mgp pre dhome chome ip i nd f f' /\
    st' = {| ts_config := node_config (node_dir out pre dhome i) (node_name pre i);
             ts_monikers := ts_monikers st ++ [node_name pre i];
             ts_nodeIDs := <[Z.to_nat i := nd_id nd]> (ts_nodeIDs st);
             ts_valPubKeys := <[Z.to_nat i := Some (nd_key nd)]> (ts_valPubKeys st);
             ts_genAccounts := ts_genAccounts st ++ [node_account pre i nd];
             ts_genFiles := ts_genFiles st ++ [node_genesis_file out pre dhome i] |}.
Proof.
  unfold create_validator. intros H0.
  next_ok H0. next_ok H0. next_ok H0. next_ok H0. destruct a0 as [nodeID key].
  next_ok H0. next_ok H0. destruct a1 as [addr secret]. next_ok H0.
  apply gbind_Ret_inv in H0 as (cs & fa & Hcs & H0). pose proof (account_coins_same _ _ _ _ Hcs) as ->.
  apply account_coins_Ret in Hcs as ->.
  apply gbind_Ret_inv in H0 as (c & fb & [-> ->]%NewCoin_Ret & H0).
  next_ok H0. destruct (MarshalJSON_tx _) as [txBytes|] eqn:Htx; [|by destruct (remove_and_fail_Ok _ _ _ _ _ H0)].
  next_ok H0. minv H0. injection H0 as <- <-. subst.
  exists {| nd_ip := a; nd_id := nodeID; nd_key := key; nd_addr := addr; nd_secret := secret |}.
  split; [|done]. unfold node_setup, node_message, node_dir. simpl.
  match goal with E : WriteConfigFile _ _ _ = Ret ?r _ |- _ => destruct r end.
  do 12 eexists. split_and!; eassumption.
Qed.

(** The state of the loop after [k] turns of [n], from [f0]. *)
Definition after_turns (n : Z) (out chain mgp pre dhome chome ip : string) (f0 : Files) (k : Z)
    (st : testnet_state) (f : Files) : Prop :=
  exists nds, nodes_setup out chain mgp pre dhome chome ip nds f0 f /\ Z.of_nat (length nds) = k /\
    ts_monikers st = replicate (Z.to_nat n) EmptyString ++ map (node_name pre) (seqZ 0 k) /\
    ts_nodeIDs st = map nd_id nds ++ replicate (Z.to_nat (n - k)) EmptyString /\
    ts_valPubKeys st = map (fun nd => Some (nd_key nd)) nds ++ replicate (Z.to_nat (n - k)) None /\
    ts_genAccounts st = zip_with (node_account pre) (seqZ 0 k) nds /\
    ts_genFiles st = map (node_genesis_file out pre dhome) (seqZ 0 k).

Lemma seqZ_snoc k : 0 <= k -> seqZ 0 (k + 1) = seqZ 0 k ++ [k].
Proof. intros Hk. rewrite seqZ_app by lia. f_equal. Qed.

(** Filling in the next element of a slice of zero values. *)
Lemma fill_next {A} (l : list A) (x zero : A) k n :
  Z.of_nat (length l) = k -> 0 <= k < n ->
  <[Z.to_nat k := x]> (l ++ replicate (Z.to_nat (n - k)) zero) = (l ++ [x]) ++ replicate (Z.to_nat (n - (k + 1))) zero.
Proof.
  intros <- Hk. rewrite Nat2Z.id. replace (length l) with (length l + 0)%nat at 1 by lia.
  rewrite insert_app_r, <- app_assoc. f_equal.
  replace (Z.to_nat (n - Z.of_nat (length l))) with (S (Z.to_nat (n - (Z.of_nat (length l) + 1)))) by lia. done.
Qed.

Lemma turn_after n out chain mgp pre dhome chome ip f0 k st f st' f' :
  0 <= k < n -> after_turns n out chain mgp pre dhome chome ip f0 k st f ->
  create_validator k out chain mgp pre dhome chome ip st f = Ret (Ok st') f' ->
  after_turns n out chain mgp pre dhome chome ip f0 (k + 1) st' f'.
Proof.
  intros Hk (nds & Hset & Hl & A1 & A2 & A3 & A4 & A5) (nd & Hnd & ->)%create_validator_Ret.
  exists (nds ++ [nd]). rewrite seqZ_snoc, !map_app, length_app by lia. simpl.
  split; [eapply setup_next; [done|by rewrite Hl]|]. split; [lia|].
  split; [by rewrite A1, <- app_assoc|].
  split; [rewrite A2; apply fill_next; [by rewrite length_map|done]|].
  split; [rewrite A3; apply fill_next; [by rewrite length_map|done]|].
  split; [|by rewrite A5]. rewrite A4, zip_with_app; [done|]. rewrite length_seqZ. lia.
Qed.

End TestnetLemmas.

(** ** Properties *)

Section TestnetProperties.
Context `{TestnetEnv}.

Lemma iter_increment k a b c d :
  Nat.iter k increment_last [a; b; c; d] = [a; b; c; byte_of_Z (byte_val d + Z.of_nat k)].
Proof.
  induction k as [|k IH]; [simpl; by rewrite Z.add_0_r, byte_of_Z_val|].
  rewrite Nat.iter_succ, IH. unfold increment_last. simpl take. simpl drop. simpl map. simpl app.
  do 4 f_equal. rewrite byte_val_of_Z. apply byte_val_inj. rewrite !byte_val_of_Z.
  rewrite Z.add_mod_idemp_l by lia. f_equal. lia.
Qed.

Lemma To4_length ip p : NetIP.To4 ip = Some p -> length p = 4%nat.
Proof.
  unfold NetIP.To4. destruct ip as [ip|]; [|done]. case_bool_decide; [congruence|].
  case_bool_decide as Hl; [|done]. intros [= <-]. rewrite length_drop. lia.
Qed.

(** C29: the address of node [i]: of a dotted quad only the last number is counted
    up, and it wraps around: the node after 255 gets 0, and from any starting
    address node [i + 256] gets the address of node [i]. *)
Theorem calculateIP_spec a b c d s i :
  0 <= i ->
  calculateIP (NetIP.String4 [a; b; c; d]) i
    = Ok (NetIP.String4 [a; b; c; byte_of_Z (byte_val d + i)]) /\
  calculateIP s (i + 256) = calculateIP s i.
Proof.
  intros Hi. unfold calculateIP. split.
  - rewrite ParseIP_String4, iter_increment, Z2Nat.id by done. done.
  - destruct (NetIP.To4 _) as [p|] eqn:Ep; [|done].
    apply To4_length in Ep. destruct p as [|p0 [|p1 [|p2 [|p3 [|]]]]]; try discriminate Ep.
    rewrite !iter_increment, !Z2Nat.id by lia. do 6 f_equal. apply byte_val_inj.
    rewrite !byte_val_of_Z, Z.add_assoc. rewrite <- (Z.mod_add (byte_val p3 + i) 1 256) by lia. done.
Qed.

Lemma index_replicate {A} (x : A) n l i :
  0 <= i < n -> index (replicate (Z.to_nat n) x ++ l) i = index (replicate (Z.to_nat n) x) i.
Proof.
  intros Hi. unfold index. rewrite lookup_app_l by (rewrite length_replicate; lia). done.
Qed.

Lemma collect_ext l body body' st f :
  Forall (fun i => forall st f, body i st f = body' i st f) l -> collect l body st f = collect l body' st f.
Proof.
  intros Hl. revert st f. induction Hl as [|i l Hi _ IH]; intros st f; [done|]. simpl.
  unfold gbind. rewrite Hi. by destruct (body' i st f) as [[st'|e] f'| |].
Qed.

Lemma collect_monikers config chain n names ids keys out pre dhome f :
  collectGenFiles config chain (replicate (Z.to_nat n) EmptyString ++ names) ids keys n out pre dhome f
  = collectGenFiles config chain (replicate (Z.to_nat n) EmptyString) ids keys n out pre dhome f.
Proof.
  unfold collectGenFiles, gbind. destruct (Now f) as [t f1| |]; [|done..].
  apply collect_ext, list.Forall_forall. intros i Hi%elem_of_seqZ [cfg app] f2. unfold collect_one.
  by rewrite index_replicate by lia.
Qed.

(** C28: what a successful [testnet] did. The chain id is the given one, or a random
    one if none was given. The nodes are set up one after the other, each with its
    directories, its address, its id and validator key, the key and the seed words
    of its operator, its signed genesis transaction and its settings
    ([node_setup]). Then, in the order of the nodes, a genesis file under each
    node's directory is written, with the accounts of the operators; and the genesis
    transactions are collected with the ids and validator keys of the nodes, but
    with no monikers: the loop appends the names behind the empty ones it starts
    with. *)
Theorem InitTestnet_success config out chain mgp pre dhome chome ip n f f' :
  InitTestnet config out chain mgp pre dhome chome ip n f = Ret None f' ->
  exists chainID f0 nodes f1 f2 config',
    (if bool_decide (chain = EmptyString)
     then exists r, RandStr6 f = Ret r f0 /\ chainID = String.append "chain-" r
     else chainID = chain /\ f0 = f) /\
    Z.of_nat (length nodes) = n /\ nodes_setup out chainID mgp pre dhome chome ip nodes f0 f1 /\
    initGenFiles chainID (zip_with (node_account pre) (seqZ 0 n) nodes)
      (map (node_genesis_file out pre dhome) (seqZ 0 n)) n f1 = Ret None f2 /\
    collectGenFiles config' chainID (replicate (Z.to_nat n) EmptyString) (map nd_id nodes)
      (map (fun nd => Some (nd_key nd)) nodes) n out pre dhome f2 = Ret None f'.
Proof.
  intros H0. unfold InitTestnet in H0. apply gbind_Ret_inv in H0 as (chainID & f0 & Hchain & H0).
  unfold make in H0. destruct (Z.ltb_spec n 0); [done|].
  do 3 apply gbind_Ret_inv in H0 as (? & ? & [= <- <-] & H0).
  apply gbind_Ret_inv in H0 as ([st|e] & f1 & Hl & H0); [|done].
  apply gbind_Ret_inv in H0 as ([e|] & f2 & Hi & H0); [done|].
  assert (Ha : after_turns n out chainID mgp pre dhome chome ip f0 n st f1).
  { eapply (for_fold_seqZ (after_turns n out chainID mgp pre dhome chome ip f0)); [done| | |exact Hl].
    - exists []. simpl. rewrite app_nil_r, Z.sub_0_r. repeat split. constructor.
    - intros k st0 w0 st1 w1 Hk. by apply turn_after. }
  destruct Ha as (nds & Hset & Hlen & A1 & A2 & A3 & A4 & A5).
  exists chainID, f0, nds, f1, f2, (ts_config st). split.
  { case_bool_decide; [|by injection Hchain as <- <-]. apply gbind_Ret_inv in Hchain as (r & fr & Hr & [= <- <-]).
    by exists r. }
  do 2 (split; [done|]). rewrite A4, A5 in Hi. split; [done|].
  rewrite A1, A2, A3, Z.sub_diag, !app_nil_r, collect_monikers in H0. done.
Qed.

End TestnetProperties.

(** ** Witnesses *)

#[local] Instance demo_auth : AuthTypes := {|
  BaseVestingAccount := unit; NewBaseVestingAccount _ _ _ _ := Ok tt;
  Coins_Sort cs := cs; Coins_IsZero cs := bool_decide (cs = []) |}.

(** A disk that records the files written, in order. *)
Definition wrote (file : string) : M (list string) (option string) :=
  do! gmodify (fun log => log ++ [file]) in gret None.

#[local] Instance demo_testnet : TestnetEnv := {|
  Files := list string; PubKey := string; GenesisValidator := unit; Keyring := string; SignedTx := MsgCreateValidator string;
  AuthParams := unit; Time := unit;
  GenesisFile_of c := Filepath.Join [cfg_RootDir c; "config/genesis.json"%string];
  RandStr6 := gret "abcdef"%string;
  MkdirAll _ := gret None; RemoveAll _ := gmodify (fun _ => []);
  EnsureDir _ := gret None; cmn_WriteFile file _ := wrote file;
  ExternalIP := gret (Ok "10.0.0.9"%string);
  InitializeNodeValidatorFiles c := gret (Ok (cfg_Moniker c, cfg_Moniker c));
  NewKeyringFromDir dir := gret (Ok dir);
  GenerateSaveCoinKey _ name := gret (Ok (bytes_of_string name, "secret words"%string));
  TokensFromConsensusPower n := n * 1000000; coin_valid _ n := 0 <=? n; DefaultBondDenom := "stake"%string;
  SignStdTx _ _ _ _ msg := gret (Ok msg); MarshalJSON_tx tx := Ok (cv_ValidatorAddress tx);
  WriteConfigFile _ _ := gret tt;
  DefaultGenesis := {["auth"%string := []]};
  UnmarshalJSON_auth _ := Some (tt, []); MarshalJSON_authState _ := Some [];
  MarshalJSONIndent_app _ := Ok [];
  SaveAs _ file := wrote file; Now := gret tt;
  GenesisDocFromFile _ := gret (Ok {| doc_ChainID := "test"; doc_AppState := []; doc_Validators := [] |});
  GenAppStateFromConfig _ _ _ := gret (Ok (Some []));
  ExportGenesisFileWithTime file _ _ _ := wrote file |}.

Lemma calculateIP_spec_witness :
  calculateIP "192.168.0.250" 6 = Ok "192.168.0.0"%string /\
  calculateIP "::ffff:10.0.0.1" 258 = Ok "10.0.0.3"%string.
Proof.
  split.
  - exact (proj1 (calculateIP_spec xc0 xa8 x00 xfa EmptyString 6 ltac:(lia))).
  - etransitivity; [exact (proj2 (calculateIP_spec x00 x00 x00 x00 "::ffff:10.0.0.1" 2 ltac:(lia)))|].
    vm_compute. reflexivity.
Defined.

Definition demo_init : M (list string) (option string) :=
  InitTestnet (node_config "" "") "out" "test" "" "node" "wasmd" "wasmcli" "192.168.0.1" 2.

Lemma InitTestnet_success_witness :
  exists nodes f1, length nodes = 2%nat /\
    nodes_setup "out" "test" "" "node" "wasmd" "wasmcli" "192.168.0.1" nodes [] f1 /\
    final demo_init [] = ["out/node0/wasmcli/key_seed.json"; "out/gentxs/node0.json";
      "out/node1/wasmcli/key_seed.json"; "out/gentxs/node1.json";
      "out/node0/wasmd/config/genesis.json"; "out/node1/wasmd/config/genesis.json";
      "out/node0/wasmd/config/genesis.json"; "out/node1/wasmd/config/genesis.json"]%string.
Proof.
  destruct (@InitTestnet_success demo_testnet (node_config "" "") "out" "test" "" "node" "wasmd" "wasmcli" "192.168.0.1" 2
    (@nil string) (final demo_init []) ltac:(by_run))
    as (chainID & f0 & nodes & f1 & f2 & config' & Hc & Hl & Hset & _).
  rewrite bool_decide_eq_false_2 in Hc by discriminate. destruct Hc as [-> ->].
  exists nodes, f1. split; [lia|]. split; [exact Hset|]. vm_compute. reflexivity.
Defined.
