(* ===== verification/Export.v ===== *)
(** * Export of the application's state (app/export.go)

    [ExportAppStateAndValidators] and the preparation for a start at height zero,
    over the keepers of the SDK's staking, distribution, slashing and crisis
    modules, which are operations of [ExportEnv] on the application's state. *)

From S2P Require Import Prelude GoStd SdkTypes.

Record Validator {Rest : Type} := {
  OperatorAddress : bytes; Jailed : bool; UnbondingHeight : Z; v_rest : Rest }.
Arguments Validator : clear implicits.

Record StakingEntry {Rest : Type} := { CreationHeight : Z; e_rest : Rest }.
Arguments StakingEntry : clear implicits.

(** A redelegation, or an unbonding delegation: its entries and its addresses. *)
Record Entries {Id Rest : Type} := { en_Id : Id; en_Entries : list (StakingEntry Rest) }.
Arguments Entries : clear implicits.

Record SigningInfo {Rest : Type} := { StartHeight : Z; si_rest : Rest }.
Arguments SigningInfo : clear implicits.

Record Delegation := { DelegatorAddress : bytes; ValidatorAddress : bytes }.

Class ExportEnv := {
  AppState : Type;
  VRest : Type; EId : Type; ERest : Type; SRest : Type; GenState : Type; GenesisValidators : Type; FeePool : Type;
  DecCoins : Type;
  LastBlockHeight : AppState -> Z;
  ValAddressFromBech32 : string -> result string bytes;
  ValAddress_String : bytes -> string;
  AssertInvariants : Z -> M AppState unit;
  (** the validators in the order of the iteration *)
  IterateValidators : AppState -> list bytes;
  WithdrawValidatorCommission : Z -> bytes -> M AppState (option string);
  GetAllDelegations : AppState -> list Delegation;
  WithdrawDelegationRewards : Z -> bytes -> bytes -> M AppState (option string);
  DeleteAllValidatorSlashEvents : AppState -> AppState;
  DeleteAllValidatorHistoricalRewards : AppState -> AppState;
  GetValidatorOutstandingRewards : bytes -> AppState -> DecCoins;
  GetFeePool : AppState -> FeePool;
  add_to_community_pool : DecCoins -> FeePool -> FeePool;
  SetFeePool : FeePool -> AppState -> AppState;
  AfterValidatorCreated : Z -> bytes -> M AppState unit;
  BeforeDelegationCreated : Z -> bytes -> bytes -> M AppState unit;
  AfterDelegationModified : Z -> bytes -> bytes -> M AppState unit;
  IterateRedelegations : AppState -> list (Entries EId ERest);
  SetRedelegation : Entries EId ERest -> AppState -> AppState;
  IterateUnbondingDelegations : AppState -> list (Entries EId ERest);
  SetUnbondingDelegation : Entries EId ERest -> AppState -> AppState;
  (** the keys of the staking store under [ValidatorsKey], in reverse order *)
  validator_keys : AppState -> list bytes;
  GetValidator : bytes -> AppState -> option (Validator VRest);
  SetValidator : Validator VRest -> AppState -> AppState;
  ApplyAndReturnValidatorSetUpdates : M AppState unit;
  IterateValidatorSigningInfos : AppState -> list (bytes * SigningInfo SRest);
  SetValidatorSigningInfo : bytes -> SigningInfo SRest -> AppState -> AppState;
  mm_ExportGenesis : M AppState GenState;
  MarshalJSONIndent_gen : GenState -> result string bytes;
  WriteValidators : M AppState GenesisValidators }.

(** The validator records of the staking module. *)
Class ExportLaws `{ExportEnv} : Prop := {
  GetValidator_Set a v s :
    GetValidator a (SetValidator v s) = if decide (a = OperatorAddress v) then Some v else GetValidator a s;
  GetValidator_operator a v s : GetValidator a s = Some v -> OperatorAddress v = a }.

Section Exporting.
Context `{ExportEnv}.

(** [log.Fatal(err)] ends the process. *)
Definition log_Fatal {A} (err : string) : M AppState A := gpanic (PanicMsg err).

Definition or_fatal (m : M AppState (option string)) : M AppState unit :=
  let! err := m in
  match err with Some err => log_Fatal err | None => gret tt end.

(** One entry with its creation height reset, and all of them. *)
Definition reset_entries (e : Entries EId ERest) : Entries EId ERest :=
  {| en_Id := en_Id e;
     en_Entries := map (fun x => {| CreationHeight := 0; e_rest := e_rest x |}) (en_Entries e) |}.

Definition reset_redelegations : M AppState unit :=
  let! reds := gget IterateRedelegations in
  for_each reds (fun red => gmodify (SetRedelegation (reset_entries red))).

Definition reset_unbonding_delegations : M AppState unit :=
  let! ubds := gget IterateUnbondingDelegations in
  for_each ubds (fun ubd => gmodify (SetUnbondingDelegation (reset_entries ubd))).

Definition reset_start (info : SigningInfo SRest) : SigningInfo SRest :=
  {| StartHeight := 0; si_rest := si_rest info |}.

Definition reset_signing_infos : M AppState unit :=
  let! infos := gget IterateValidatorSigningInfos in
  for_each infos (fun info => gmodify (SetValidatorSigningInfo info.1 (reset_start info.2))).

Definition reset_validator (applyWhiteList : bool) (whiteListMap : gset string) (addr : bytes)
    (v : Validator VRest) : Validator VRest :=
  {| OperatorAddress := OperatorAddress v;
     Jailed := if applyWhiteList && negb (bool_decide (ValAddress_String addr ∈ whiteListMap))
               then true else Jailed v;
     UnbondingHeight := 0; v_rest := v_rest v |}.

(** The loop over the keys of the validators. *)
Definition reset_key (applyWhiteList : bool) (whiteListMap : gset string) (key : bytes) : M AppState unit :=
  let addr := drop 1 key in
  let! validator := gget (GetValidator addr) in
  match validator with
  | None => gpanic (PanicMsg "expected validator, not found")
  | Some validator =>
      gmodify (SetValidator (reset_validator applyWhiteList whiteListMap addr validator))
  end.

Definition reset_validators (applyWhiteList : bool) (whiteListMap : gset string) : M AppState unit :=
  let! keys := gget validator_keys in
  for_each keys (reset_key applyWhiteList whiteListMap).

Definition prepForZeroHeightGenesis (height : Z) (jailWhiteList : list string) : M AppState unit :=
  let applyWhiteList := 0 <? Z.of_nat (length jailWhiteList) in
  do! for_each jailWhiteList (fun addr =>
        match ValAddressFromBech32 addr with Err err => log_Fatal err | Ok _ => gret tt end) in
  let whiteListMap : gset string := list_to_set jailWhiteList in
  do! AssertInvariants height in
  let! vals := gget IterateValidators in
  do! for_each vals (fun val => or_fatal (WithdrawValidatorCommission height val)) in
  let! dels := gget GetAllDelegations in
  do! for_each dels (fun d =>
        or_fatal (WithdrawDelegationRewards height (DelegatorAddress d) (ValidatorAddress d))) in
  do! gmodify DeleteAllValidatorSlashEvents in
  do! gmodify DeleteAllValidatorHistoricalRewards in
  let! vals := gget IterateValidators in
  do! for_each vals (fun val =>
        let! scraps := gget (GetValidatorOutstandingRewards val) in
        let! feePool := gget GetFeePool in
        do! gmodify (SetFeePool (add_to_community_pool scraps feePool)) in
        AfterValidatorCreated 0 val) in
  do! for_each dels (fun d =>
        do! BeforeDelegationCreated 0 (DelegatorAddress d) (ValidatorAddress d) in
        AfterDelegationModified 0 (DelegatorAddress d) (ValidatorAddress d)) in
  do! reset_redelegations in
  do! reset_unbonding_delegations in
  do! reset_validators applyWhiteList whiteListMap in
  do! ApplyAndReturnValidatorSetUpdates in
  reset_signing_infos.

Definition ExportAppStateAndValidators (forZeroHeight : bool) (jailWhiteList : list string)
    : M AppState (result string (bytes * GenesisValidators)) :=
  let! height := gget LastBlockHeight in
  do! (if forZeroHeight then prepForZeroHeightGenesis height jailWhiteList else gret tt) in
  let! genState := mm_ExportGenesis in
  match MarshalJSONIndent_gen genState with
  | Err err => gret (Err err)
  | Ok appState =>
      let! validators := WriteValidators in
      gret (Ok (appState, validators))
  end.

(** ** The export command (cmd/wasmd/main.go)

    [NewWasmApp]: the application over the node's database, at the latest height or
    at none; [LoadVersion] goes to a height. *)

Section Command.
Context (NewWasmApp : bool -> M AppState unit) (LoadVersion : Z -> M AppState (option string)).

Definition LoadHeight (height : Z) : M AppState (option string) := LoadVersion height.

Definition exportAppStateAndTMValidators (height : Z) (forZeroHeight : bool) (jailWhiteList : list string)
    : M AppState (result string (bytes * GenesisValidators)) :=
  if negb (height =? -1) then
    do! NewWasmApp false in
    check! LoadHeight height in
    ExportAppStateAndValidators forZeroHeight jailWhiteList
  else
    do! NewWasmApp true in
    ExportAppStateAndValidators forZeroHeight jailWhiteList.

(** app/utils.go: the export into a file. *)
Definition ExportStateToJSON (WriteFile : string -> bytes -> M AppState (option string)) (path : string)
    : M AppState (option string) :=
  let! r := ExportAppStateAndValidators false [] in
  match r with
  | Err err => gret (Some err)
  | Ok (appState, _) => WriteFile path appState
  end.

End Command.

End Exporting.

(** ** Tables that are rewritten while they are iterated over

    A table of the state: its records with different keys, and that setting one
    replaces the record of its key. *)

Class Table {St X K : Type} (key : X -> K) (all : St -> list X) (set : X -> St -> St) : Prop := {
  all_set x s y : y ∈ all (set x s) <-> y = x \/ (y ∈ all s /\ key y <> key x);
  all_keys s : NoDup (map key (all s)) }.

(** A loop that sets every record to what [f] makes of it. *)
Lemma rewrite_all {St X K} (key : X -> K) all set `{!Table key all set} (f : X -> X) (s : St) :
  (forall x, key (f x) = key x) ->
  exists s', for_each (all s) (fun x => gmodify (set (f x))) s = Ret tt s' /\
    forall y, y ∈ all s' <-> exists x, x ∈ all s /\ y = f x.
Proof.
  intros Hf. assert (Hl : forall l s, NoDup (map key l) ->
    exists s', for_each l (fun x => gmodify (set (f x))) s = Ret tt s' /\
      forall y, y ∈ all s' <-> (exists x, x ∈ l /\ y = f x) \/ (y ∈ all s /\ key y ∉ map key l)).
  { induction l as [|x l IH]; intros s0 Hn.
    - exists s0. split; [done|]. intros y. split; [|by intros [(x & ?%not_elem_of_nil & _)|[]]].
      intros Hy. right. split; [done|apply not_elem_of_nil].
    - simpl in Hn. apply list.NoDup_cons in Hn as [Hx Hn]. destruct (IH (set (f x) s0) Hn) as (s' & Hs & Hy).
      exists s'. split; [exact Hs|]. intros y. rewrite Hy, all_set, Hf. simpl. setoid_rewrite elem_of_cons. split.
      + intros [(z & Hz & ->)|[[->|[Hin Hk]] Hl]]; [left; eauto|left; eauto|right]. split; [done|]. by intros [?|?].
      + intros [(z & [->|Hz] & ->)|[Hin Hk]]; [right|left; eauto|right; tauto].
        split; [by left|]. by rewrite Hf. }
  destruct (Hl (all s) s (all_keys s)) as (s' & Hs & Hy). exists s'. split; [done|].
  intros y. rewrite Hy. split; [|by left]. intros [H|[Hin Hk]]; [done|].
  destruct Hk. apply list_elem_of_fmap. by exists y.
Qed.

(** ** Properties *)

Section ExportProperties.
Context `{EE : ExportEnv} {EL : ExportLaws}.

Lemma reset_validator_twice applyWL wl a v :
  reset_validator applyWL wl a (reset_validator applyWL wl a v) = reset_validator applyWL wl a v.
Proof. unfold reset_validator. simpl. by destruct (applyWL && _). Qed.

(** The loop, over any list of keys. *)
Lemma reset_validators_each applyWL wl keys s :
  let loop := for_each keys (reset_key applyWL wl) in
  (Forall (fun key => is_Some (GetValidator (drop 1 key) s)) keys /\
   exists s', loop s = Ret tt s' /\ forall a, GetValidator a s' =
     if decide (a ∈ map (drop 1) keys) then reset_validator applyWL wl a <$> GetValidator a s
     else GetValidator a s) \/
  (Exists (fun key => GetValidator (drop 1 key) s = None) keys /\
   loop s = Panic (PanicMsg "expected validator, not found")).
Proof.
  revert s. induction keys as [|key keys IH]; intros s.
  { left. split; [constructor|]. exists s. split; [done|]. intros a.
    by rewrite decide_False by apply not_elem_of_nil. }
  cbv zeta in IH |- *. cbn [for_each]. unfold gbind, reset_key at 1 3, gget, gbind.
  destruct (GetValidator (drop 1 key) s) as [v|] eqn:Ev; [|right; split; [by constructor|done]].
  pose proof (GetValidator_operator _ _ _ Ev) as Hop. unfold gmodify.
  set (v' := reset_validator applyWL wl (drop 1 key) v).
  assert (Hget : forall a, GetValidator a (SetValidator v' s) =
    if decide (a = drop 1 key) then Some v' else GetValidator a s)
    by (intros a; rewrite GetValidator_Set; simpl; by rewrite Hop).
  assert (Hsome : forall a, is_Some (GetValidator a (SetValidator v' s)) <-> is_Some (GetValidator a s)).
  { intros a. rewrite Hget. case_decide as Ha; [subst a; rewrite Ev; split; by eexists|done]. }
  destruct (IH (SetValidator v' s)) as [(Hall & s' & Hs & Hv)|[Hex Hp]].
  - left. split; [constructor; [by rewrite Ev|]|].
    { eapply Forall_impl; [|exact Hall]. intros k Hk. by apply Hsome. }
    exists s'. split; [exact Hs|]. intros a. rewrite Hv, Hget. simpl.
    destruct (decide (a = drop 1 key)) as [->|Hne].
    + rewrite (decide_True (P:=drop 1 key ∈ _ :: _)) by apply list_elem_of_here. rewrite Ev. simpl.
      case_decide; [|done]. unfold v'. cbn [fmap option_fmap option_map]. by rewrite reset_validator_twice.
    + case_decide as Hin; [rewrite decide_True; [done|by apply list_elem_of_further]|].
      rewrite decide_False; [done|]. rewrite elem_of_cons. by intros [?|?].
  - right. split; [|exact Hp]. apply Exists_cons_tl. eapply Exists_impl; [|exact Hex]. intros k Hk.
    cbv beta in Hk |- *. rewrite Hget in Hk. by case_decide.
Qed.

Lemma for_each_fatal wl s :
  (exists addr err, addr ∈ wl /\ ValAddressFromBech32 addr = Err err) ->
  exists err, for_each wl (fun addr =>
    match ValAddressFromBech32 addr with Err err => log_Fatal err | Ok _ => gret tt end) s
  = Panic (PanicMsg err).
Proof.
  induction wl as [|a wl IH]; intros (addr & err & Hin & He); [by apply not_elem_of_nil in Hin|].
  simpl. unfold gbind. destruct (ValAddressFromBech32 a) as [b|e] eqn:Ea; [|by exists e].
  apply IH. exists addr, err. split; [|done]. apply elem_of_cons in Hin as [->|Hin]; [congruence|done].
Qed.

(** C30: resetting the validators for an export at height zero. The loop panics
    exactly if a key of the staking store has no validator; otherwise every
    validator the store lists has its unbonding height reset and is jailed, unless
    it is on the white list or there is no white list (then it is as it was), and
    no other validator is changed. *)
Theorem reset_validators_spec (wl : list string) s :
  let run := reset_validators (0 <? Z.of_nat (length wl)) (list_to_set wl) s in
  (run = Panic (PanicMsg "expected validator, not found") /\
   Exists (fun key => GetValidator (drop 1 key) s = None) (validator_keys s)) \/
  (exists s', run = Ret tt s' /\ forall a, GetValidator a s' =
     if decide (a ∈ map (drop 1) (validator_keys s))
     then (fun v => {| OperatorAddress := a;
                       Jailed := Jailed v ||
                         (negb (bool_decide (wl = [])) && negb (bool_decide (ValAddress_String a ∈ wl)));
                       UnbondingHeight := 0; v_rest := v_rest v |}) <$> GetValidator a s
     else GetValidator a s).
Proof.
  intros run. unfold run, reset_validators, gbind at 1, gget at 1.
  destruct (reset_validators_each (0 <? Z.of_nat (length wl)) (list_to_set wl) (validator_keys s) s)
    as [(_ & s' & Hs & Hv)|[Hex Hp]]; [right|left; by split].
  exists s'. split; [exact Hs|]. intros a. rewrite Hv. case_decide; [|done].
  destruct (GetValidator a s) as [v|] eqn:Ev; [|done]. simpl. f_equal.
  unfold reset_validator. rewrite (GetValidator_operator _ _ _ Ev). f_equal.
  replace (0 <? Z.of_nat (length wl)) with (negb (bool_decide (wl = []))) by by destruct wl.
  rewrite (bool_decide_ext (ValAddress_String a ∈ (list_to_set wl : gset string)) (ValAddress_String a ∈ wl))
    by apply elem_of_list_to_set.
  by destruct (negb (bool_decide (wl = []))), (bool_decide (ValAddress_String a ∈ wl)), (Jailed v).
Qed.

(** The tables of an export at height zero: every redelegation, unbonding delegation
    and signing information that was there is there afterwards with its heights
    reset and everything else as it was, and no other. *)
Theorem reset_heights_spec s
    `{!Table en_Id IterateRedelegations SetRedelegation,
      !Table en_Id IterateUnbondingDelegations SetUnbondingDelegation,
      !Table fst IterateValidatorSigningInfos (fun x => SetValidatorSigningInfo x.1 x.2)} :
  (exists s', reset_redelegations s = Ret tt s' /\
     forall y, y ∈ IterateRedelegations s' <-> exists x, x ∈ IterateRedelegations s /\ y = reset_entries x) /\
  (exists s', reset_unbonding_delegations s = Ret tt s' /\
     forall y, y ∈ IterateUnbondingDelegations s' <->
       exists x, x ∈ IterateUnbondingDelegations s /\ y = reset_entries x) /\
  (exists s', reset_signing_infos s = Ret tt s' /\
     forall y, y ∈ IterateValidatorSigningInfos s' <->
       exists x, x ∈ IterateValidatorSigningInfos s /\ y = (x.1, reset_start x.2)).
Proof.
  split; [|split].
  - by apply (rewrite_all en_Id IterateRedelegations SetRedelegation reset_entries).
  - by apply (rewrite_all en_Id IterateUnbondingDelegations SetUnbondingDelegation reset_entries).
  - by apply (rewrite_all fst IterateValidatorSigningInfos (fun x => SetValidatorSigningInfo x.1 x.2)
      (fun x => (x.1, reset_start x.2))).
Qed.

(** An address of the white list that does not parse ends the process before
    anything is changed. *)
Theorem bad_white_list height wl s :
  (exists addr err, addr ∈ wl /\ ValAddressFromBech32 addr = Err err) ->
  exists err, prepForZeroHeightGenesis height wl s = Panic (PanicMsg err).
Proof.
  intros Hbad. destruct (for_each_fatal wl s Hbad) as [err Herr]. exists err.
  unfold prepForZeroHeightGenesis. unfold gbind at 1. by rewrite Herr.
Qed.

(** An export without preparation reads the state of the height that was asked for:
    it is the module manager's export there, with the validators. *)
Theorem export_of_height NewWasmApp LoadVersion height s s0 s1 s2 gen bz vals s3 :
  height <> -1 -> NewWasmApp false s = Ret tt s0 -> LoadVersion height s0 = Ret None s1 ->
  mm_ExportGenesis s1 = Ret gen s2 -> MarshalJSONIndent_gen gen = Ok bz -> WriteValidators s2 = Ret vals s3 ->
  exportAppStateAndTMValidators NewWasmApp LoadVersion height false [] s = Ret (Ok (bz, vals)) s3.
Proof.
  intros Hh%Z.eqb_neq H1 H2 H3 H4 H5. unfold exportAppStateAndTMValidators, ExportAppStateAndValidators, LoadHeight.
  rewrite Hh. simpl. rewrite (gbind_Ret _ _ _ _ _ H1), (gbind_Ret _ _ _ _ _ H2).
  unfold gbind at 1 2, gget, gret. rewrite (gbind_Ret _ _ _ _ _ H3), H4. by rewrite (gbind_Ret _ _ _ _ _ H5).
Qed.

End ExportProperties.

(** ** Witness *)

(** An application that has validators and nothing else. *)
#[local] Instance demo_export : ExportEnv := {|
  AppState := gmap bytes (Validator unit);
  VRest := unit; EId := unit; ERest := unit; SRest := unit; GenState := unit; GenesisValidators := unit;
  FeePool := unit; DecCoins := unit;
  LastBlockHeight _ := 77;
  ValAddressFromBech32 s := Ok (bytes_of_string s); ValAddress_String := string_of_bytes;
  AssertInvariants _ := gret tt; IterateValidators _ := [];
  WithdrawValidatorCommission _ _ := gret None; GetAllDelegations _ := [];
  WithdrawDelegationRewards _ _ _ := gret None;
  DeleteAllValidatorSlashEvents s := s; DeleteAllValidatorHistoricalRewards s := s;
  GetValidatorOutstandingRewards _ _ := tt; GetFeePool _ := tt; add_to_community_pool _ _ := tt;
  SetFeePool _ s := s; AfterValidatorCreated _ _ := gret tt;
  BeforeDelegationCreated _ _ _ := gret tt; AfterDelegationModified _ _ _ := gret tt;
  IterateRedelegations _ := []; SetRedelegation _ s := s;
  IterateUnbondingDelegations _ := []; SetUnbondingDelegation _ s := s;
  validator_keys _ := [bytes_of_string "!bob"; bytes_of_string "!ann"];
  GetValidator a s := match s !! a with
                      | Some v => if decide (OperatorAddress v = a) then Some v else None
                      | None => None
                      end;
  SetValidator v s := <[OperatorAddress v := v]> s;
  ApplyAndReturnValidatorSetUpdates := gret tt; IterateValidatorSigningInfos _ := [];
  SetValidatorSigningInfo _ _ s := s; mm_ExportGenesis := gret tt;
  MarshalJSONIndent_gen _ := Ok []; WriteValidators := gret tt |}.

#[local] Instance demo_export_laws : ExportLaws.
Proof.
  split; simpl.
  - intros a v s. destruct (decide (a = OperatorAddress v)) as [->|Hne].
    + rewrite lookup_insert_eq. by rewrite decide_True.
    + by rewrite lookup_insert_ne.
  - intros a v s. destruct (s !! a) as [v'|]; [|done]. case_decide; [|done]. by intros [= <-].
Qed.

Definition demo_validator (name : string) : Validator unit :=
  {| OperatorAddress := bytes_of_string name; Jailed := false; UnbondingHeight := 9; v_rest := tt |}.

Definition demo_validators : gmap bytes (Validator unit) :=
  {[ bytes_of_string "ann" := demo_validator "ann"; bytes_of_string "bob" := demo_validator "bob" ]}.

(** Ann is on the white list, Bob is not. *)
Lemma reset_validators_spec_witness :
  exists s, reset_validators true (list_to_set ["ann"%string]) demo_validators = Ret tt s /\
    GetValidator (bytes_of_string "ann") s =
      Some {| OperatorAddress := bytes_of_string "ann"; Jailed := false; UnbondingHeight := 0; v_rest := tt |} /\
    GetValidator (bytes_of_string "bob") s =
      Some {| OperatorAddress := bytes_of_string "bob"; Jailed := true; UnbondingHeight := 0; v_rest := tt |}.
Proof.
  destruct (@reset_validators_spec demo_export demo_export_laws ["ann"%string] demo_validators)
    as [[_ Hex]|(s & Hs & Hv)].
  - exfalso. change (validator_keys _) with [bytes_of_string "!bob"; bytes_of_string "!ann"] in Hex.
    inversion_clear Hex as [? ? Hk|? ? Hk]; [vm_compute in Hk; discriminate Hk|].
    inversion_clear Hk as [? ? Hk'|? ? Hk']; [vm_compute in Hk'; discriminate Hk'|inversion Hk'].
  - exists s. split; [exact Hs|]. rewrite !Hv. vm_compute. split; reflexivity.
Defined.

(** *** A state of three tables *)

Record demo_tables := {
  dt_reds : gmap Z (list (StakingEntry unit)); dt_ubds : gmap Z (list (StakingEntry unit));
  dt_infos : gmap bytes (SigningInfo unit) }.

Definition all_entries (m : gmap Z (list (StakingEntry unit))) : list (Entries Z unit) :=
  map (fun kv => {| en_Id := kv.1; en_Entries := kv.2 |}) (map_to_list m).

#[local] Instance demo_table_export : ExportEnv := {|
  AppState := demo_tables; VRest := unit; EId := Z; ERest := unit; SRest := unit; GenState := unit;
  GenesisValidators := unit; FeePool := unit; DecCoins := unit; LastBlockHeight _ := 77;
  ValAddressFromBech32 s := Ok (bytes_of_string s); ValAddress_String := string_of_bytes;
  AssertInvariants _ := gret tt; IterateValidators _ := [];
  WithdrawValidatorCommission _ _ := gret None; GetAllDelegations _ := [];
  WithdrawDelegationRewards _ _ _ := gret None;
  DeleteAllValidatorSlashEvents s := s; DeleteAllValidatorHistoricalRewards s := s;
  GetValidatorOutstandingRewards _ _ := tt; GetFeePool _ := tt; add_to_community_pool _ _ := tt;
  SetFeePool _ s := s; AfterValidatorCreated _ _ := gret tt;
  BeforeDelegationCreated _ _ _ := gret tt; AfterDelegationModified _ _ _ := gret tt;
  IterateRedelegations s := all_entries (dt_reds s);
  SetRedelegation e s :=
    {| dt_reds := <[en_Id e := en_Entries e]> (dt_reds s); dt_ubds := dt_ubds s; dt_infos := dt_infos s |};
  IterateUnbondingDelegations s := all_entries (dt_ubds s);
  SetUnbondingDelegation e s :=
    {| dt_reds := dt_reds s; dt_ubds := <[en_Id e := en_Entries e]> (dt_ubds s); dt_infos := dt_infos s |};
  validator_keys _ := []; GetValidator _ _ := None; SetValidator _ s := s;
  ApplyAndReturnValidatorSetUpdates := gret tt;
  IterateValidatorSigningInfos s := map_to_list (dt_infos s);
  SetValidatorSigningInfo a i s :=
    {| dt_reds := dt_reds s; dt_ubds := dt_ubds s; dt_infos := <[a := i]> (dt_infos s) |};
  mm_ExportGenesis := gret tt; MarshalJSONIndent_gen _ := Ok []; WriteValidators := gret tt |}.

Lemma elem_of_insert_list `{Countable K} {V} (m : gmap K V) k v k' v' :
  (k', v') ∈ map_to_list (<[k := v]> m) <-> (k', v') = (k, v) \/ ((k', v') ∈ map_to_list m /\ k' <> k).
Proof.
  rewrite !elem_of_map_to_list. destruct (decide (k' = k)) as [->|Hne].
  - rewrite lookup_insert_eq. split; [by intros [= ->]; left|by intros [[= ->]|[_ []]]].
  - rewrite lookup_insert_ne by done. split; [by right|by intros [[= -> ->]|[? _]]].
Qed.

Lemma elem_of_all_entries m (y : Entries Z unit) :
  y ∈ all_entries m <-> (en_Id y, en_Entries y) ∈ map_to_list m.
Proof.
  unfold all_entries. split.
  - by intros ([k v] & -> & Hin)%list_elem_of_fmap.
  - intros Hin. apply list_elem_of_fmap. exists (en_Id y, en_Entries y). split; [by destruct y|done].
Qed.

Lemma entries_insert m (x y : Entries Z unit) :
  y ∈ all_entries (<[en_Id x := en_Entries x]> m) <-> y = x \/ (y ∈ all_entries m /\ en_Id y <> en_Id x).
Proof.
  rewrite !elem_of_all_entries, elem_of_insert_list. destruct x as [i e], y as [j e']. simpl.
  split; (intros [Heq|?]; [left; by injection Heq as -> ->|by right]).
Qed.

Lemma entries_keys m : NoDup (map en_Id (all_entries m)).
Proof.
  unfold all_entries. rewrite map_map. exact (NoDup_fst_map_to_list m).
Qed.

#[local] Instance demo_reds : Table en_Id (@IterateRedelegations demo_table_export) SetRedelegation.
Proof. split; intros; [apply entries_insert|apply entries_keys]. Qed.

#[local] Instance demo_ubds :
  Table en_Id (@IterateUnbondingDelegations demo_table_export) SetUnbondingDelegation.
Proof. split; intros; [apply entries_insert|apply entries_keys]. Qed.

#[local] Instance demo_infos :
  Table fst (@IterateValidatorSigningInfos demo_table_export) (fun x => SetValidatorSigningInfo x.1 x.2).
Proof. split; [|intros s; exact (NoDup_fst_map_to_list (dt_infos s))]. intros [a i] s [b j]. apply elem_of_insert_list. Qed.

Definition demo_redelegation (height : Z) : Entries Z unit :=
  {| en_Id := 1; en_Entries := [{| CreationHeight := height; e_rest := tt |}] |}.

Definition demo_table_state : @AppState demo_table_export :=
  {| dt_reds := {[ 1 := en_Entries (demo_redelegation 9) ]}; dt_ubds := ∅; dt_infos := ∅ |}.

Lemma reset_heights_spec_witness :
  exists s', @reset_redelegations demo_table_export demo_table_state = Ret tt s' /\
    demo_redelegation 0 ∈ IterateRedelegations s'.
Proof.
  destruct (reset_heights_spec demo_table_state) as ((s' & Hs & Hy) & _ & _).
  exists s'. split; [exact Hs|]. apply Hy. exists (demo_redelegation 9).
  split; [by apply list_elem_of_here|reflexivity].
Defined.
