(* ===== verification/Replay.v ===== *)
(** * The replay command (cmd/wasmd/replay.go)

    [replayTxs] over the databases, Tendermint's state and block execution, and the
    application, which are operations of [ReplayEnv] on the node's data. Progress
    messages and the clock are left out. *)

From S2P Require Import Prelude GoStd App.

(** ** What the command calls *)

Record TMState {Valset Rest : Type} := {
  LastBlockHeight : Z; Validators : Valset; NextValidators : Valset; st_rest : Rest }.
Arguments TMState : clear implicits.

Record GenesisDoc {Time Params : Type} := {
  GenesisTime : Time; ChainID : string; gd_ConsensusParams : Params; AppState : bytes }.
Arguments GenesisDoc : clear implicits.

Record RequestInitChain {Time Params Updates : Type} := {
  req_Time : Time; req_ChainId : string; req_ConsensusParams : Params;
  req_Validators : Updates; req_AppStateBytes : bytes }.
Arguments RequestInitChain : clear implicits.

Class ReplayEnv := {
  Node : Type;
  Valset : Type; SRest : Type; Time : Type; Params : Type; ABCIParams : Type; Updates : Type;
  TMValidators : Type; BlockID : Type; BlockMeta : Type; Block : Type;
  NewLevelDB : string -> string -> M Node (option string);
  OpenFile : string -> M Node (option string);
  NewWasmApp : M Node unit;
  GenesisDocFromFile : string -> M Node (result string (GenesisDoc Time Params));
  MakeGenesisState : GenesisDoc Time Params -> result string (TMState Valset SRest);
  proxyApp_Start : M Node (option string);
  proxyApp_Stop : M Node (option string);
  LoadState : Node -> TMState Valset SRest;
  TM2PB_ValidatorUpdates : Valset -> Updates;
  TM2PB_ConsensusParams : Params -> ABCIParams;
  InitChainSync : RequestInitChain Time ABCIParams Updates -> M Node (result string Updates);
  PB2TM_ValidatorUpdates : Updates -> result string TMValidators;
  NewValidatorSet : TMValidators -> Valset;
  LoadBlockMeta : Z -> Node -> option BlockMeta;
  LoadBlock : Z -> Node -> option Block;
  meta_BlockID : BlockMeta -> BlockID;
  ApplyBlock : TMState Valset SRest -> BlockID -> Block -> M Node (result string (TMState Valset SRest)) }.

(** Executing a block leaves the block store alone, and ends; heights are those of
    a chain: blocks are numbered from 1 and the genesis state comes before them. *)
Class ReplayLaws `{ReplayEnv} : Prop := {
  LoadBlockMeta_height h m n : LoadBlockMeta h n = Some m -> 0 < h < 2 ^ 63 - 1;
  LoadState_height n : 0 <= LastBlockHeight (LoadState n) < 2 ^ 63 - 1;
  MakeGenesisState_height d s : MakeGenesisState d = Ok s -> LastBlockHeight s = 0;
  ApplyBlock_store st id b n r n' :
    ApplyBlock st id b n = Ret r n' ->
    forall h, LoadBlockMeta h n' = LoadBlockMeta h n /\ LoadBlock h n' = LoadBlock h n;
  ApplyBlock_total st id b : total (ApplyBlock st id b) }.

(** The conversion [int64(z)], and the arithmetic of [int]. *)
Definition int64 (z : Z) : Z := (z + 2 ^ 63) mod 2 ^ 64 - 2 ^ 63.

Section Replaying.
Context `{ReplayEnv}.

(** [defer func() { err = m }()]: [m] runs when the body has ended; it does not
    change the result. After a panic of the body the process ends. *)
Definition deferred {A B} (m : M Node B) (body : M Node A) : M Node A := fun n =>
  match body n with
  | Ret a n' => match m n' with Ret _ n'' => Ret a n'' | Panic p => Panic p | NoFuel => NoFuel end
  | Panic p => Panic p
  | NoFuel => NoFuel
  end.

(** ["%d"] of an integer *)
Definition format_int (i : Z) : string :=
  if i <? 0 then String.append "-" (Strconv.FormatUint (- i)) else Strconv.FormatUint i.

Definition missing_block (i : Z) : string := String.append "couldn't find block " (format_int i).

(** The loop. [fuel]: the turns allowed. *)
Fixpoint replay_blocks (fuel : nat) (state : TMState Valset SRest) (i : Z) : M Node (option string) :=
  match fuel with
  | O => fun _ => NoFuel
  | S fuel =>
      let! blockmeta := gget (LoadBlockMeta i) in
      match blockmeta with
      | None => gret None
      | Some blockmeta =>
          let! block := gget (LoadBlock i) in
          match block with
          | None => gret (Some (missing_block i))
          | Some block =>
              let! r := ApplyBlock state (meta_BlockID blockmeta) block in
              match r with
              | Err err => gret (Some err)
              | Ok state => replay_blocks fuel state (int64 (i + 1))
              end
          end
      end
  end.

(** The state to go on from: the one that was saved, or else the genesis state
    with the validators the application answers. *)
Definition initial_state (genDoc : GenesisDoc Time Params) (genState : TMState Valset SRest)
    : M Node (result string (TMState Valset SRest)) :=
  let! state := gget LoadState in
  if negb (LastBlockHeight state =? 0) then gret (Ok state)
  else
    let req := {| req_Time := GenesisTime genDoc; req_ChainId := ChainID genDoc;
                  req_ConsensusParams := TM2PB_ConsensusParams (gd_ConsensusParams genDoc);
                  req_Validators := TM2PB_ValidatorUpdates (Validators genState);
                  req_AppStateBytes := AppState genDoc |} in
    let! res := InitChainSync req in
    match res with
    | Err err => gret (Err err)
    | Ok updates =>
        match PB2TM_ValidatorUpdates updates with
        | Err err => gret (Err err)
        | Ok newValidatorz =>
            let newValidators := NewValidatorSet newValidatorz in
            gret (Ok {| LastBlockHeight := LastBlockHeight genState; Validators := newValidators;
                        NextValidators := newValidators; st_rest := st_rest genState |})
        end
    end.

(** A call whose error, if any, is returned. *)
Definition or_return (m : M Node (option string)) (k : M Node (option string)) : M Node (option string) :=
  let! err := m in
  match err with Some err => gret (Some err) | None => k end.

Definition replayTxs (fuel : nat) (rootDir : string) : M Node (option string) :=
  let configDir := Filepath.Join [rootDir; "config"%string] in
  let dataDir := Filepath.Join [rootDir; "data"%string] in
  or_return (NewLevelDB "application" dataDir) (
  or_return (NewLevelDB "state" dataDir) (
  or_return (NewLevelDB "blockstore" dataDir) (
  or_return (OpenFile (Filepath.Join [dataDir; "trace.log"%string])) (
  do! NewWasmApp in
  let! genDoc := GenesisDocFromFile (Filepath.Join [configDir; "genesis.json"%string]) in
  match genDoc with
  | Err err => gret (Some err)
  | Ok genDoc =>
      match MakeGenesisState genDoc with
      | Err err => gret (Some err)
      | Ok genState =>
          or_return proxyApp_Start (
          deferred proxyApp_Stop (
          let! state := initial_state genDoc genState in
          match state with
          | Err err => gret (Some err)
          | Ok state => replay_blocks fuel state (int64 (LastBlockHeight state + 1))
          end))
      end
  end)))).

(** ** What it means *)

(** Executing given blocks, one after the other. *)
Fixpoint apply_all (bs : list (BlockMeta * Block)) (state : TMState Valset SRest)
    : M Node (result string (TMState Valset SRest)) :=
  match bs with
  | [] => gret (Ok state)
  | (m, b) :: bs =>
      let! r := ApplyBlock state (meta_BlockID m) b in
      match r with
      | Err err => gret (Err err)
      | Ok state => apply_all bs state
      end
  end.

(** The blocks of the store at the heights from [i] on. *)
Fixpoint stored (n : Node) (i : Z) (bs : list (BlockMeta * Block)) : Prop :=
  match bs with
  | [] => True
  | (m, b) :: bs => LoadBlockMeta i n = Some m /\ LoadBlock i n = Some b /\ stored n (i + 1) bs
  end.

(** How the loop ends behind the last of them, at height [i]. *)
Definition loop_end (n : Node) (i : Z) : option string :=
  match LoadBlockMeta i n with None => None | Some _ => Some (missing_block i) end.

End Replaying.

(** ** Properties *)

Section ReplayProperties.
Context `{RE : ReplayEnv} {RL : ReplayLaws}.

Lemma int64_small z : - 2 ^ 63 <= z < 2 ^ 63 -> int64 z = z.
Proof. intros Hz. unfold int64. rewrite Z.mod_small by lia. lia. Qed.

Lemma apply_all_total bs state : total (apply_all bs state).
Proof.
  revert state. induction bs as [|[m b] bs IH]; intros state; simpl; [by intros n|].
  apply total_gbind; [apply ApplyBlock_total|]. intros [s|err]; [apply IH|by intros n].
Qed.

Lemma stored_same n n' i bs :
  (forall h, LoadBlockMeta h n' = LoadBlockMeta h n /\ LoadBlock h n' = LoadBlock h n) ->
  stored n i bs -> stored n' i bs.
Proof.
  intros Hs. revert i. induction bs as [|[m b] bs IH]; intros i; simpl; [done|].
  destruct (Hs i) as [-> ->]. intros (H1 & H2 & H3). auto.
Qed.

(** The loop executes the stored blocks in order, whatever the fuel beyond one turn
    per block. *)
Lemma replay_blocks_stored bs : forall fuel state i n,
  let e := i + Z.of_nat (length bs) in
  0 <= i -> stored n i bs -> (LoadBlockMeta e n = None \/ LoadBlock e n = None) -> (length bs < fuel)%nat ->
  replay_blocks fuel state i n =
    gbind (apply_all bs state) (fun r => match r with
                                         | Err err => gret (Some err)
                                         | Ok _ => gret (loop_end n e)
                                         end) n.
Proof.
  induction bs as [|[m b] bs IH]; intros [|fuel] state i n e Hi Hs Hend Hf; simpl in Hf; try lia.
  - subst e. simpl in *. rewrite Z.add_0_r in *. unfold gbind, gget, gret, loop_end.
    destruct (LoadBlockMeta i n); [|done]. destruct Hend as [?|Hb]; [done|]. by rewrite Hb.
  - destruct Hs as (Hm & Hb & Hs). pose proof (LoadBlockMeta_height _ _ _ Hm) as Hh.
    cbn [replay_blocks apply_all]. unfold gbind at 1 2 4, gget. rewrite Hm, Hb. unfold gbind.
    destruct (ApplyBlock state (meta_BlockID m) b n) as [[st|err] n'|p|] eqn:Ea; try done.
    pose proof (ApplyBlock_store _ _ _ _ _ _ Ea) as Hst. rewrite int64_small by lia.
    assert (He : e = i + 1 + Z.of_nat (length bs)) by (unfold e; simpl; lia).
    rewrite IH; [|lia|by eapply stored_same|rewrite <- He; by destruct (Hst e) as [-> ->]|lia].
    rewrite <- He. unfold gbind, loop_end. by destruct (Hst e) as [-> _].
Qed.

(** The blocks of the store from a height on, up to a gap. *)
Lemma stored_exists n top : (forall h, top < h -> LoadBlockMeta h n = None) ->
  forall k i, k = Z.to_nat (top + 1 - i) ->
  exists bs, stored n i bs /\ (length bs <= k)%nat /\
    let e := i + Z.of_nat (length bs) in LoadBlockMeta e n = None \/ LoadBlock e n = None.
Proof.
  intros Htop. induction k as [|k IH]; intros i Hk.
  - exists []. simpl. split; [done|]. split; [done|]. left. apply Htop. lia.
  - destruct (LoadBlockMeta i n) as [m|] eqn:Em; [destruct (LoadBlock i n) as [b|] eqn:Eb|].
    2, 3: exists []; simpl; rewrite Z.add_0_r; split; [done|]; split; [lia|]; auto.
    destruct (IH (i + 1)) as (bs & Hs & Hl & He); [lia|]. exists ((m, b) :: bs). simpl.
    split; [done|]. split; [lia|]. by replace (i + Z.of_nat (S (length bs))) with (i + 1 + Z.of_nat (length bs)) by lia.
Qed.

(** C31: the loop over the blocks ends: on a block store with nothing above [top], it
    takes at most one turn more than there are heights left, executes exactly the
    blocks up to the first height that has none, in order, and then reports whether
    that height has a header without a block; the first block that fails ends it
    with the error. *)
Theorem replay_ends n state top fuel :
  let i := LastBlockHeight state + 1 in
  (forall h, top < h -> LoadBlockMeta h n = None) ->
  0 <= LastBlockHeight state < 2 ^ 63 - 1 -> (Z.to_nat (top - LastBlockHeight state) < fuel)%nat ->
  exists bs,
    stored n i bs /\
    (let e := i + Z.of_nat (length bs) in LoadBlockMeta e n = None \/ LoadBlock e n = None) /\
    replay_blocks fuel state (int64 i) n <> NoFuel /\
    forall r n', apply_all bs state n = Ret r n' ->
      replay_blocks fuel state (int64 i) n =
        Ret (match r with Ok _ => loop_end n (i + Z.of_nat (length bs)) | Err err => Some err end) n'.
Proof.
  intros i Htop Hh Hf. destruct (stored_exists n top Htop _ i eq_refl) as (bs & Hs & Hl & He).
  exists bs. split; [done|]. split; [done|]. rewrite int64_small by lia.
  rewrite (replay_blocks_stored bs fuel state i n) by (first [done|lia]). split.
  - apply total_gbind; [apply apply_all_total|]. by intros [s|err] n'.
  - intros r n' Hr. rewrite (gbind_Ret _ _ _ _ _ Hr). by destruct r.
Qed.

Lemma or_return_None m k n n' : or_return m k n = Ret None n' -> exists n1, m n = Ret None n1 /\ k n1 = Ret None n'.
Proof. unfold or_return. intros H. apply gbind_Ret_inv in H as ([err|] & n1 & Hm & H); [done|eauto]. Qed.

Lemma initial_state_height genDoc genState n st n' :
  LastBlockHeight genState = 0 -> initial_state genDoc genState n = Ret (Ok st) n' ->
  LastBlockHeight st = LastBlockHeight (LoadState n).
Proof.
  intros Hg. unfold initial_state, gbind at 1, gget. destruct (_ =? _) eqn:Eh; [|by intros [= <- _]].
  apply Z.eqb_eq in Eh. rewrite Eh. simpl. intros H. apply gbind_Ret_inv in H as ([u|err] & n1 & _ & H); [|done].
  destruct (PB2TM_ValidatorUpdates u); [|done]. by injection H as <- _.
Qed.

(** A loop that ended without an error has executed all that is stored. *)
Lemma replay_blocks_None fuel : forall state i n n',
  0 <= i -> replay_blocks fuel state i n = Ret None n' ->
  exists bs s, stored n i bs /\ LoadBlockMeta (i + Z.of_nat (length bs)) n = None /\
    apply_all bs state n = Ret (Ok s) n'.
Proof.
  induction fuel as [|fuel IH]; intros state i n n' Hi; [done|]. cbn [replay_blocks]. unfold gbind at 1 2, gget.
  destruct (LoadBlockMeta i n) as [m|] eqn:Em.
  2: { intros [= <-]. exists [], state. simpl. by rewrite Z.add_0_r. }
  destruct (LoadBlock i n) as [b|] eqn:Eb; [|done]. intros H.
  apply gbind_Ret_inv in H as ([st|err] & n1 & Ha & H); [|done].
  pose proof (LoadBlockMeta_height _ _ _ Em). rewrite int64_small in H by lia.
  apply IH in H as (bs & s & Hs & Hend & Hall); [|lia]. pose proof (ApplyBlock_store _ _ _ _ _ _ Ha) as Hst.
  exists ((m, b) :: bs), s. simpl. split; [split; [done|split; [done|]]|split].
  - eapply stored_same; [|exact Hs]. intros h. by destruct (Hst h).
  - rewrite <- Hend. destruct (Hst (i + 1 + Z.of_nat (length bs))) as [-> _]. f_equal. lia.
  - by rewrite (gbind_Ret _ _ _ _ _ Ha).
Qed.


End ReplayProperties.

(** ** Witnesses *)

(** A node whose store has three blocks; its state is the list of blocks it has
    executed. *)
Definition demo_state (h : Z) : TMState unit unit :=
  {| LastBlockHeight := h; Validators := tt; NextValidators := tt; st_rest := tt |}.

#[local] Instance DemoReplay : ReplayEnv := {
  Node := list Z; Valset := unit; SRest := unit; Time := unit; Params := unit; ABCIParams := unit;
  Updates := unit; TMValidators := unit; BlockID := Z; BlockMeta := Z; Block := Z;
  NewLevelDB _ _ := gret None; OpenFile _ := gret None; NewWasmApp := gret tt;
  GenesisDocFromFile _ :=
    gret (Ok {| GenesisTime := tt; ChainID := "test"; gd_ConsensusParams := tt; AppState := [] |});
  MakeGenesisState _ := Ok (demo_state 0);
  proxyApp_Start := gret None; proxyApp_Stop := gret (Some "stopped"%string);
  LoadState _ := demo_state 0; TM2PB_ValidatorUpdates := id; TM2PB_ConsensusParams := id;
  InitChainSync _ := gret (Ok tt); PB2TM_ValidatorUpdates := Ok; NewValidatorSet := id;
  LoadBlockMeta h _ := if (0 <? h) && (h <? 4) then Some h else None;
  LoadBlock h _ := if h <? 4 then Some (10 * h) else None; meta_BlockID := id;
  ApplyBlock st id b n := Ret (Ok (demo_state id)) (n ++ [b]) }.

#[local] Instance DemoReplayLaws : ReplayLaws.
Proof.
  split; simpl; try done.
  - intros h m n. destruct (_ && _) eqn:E; [|done]. apply andb_true_iff in E as [?%Z.ltb_lt ?%Z.ltb_lt]. lia.
  - by intros d s [= <-].
Qed.

Definition demo_node (executed : list Z) : @Node DemoReplay := executed.

Lemma replay_ends_witness : replay_blocks 4 (demo_state 0) (int64 1) (demo_node []) <> NoFuel.
Proof.
  destruct (replay_ends (demo_node []) (demo_state 0) 3 4) as (bs & _ & _ & H & _).
  - intros h Hh. simpl. destruct (h <? 4) eqn:E; [apply Z.ltb_lt in E; lia|]. by rewrite andb_false_r.
  - simpl. lia.
  - simpl. lia.
  - exact H.
Defined.

