(* ===== verification/Wasmd.v ===== *)
(** * The daemon's main program (cmd/wasmd/main.go)

    The tree of the daemon's commands with the flags they register, the testnet
    command included, which is not part of the tree; and the options the node is
    started with. *)

From S2P Require Import Prelude GoStd SdkTypes Types Sdk Ref SignBytes Daemon App NewApp Cobra Testnet NetIP Replay.

(** ** The commands *)

Section Commands.
Context `{Addresses} {TE : TestnetEnv} {RE : ReplayEnv}.

(** The genesis file below a node's home and the key base below a client's. *)
Context (genesis_of : string -> string -> GenesisFile).

(** [viper.GetInt64] of a flag that holds an unsigned number. *)
Context (GetInt64 : Z -> Z).

(** What a command of the daemon does. *)
Inductive daemon_run :=
  | RunAddGenesisAccount (r : result daemon_error (list GenesisAccount * bytes))
  | RunTestnet (m : M Files (option string))
  | RunReplay (m : M Node (option string)).

(** *** genaccounts.go *)

Definition flagClientHome : string := "home-client".
Definition flagVestingStart : string := "vesting-start-time".
Definition flagVestingEnd : string := "vesting-end-time".
Definition flagVestingAmt : string := "vesting-amount".

(** [cli.HomeFlag] *)
Definition HomeFlag : string := "home".

Definition genesis_account_flags (defaultNodeHome defaultClientHome : string) : flag_set :=
  [(HomeFlag, FlagString defaultNodeHome); (flagClientHome, FlagString defaultClientHome);
   (flagVestingAmt, FlagString ""); (flagVestingStart, FlagInt 0); (flagVestingEnd, FlagInt 0)].

Definition genesis_account_leaf (defaultNodeHome defaultClientHome : string) : cmd daemon_run :=
  Leaf "add-genesis-account [address_or_key_name] [coin][,[coin]]" (Some 2%nat)
    (genesis_account_flags defaultNodeHome defaultClientHome)
    (fun args f => RunAddGenesisAccount
      (@AddGenesisAccountCmd _ _ (genesis_of (GetString f HomeFlag) (GetString f flagClientHome))
         (arg 0 args) (arg 1 args) (GetString f flagVestingAmt)
         (GetInt64 (GetInt f flagVestingStart)) (GetInt64 (GetInt f flagVestingEnd)))).

(** *** testnet.go *)

Definition flagNodeDirPrefix : string := "node-dir-prefix".
Definition flagNumValidators : string := "v".
Definition flagOutputDir : string := "output-dir".
Definition flagNodeDaemonHome : string := "node-daemon-home".
Definition flagNodeCLIHome : string := "node-cli-home".
Definition flagStartingIPAddress : string := "starting-ip-address".

(** [client.FlagChainID] and [server.FlagMinGasPrices] *)
Context (FlagChainID FlagMinGasPrices : string).

Definition testnet_flags : flag_set :=
  [(flagNumValidators, FlagInt 4); (flagOutputDir, FlagString "./mytestnet");
   (flagNodeDirPrefix, FlagString "node"); (flagNodeDaemonHome, FlagString "wasmd");
   (flagNodeCLIHome, FlagString "wasmcli"); (flagStartingIPAddress, FlagString "192.168.0.1");
   (FlagChainID, FlagString ""); (FlagMinGasPrices, FlagString (String.append "0.000006" DefaultBondDenom))].

Definition testnetCmd (config : tm_config) : cmd daemon_run :=
  Leaf "testnet" None testnet_flags (fun _ f =>
    RunTestnet (InitTestnet config (GetString f flagOutputDir) (GetString f FlagChainID)
      (GetString f FlagMinGasPrices) (GetString f flagNodeDirPrefix) (GetString f flagNodeDaemonHome)
      (GetString f flagNodeCLIHome) (GetString f flagStartingIPAddress) (GetInt f flagNumValidators))).

(** *** replay.go *)

(** [fuel]: the turns of the loop over blocks. *)
Definition replayCmd (fuel : nat) : cmd daemon_run :=
  Leaf "replay <root-dir>" (Some 1%nat) [] (fun args _ => RunReplay (replayTxs fuel (arg 0 args))).

(** *** main.go *)

Definition flagInvCheckPeriod : string := "inv-check-period".

(** The commands of genutil, of cobra, for debugging, and those of the server, are
    the SDK's. *)
Definition daemon_rootCmd (defaultNodeHome defaultCLIHome : string) (fuel : nat)
    (genutil_cmds completion_cmds debug_cmds server_cmds : list (cmd daemon_run)) : cmd daemon_run :=
  Group "wasmd" [] NotRunnable [(flagInvCheckPeriod, FlagInt 0)]
    (genutil_cmds ++ [genesis_account_leaf defaultNodeHome defaultCLIHome] ++ completion_cmds
     ++ [replayCmd fuel] ++ debug_cmds ++ server_cmds).

End Commands.

(** ** newApp *)

Section Node.
Context {Pruning Cache : Type}.

Inductive base_option :=
  | SetPruning (p : Pruning)
  | SetMinGasPrices (prices : string)
  | SetHaltHeight (height : Z)
  | SetHaltTime (time : Z)
  | SetInterBlockCache (cache : option Cache).

(** The names of the server's flags, and the store's parts. *)
Context (FlagInterBlockCache FlagMinGasPrices FlagHaltHeight FlagHaltTime : string).
Context (NewPruningOptionsFromString : string -> Pruning) (NewCommitKVStoreCacheManager : Cache).
Context {App : Type} (NewWasmApp : bool -> Z -> list base_option -> App).

(** [f]: the flags as viper knows them. *)
Definition newApp (f : flag_set) : App :=
  let cache := if GetBool f FlagInterBlockCache then Some NewCommitKVStoreCacheManager else None in
  NewWasmApp true (GetInt f flagInvCheckPeriod)
    [SetPruning (NewPruningOptionsFromString (GetString f "pruning"));
     SetMinGasPrices (GetString f FlagMinGasPrices);
     SetHaltHeight (GetInt f FlagHaltHeight);
     SetHaltTime (GetInt f FlagHaltTime);
     SetInterBlockCache cache].

End Node.

(** ** Properties *)

Section DaemonLines.
Context {ad : Addresses} {TE : TestnetEnv} {RE : ReplayEnv} {co : Cobra} {cl : CobraLaws}.
Context (genesis_of : string -> string -> GenesisFile) (GetInt64 : Z -> Z) (FlagChainID FlagMinGasPrices : string).
Context (nodeHome cliHome : string) (fuel : nat).
Context (genutil_cmds completion_cmds debug_cmds server_cmds : list (cmd daemon_run)).

Let root := daemon_rootCmd genesis_of GetInt64 nodeHome cliHome fuel genutil_cmds completion_cmds debug_cmds server_cmds.

(** No command of the SDK has the name. *)
Definition sdk_has_no (name : string) : Prop :=
  List.find (has_name name) (genutil_cmds ++ completion_cmds ++ debug_cmds ++ server_cmds) = None.

Lemma find_none_app {A} (P : A -> bool) l k :
  List.find P (l ++ k) = None -> List.find P l = None /\ List.find P k = None.
Proof. rewrite find_app. by destruct (List.find P l). Qed.

(** A name that is not one of the SDK's is one of the two commands, or none. *)
Lemma find_own name :
  sdk_has_no name ->
  List.find (has_name name)
    (genutil_cmds ++ [genesis_account_leaf genesis_of GetInt64 nodeHome cliHome] ++ completion_cmds
     ++ [replayCmd fuel] ++ debug_cmds ++ server_cmds)
  = List.find (has_name name) [genesis_account_leaf genesis_of GetInt64 nodeHome cliHome; replayCmd fuel].
Proof.
  intros H. unfold sdk_has_no in H. apply find_none_app in H as [Hg H].
  apply find_none_app in H as [Hc H]. apply find_none_app in H as [Hd Hs].
  rewrite find_app, Hg. rewrite find_app. simpl List.find at 1.
  destruct (has_name name (genesis_account_leaf genesis_of GetInt64 nodeHome cliHome)) eqn:E; simpl; rewrite E; [done|].
  rewrite find_app, Hc. simpl. destruct (has_name name (replayCmd fuel)) eqn:E'; [done|].
  by rewrite find_app, Hd, Hs.
Qed.


End DaemonLines.

(** A registered flag that is not given. *)
Lemma flag_lookup_In name v fs : NoDup (map fst fs) -> (name, v) ∈ fs -> flag_lookup name fs = Some v.
Proof.
  induction fs as [|[n w] fs IH]; simpl; [by intros _ ?%not_elem_of_nil|].
  intros [Hn Hnd]%list.NoDup_cons [[= -> ->]|Hin]%elem_of_cons; [by rewrite bool_decide_eq_true_2|].
  rewrite bool_decide_eq_false_2; [auto|]. intros ->. apply Hn, list_elem_of_fmap. by exists (n, v).
Qed.

(** The testnet command without flags: four nodes below [./mytestnet], whose
    addresses count up from 192.168.0.1, and a chain id to be made up. *)
Theorem testnet_defaults {co : Cobra} {cl : CobraLaws} `{Addresses} {TE : TestnetEnv} {RE : ReplayEnv} chain mgp config words :
  NoDup (map fst (testnet_flags chain mgp)) ->
  Execute (testnetCmd chain mgp config) [] words []
  = Ran (RunTestnet (InitTestnet config "./mytestnet" "" (String.append "0.000006" DefaultBondDenom)
                       "node" "wasmd" "wasmcli" "192.168.0.1" 4)) /\
  map (calculateIP "192.168.0.1") (seqZ 0 4)
  = map Ok ["192.168.0.1"; "192.168.0.2"; "192.168.0.3"; "192.168.0.4"]%string.
Proof.
  intros Hn. split; [|reflexivity].
  assert (Hs : forall name s, (name, FlagString s) ∈ testnet_flags chain mgp ->
    GetString ([] ++ testnet_flags chain mgp ++ []) name = s).
  { intros name s Hin. unfold GetString. rewrite app_nil_r. cbn [app]. by rewrite (flag_lookup_In _ _ _ Hn Hin). }
  unfold testnetCmd. rewrite Execute_spec, run_line_leaf by done. rewrite (Hs flagOutputDir "./mytestnet"%string), (Hs chain EmptyString),
    (Hs mgp (String.append "0.000006" DefaultBondDenom)), (Hs flagNodeDirPrefix "node"%string),
    (Hs flagNodeDaemonHome "wasmd"%string), (Hs flagNodeCLIHome "wasmcli"%string),
    (Hs flagStartingIPAddress "192.168.0.1"%string); [done|unfold testnet_flags; set_solver..].
Qed.

(** The node that is started: when its application is there, it has loaded the last
    version, checks its invariants as often as the flag says, and has the pruning,
    prices and halts of the flags and, if it is asked for, the cache. *)
Theorem newApp_started `{AminoJSON} {SK AK BK R W Pruning Cache : Type} (prune : string -> Pruning) (cache : Cache)
    (MakeCodec : result panic codec) (NewWasmer : string -> Z -> result string W) home unmarshal
    (sk : SK) (ak : AK) (bk : BK) (router : R) LoadLatestVersion names prices halt time f app :
  newApp names prices halt time prune cache
    (NewApp.NewWasmApp MakeCodec NewWasmer home unmarshal sk ak bk router LoadLatestVersion) f = Ok app ->
  LoadLatestVersion = None /\ app_loaded app = true /\ app_invCheckPeriod app = GetInt f flagInvCheckPeriod /\
  app_options app =
    [ SetPruning (prune (GetString f "pruning")); SetMinGasPrices (GetString f prices);
      SetHaltHeight (GetInt f halt); SetHaltTime (GetInt f time);
      SetInterBlockCache (if GetBool f names then Some cache else None) ] /\
  MakeCodec = Ok (k_cdc (app_Keeper app)) /\ k_router (app_Keeper app) = router.
Proof.
  unfold newApp. cbv zeta. intros Ha.
  match type of Ha with NewApp.NewWasmApp _ _ _ _ _ _ _ _ _ true ?p ?o = _ =>
    pose proof (NewApp.NewWasmApp_spec MakeCodec NewWasmer home unmarshal sk ak bk router LoadLatestVersion true p o) as Hs
  end.
  rewrite Ha in Hs. destruct Hs as (Hm & -> & -> & _ & _ & _ & -> & -> & -> & Hl). by rewrite Hl.
Qed.

(** ** Witness *)

#[local] Existing Instances ref_Addresses demo_testnet DemoReplay demo_cobra demo_cobra_laws.

(** A genesis file without accounts, and an empty key base, wherever they are. *)
Definition demo_genesis_of (home cliHome : string) : GenesisFile := {|
  account_Validate _ := None; Accounts_Contains _ _ := false; SanitizeGenesisAccounts l := l;
  gen_file := unit; GenesisStateFromGenFile := Ok tt; auth_accounts _ := [];
  MarshalJSON_auth _ := Ok []; MarshalJSON_app _ b := Ok (bytes_of_string home); ExportGenesisFile _ _ := None;
  keybase_Open := Ok tt; keybase_Get name := Ok (bytes_of_string name);
  gen_ParseCoins _ := Ok [] |}.

Definition demo_daemon (words : list string) (given : flag_set) : outcome_of_line daemon_run :=
  Execute (daemon_rootCmd demo_genesis_of id "~/.wasmd" "~/.wasmcli" 9 [Foreign "init [moniker]"]
                [Foreign "completion"] [Foreign "debug"] [Foreign "start"; Foreign "export"])
    [("home", FlagString "~/.wasmd")]%string words given.

