(* ===== verification/Main.v ===== *)
(** * The programs (main of cmd/wasmcli/main.go and cmd/wasmd/main.go)

    How a process of either program ends: the codec and the address configuration
    are set up, the line is executed, and an error of it ends the process. The
    SDK's configuration and the executor of Tendermint are interfaces. *)

From S2P Require Import Prelude GoStd SdkTypes Types Sdk Ref SignBytes Code Demo App Client Cobra Commands.
From S2P Require Import Testnet Daemon Replay Wasmd.

(** ** The configuration of the SDK *)

Class SdkConfig := {
  Config : Type;
  GetConfig : Config;
  SetBech32PrefixForAccount : string -> string -> Config -> result panic Config;
  SetBech32PrefixForValidator : string -> string -> Config -> result panic Config;
  SetBech32PrefixForConsensusNode : string -> string -> Config -> result panic Config;
  SetKeyringServiceName : string -> Config -> result panic Config;
  SealConfig : Config -> Config;
  Bech32PrefixAccAddr : string; Bech32PrefixAccPub : string;
  Bech32PrefixValAddr : string; Bech32PrefixValPub : string;
  Bech32PrefixConsAddr : string; Bech32PrefixConsPub : string }.

(** [executor.Execute()] may end the process itself on an error, with a code. *)
Class Executor := { ends_with : string -> option Z }.

Inductive process :=
  | Exited (code : Z)
  | Crashed (p : panic).

Section Programs.
Context `{SdkConfig} `{Executor} `{AminoJSON}.

Definition configure (config : Config) : result panic Config :=
  res_bind (SetBech32PrefixForAccount Bech32PrefixAccAddr Bech32PrefixAccPub config) (fun config =>
  res_bind (SetBech32PrefixForValidator Bech32PrefixValAddr Bech32PrefixValPub config) (fun config =>
  res_bind (SetBech32PrefixForConsensusNode Bech32PrefixConsAddr Bech32PrefixConsPub config) (fun config =>
  res_bind (SetKeyringServiceName "wasmd" config) (fun config =>
  Ok (SealConfig config))))).

(** A program: its set-up, its line, and what it does with the error of it. *)
Definition program (MakeCodec : result panic codec) (line : result panic (option string))
    (on_error : string -> process) : process :=
  match res_bind MakeCodec (fun _ => configure GetConfig) with
  | Err p => Crashed p
  | Ok _ =>
      match line with
      | Err p => Crashed p
      | Ok None => Exited 0
      | Ok (Some err) =>
          match ends_with err with
          | Some code => Exited code
          | None => on_error err
          end
      end
  end.

(** What a line does once its command is found: the function that runs before every
    command, then the command; a line that cobra refuses is an error, and the help
    text none, before any of it; [client.ValidateCmd] is a command like any other. *)
Definition line_result {A} (before : option string) (run : A -> result panic (option string))
    (foreign : string -> result panic (option string)) (usage_error : string) (o : outcome_of_line A)
    : result panic (option string) :=
  match o with
  | UsageError => Ok (Some usage_error)
  | HelpText => Ok None
  | Validated unknown =>
      match before, unknown with
      | Some err, _ => Ok (Some err)
      | None, Some _ => Ok (Some usage_error)
      | None, None => Ok None
      end
  | Elsewhere use => match before with Some err => Ok (Some err) | None => foreign use end
  | Ran a => match before with Some err => Ok (Some err) | None => run a end
  end.

(** ** wasmcli *)

(** An error is printed, and the process exits. *)
Definition wasmcli_main (MakeCodec : result panic codec) (line : result panic (option string)) : process :=
  program MakeCodec line (fun _ => Exited 1).

(** ** wasmd *)

(** An error is a panic. *)
Definition wasmd_main (MakeCodec : result panic codec) (line : result panic (option string)) : process :=
  program MakeCodec line (fun _ => Crashed PanicErr).

End Programs.

(** What a command of the module leads to: its error, or the transaction or the
    output that the SDK is left to send or to print. *)
Definition run_command {E : Env} `{CliContext} (text_of : cli_error -> string) (perform : cli_action -> option string)
    (c : command) : result panic (option string) :=
  match c with
  | Err p => Err p
  | Ok (Err e) => Ok (Some (text_of e))
  | Ok (Ok action) => Ok (perform action)
  end.

(** ** Properties *)

Section ProgramProperties.
Context {sc : SdkConfig} {ex : Executor} {aj : AminoJSON}.

(** The set-up of both programs succeeds. *)
Definition set_up (MakeCodec : result panic codec) : Prop :=
  (exists cdc, MakeCodec = Ok cdc) /\ exists config, configure GetConfig = Ok config.

Lemma program_set_up MakeCodec line on_error :
  set_up MakeCodec ->
  program MakeCodec line on_error =
  match line with
  | Err p => Crashed p
  | Ok None => Exited 0
  | Ok (Some err) => match ends_with err with Some code => Exited code | None => on_error err end
  end.
Proof. intros [(cdc & ->) (config & Hc)]. unfold program. simpl. by rewrite Hc. Qed.

Lemma program_zero MakeCodec line on_error :
  (forall err, ends_with err <> Some 0) -> (forall err, on_error err <> Exited 0) ->
  program MakeCodec line on_error = Exited 0 <-> set_up MakeCodec /\ line = Ok None.
Proof.
  intros He Ho. split; [|intros [Hs ->]; by rewrite program_set_up].
  intros H. assert (Hs : set_up MakeCodec).
  { unfold program in H. unfold set_up. destruct MakeCodec as [cdc|p]; [|done]. simpl in H.
    destruct (configure GetConfig) as [config|p]; [|done]. split; by eexists. }
  split; [done|]. rewrite program_set_up in H by done. destruct line as [[err|]|p]; [|done..].
  destruct (ends_with err) as [code|] eqn:E; [injection H as ->; by destruct (He err)|by destruct (Ho err)].
Qed.

(** How the programs end: well when the set-up succeeds and the line has no error;
    on a panic of either they crash; and on an error of the line they do what the
    executor does, or else [wasmcli] exits with 1 and [wasmd] panics. *)
Theorem program_ends MakeCodec line :
  (forall err, ends_with err <> Some 0) ->
  (wasmcli_main MakeCodec line = Exited 0 <-> set_up MakeCodec /\ line = Ok None) /\
  (wasmd_main MakeCodec line = Exited 0 <-> set_up MakeCodec /\ line = Ok None) /\
  (forall err, set_up MakeCodec -> line = Ok (Some err) -> ends_with err = None ->
     wasmcli_main MakeCodec line = Exited 1 /\ wasmd_main MakeCodec line = Crashed PanicErr) /\
  (forall p, set_up MakeCodec -> line = Err p ->
     wasmcli_main MakeCodec line = Crashed p /\ wasmd_main MakeCodec line = Crashed p).
Proof.
  intros He. unfold wasmcli_main, wasmd_main. split; [by apply program_zero|]. split; [by apply program_zero|].
  split; intros x Hs ->; [intros Hx|]; rewrite !program_set_up by done; [by rewrite Hx|done].
Qed.

End ProgramProperties.

Section UploadProcess.
Context {E : Env} {L : EnvLaws E} {cc : CliContext} {co : Cobra} {cl : CobraLaws}.
Context {sc : SdkConfig} {ex : Executor} {aj : AminoJSON}.
Context (post_flags get_flags main_flags : flag_set).
Context (query_own tx_own root_before root_after query_modules tx_modules : list (cmd command)) (authN bankN : string).
Context (text_of : cli_error -> string) (perform : cli_action -> option string).
Context (foreign : string -> result panic (option string)) (usage_error : string).

(** The process of a line of [wasmcli]; [before]: the error of [initConfig]. *)
Definition wasmcli (MakeCodec : result panic codec) (before : option string) (words : list string) (given : flag_set)
    : process :=
  wasmcli_main MakeCodec
    (line_result before (run_command text_of perform) foreign usage_error
      (Execute (rootCmd query_own tx_own root_before root_after query_modules tx_modules authN bankN)
         main_flags words given)).

Lemma StoreCodeCmd_broadcasts file source builder action :
  StoreCodeCmd file source builder = Ok (Ok action) -> exists msgs, action = Broadcast msgs.
Proof. unfold StoreCodeCmd. intros H. repeat case_match; simplify_eq; by eexists. Qed.

(** An upload from the command line. When the process ends well, the file was read,
    and the SDK has sent, without an error, one valid message of the key's owner
    with the source and builder that were given; of a wasm file the chain will
    uncompress the first 400 KiB. *)
Theorem upload_process MakeCodec before file given :
  mounted post_flags get_flags query_own tx_own root_before query_modules tx_modules authN bankN ->
  (forall err, ends_with err <> Some 0) ->
  wasmcli MakeCodec before ["tx"; "wasm"; "store"; file]%string given = Exited 0 ->
  exists wasm code,
    let msg := {| sc_Sender := GetFromAddress; sc_WASMByteCode := code;
                  sc_Source := GetString given "source"; sc_Builder := GetString given "builder" |} in
    ReadFile file = Ok wasm /\ MsgStoreCode_ValidateBasic msg = None /\
    perform (Broadcast [WasmMsg false (WStoreCode msg)]) = None /\
    ((IsWasm wasm = Ok true /\ uncompress code = (first (400 * 1024) (sl_data wasm), None)) \/
     (IsWasm wasm = Ok false /\ IsGzip wasm = Ok true /\ code = sl_data wasm)).
Proof.
  intros Hm He Hz. apply program_zero in Hz as [_ Hl]; [|done|done].
  rewrite (run_tx post_flags get_flags) in Hl by done. unfold GetTxCmd in Hl.
  rewrite (run_line_sub _ _ _ _ _ _ _ _ _ _ (store_leaf post_flags)) in Hl by done. unfold store_leaf in Hl.
  match type of Hl with context [run_line _ (Leaf _ _ ?fl _) ?inh _ _] =>
    destruct (decide (flags_known given (fl ++ inh) = true)) as [Hk|Hk] end;
    [|rewrite run_line_refused in Hl by (by right); discriminate Hl].
  rewrite run_line_leaf in Hl by done. simpl in Hl. destruct before; [done|].
  rewrite !GetString_default in Hl by done. simpl in Hl.
  destruct (StoreCodeCmd _ _ _) as [[action|e]|p] eqn:Es; [|done..]. injection Hl as Hp.
  destruct (StoreCodeCmd_broadcasts _ _ _ _ Es) as [msgs ->].
  apply StoreCodeCmd_uploads in Es as (wasm & code & Hr & -> & Hv & Hc). by exists wasm, code.
Qed.

End UploadProcess.
