(* ===== verification/Lcd.v ===== *)
(** * Set-up of the REST tests (lcd_test/helpers.go)

    The genesis of the network the tests run against, and the accounts they create.
    It is the one place that puts a genesis together from the default state of the
    application: validators with their genesis transactions, accounts, supply,
    community pool, inflation. *)

From stdpp Require Import sorting.
From S2P Require Import Prelude GoStd SdkTypes Sdk Ref Daemon App Testnet.

(** ** Accounts

    The key base makes a key from a new mnemonic: the key's address, if there is a
    key, the words, and an error. *)

Class Keybase := {
  KB : Type;
  CreateMnemonic : string -> M KB (option bytes * string * option string) }.

Class KeybaseLaws `{Keybase} : Prop := {
  CreateMnemonic_error name k info seed err k' :
    CreateMnemonic name k = Ret (info, seed, Some err) k' -> info = None }.

Record AddrSeed := { as_Address : bytes; as_Seed : string; as_Name : string }.

(** *** The slice as [sort.Interface] *)

(** [bytes.Compare] *)
Definition bytes_Compare (a b : bytes) : Z :=
  if bytes_ltb a b then -1 else if bytes_ltb b a then 1 else 0.

Definition AddrSeedSlice_Len (b : list AddrSeed) : nat := length b.

Definition AddrSeedSlice_Less (b : list AddrSeed) (i j : nat) : result panic bool :=
  match b !! i, b !! j with
  | Some x, Some y =>
      let c := bytes_Compare (as_Address x) (as_Address y) in
      if bool_decide (c = -1) then Ok true
      else if bool_decide (c = 0 \/ c = 1) then Ok false
      else Err (PanicMsg "not fail-able with `bytes.Comparable` bounded [-1, 1].")
  | _, _ => Err PanicIndex
  end.

Definition AddrSeedSlice_Swap (b : list AddrSeed) (i j : nat) : result panic (list AddrSeed) :=
  match b !! i, b !! j with
  | Some x, Some y => Ok (<[j := x]> (<[i := y]> b))
  | _, _ => Err PanicIndex
  end.

(** [sort.Sort] swaps elements until none is less than the one before it; which of
    equal elements comes first is not said. *)
Definition swapped (b b' : list AddrSeed) : Prop := exists i j, AddrSeedSlice_Swap b i j = Ok b'.

Class GoSort := { Sort : list AddrSeed -> list AddrSeed }.

Class GoSortLaws `{GoSort} : Prop := {
  Sort_swaps b : rtc swapped b (Sort b);
  Sort_sorted b i : (S i < AddrSeedSlice_Len (Sort b))%nat -> AddrSeedSlice_Less (Sort b) (S i) i = Ok false }.

Section Keys.
Context `{Keybase} `{GoSort}.

(** [info.GetPubKey().Address()] *)
Definition info_Address (info : option bytes) : M KB bytes :=
  match info with Some addr => gret addr | None => gpanic PanicNilDeref end.

Definition CreateAddr (name : string) : M KB (bytes * string * option string) :=
  let! r := CreateMnemonic name in
  let '(info, seed, err) := r in
  let! addr := info_Address info in
  gret (addr, seed, err).

Fixpoint create_addrs (indices : list Z) (addrSeeds : list AddrSeed) (errs : list string)
    : M KB (list AddrSeed * list string) :=
  match indices with
  | [] => gret (addrSeeds, errs)
  | i :: indices =>
      let name := String.append "test" (Strconv.FormatUint i) in
      let! r := CreateMnemonic name in
      let '(info, seed, err) := r in
      let errs := match err with Some e => errs ++ [e] | None => errs end in
      let! addr := info_Address info in
      create_addrs indices (addrSeeds ++ [{| as_Address := addr; as_Seed := seed; as_Name := name |}]) errs
  end.

Definition CreateAddrs (numAddrs : Z) : M KB (list bytes * list string * list string * list string) :=
  let! r := create_addrs (seqZ 0 numAddrs) [] [] in
  let (addrSeeds, errs) := r in
  match errs with
  | _ :: _ => gret ([], [], [], errs)
  | [] =>
      let addrSeeds := Sort addrSeeds in
      gret (map as_Address addrSeeds, map as_Seed addrSeeds, map as_Name addrSeeds, [])
  end.

End Keys.

Section KeysProperties.
Context {kb : Keybase} {kl : KeybaseLaws} {gs : GoSort} {gl : GoSortLaws}.

Definition mnemonic_name (i : Z) : string := String.append "test" (Strconv.FormatUint i).

(** The entry of the turn for [i]: a key that was made under its name. *)
Definition created (i : Z) (x : AddrSeed) : Prop :=
  as_Name x = mnemonic_name i /\
  exists k k', CreateMnemonic (mnemonic_name i) k = Ret (Some (as_Address x), as_Seed x, None) k'.

Lemma swapped_Permutation b b' : swapped b b' -> b' ≡ₚ b.
Proof.
  intros (i & j & Hs). unfold AddrSeedSlice_Swap in Hs.
  destruct (b !! i) as [x|] eqn:Ei, (b !! j) as [y|] eqn:Ej; simplify_eq.
  pose proof (lookup_lt_Some _ _ _ Ei) as Hi. pose proof (lookup_lt_Some _ _ _ Ej) as Hj.
  apply Permutation_inj. split; [by rewrite !length_insert|].
  exists (fun k => if bool_decide (k = i) then j else if bool_decide (k = j) then i else k). split.
  - intros k k' E. repeat case_bool_decide; congruence.
  - intros k. destruct (bool_decide_reflect (k = j)) as [->|Hkj].
    + rewrite list_lookup_insert_eq by by rewrite length_insert. by case_bool_decide; subst.
    + rewrite list_lookup_insert_ne by congruence. destruct (bool_decide_reflect (k = i)) as [->|Hki].
      * by rewrite list_lookup_insert_eq.
      * by rewrite list_lookup_insert_ne by congruence.
Qed.

Lemma Sort_Permutation b : Sort b ≡ₚ b.
Proof. induction (Sort_swaps b) as [|b1 b2 b3 Hs _ IH]; [done|]. by rewrite IH, swapped_Permutation. Qed.

(** The order the comparison stands for. *)
Definition not_after (a b : bytes) : Prop := bytes_ltb b a = false.

Lemma not_after_trans : Transitive not_after.
Proof.
  intros a b c Hab Hbc. unfold not_after in *. destruct (bytes_ltb c a) eqn:E; [|done].
  destruct (decide (a = b)) as [->|Hne]; [congruence|].
  destruct (bytes_ltb a b) eqn:Eab.
  - rewrite (bytes_ltb_trans c a b) in Hbc; done.
  - by destruct Hne; apply bytes_ltb_total.
Qed.

Lemma Less_spec b i j x y :
  b !! i = Some x -> b !! j = Some y ->
  AddrSeedSlice_Less b i j = Ok (bytes_ltb (as_Address x) (as_Address y)).
Proof.
  intros Hi Hj. unfold AddrSeedSlice_Less, bytes_Compare. rewrite Hi, Hj.
  destruct (bytes_ltb (as_Address x) (as_Address y)); [done|].
  by destruct (bytes_ltb (as_Address y) (as_Address x)).
Qed.

Lemma Sort_addresses b : StronglySorted not_after (map as_Address (Sort b)).
Proof.
  assert (Hs := Sort_sorted b). revert Hs. generalize (Sort b). intros l Hs.
  apply Sorted_StronglySorted; [exact not_after_trans|].
  induction l as [|x l IH]; [constructor|]. constructor.
  - apply IH. intros i Hi. specialize (Hs (S i)). apply Hs. simpl. lia.
  - destruct l as [|y l]; constructor. assert (Hl := Hs 0%nat ltac:(simpl; lia)).
    rewrite (Less_spec _ 1 0 y x) in Hl by done. by injection Hl.
Qed.

Lemma create_addrs_Ret idx acc errs k l errs' k' :
  create_addrs idx acc errs k = Ret (l, errs') k' ->
  errs' = errs /\ exists new, l = acc ++ new /\ Forall2 created idx new.
Proof.
  revert acc errs k. induction idx as [|i idx IH]; intros acc errs k H.
  - injection H as <- <- _. split; [done|]. exists []. by rewrite app_nil_r.
  - simpl in H. minv H. destruct r as [[info seed] err]. minv H.
    destruct info as [addr|]; [|done]. injection E0 as <- <-.
    destruct err as [e|]; [by apply CreateMnemonic_error in E|].
    apply IH in H as (-> & new & -> & Hnew). split; [done|].
    eexists (_ :: new). rewrite <- app_assoc. split; [done|]. constructor; [|done]. split; [done|].
    by exists k, w.
Qed.

(** What [CreateAddrs] returns: as many keys as were asked for, made under the
    names [test0], [test1] and so on, in the order of their addresses, each with the
    words and the name it was made with. It never returns an error: where a key
    cannot be made it dereferences the missing key, and panics. *)
Theorem CreateAddrs_spec n k addrs seeds names errs k' :
  CreateAddrs n k = Ret (addrs, seeds, names, errs) k' ->
  errs = [] /\ StronglySorted not_after addrs /\ names ≡ₚ map mnemonic_name (seqZ 0 n) /\
  exists made sorted, Forall2 created (seqZ 0 n) made /\ sorted ≡ₚ made /\
    addrs = map as_Address sorted /\ seeds = map as_Seed sorted /\ names = map as_Name sorted.
Proof.
  unfold CreateAddrs. intros H. minv H. destruct r as [made errs0].
  apply create_addrs_Ret in E as (-> & new & -> & Hnew). injection H as <- <- <- <- _.
  split; [done|]. split; [apply Sort_addresses|]. cbn [app]. split.
  - rewrite (Permutation_map as_Name (Sort_Permutation new)). clear -Hnew.
    induction Hnew as [|i x idx new [Hx _] _ IH]; [done|]. simpl. by rewrite Hx, IH.
  - exists new, (Sort new). split; [done|]. split; [apply Sort_Permutation|done].
Qed.

End KeysProperties.

(** ** The genesis of the network *)

(** The genesis states of the other modules, as far as they are set here. *)
Record DistrGenesis {Dec Rest : Type} := { distr_CommunityPool : list (string * Dec); distr_rest : Rest }.
Arguments DistrGenesis : clear implicits.

Record SupplyGenesis := { gen_Supply : Coins }.

Record MintGenesis {Dec Rest : Type} := {
  mint_Inflation : Dec; mint_InflationMax : Dec; mint_InflationMin : Dec; mint_rest : Rest }.
Arguments MintGenesis : clear implicits.

Record CrisisGenesis := { crisis_ConstantFee : Coin }.

(** A genesis transaction: the message with its signature and the key of it. *)
Record StdTx {PubKey SecpKey : Type} := {
  tx_Msg : MsgCreateValidator PubKey; tx_Signature : bytes; tx_Key : SecpKey }.
Arguments StdTx : clear implicits.

Class LcdEnv := {
  lcd_testnet :: TestnetEnv;
  PrivVal : Type;
  SecpKey : Type;
  Dec : Type;
  DistrRest : Type;
  MintRest : Type;
  StakingGenesis : Type;
  Dec_Equal :: EqDecision Dec;
  PrivValidatorKeyFile : tm_config -> string;
  PrivValidatorStateFile : tm_config -> string;
  LoadOrGenFilePV : string -> string -> M Files PrivVal;
  PrivVal_Reset : PrivVal -> M Files unit;
  GetPubKey : PrivVal -> PubKey;
  secp256k1_GenPrivKey : M Files SecpKey;
  secp256k1_Address : SecpKey -> bytes;
  ed25519_GenPubKey : M Files PubKey;
  SignMsg : SecpKey -> string -> MsgCreateValidator PubKey -> result string bytes;
  MarshalJSON_state : gmap string bytes -> result string bytes;
  SetGenTxsInAppGenesisState : gmap string bytes -> list (StdTx PubKey SecpKey) ->
    result string (gmap string bytes);
  NewCoins : Coins -> result panic Coins;
  ZeroDec : Dec;
  NewDecFromInt : Z -> Dec;
  MustNewDecFromStr : string -> result panic Dec;
  Int_Add : Z -> Z -> result panic Z;
  UnmarshalJSON_staking : bytes -> option StakingGenesis;
  MarshalJSON_staking : StakingGenesis -> option bytes;
  UnmarshalJSON_distr : bytes -> option (DistrGenesis Dec DistrRest);
  MarshalJSON_distr : DistrGenesis Dec DistrRest -> option bytes;
  UnmarshalJSON_supply : bytes -> option SupplyGenesis;
  MarshalJSON_supply : SupplyGenesis -> option bytes;
  DefaultGenesis_mint : MintGenesis Dec MintRest;
  MarshalJSON_mint : MintGenesis Dec MintRest -> option bytes;
  UnmarshalJSON_crisis : bytes -> option CrisisGenesis;
  MarshalJSON_crisis : CrisisGenesis -> option bytes }.

(** A coin that is worth something is a set of coins by itself, a power is worth
    something, and a sum that does not overflow is the sum. *)
Class LcdLaws `{LcdEnv} : Prop := {
  NewCoins_one d a : coin_valid d a = true -> 0 < a ->
    NewCoins [{| coin_Denom := d; coin_Amount := a |}] = Ok [{| coin_Denom := d; coin_Amount := a |}];
  TokensFromConsensusPower_pos p : 0 < p -> 0 < TokensFromConsensusPower p;
  Int_Add_Ok a b c : Int_Add a b = Ok c -> c = a + b }.

Section DefaultGenesis.
Context `{LcdEnv}.

Definition or_panic {A} (r : result panic A) : M Files A :=
  match r with Ok a => gret a | Err p => gpanic p end.

Record genesis_vars := {
  gv_genTxs : list (StdTx PubKey SecpKey);
  gv_genAccounts : list GenesisAccount;
  gv_totalSupply : Z;
  gv_valConsPubKeys : list PubKey;
  gv_valOperAddrs : list bytes }.

(** The body of the loop over the validators: the first has the key of the node. *)
Definition add_validator (chainID : string) (privVal : PrivVal) (i : Z) (v : genesis_vars)
    : M Files (result string genesis_vars) :=
  let! operPrivKey := secp256k1_GenPrivKey in
  let operAddr := secp256k1_Address operPrivKey in
  let! key :=
    if 0 <? i then let! k := ed25519_GenPubKey in gret (k, 1) else gret (GetPubKey privVal, 100) in
  let (pubKey, power) := key in
  let startTokens := TokensFromConsensusPower power in
  let! value := NewCoin DefaultBondDenom startTokens in
  let msg := {| cv_ValidatorAddress := operAddr; cv_PubKey := Some pubKey; cv_Value := value;
                cv_Moniker := String.append "validator-" (Strconv.FormatUint (i + 1));
                cv_MinSelfDelegation := 1 |} in
  match SignMsg operPrivKey chainID msg with
  | Err err => gret (Err err)
  | Ok sig =>
      let transaction := {| tx_Msg := msg; tx_Signature := sig; tx_Key := operPrivKey |} in
      let accTokens := TokensFromConsensusPower 150 in
      let! totalSupply := or_panic (Int_Add (gv_totalSupply v) accTokens) in
      let! coin := NewCoin DefaultBondDenom accTokens in
      let! coins := or_panic (NewCoins [coin]) in
      gret (Ok {| gv_genTxs := gv_genTxs v ++ [transaction];
                  gv_genAccounts := gv_genAccounts v ++ [BaseAccount operAddr coins];
                  gv_totalSupply := totalSupply;
                  gv_valConsPubKeys := gv_valConsPubKeys v ++ [pubKey];
                  gv_valOperAddrs := gv_valOperAddrs v ++ [operAddr] |})
  end.

(** The loop over the accounts of the test. *)
Fixpoint add_accounts (initAddrs : list bytes) (genAccounts : list GenesisAccount) (totalSupply : Z)
    : M Files (list GenesisAccount * Z) :=
  match initAddrs with
  | [] => gret (genAccounts, totalSupply)
  | addr :: initAddrs =>
      let accTokens := TokensFromConsensusPower 100 in
      let! coin := NewCoin DefaultBondDenom accTokens in
      let! totalSupply := or_panic (Int_Add totalSupply accTokens) in
      add_accounts initAddrs (genAccounts ++ [BaseAccount addr [coin]]) totalSupply
  end.

(** [bz := genesisState[name]; MustUnmarshalJSON; change it; genesisState[name] = MustMarshalJSON] *)
Definition edit {A} (name : string) (dec : bytes -> option A) (enc : A -> option bytes) (f : A -> M Files A)
    (genesisState : gmap string bytes) : M Files (gmap string bytes) :=
  let! data := must_ (dec (default [] (genesisState !! name))) in
  let! data := f data in
  let! bz := must_ (enc data) in
  gret (<[name := bz]> genesisState).

(** The inflation: fixed for the tests, or none. *)
Definition mint_data (minting : bool) : M Files (MintGenesis Dec MintRest) :=
  let d := DefaultGenesis_mint in
  let! minmax :=
    if minting then
      let! inflationMin := or_panic (MustNewDecFromStr "10000.0") in
      let! inflationMax := or_panic (MustNewDecFromStr "15000.0") in
      gret (inflationMin, inflationMax)
    else gret (ZeroDec, ZeroDec) in
  gret {| mint_Inflation := minmax.1; mint_InflationMax := minmax.2; mint_InflationMin := minmax.1;
          mint_rest := mint_rest d |}.

(** The double check of the inflation. *)
Definition check_mint (minting : bool) (d : MintGenesis Dec MintRest) : M Files (option string) :=
  if minting then
    let! max := or_panic (MustNewDecFromStr "15000.0") in
    let! min := or_panic (MustNewDecFromStr "10000.0") in
    gret (if bool_decide (mint_InflationMax d = max) && bool_decide (mint_Inflation d = min)
             && bool_decide (mint_InflationMin d = min)
          then None else Some "mint parameters does not correspond to their defaults"%string)
  else
    gret (if bool_decide (mint_InflationMax d = ZeroDec) && bool_decide (mint_Inflation d = ZeroDec)
             && bool_decide (mint_InflationMin d = ZeroDec)
          then None else Some "mint parameters not equal to decimal 0"%string).

Definition commPoolAmt : Z := 10.

(** The genesis state once the accounts are known, and the inflation in it. *)
Definition fill_state (genAccounts : list GenesisAccount) (totalSupply : Z) (minting : bool)
    (genesisState : gmap string bytes) : M Files (gmap string bytes * MintGenesis Dec MintRest) :=
  let! genesisState := edit "auth" UnmarshalJSON_auth MarshalJSON_authState
    (fun authGenState => gret (authGenState.1, genAccounts)) genesisState in
  let! genesisState := edit "staking" UnmarshalJSON_staking MarshalJSON_staking gret genesisState in
  let! genesisState := edit "distribution" UnmarshalJSON_distr MarshalJSON_distr (fun d =>
    let! pool := NewCoin DefaultBondDenom commPoolAmt in
    gret {| distr_CommunityPool := [(coin_Denom pool, NewDecFromInt (coin_Amount pool))];
            distr_rest := distr_rest d |}) genesisState in
  let! genesisState := edit "supply" UnmarshalJSON_supply MarshalJSON_supply (fun _ =>
    let! total := or_panic (Int_Add totalSupply commPoolAmt) in
    let! coin := NewCoin DefaultBondDenom total in
    let! supply := or_panic (NewCoins [coin]) in
    gret {| gen_Supply := supply |}) genesisState in
  let! mintData := mint_data minting in
  let! mintDataBz := must_ (MarshalJSON_mint mintData) in
  let genesisState := <["mint"%string := mintDataBz]> genesisState in
  let! genesisState := edit "crisis" UnmarshalJSON_crisis MarshalJSON_crisis (fun _ =>
    let! fee := NewCoin DefaultBondDenom 1000 in
    gret {| crisis_ConstantFee := fee |}) genesisState in
  gret (genesisState, mintData).

Definition defaultGenesis (config : tm_config) (nValidators : Z) (initAddrs : list bytes) (minting : bool)
    : M Files (result string (GenesisDoc GenesisValidator * list PubKey * list bytes * PrivVal)) :=
  let! privVal := LoadOrGenFilePV (PrivValidatorKeyFile config) (PrivValidatorStateFile config) in
  do! PrivVal_Reset privVal in
  if nValidators <? 1 then gret (Err "initializeLCD must use at least one validator"%string)
  else
    let genesisFile := GenesisFile_of config in
    try! genDoc := GenesisDocFromFile genesisFile in
    let genDoc := {| doc_ChainID := doc_ChainID genDoc; doc_AppState := doc_AppState genDoc;
                     doc_Validators := [] |} in
    check! SaveAs genDoc genesisFile in
    try! v := for_fold (seqZ 0 nValidators) (add_validator (doc_ChainID genDoc) privVal)
      {| gv_genTxs := []; gv_genAccounts := []; gv_totalSupply := 0; gv_valConsPubKeys := [];
         gv_valOperAddrs := [] |} in
    let genesisState := DefaultGenesis in
    match MarshalJSON_state genesisState with
    | Err err => gret (Err err)
    | Ok _ =>
    match SetGenTxsInAppGenesisState genesisState (gv_genTxs v) with
    | Err err => gret (Err err)
    | Ok genesisState =>
        let! accounts := add_accounts initAddrs (gv_genAccounts v) (gv_totalSupply v) in
        let! filled := fill_state accounts.1 accounts.2 minting genesisState in
        check! check_mint minting filled.2 in
        match MarshalJSONIndent_app filled.1 with
        | Err err => gret (Err err)
        | Ok appState =>
            gret (Ok ({| doc_ChainID := doc_ChainID genDoc; doc_AppState := appState; doc_Validators := [] |},
                      gv_valConsPubKeys v, gv_valOperAddrs v, privVal))
        end
    end
    end.

End DefaultGenesis.

Section GenesisProperties.
Context {le : LcdEnv} {ll : LcdLaws}.

Definition stake (amount : Z) : Coin := {| coin_Denom := DefaultBondDenom; coin_Amount := amount |}.

Lemma NewCoin_stake a f c f' :
  NewCoin DefaultBondDenom a f = Ret c f' -> coin_valid DefaultBondDenom a = true /\ c = stake a /\ f' = f.
Proof. unfold NewCoin. destruct (coin_valid _ a); [|done]. by intros [= <- <-]. Qed.

(** A coin of a positive amount, as coins. *)
Lemma NewCoins_stake a f c f1 cs f' :
  0 < a -> NewCoin DefaultBondDenom a f = Ret c f1 -> or_panic (NewCoins [c]) f1 = Ret cs f' ->
  cs = [stake a] /\ f' = f.
Proof.
  intros Ha (Hv & -> & ->)%NewCoin_stake. unfold stake. rewrite NewCoins_one by done. by intros [= <- <-].
Qed.

Lemma Int_Add_Ret a b f c f' : or_panic (Int_Add a b) f = Ret c f' -> c = a + b /\ f' = f.
Proof. destruct (Int_Add a b) as [d|] eqn:E; [|done]. intros [= <- <-]. by apply Int_Add_Ok in E. Qed.

(** What the validators have put into the genesis after [k] turns. *)
Record validators_added (pv : PrivVal) (k : Z) (v : genesis_vars) : Prop := {
  va_count : Z.of_nat (length (gv_valOperAddrs v)) = k;
  va_keys : length (gv_valConsPubKeys v) = length (gv_valOperAddrs v);
  va_first : 0 < k -> head (gv_valConsPubKeys v) = Some (GetPubKey pv);
  va_accounts : gv_genAccounts v =
    map (fun a => BaseAccount a [stake (TokensFromConsensusPower 150)]) (gv_valOperAddrs v);
  va_supply : gv_totalSupply v = k * TokensFromConsensusPower 150;
  va_addrs : map (fun tx => cv_ValidatorAddress (tx_Msg tx)) (gv_genTxs v) = gv_valOperAddrs v;
  va_pubkeys : map (fun tx => cv_PubKey (tx_Msg tx)) (gv_genTxs v) = map Some (gv_valConsPubKeys v);
  va_values : map (fun tx => cv_Value (tx_Msg tx)) (gv_genTxs v) =
    map (fun i => stake (TokensFromConsensusPower (if 0 <? i then 1 else 100))) (seqZ 0 k) }.

Lemma add_validator_Ret chainID pv i v f v' f' :
  add_validator chainID pv i v f = Ret (Ok v') f' ->
  exists priv key sig,
    let oper := secp256k1_Address priv in
    let msg := {| cv_ValidatorAddress := oper; cv_PubKey := Some key;
                  cv_Value := stake (TokensFromConsensusPower (if 0 <? i then 1 else 100));
                  cv_Moniker := String.append "validator-" (Strconv.FormatUint (i + 1));
                  cv_MinSelfDelegation := 1 |} in
    (0 < i \/ key = GetPubKey pv) /\ SignMsg priv chainID msg = Ok sig /\
    v' = {| gv_genTxs := gv_genTxs v ++ [{| tx_Msg := msg; tx_Signature := sig; tx_Key := priv |}];
            gv_genAccounts := gv_genAccounts v ++ [BaseAccount oper [stake (TokensFromConsensusPower 150)]];
            gv_totalSupply := gv_totalSupply v + TokensFromConsensusPower 150;
            gv_valConsPubKeys := gv_valConsPubKeys v ++ [key];
            gv_valOperAddrs := gv_valOperAddrs v ++ [oper] |}.
Proof.
  unfold add_validator. intros H. minv H. minv H. destruct r0 as [key power].
  assert (Hkey : (0 < i \/ key = GetPubKey pv) /\ power = if 0 <? i then 1 else 100).
  { destruct (Z.ltb_spec 0 i) as [Hi|Hi]; [minv E0|]; injection E0 as <- <- _; auto. }
  destruct Hkey as [Hkey ->]. clear E0. minv H. apply NewCoin_stake in E0 as (_ & -> & ->).
  destruct (SignMsg r chainID _) as [sig|e] eqn:Es; [|done]. exists r, key, sig. split; [done|]. split; [done|].
  minv H. apply Int_Add_Ret in E0 as [-> ->]. minv H. minv H.
  destruct (NewCoins_stake _ _ _ _ _ _ (TokensFromConsensusPower_pos 150 ltac:(lia)) E0 E1) as [-> _].
  by injection H as <- _.
Qed.

Lemma added_turn chainID pv k v f v' f' :
  0 <= k -> validators_added pv k v -> add_validator chainID pv k v f = Ret (Ok v') f' ->
  validators_added pv (k + 1) v'.
Proof.
  intros Hk [V1 V2 V3 V4 V5 V6 V7 V8] (priv & key & sig & Hkey & _ & ->)%add_validator_Ret.
  split; cbn [gv_genTxs gv_genAccounts gv_totalSupply gv_valConsPubKeys gv_valOperAddrs];
    rewrite ?length_app, ?map_app; simpl.
  - lia.
  - lia.
  - intros _. destruct (gv_valConsPubKeys v) as [|key0 keys] eqn:E; [|apply V3; simpl in V2; lia].
    destruct Hkey as [Hk'| ->]; [simpl in V2; lia|done].
  - by rewrite V4.
  - rewrite V5. lia.
  - by rewrite V6.
  - by rewrite V7.
  - rewrite V8, seqZ_snoc, map_app by done. done.
Qed.

Lemma add_accounts_Ret addrs accounts total f accounts' total' f' :
  add_accounts addrs accounts total f = Ret (accounts', total') f' ->
  accounts' = accounts ++ map (fun a => BaseAccount a [stake (TokensFromConsensusPower 100)]) addrs /\
  total' = total + Z.of_nat (length addrs) * TokensFromConsensusPower 100.
Proof.
  revert accounts total f. induction addrs as [|a addrs IH]; intros accounts total f H.
  - injection H as -> -> _. rewrite app_nil_r. split; [done|simpl; lia].
  - simpl in H. minv H. apply NewCoin_stake in E as (_ & -> & ->). minv H. apply Int_Add_Ret in E as [-> ->].
    apply IH in H as [-> ->]. rewrite <- app_assoc. split; [done|]. simpl length. lia.
Qed.

Lemma edit_Ret {A} name dec (enc : A -> option bytes) g st f st' f' :
  edit name dec enc g st f = Ret st' f' ->
  exists d d' bz f1, dec (default [] (st !! name)) = Some d /\ g d f = Ret d' f1 /\ enc d' = Some bz /\
    st' = <[name := bz]> st /\ f' = f1.
Proof.
  unfold edit. intros H. minv H. unfold must_ in E. destruct (dec _) as [d|]; [|done]. injection E as -> ->.
  minv H. minv H. unfold must_ in E0. destruct (enc _) as [bz|] eqn:Eb; [|done]. injection E0 as -> ->.
  injection H as <- <-. eexists _, _, _, _. split; [done|]. split; [eassumption|]. split; [exact Eb|done].
Qed.

(** The names the set-up changes. *)
Definition set_up_names : list string := ["auth"; "staking"; "distribution"; "supply"; "mint"; "crisis"]%string.

Definition pool_coin : string * Dec := (DefaultBondDenom, NewDecFromInt commPoolAmt).

Record filled (accounts : list GenesisAccount) (total : Z) (md : MintGenesis Dec MintRest)
    (st st' : gmap string bytes) : Prop := {
  fi_auth : exists d, UnmarshalJSON_auth (default [] (st !! "auth"%string)) = Some d /\
    MarshalJSON_authState (d.1, accounts) = st' !! "auth"%string;
  fi_staking : exists d, UnmarshalJSON_staking (default [] (st !! "staking"%string)) = Some d /\
    MarshalJSON_staking d = st' !! "staking"%string;
  fi_distr : exists d, UnmarshalJSON_distr (default [] (st !! "distribution"%string)) = Some d /\
    MarshalJSON_distr {| distr_CommunityPool := [pool_coin]; distr_rest := distr_rest d |}
      = st' !! "distribution"%string;
  fi_supply : MarshalJSON_supply {| gen_Supply := [stake (total + commPoolAmt)] |} = st' !! "supply"%string;
  fi_mint : MarshalJSON_mint md = st' !! "mint"%string;
  fi_crisis : MarshalJSON_crisis {| crisis_ConstantFee := stake 1000 |} = st' !! "crisis"%string;
  fi_others name : name ∉ set_up_names -> st' !! name = st !! name }.

Lemma fill_state_Ret accounts total minting st f st' md f' :
  0 <= total -> fill_state accounts total minting st f = Ret (st', md) f' ->
  filled accounts total md st st' /\ exists f1 f2, mint_data minting f1 = Ret md f2.
Proof.
  intros Ht. unfold fill_state. intros H.
  minv H. apply edit_Ret in E as (da & d' & ba & f1 & Ha & [= <- <-] & Hba & -> & ->).
  minv H. apply edit_Ret in E as (ds & d' & bs & f2 & Hs & [= <- <-] & Hbs & -> & ->).
  minv H. apply edit_Ret in E as (dd & d' & bd & f3 & Hd & Hg & Hbd & -> & ->).
  minv Hg. apply NewCoin_stake in E as (_ & -> & ->). injection Hg as <- <-.
  minv H. apply edit_Ret in E as (du & d' & bu & f4 & _ & Hg & Hbu & -> & ->).
  minv Hg. apply Int_Add_Ret in E as [-> ->]. minv Hg. minv Hg.
  destruct (NewCoins_stake (total + commPoolAmt) _ _ _ _ _ ltac:(unfold commPoolAmt; lia) E E0) as [-> _].
  injection Hg as <- <-.
  minv H. minv H. unfold must_ in E2. destruct (MarshalJSON_mint _) as [bm|] eqn:Em; [|done]. injection E2 as <- <-.
  minv H. apply edit_Ret in E2 as (dc & d' & bc & f6 & _ & Hg & Hbc & -> & ->).
  minv Hg. apply NewCoin_stake in E2 as (_ & -> & ->). injection Hg as <- <-. injection H as <- <- _.
  split; [|by eexists _, _].
  rewrite !lookup_insert_ne in Hs by done. rewrite !lookup_insert_ne in Hd by done.
  split; [exists da|exists ds|exists dd|..]; try (split; [done|]);
    repeat (rewrite lookup_insert_ne by done); rewrite ?lookup_insert_eq; try done.
  intros name Hn. unfold set_up_names in Hn. by rewrite !lookup_insert_ne by set_solver.
Qed.

(** The inflation passes the check that follows it. *)
Lemma mint_data_Ret minting f md f' :
  mint_data minting f = Ret md f' ->
  (forall f, check_mint minting md f = Ret None f) /\ mint_rest md = mint_rest DefaultGenesis_mint /\
  mint_InflationMin md = mint_Inflation md /\
  if minting then MustNewDecFromStr "10000.0" = Ok (mint_Inflation md) /\ MustNewDecFromStr "15000.0" = Ok (mint_InflationMax md)
  else mint_Inflation md = ZeroDec /\ mint_InflationMax md = ZeroDec.
Proof.
  unfold mint_data, check_mint. intros H. minv H. injection H as <- _. destruct minting.
  - minv E. destruct (MustNewDecFromStr "10000.0") as [d|] eqn:E1; [|done]. injection E0 as <- <-.
    minv E. destruct (MustNewDecFromStr "15000.0") as [d'|] eqn:E2; [|done]. injection E0 as <- <-.
    injection E as <- _. simpl. split; [|done]. intros f2. unfold gbind, gret. by rewrite !bool_decide_eq_true_2.
  - injection E as <- _. simpl. split; [|done]. intros f2. by rewrite !bool_decide_eq_true_2.
Qed.

(** What the accounts of a genesis hold in the denomination that is bonded. *)
Definition held (accounts : list GenesisAccount) : Z :=
  foldr Z.add 0 (concat (map (fun acct =>
    match acct with
    | BaseAccount _ coins =>
        map coin_Amount (List.filter (fun c => bool_decide (coin_Denom c = DefaultBondDenom)) coins)
    | _ => []
    end) accounts)).

Lemma held_app l k : held (l ++ k) = held l + held k.
Proof.
  unfold held. rewrite map_app, concat_app. generalize (concat (map (fun acct =>
    match acct with
    | BaseAccount _ coins =>
        map coin_Amount (List.filter (fun c => bool_decide (coin_Denom c = DefaultBondDenom)) coins)
    | _ => []
    end) l)). intros ns. induction ns as [|n ns IH]; simpl; lia.
Qed.

Lemma held_same a addrs : held (map (fun addr => BaseAccount addr [stake a]) addrs) = Z.of_nat (length addrs) * a.
Proof.
  induction addrs as [|addr addrs IH]; [done|]. change (map _ (addr :: addrs)) with
    ([BaseAccount addr [stake a]] ++ map (fun addr => BaseAccount addr [stake a]) addrs).
  rewrite held_app, IH. unfold held. simpl. rewrite bool_decide_eq_true_2 by done. simpl. lia.
Qed.

Lemma loop_added chainID pv n v f f' :
  0 <= n ->
  for_fold (seqZ 0 n) (add_validator chainID pv)
    {| gv_genTxs := []; gv_genAccounts := []; gv_totalSupply := 0; gv_valConsPubKeys := []; gv_valOperAddrs := [] |} f
    = Ret (Ok v) f' ->
  validators_added pv n v.
Proof.
  intros Hn. apply (for_fold_seqZ (fun k st _ => validators_added pv k st)); [done|by split; try done; lia|].
  intros k v0 f0 v1 f1 Hk. apply added_turn. lia.
Qed.

(** The genesis the REST tests run on. There is at least one validator; validators
    and their keys are returned in order, the first with the key of the node; each
    has a genesis transaction with its stake and an account, and the given accounts
    follow. The supply is what the accounts hold and the community pool, the
    inflation is what was asked for, so that the check of it at the end never
    fails; everything that is not set keeps its default, and no validator is in the
    document itself. *)
Theorem defaultGenesis_success config n addrs minting f doc keys opers pv f' :
  defaultGenesis config n addrs minting f = Ret (Ok (doc, keys, opers, pv)) f' ->
  let accounts := map (fun a => BaseAccount a [stake (TokensFromConsensusPower 150)]) opers ++
                  map (fun a => BaseAccount a [stake (TokensFromConsensusPower 100)]) addrs in
  1 <= n /\ length opers = Z.to_nat n /\ length keys = Z.to_nat n /\ head keys = Some (GetPubKey pv) /\
  doc_Validators doc = [] /\
  exists txs st0 st md,
    map (fun tx => (cv_ValidatorAddress (tx_Msg tx), cv_PubKey (tx_Msg tx))) txs = zip opers (map Some keys) /\
    map (fun tx => cv_Value (tx_Msg tx)) txs =
      map (fun i => stake (TokensFromConsensusPower (if 0 <? i then 1 else 100))) (seqZ 0 n) /\
    SetGenTxsInAppGenesisState DefaultGenesis txs = Ok st0 /\
    filled accounts (held accounts) md st0 st /\
    (minting = false -> mint_Inflation md = ZeroDec /\ mint_InflationMax md = ZeroDec) /\
    mint_InflationMin md = mint_Inflation md /\
    MarshalJSONIndent_app st = Ok (doc_AppState doc).
Proof.
  unfold defaultGenesis. intros H. cbv zeta. minv H. minv H. destruct (Z.ltb_spec n 1) as [|Hn]; [done|].
  minv H. destruct r1 as [doc0|e]; [|done]. minv H. destruct r1; [done|].
  minv H. destruct r1 as [v|e]; [|done]. apply loop_added in E3 as [V1 V2 V3 V4 V5 V6 V7 V8]; [|lia].
  destruct (MarshalJSON_state DefaultGenesis); [|done].
  destruct (SetGenTxsInAppGenesisState DefaultGenesis _) as [st0|] eqn:Etx; [|done].
  minv H. destruct r1 as [accounts' total]. apply add_accounts_Ret in E3 as [-> ->].
  minv H. destruct r1 as [st md]. cbn [fst snd] in *.
  assert (Hacc : gv_genAccounts v ++ map (fun a => BaseAccount a [stake (TokensFromConsensusPower 100)]) addrs
                 = map (fun a => BaseAccount a [stake (TokensFromConsensusPower 150)]) (gv_valOperAddrs v) ++
                   map (fun a => BaseAccount a [stake (TokensFromConsensusPower 100)]) addrs) by by rewrite V4.
  assert (Hheld : gv_totalSupply v + Z.of_nat (length addrs) * TokensFromConsensusPower 100
                  = held (map (fun a => BaseAccount a [stake (TokensFromConsensusPower 150)]) (gv_valOperAddrs v) ++
                          map (fun a => BaseAccount a [stake (TokensFromConsensusPower 100)]) addrs))
    by (rewrite held_app, !held_same, V5, V1; done).
  pose proof (TokensFromConsensusPower_pos 150 ltac:(lia)) as H150.
  pose proof (TokensFromConsensusPower_pos 100 ltac:(lia)) as H100.
  rewrite Hacc, Hheld in E3. apply fill_state_Ret in E3 as (Hfill & f1 & f2 & Hmint);
    [|rewrite <- Hheld; nia].
  apply mint_data_Ret in Hmint as (Hcheck & _ & Hmin & Hmd).
  unfold gbind in H. rewrite Hcheck in H. destruct (MarshalJSONIndent_app st) as [app|] eqn:Eapp; [|done].
  injection H as <- <- <- <- _. split; [lia|]. split; [lia|]. split; [lia|]. split; [apply V3; lia|]. split; [done|].
  exists (gv_genTxs v), st0, st, md. split; [|split; [done|split; [done|split; [done|split; [|done]]]]].
  - rewrite <- V6, <- V7. clear. induction (gv_genTxs v) as [|tx txs IH]; [done|]. cbn [map zip_with]. by rewrite IH.
  - by intros ->.
Qed.

End GenesisProperties.

(** ** Witnesses *)

Section Concrete.

Lemma swapped_cons x b b' : swapped b b' -> swapped (x :: b) (x :: b').
Proof.
  intros (i & j & Hs). exists (S i), (S j). unfold AddrSeedSlice_Swap in *. simpl.
  destruct (b !! i), (b !! j); try discriminate Hs. by injection Hs as <-.
Qed.

(** Swaps reach every order of the elements. *)
Lemma Permutation_swaps b b' : b ≡ₚ b' -> rtc swapped b b'.
Proof.
  induction 1 as [|x b b' _ IH|x y b|b1 b2 b3 _ IH1 _ IH2].
  - reflexivity.
  - induction IH as [|b1 b2 b3 Hs _ IH]; [reflexivity|]. eapply rtc_l; [by apply swapped_cons|exact IH].
  - apply rtc_once. by exists 0%nat, 1%nat.
  - by etransitivity.
Qed.

Definition seed_le (x y : AddrSeed) : Prop := not_after (as_Address x) (as_Address y).

#[local] Instance seed_le_dec : RelDecision seed_le.
Proof. intros x y. unfold seed_le, not_after. apply _. Defined.

#[local] Instance seed_le_total : Total seed_le.
Proof.
  intros x y. unfold seed_le, not_after. destruct (bytes_ltb (as_Address y) (as_Address x)) eqn:E; [right|by left].
  destruct (bytes_ltb (as_Address x) (as_Address y)) eqn:E'; [|done].
  by rewrite (bytes_ltb_asym _ _ E) in E'.
Qed.

#[local] Instance demo_sort : GoSort := {| Sort := merge_sort seed_le |}.

#[local] Instance demo_sort_laws : GoSortLaws.
Proof.
  split; simpl.
  - intros b. apply Permutation_swaps. symmetry. apply merge_sort_Permutation.
  - intros b. pose proof (Sorted_merge_sort seed_le b) as Hs. revert Hs.
    generalize (merge_sort seed_le b). intros l Hs. induction Hs as [|x l Hs IH Hx]; intros i Hi; simpl in Hi; [lia|].
    destruct i as [|i].
    + destruct Hx as [|y l Hx]; simpl in Hi; [lia|]. by rewrite (Less_spec _ 1 0 y x), Hx.
    + apply (IH i). simpl. lia.
Qed.

(** Keys with addresses that count down. *)
#[local] Instance demo_keybase : Keybase := {|
  KB := list string;
  CreateMnemonic name made :=
    Ret (Some [byte_of_Z (200 - Z.of_nat (length made))], String.append "words of " name, None) (made ++ [name]) |}.

#[local] Instance demo_keybase_laws : KeybaseLaws.
Proof. by split. Qed.

Definition demo_names : list string := ["test2"; "test1"; "test0"]%string.

Lemma CreateAddrs_spec_witness :
  StronglySorted not_after [[xc6]; [xc7]; [xc8]] /\ demo_names ≡ₚ map mnemonic_name (seqZ 0 3).
Proof.
  assert (H : CreateAddrs 3 (@nil string : @KB demo_keybase)
    = Ret ([[xc6]; [xc7]; [xc8]], map (String.append "words of ") demo_names, demo_names, []) (rev demo_names))
    by (vm_compute; reflexivity).
  destruct (CreateAddrs_spec _ _ _ _ _ _ _ H) as (_ & Hs & Hn & _). exact (conj Hs Hn).
Defined.

(** Codecs that carry nothing, and decimals that are their texts. *)
#[local] Existing Instances demo_auth demo_testnet.

#[local] Instance demo_lcd : LcdEnv := {|
  PrivVal := string; SecpKey := Z; Dec := string; DistrRest := unit; MintRest := unit; StakingGenesis := unit;
  PrivValidatorKeyFile c := Filepath.Join [cfg_RootDir c; "key.json"%string];
  PrivValidatorStateFile c := Filepath.Join [cfg_RootDir c; "state.json"%string];
  LoadOrGenFilePV key _ := gret key; PrivVal_Reset _ := gret tt; GetPubKey pv := pv;
  secp256k1_GenPrivKey := gget (fun log => Z.of_nat (length log));
  secp256k1_Address k := [byte_of_Z k]; ed25519_GenPubKey := gret "ed25519"%string;
  SignMsg _ _ msg := Ok (cv_ValidatorAddress msg);
  MarshalJSON_state _ := Ok []; SetGenTxsInAppGenesisState st txs := Ok (<["genutil"%string := []]> st);
  NewCoins cs := Ok cs; ZeroDec := "0"%string; NewDecFromInt n := Strconv.FormatUint n; MustNewDecFromStr s := Ok s; Int_Add a b := Ok (a + b);
  UnmarshalJSON_staking _ := Some tt; MarshalJSON_staking _ := Some [];
  UnmarshalJSON_distr _ := Some {| distr_CommunityPool := []; distr_rest := tt |};
  MarshalJSON_distr d := Some (bytes_of_string (String.concat "," (map snd (distr_CommunityPool d))));
  UnmarshalJSON_supply _ := Some {| gen_Supply := [] |};
  MarshalJSON_supply s := Some (bytes_of_string (String.concat "," (map (fun c => Strconv.FormatUint (coin_Amount c)) (gen_Supply s))));
  DefaultGenesis_mint := {| mint_Inflation := "0.13"; mint_InflationMax := "0.2"; mint_InflationMin := "0.07"; mint_rest := tt |}%string;
  MarshalJSON_mint d := Some (bytes_of_string (mint_InflationMin d));
  UnmarshalJSON_crisis _ := Some {| crisis_ConstantFee := {| coin_Denom := "stake"; coin_Amount := 1 |} |};
  MarshalJSON_crisis _ := Some [] |}.

#[local] Instance demo_lcd_laws : LcdLaws.
Proof. split; [done| |by intros a b c [=]]. intros p Hp. simpl. lia. Qed.

Definition demo_genesis (n : Z) : M (list string) (result string (GenesisDoc unit * list string * list bytes * string)) :=
  defaultGenesis (node_config "root" "") n [[x41]; [x42]] true.

Lemma defaultGenesis_success_witness :
  exists (st : gmap string bytes) keys, length keys = 2%nat /\ head keys = Some "root/key.json"%string /\
    st !! "supply"%string = Some (bytes_of_string "500000010") /\
    st !! "distribution"%string = Some (bytes_of_string "10").
Proof.
  edestruct (@defaultGenesis_success demo_lcd demo_lcd_laws (node_config "root" "") 2 [[x41]; [x42]] true (@nil string) _ _ _ _
    (final (demo_genesis 2) []) ltac:(by_run)) as (_ & _ & Hk & Hh & _ & txs & st0 & st & md & _ & _ & _ & Hf & _).
  exists st. eexists. split; [exact Hk|]. split; [exact Hh|]. destruct Hf as [_ _ (d & _ & Hd) Hs _ _ _].
  split; [rewrite <- Hs|rewrite <- Hd]; vm_compute; reflexivity.
Defined.

End Concrete.
