(* ===== verification/LcdStart.v ===== *)
(** * Starting the network of the REST tests (lcd_test/helpers.go)

    [InitializeLCD] over the genesis of [Lcd.v]: the configuration with its ports, the
    node and the REST server in one process, and the function that stops them. *)

From Stdlib Require Import Ascii.
From S2P Require Import Prelude GoStd SdkTypes Sdk Ref Daemon App Testnet Lcd.

(** ** What is called *)

(** The part of Tendermint's configuration that is set: that of [tm_config], with the
    address of the RPC, and more. *)
Record lcd_config := {
  lc_tm : tm_config;
  P2P_ListenAddress : string; RPC_GRPCListenAddress : string;
  TimeoutCommit : Z; SkipTimeoutCommit : bool; IndexAllTags : bool }.

Definition RPC_ListenAddress (c : lcd_config) : string := cfg_ListenAddress (lc_tm c).

(** What viper is told. *)
Inductive setting := SetString (s : string) | SetBool (b : bool).

(** The process the tests run in: the disk, the sockets, what is running. The
    application is the one that [NewWasmApp] makes on an empty database, loaded and
    without pruning; [running] and [listening] say what goes on besides the caller. *)
Class LcdHost `{LcdEnv} := {
  WasmApp : Type; Codec : Type; NodeKey : Type; Node : Type; RestServer : Type; Listener : Type;
  running : Files -> Node -> Prop;
  listening : Files -> Listener -> Prop;
  Getwd : M Files (result string string);
  TempDir : string -> string -> M Files (result string string);
  ResetTestRoot : string -> M Files lcd_config;
  FreeTCPAddr : M Files (result string (string * string));
  viper_Set : string -> setting -> M Files unit;
  FlagNode : string; FlagChainID : string; FlagTrustNode : string; HomeFlag : string;
  NewWasmApp : M Files WasmApp;
  MakeCodec : M Files Codec;
  NodeKeyFile : lcd_config -> string;
  LoadOrGenNodeKey : string -> M Files (result string NodeKey);
  NewNode : lcd_config -> PrivVal -> NodeKey -> WasmApp -> GenesisDoc GenesisValidator ->
    M Files (result string Node);
  Node_Start : Node -> M Files (option string);
  Node_Stop : Node -> M Files (option string);
  Node_Wait : Node -> M Files unit;
  WaitForRPC : string -> M Files unit;
  WaitForNextHeightTM : string -> M Files unit;
  WaitForLCDStart : string -> M Files unit;
  WaitForHeight : Z -> string -> M Files unit;
  ExtractPortFromAddress : string -> string;
  NewRestServer : Codec -> RestServer;
  client_RegisterRoutes : RestServer -> RestServer;
  RegisterTxRoutes : RestServer -> RestServer;
  basics_RegisterRESTRoutes : RestServer -> RestServer;
  Listen : string -> M Files (result string Listener);
  StartHTTPServer : Listener -> RestServer -> M Files unit;
  Listener_Close : Listener -> M Files (option string) }.

Section Start.
Context `{LcdHost}.

(** ** The configuration *)

(** [strings.Replace(s, sep, "_", -1)] for a separator of one byte. *)
Fixpoint replace_sep (s : string) : string :=
  match s with
  | EmptyString => EmptyString
  | String c s => String (if Ascii.eqb c "/"%char then "_"%char else c) (replace_sep s)
  end.

Definition makePathname : M Files (result string string) :=
  try! p := Getwd in gret (Ok (replace_sep p)).

Definition GetConfig : M Files (result string lcd_config) :=
  try! pathname := makePathname in
  let! config := ResetTestRoot pathname in
  try! tm := FreeTCPAddr in
  try! rpc := FreeTCPAddr in
  try! grpc := FreeTCPAddr in
  gret (Ok {| lc_tm := set_listen rpc.1 (lc_tm config); P2P_ListenAddress := tm.1;
              RPC_GRPCListenAddress := grpc.1; TimeoutCommit := TimeoutCommit config;
              SkipTimeoutCommit := SkipTimeoutCommit config; IndexAllTags := IndexAllTags config |}).

Definition InitClientHome (dir : string) : M Files string :=
  let! dir :=
    if bool_decide (dir = EmptyString) then
      let! r := TempDir "" "lcd_test" in
      match r with Ok dir => gret dir | Err err => gpanic PanicErr end
    else gret dir in
  do! viper_Set HomeFlag (SetString dir) in
  gret dir.

(** ** The node and the server *)

Definition startTM (tmcfg : lcd_config) (genDoc : GenesisDoc GenesisValidator) (privVal : PrivVal)
    (app : WasmApp) : M Files (result string Node) :=
  try! nodeKey := LoadOrGenNodeKey (NodeKeyFile tmcfg) in
  try! node := NewNode tmcfg privVal nodeKey app genDoc in
  check! Node_Start node in
  do! WaitForRPC (RPC_ListenAddress tmcfg) in
  gret (Ok node).

Definition registerRoutes (rs : RestServer) : RestServer :=
  basics_RegisterRESTRoutes (RegisterTxRoutes (client_RegisterRoutes rs)).

Definition startLCD (listenAddr : string) (cdc : Codec) : M Files (result string Listener) :=
  let rs := registerRoutes (NewRestServer cdc) in
  try! listener := Listen listenAddr in
  do! StartHTTPServer listener rs in
  gret (Ok listener).

(** What [InitializeLCD] returns to stop what it started; errors are logged. *)
Definition cleanup (node : Node) (lcdInstance : Listener) : M Files unit :=
  let! err := Node_Stop node in
  do! Node_Wait node in
  let! err := Listener_Close lcdInstance in
  gret tt.

(** With an error there is no [cleanup]. *)
Definition InitializeLCD (nValidators : Z) (initAddrs : list bytes) (minting : bool) (portExt : list string)
    : M Files (result string (M Files unit * list PubKey * list bytes * string)) :=
  try! config := GetConfig in
  let config := {| lc_tm := lc_tm config; P2P_ListenAddress := P2P_ListenAddress config;
                   RPC_GRPCListenAddress := RPC_GRPCListenAddress config;
                   TimeoutCommit := 100; SkipTimeoutCommit := false; IndexAllTags := true |} in
  let! gapp := NewWasmApp in
  let! cdc := MakeCodec in
  try! genesis := defaultGenesis (lc_tm config) nValidators initAddrs minting in
  let '(genDoc, valConsPubKeys, valOperAddrs, privVal) := genesis in
  try! addr :=
    match portExt with
    | [] => FreeTCPAddr
    | ext :: _ => gret (Ok (String.append "tcp://0.0.0.0:" ext, ext))
    end in
  let (listenAddr, port) := addr : string * string in
  do! viper_Set FlagNode (SetString (RPC_ListenAddress config)) in
  do! viper_Set FlagChainID (SetString (doc_ChainID genDoc)) in
  do! viper_Set FlagTrustNode (SetBool true) in
  try! node := startTM config genDoc privVal gapp in
  do! WaitForNextHeightTM (ExtractPortFromAddress (RPC_ListenAddress config)) in
  try! lcdInstance := startLCD listenAddr cdc in
  do! WaitForLCDStart port in
  do! WaitForHeight 1 port in
  gret (Ok (cleanup node lcdInstance, valConsPubKeys, valOperAddrs, port)).

End Start.

(** A node that was started runs until it is stopped and waited for, a server
    listens until it is closed; nothing else that is called here ends them. *)
Class LcdHostLaws `{LcdHost} : Prop := {
  Node_Start_runs n f f' : Node_Start n f = Ret None f' -> running f' n;
  Node_stopped n f r f1 f2 : Node_Stop n f = Ret r f1 -> Node_Wait n f1 = Ret tt f2 -> ~ running f2 n;
  Listen_listens a l f f' : Listen a f = Ret (Ok l) f' -> listening f' l;
  Close_closes l f r f' : Listener_Close l f = Ret r f' ->
    ~ listening f' l /\ forall n, running f' n -> running f n;
  WaitForRPC_keeps a f f' n : WaitForRPC a f = Ret tt f' -> running f n -> running f' n;
  WaitForNextHeightTM_keeps a f f' n : WaitForNextHeightTM a f = Ret tt f' -> running f n -> running f' n;
  WaitForLCDStart_keeps p f f' n l : WaitForLCDStart p f = Ret tt f' ->
    (running f n -> running f' n) /\ (listening f l -> listening f' l);
  WaitForHeight_keeps h p f f' n l : WaitForHeight h p f = Ret tt f' ->
    (running f n -> running f' n) /\ (listening f l -> listening f' l);
  Listen_keeps a f r f' n : Listen a f = Ret r f' -> running f n -> running f' n;
  StartHTTPServer_keeps l rs f f' n l' : StartHTTPServer l rs f = Ret tt f' ->
    (running f n -> running f' n) /\ (listening f l' -> listening f' l') }.

(** ** Properties *)

Section StartProperties.
Context {le : LcdEnv} {lh : LcdHost} {ll : LcdHostLaws}.

Lemma startTM_Ok cfg doc pv app f node f' :
  startTM cfg doc pv app f = Ret (Ok node) f' -> running f' node.
Proof.
  unfold startTM. intros H. minv H. destruct r as [key|]; [|done]. minv H. destruct r as [nd|]; [|done].
  minv H. destruct r; [done|]. minv H. injection H as <- <-. destruct r.
  by eapply WaitForRPC_keeps, Node_Start_runs.
Qed.

Lemma startLCD_Ok a cdc f l f' node :
  startLCD a cdc f = Ret (Ok l) f' -> listening f' l /\ (running f node -> running f' node).
Proof.
  unfold startLCD. intros H. minv H. destruct r as [l'|]; [|done]. minv H. injection H as <- <-. destruct r.
  destruct (StartHTTPServer_keeps _ _ _ _ node l' E0) as [K1 K2].
  split; [by eapply K2, Listen_listens|]. intros Hr. by eapply K1, Listen_keeps.
Qed.

Lemma startLCD_Err a cdc f err f' node :
  startLCD a cdc f = Ret (Err err) f' -> running f node -> running f' node.
Proof.
  unfold startLCD. intros H. minv H. destruct r as [l|e]; [minv H; done|].
  injection H as -> ->. by eapply Listen_keeps.
Qed.

Lemma cleanup_stops node l f f' :
  cleanup node l f = Ret tt f' -> ~ running f' node /\ ~ listening f' l.
Proof.
  unfold cleanup. intros H. minv H. minv H. minv H. injection H as <-. destruct r0.
  destruct (Close_closes _ _ _ _ E1) as [Hl Hk]. split; [|done].
  intros Hr. eapply Node_stopped; [exact E|exact E0|by apply Hk].
Qed.

(** What a successful start leaves: a node that runs on the genesis made for its own
    configuration, committing every 100 milliseconds at the earliest, with the
    returned keys; a server that listens at the port that was asked for, if one
    was; and the returned function, which ends both. *)
Theorem InitializeLCD_success n addrs minting ext f stop keys opers port f' :
  InitializeLCD n addrs minting ext f = Ret (Ok (stop, keys, opers, port)) f' ->
  (forall p, head ext = Some p -> port = p) /\
  exists config genDoc pv app node lcd f1 f2 f3 f4,
    TimeoutCommit config = 100 /\ SkipTimeoutCommit config = false /\ IndexAllTags config = true /\
    defaultGenesis (lc_tm config) n addrs minting f1 = Ret (Ok (genDoc, keys, opers, pv)) f2 /\
    startTM config genDoc pv app f3 = Ret (Ok node) f4 /\
    running f' node /\ listening f' lcd /\
    forall f'', stop f' = Ret tt f'' -> ~ running f'' node /\ ~ listening f'' lcd.
Proof.
  unfold InitializeLCD. intros H. minv H. destruct r as [config|]; [|done]. minv H. minv H. minv H.
  destruct r1 as [[[[genDoc keys'] opers'] pv]|]; [|done]. minv H. destruct r1 as [[la port']|]; [|done].
  minv H. minv H. minv H. minv H. destruct r4 as [node|]; [|done]. minv H. minv H.
  destruct r5 as [lcd|]; [|done]. minv H. minv H. injection H as <- <- <- <- <-. split.
  - intros p Hp. destruct ext as [|p' ext]; [done|]. injection Hp as ->. by injection E3 as _ <- _.
  - apply startTM_Ok in E7 as Hrun. destruct r4, r5, r6.
    destruct (startLCD_Ok _ _ _ _ _ node E9) as [Hlis Hkeep].
    destruct (WaitForLCDStart_keeps _ _ _ node lcd E10) as [A1 A2].
    destruct (WaitForHeight_keeps _ _ _ _ node lcd E11) as [B1 B2].
    eexists _, genDoc, pv, _, node, lcd, _, _, _, _. split; [|split; [|split; [|split; [exact E2|split; [exact E7|]]]]];
      [done..|]. split; [|split; [auto|intros f''; apply cleanup_stops]].
    by eapply B1, A1, Hkeep, WaitForNextHeightTM_keeps.
Qed.

(** What a start that fails leaves. Where the server cannot listen, the node goes
    on running, and there is no function to stop it; the other errors come before
    a node runs. *)
Theorem InitializeLCD_error n addrs minting ext f err f' :
  InitializeLCD n addrs minting ext f = Ret (Err err) f' ->
  (exists node la cdc f1, running f1 node /\ startLCD la cdc f1 = Ret (Err err) f' /\ running f' node) \/
  GetConfig f = Ret (Err err) f' \/ (exists f1, FreeTCPAddr f1 = Ret (Err err) f') \/
  (exists config f1, defaultGenesis config n addrs minting f1 = Ret (Err err) f') \/
  (exists config genDoc pv app f1, startTM config genDoc pv app f1 = Ret (Err err) f').
Proof.
  unfold InitializeLCD. intros H. minv H. destruct r as [config|e]; [|injection H as -> ->; auto].
  minv H. minv H. minv H.
  destruct r1 as [[[[genDoc keys'] opers'] pv]|e]; [|injection H as -> ->; right; right; right; left; eauto].
  minv H. destruct r1 as [[la port']|e].
  2: { injection H as -> ->. destruct ext; [|done]. right. right. left. eauto. }
  minv H. minv H. minv H. minv H. destruct r4 as [node|e].
  2: { injection H as -> ->. do 4 right. eauto 8. }
  minv H. minv H. destruct r5 as [lcd|e]; [minv H; by minv H|]. injection H as -> ->. left. destruct r4.
  exists node, la, r0. eexists. apply startTM_Ok in E7.
  assert (Hr : running _ node) by by eapply WaitForNextHeightTM_keeps. split; [exact Hr|]. split; [exact E9|].
  by eapply startLCD_Err.
Qed.

End StartProperties.

(** ** Witnesses *)

(** A host whose state is the list of what goes on, and where nothing can listen on
    the port [busy]. *)
#[local] Existing Instances demo_auth demo_testnet demo_lcd.

Definition begin_ (what : string) : M (list string) unit := gmodify (fun f => f ++ [what]).
Definition end_ (what : string) : M (list string) unit :=
  gmodify (List.filter (fun x => negb (String.eqb x what))).

#[local] Instance demo_host : LcdHost := {|
  WasmApp := unit; Codec := unit; NodeKey := unit; Node := unit; RestServer := unit; Listener := unit;
  running f _ := In "node"%string f; listening f _ := In "server"%string f;
  Getwd := gret (Ok "/home/test"%string); TempDir dir pattern := gret (Ok (String.append "/tmp/" pattern));
  ResetTestRoot p := gret {| lc_tm := {| cfg_RootDir := p; cfg_ListenAddress := ""; cfg_Moniker := "test" |};
    P2P_ListenAddress := ""; RPC_GRPCListenAddress := ""; TimeoutCommit := 1000; SkipTimeoutCommit := true;
    IndexAllTags := false |};
  FreeTCPAddr := gret (Ok ("tcp://0.0.0.0:4000", "4000"))%string;
  viper_Set _ _ := gret tt; FlagNode := "node"; FlagChainID := "chain-id"; FlagTrustNode := "trust-node";
  HomeFlag := "home"; NewWasmApp := gret tt; MakeCodec := gret tt;
  NodeKeyFile _ := "node_key.json"; LoadOrGenNodeKey _ := gret (Ok tt); NewNode _ _ _ _ _ := gret (Ok tt);
  Node_Start _ := do! begin_ "node" in gret None; Node_Stop _ := gret None; Node_Wait _ := end_ "node";
  WaitForRPC _ := gret tt; WaitForNextHeightTM _ := gret tt; WaitForLCDStart _ := gret tt;
  WaitForHeight _ _ := gret tt; ExtractPortFromAddress a := a;
  NewRestServer _ := tt; client_RegisterRoutes rs := rs; RegisterTxRoutes rs := rs;
  basics_RegisterRESTRoutes rs := rs;
  Listen a := if String.eqb a "tcp://0.0.0.0:busy" then gret (Err "address in use"%string)
              else do! begin_ "server" in gret (Ok tt);
  StartHTTPServer _ _ := gret tt; Listener_Close _ := do! end_ "server" in gret None |}.

#[local] Instance demo_host_laws : LcdHostLaws.
Proof.
  split; simpl.
  - intros n f f' [= <-]. apply in_or_app. right. by left.
  - intros n f r f1 f2 [= <- <-] [= <-] [_ Hn]%filter_In. discriminate Hn.
  - intros a l f f'. destruct (String.eqb a _); [done|]. intros [= <- <-]. apply in_or_app. right. by left.
  - intros l f r f' [= <- <-]. split; [intros [_ Hn]%filter_In; discriminate Hn|]. by intros _ [? _]%filter_In.
  - by intros a f f' n [= <-].
  - by intros a f f' n [= <-].
  - by intros p f f' n l [= <-].
  - by intros h p f f' n l [= <-].
  - intros a f r f' n. destruct (String.eqb a _); [by intros [= <- <-]|]. intros [= <- <-] Hn.
    apply in_or_app. by left.
  - by intros l rs f f' n l' [= <-].
Qed.

Definition demo_start (port : string) : M (list string) (result string _) := InitializeLCD 1 [[x41]] true [port].

Lemma InitializeLCD_success_witness :
  exists stop keys opers, returned (demo_start "1317" []) = Some (Ok (stop, keys, opers, "1317"%string)) /\
    In "node"%string (final (demo_start "1317") []) /\
    In "server"%string (final (demo_start "1317") []).
Proof.
  edestruct (@InitializeLCD_success demo_lcd demo_host demo_host_laws 1 [[x41]] true ["1317"%string] [] _ _ _ _
    (final (demo_start "1317") []) ltac:(by_run)) as (_ & config & Hs).
  destruct Hs as (genDoc & pv & app & node & lcd & f1 & f2 & f3 & f4 & _ & _ & _ & _ & _ & Hr & Hl & _).
  do 3 eexists. split; [vm_compute; reflexivity|]. exact (conj Hr Hl).
Defined.

Lemma InitializeLCD_error_witness :
  returned (demo_start "busy" []) = Some (Err "address in use"%string) /\
  In "node"%string (final (demo_start "busy") []).
Proof.
  split; [vm_compute; reflexivity|].
  destruct (@InitializeLCD_error demo_lcd demo_host demo_host_laws 1 [[x41]] true ["busy"%string] [] _
    (final (demo_start "busy") []) ltac:(by_run)) as [(nd & la & c & f1 & _ & _ & Hr)|_]; [exact Hr|].
  vm_compute. tauto.
Defined.
